(* ===== verification/_CoqProject ===== *)
-Q . S2P
Prelude.v
Sanitize.v
Net.v
Security.v
Hsts.v
Input.v
Redirects.v
Cookies.v
Errors.v
Retry.v
Scan.v
Float.v
RateLimit.v
Timing.v
Status.v
Config.v
Patterns.v
Literals.v
Detection.v
ExportRow.v
Json.v
Models.v
ExportFields.v
ExportParquet.v
ExportAgree.v
Sql.v
Upsert.v
Dns.v
StorageRow.v
Satellites.v
StorageRecord.v
Runs.v
StrIndex.v
Domain.v
Failure.v
Response.v
Jwt.v
Gitleaks.v
Secrets.v
Cdn.v
Scripts.v
WellKnown.v
Favicon.v
Whois.v
Ruleset.v
RulesetInit.v
GeoIp.v
UserAgent.v
Html.v
Record.v
Handler.v
