(* ===== verification/Prelude.v ===== *)
(** * domain-status: a verified model of the concurrent URL scanner

    domain-status reads a list of URLs, fetches each under a concurrency limit, follows
    its redirects by hand, fingerprints the page, and stores one row per URL in SQLite:
    a [url_status] row on success, a [url_failures] row otherwise.  This library is a
    shallow embedding of its core (the crate [src/src/] and the arguments crate
    [src/cli/]) with the theorems that make it correct.  File names below are relative to
    [src/src/].

    ** How the parts fit together

    - A line of the input is classified by [run/mod.rs] with [app/url.rs] and the SSRF
      guard [security/url_validation.rs]; an accepted URL waits for a permit and becomes a
      task of [run/task.rs], which first passes the two rate limiters of [initialization/].
    - The task fetches through [fetch/redirects.rs], whose every hop is checked by the
      same guard, with a resolver ([security/safe_resolver.rs]) that drops private
      addresses; [utils/process.rs] retries the fetch with the classification of
      [error_handling/].
    - The response is read with a cap, decoded ([fetch/response/extract.rs]) and walked
      ([fetch/response/html.rs], [parse/]): meta tags, scripts, contacts, and the secrets
      that the rules of [parse/gitleaks.rs] find in it, in its headers and in the scripts
      of the first party ([fetch/external_scripts.rs]).  [fingerprint/detection/] matches
      the page against a ruleset of patterns compiled by [fingerprint/patterns/] and indexed
      by their literals.
    - Beside it [fetch/dns/] looks up the records of the host, [fetch/favicon.rs] and
      [fetch/well_known.rs] fetch the icon, robots.txt and security.txt, and [whois/] asks
      the registry through a file cache; each failure is counted and kept.
    - [fetch/record/] builds the record of the page from all that.
    - Errors are named by [storage/failure/error.rs], bounded by [utils/sanitize.rs] and
      written under the retry loop of [storage/insert/retry.rs].
    - [storage/insert/] writes a result in two transactions: the [url_status] row with its
      satellite tables, then the enrichment and the partial failures; a failure in one.
    - [export/] reads the rows back with filters and writes CSV, JSON lines or Parquet from
      one registry of fields.
    - [run/finalize.rs] turns the counters into the row of the run and the report, from
      which [cli.rs] computes the exit code.  While the scan runs [status_server/] reads the
      counters and the timings for its two endpoints.
    - Before the first line is read [run/init.rs] loads what a scan needs: the ruleset
      ([fingerprint/ruleset/]), the GeoIP databases ([geoip/]) and the User-Agent
      ([user_agent.rs]), each from the network or from its cache directory.

    ** The files

    - [Prelude]: results and panics, machine integers, strings as sequences of Unicode
      scalar values with the [str] operations the sources use, and hash maps.  The
      iteration order of a [HashMap] is the class [HashIter]: an unspecified permutation
      of the entries ([HashIterLaws]); a theorem that does not fix it holds for every
      order.
    - [Sanitize]: [utils/sanitize.rs].  The routines slice byte offsets, so they are
      modelled on the UTF-8 bytes of a string.
    - [Net]: the address types of [std::net]; the interfaces [UrlLib] (crate [url]) and
      [Lowercase] ([str::to_lowercase]) with their documented laws, and instances.
    - [Security]: [security/url_validation.rs] and [security/safe_resolver.rs].
    - [Hsts]: [security/hsts.rs], segment handlers and tolerant number scanner.
    - [Input]: [app/url.rs], the counting pass of [run/init.rs], and the treatment of one
      line in the loop of [run/mod.rs].
    - [Redirects]: [fetch/redirects.rs].  The HTTP client is a parameter: a function from
      a client state and a URL to a new state and a response or an error, so that the
      requests made are visible in the result.
    - [Cookies]: [fetch/cookies.rs].
    - [Errors]: [error_handling/] and [storage/failure/error.rs].  An [anyhow::Error] is a
      stack of contexts on a root error with its sources; of a library's error only what
      the program reads (status, kind predicates, messages) is in the model.
    - [Retry]: [utils/process.rs], [utils/retry.rs], [storage/insert/retry.rs], and the
      counters of [runtime_metrics.rs] they touch.
    - [Scan]: [run/mod.rs], [run/task.rs], [run/finalize.rs] and the shared state of
      [run/resources.rs].
    - [Config]: [config/types.rs], [config/merge.rs], the argument structures of
      [src/cli/src/lib.rs], and the conversion, merge and exit-code functions of [cli.rs].
    - [Patterns]: [fingerprint/patterns/{mod,version,compiled}.rs] over the interface
      [RegexLib] of the [regex] crate.
    - [Literals]: the ruleset structures of [fingerprint/models.rs] and the literal index
      of [fingerprint/patterns/literals.rs] over the interface [AhoCorasick].
    - [Detection]: [fingerprint/detection/], every signal matcher and the passes after
      them.
    - [Float]: binary64 with the standard library's [SpecFloat], and lower bounds of its
      rounded operations.  [RateLimit]: [initialization/rate_limiter.rs] and
      [initialization/host_rate_limiter.rs]; the ticker and the tasks of the global limiter
      are a transition system ([RateLimit.step]), times are nanoseconds.
    - [Sql]: statements as text and bound values, the transaction monad over the interface
      [Sqlx], the batch and key/value inserts of [storage/insert/utils.rs].  [Dns]: [dns/],
      [fetch/dns/] and the data types of [models.rs].  [StorageRow]: [storage/models.rs] and
      the column table of [storage/insert/url/columns.rs] with the INSERT and UPDATE built
      from it, the filters of [export/queries.rs] and the row its query is read into.
      [Satellites]: the child tables of [storage/insert/url/satellite/] and the transaction
      of [storage/insert/url/upsert.rs].  [StorageRecord]: [storage/insert/failure.rs],
      [storage/insert/enrichment/] and [storage/insert/record.rs].
      [Upsert]: what an INSERT with a conflict clause leaves of a table.
      [Runs]: [storage/insert/run.rs] and [summary/mod.rs], the queries as the functions their
      SQL denotes on lists of rows.
    - [ExportRow]: [export/row.rs], the assembly of a row from the queries of its tables.
      [Json]: [serde_json::Value], printing and parsing as the interface [Serde].
      [ExportFields]: the field registry of [export/fields.rs] with [export/csv.rs] and
      [export/jsonl.rs].  [ExportParquet]: [export/parquet.rs] with the builders of the
      [arrow] crate.  [ExportAgree]: what the formats have in common, and the examples.

    - [StrIndex]: byte offsets in strings, with [None] for a slice that panics.  [Html]:
      [fetch/response/html.rs] and [parse/{html,structured,contact,social,analytics}.rs].
      [Gitleaks], [Secrets], [Jwt]: the files of those names in [parse/].
    - [Domain]: [domain/mod.rs].  [Response]: [fetch/response/extract.rs], [fetch/stream.rs],
      [fetch/charset.rs].  [Cdn], [Scripts], [WellKnown], [Favicon]: the files of [fetch/].
      [Whois]: [whois/].  [Record]: [fetch/record/].  [Failure]: [storage/failure/].
    - [Models]: the [serde] code of the technologies and categories and the two documents
      that are compiled in.  [Ruleset]: [fingerprint/ruleset/] and [cache_paths.rs], one start.
      [RulesetInit]: the concurrent callers of [init_ruleset], a transition system.
      [GeoIp]: [geoip/].  [UserAgent]: [user_agent.rs].
    - [Timing]: [utils/timing.rs], a record being a sequence of atomic additions.  [Status]:
      [status_server/] and [app/logging.rs], with a reader of the text of [/metrics].
    - [Handler]: [fetch/handler/], [utils/process.rs] and the failure paths of [run/task.rs]
      and [run/mod.rs]: one URL from its line to its rows, composed from all of the above.

    Definitions have the names of the functions, fields and constants they translate.

    ** The state of a scan

    [Scan.Scan] holds what the tasks share: the four atomic counters, the semaphore (a
    number of free permits), the in-flight registry (a set of URL strings), the
    cancellation token, the error statistics, the fact tables, the join set (a list of
    tasks, each at a program point [TaskPc]) and the point of the main loop ([MainPc]).
    [Scan.step] takes one event, which is one step of one thread between two points where
    another thread can observe the difference.  What the outside decides (the next line,
    the outcome of a fetch, whether a write succeeds, a panic, a timeout, which task runs)
    is in the event, so a reachable state is one some interleaving gives; the events allow
    more runs than Tokio's scheduler (an admission by the rate limiters may come at any
    time, a timeout at any await point of the fetch), which only strengthens what is shown
    of all of them.  [increments] is a history variable that no step reads.  The counters
    are [nat]: the source's are 64-bit and grow by at most two per input line.

    ** What is shown

    Scan: a drain that ends by itself has accounted for every URL ([scan_ledger]); the
    concurrency limit and the SSRF check hold of every task ([scan_concurrency]); an
    undisturbed scan reports exactly what it did ([quiet_scan_report]); the drain deadline
    counts distinct URLs, hence too few when one URL is in flight twice
    ([deadline_accounting]) and one twice that ends during the count
    ([deadline_counts_twice]); the main loop terminates after an interrupt, in every
    interleaving ([interrupt_terminates]).

    Configuration: where every setting comes from ([config_layers]), which configurations
    are valid and what that bounds ([validate_limits]), that no configuration of the
    command line switches the SSRF check off ([cli_scan_safe]), and two deviations
    ([merge_loses_settings], [pct_threshold_rounding]).

    Rate limits: under every interleaving of the ticker and the tasks the global bucket
    neither loses nor invents a token ([tokens_conserved]) and a waiting task gets one after
    a bounded number of ticks, rounding included ([waiting_task_admitted]), unless the
    ticker was stopped ([stopped_limiter_stalls]); the buckets of the hosts do not influence
    each other ([hosts_are_isolated]) and one sleep is enough on a host without competition
    ([host_acquire_served_after_sleep]).

    Storage: what is committed for a URL, whatever statement fails and however often the
    transaction is retried ([url_record_stored], [failure_record_atomic],
    [persisted_record_accounted]); statements have one value per placeholder and touch
    cleaned tables only ([core_statements_well_formed], [enrichment_statements_ok],
    [export_query_spec]); a stored row is read back by the export ([stored_row_exported]);
    DNS answers survive the JSON text they are kept in, and the tables hold each once
    ([dns_answers_stored]).  DNS: failures are counted once ([dns_failures_accounted]), TXT records are bounded
    ([txt_records_bounded]).

    Export: a row is well-formed ([build_export_row_wf]); the three formats show the same
    values ([flat_formats_agree]), CSV rows have one cell per column ([csv_file_shape]),
    Parquet batches have the type of the schema and hold every row once
    ([write_batch_typed], [export_parquet_complete]); lists joined by commas come back only
    without commas in them ([certificate_sans_exported]).

    Network safety: the private-address predicate is a table of CIDR blocks
    ([is_private_ip_cidr]); the URL guard against a declarative reading
    ([validate_url_safe_iff], [localhost_subdomains_refused]); the resolver
    ([resolve_spec]); redirects: which URLs are requested, how many, and the shape of the
    chain ([redirect_requests_permitted], [redirect_request_budget],
    [redirect_chain_shape]); input lines ([normalize_url_normal], [normalize_url_panics]).

    Fingerprinting: [implies] computes bounded reachability ([expand_implies_exact]);
    [requires] keeps the greatest self-supporting set ([apply_requires_greatest]); the
    final list is consistent ([finalized_consistent]); the literal index reports only what
    the patterns match ([literal_index_sound]), word boundaries apart
    ([word_boundary_taken_for_literal]), but may miss overlapping literals
    ([overlapping_needles_lost]); compiled and cached patterns agree
    ([matches_pattern_compiled]); merging, DNS evidence, pattern syntax and versions
    ([merge_all_lookup], [only_serving_stack_records], [parse_pattern_roundtrip],
    [extracted_version_clean]).

    Errors and retries: the loops refine one abstract bounded retry
    ([process_url_refines], [with_sqlite_retry_refines]); the table of HTTP statuses
    ([status_retry_table]); which type a failure is recorded under
    ([timeout_recorded_as_http_timeout], [terminal_message_types_hidden]); stored messages
    ([stored_error_message_wf], [truncate_utf8_longest_prefix]).

    One URL: every URL leaves one trace in the database, its record or its failure row, unless
    the write of the latter fails ([url_recorded_once], [attempt_atomic]); a server error is not retried, against the intent of the code
    ([server_error_not_retried]); failure rows are bounded ([failure_row_bounded]) and
    abandoned URLs counted ([drain_failures_counted]).  What is read of a response
    ([response_data_spec], [stream_chunking_irrelevant]); what the record derives from it
    ([certificate_mismatch_exact], [derived_columns_exact], [cdn_provider_of_response]).

    Pages: which page makes its parse panic ([page_panics_iff], [refresh_page_panics]) and
    that an ASCII refresh tag does not ([ascii_refresh_target]); contacts, scripts, meta tags
    and analytics ids are complete and without repetition ([contact_links_exact],
    [script_sources_complete], [meta_tags_lookup], [analytics_ids_exact]); addresses are what
    was percent-encoded ([percent_roundtrip]).

    Secrets: a scan reports exactly the matches that pass its guards, bounded and once
    ([scan_findings]); the keyword prefilter changes nothing ([prefilter_equivalence]); the
    line and the context of a match ([line_containing_spec], [extract_context_spec]); the one
    slice that can panic ([json_ld_panics_iff], [scan_panics_only_in_open_tags],
    [ascii_scan_returns]); tokens ([decoded_jwt_sound], [padding_retry_is_dead]).

    Requests beside the page: scripts are first party and checked
    ([script_requests_safe]); of an icon all but the first URL is ([favicon_requests]), its
    hash is the one Shodan computes ([shodan_hash_is_encodebytes]); robots.txt and
    security.txt ([well_known_requests], [robots_roundtrip], [security_txt_fields]).  WHOIS:
    results are clean ([whois_result_clean]), survive the cache ([whois_cache_roundtrip],
    [cached_lookup_hits]), the newest entries stay ([eviction_keeps_newest]), and every error
    is one of the cache ([whois_errors_are_cache_errors]).

    Start: the catalog that a start obtained is what the next one has from the cache
    ([next_start_uses_cache]), it is full or was allowed not to be ([default_catalog_full]),
    what is requested on the way ([ruleset_requests_permitted]) and when that can panic
    ([loading_panics_only]); concurrent callers load once ([init_ruleset_once]); the documents
    that are compiled in can be read ([overlay_reads], [vendored_reads]).  The City database is
    the first entry of its name in the archive ([extracted_database]), asked for at checked
    addresses ([geoip_requests_permitted]) and used again ([saved_database_reused]), even for
    another URL ([cached_database_of_any_url]); so is the version in the User-Agent
    ([saved_version_reused]).

    Status: a snapshot of the counters of a running scan lies between its first and its last
    load ([progress_consistent]); [/metrics] can be read back, whatever the run is called, and
    agrees with [/status] ([metrics_agree_with_status]); the averages do not depend on the
    interleaving of the additions ([averages_exact]).

    Runs: a summary counts what the tables hold ([summary_counts_tables]) and, for a finished
    scan, agrees with the stored report ([finished_run_summarised]); the history is the
    completed runs, the latest first ([history_latest_first]).

    Headers: HSTS round trip and case-insensitivity ([parse_render_hsts],
    [parse_hsts_case_insensitive]); cookies ([same_site_policy], [cookie_map_lookup]).

    ** Fuel, bounds and arithmetic

    - [Retry.execute_with_retry] is an unbounded [loop] in the source and takes fuel; the
      strategy yields three delays, and five units always give a result
      ([process_url_refines]).
    - The [implies] and [requires] loops run the source's own 10 rounds
      ([MAX_IMPLIES_DEPTH], [MAX_REQUIRES_DEPTH]); the theorems state what that cap cuts off.
    - The redirect loop recurses on the source's hop budget [max_hops].
    - In [waiting_task_admitted] a tick counts when it comes a sixteenth of a second after
      the one before (the source's ticker has a period of a tenth), and [k] ticks with
      [16 <= rps * k] pay for a token; buckets hold at most [2^53] tokens (the source's at
      most 500).
    - The icon loop makes at most six requests; the steps from an offset to a character
      boundary need at most the length of the text.
    - [from_utf8_lossy] and [split_whitespace] recurse on the text; everything else is
      structural.  Integers whose wrap or saturation the sources meet
      are [Z] with the operation written out ([wrap_u64], [sat_mul_u64], the [as i32]
      casts of [finalize.rs]); binary64 is [SpecFloat] with 53 and 1024.

    ** Parameters

    Code outside the repository is an interface with documented laws and an instance that
    satisfies them: [UrlLib] ([Demo.urls]), [Lowercase] ([Demo.ascii_lowercase]),
    [HashIter] ([listing]), [RegexLib] ([DemoRegex], [DemoEngine]), [AhoCorasick]
    ([DemoAc]), [SemaphoreLib] ([DemoLimiter.semaphores]), [Sqlx] and [Serde] (the instances
    of [DemoSql] and [DemoSerde]), [Resolver] and [IpText] ([DemoDns]), [ExportQueries],
    [Arrow], [FloatFmt] and [Chrono] ([DemoExport]), [HtmlLib] ([DemoHtml.document]),
    [SpanRegex], [AcOverlap], [Base64], [Log2], [TomlLib] and [Uppercase] ([DemoScan]),
    [FaviconLib] ([DemoFavicon.lib]), [ChronoDates], [Fs] and [EntryCodec] ([DemoWhois]),
    [Psl], [EncodingRs], [HttpLib], [CspRegex], [UrlPort] and [Services] ([DemoHandler]),
    [DirFs], [RulesetJson] and [RulesetNet] ([DemoRuleset]), [MaxMindDb], [ArchiveLib], [ByteFs]
    and [GeoEnv] ([DemoGeoIp]), [ShowFloat] ([DemoStatus]),
    [RunOrder] and [ShowTenths] ([DemoRuns]); HTTP requests and the handshake are functions
    passed to the definitions that call them.  Of SQL the model has the text and the bound
    values of each statement (in [Runs] the function a query denotes, on the columns it reads;
    in [Upsert] the effect of a batch on the rows of its table),
    and of a row the cells that an INSERT or UPDATE
    names; the laws of [Sqlx] say that a statement that succeeds is applied, that a commit
    makes the statements of its transaction permanent and that a rollback forgets them.

    ** Not modelled

    The [expect] on the automaton that the literal index builds of its needles, which fails past
    the limits of the library: building the index always succeeds here.
    Sockets, TLS, SQL execution, the formats of archives and GeoIP databases, the WHOIS client,
    the HTML parser and the regular-expression engines are libraries the sources call.  The
    layout of log lines and progress bars, the listener and routing of the status server, the
    set-up of loggers, pools and migrations and the fixtures of [cost.rs] do not influence a
    scan.  A semaphore waiter that
    is dropped between being woken and running, and Tokio's ceiling on the number of permits,
    are left out; so is the interleaving of the branches of a [join!] and of the downloads of
    one GitHub directory, which share only counters, clients and the map they are merged into in
    the order of the listing.  The clock is read once per start in [Ruleset], [GeoIp] and
    [UserAgent].  The release profile aborts on a panic: then a panic that is shown here to end
    a task ends the scan. *)

From Stdlib Require Export ZArith Lia Sorted.
From Stdlib Require Ascii String.
From stdpp Require Export base tactics list gmap strings numbers.

#[global] Open Scope Z_scope.

(** ** Results, and calls that may panic *)

Inductive result (A E : Type) : Type :=
  | Ok (a : A)
  | Err (e : E).
Arguments Ok {A E} a.
Arguments Err {A E} e.

Definition is_ok {A E} (r : result A E) : bool :=
  match r with Ok _ => true | Err _ => false end.

Definition result_ok {A E} (r : result A E) : option A :=
  match r with Ok a => Some a | Err _ => None end.

(** The [?] operator. *)
Definition and_then {A B E} (r : result A E) (k : A -> result B E) : result B E :=
  match r with Ok a => k a | Err e => Err e end.
Notation "x ←? r ; k" := (and_then r (λ x, k))
  (at level 20, r at level 100, k at level 200, right associativity).
Notation "' p ←? r ; k" := (and_then r (λ p, k))
  (at level 20, p pattern, r at level 100, k at level 200, right associativity).

Lemma and_then_Ok {A B E} (r : result A E) (k : A -> result B E) b :
  and_then r k = Ok b <-> ∃ a, r = Ok a ∧ k a = Ok b.
Proof. destruct r; simpl; naive_solver. Qed.

(** A call that either returns or unwinds with a Rust panic. *)
Inductive outcome (A : Type) : Type :=
  | Returns (a : A)
  | Panics.
Arguments Returns {A} a.
Arguments Panics {A}.

(** ** Machine integers *)

Definition u8_max : Z := 255.
Definition u16_max : Z := 65535.
Definition u32_max : Z := 4294967295.
Definition u64_max : Z := 18446744073709551615.
Definition i32_max : Z := 2147483647.

Definition wrap_u64 (z : Z) : Z := z mod 18446744073709551616.
Definition sat_mul_u64 (a b : Z) : Z := Z.min u64_max (a * b).
Definition sat_sub (a b : Z) : Z := Z.max 0 (a - b).

(** [as i32]: two's complement. *)
Definition as_i32 (z : Z) : Z := (z + 2147483648) mod 4294967296 - 2147483648.

Lemma as_i32_small z : -2147483648 <= z <= i32_max -> as_i32 z = z.
Proof. unfold as_i32, i32_max. intros. rewrite Z.mod_small; lia. Qed.

Lemma wrap_u64_range z : 0 <= wrap_u64 z <= u64_max.
Proof. unfold wrap_u64, u64_max. pose proof (Z.mod_pos_bound z 18446744073709551616). lia. Qed.

Lemma wrap_u64_small z : 0 <= z <= u64_max -> wrap_u64 z = z.
Proof. unfold wrap_u64, u64_max. intros. apply Z.mod_small. lia. Qed.

Lemma wrap_u64_add a b : wrap_u64 (wrap_u64 a + b) = wrap_u64 (a + b).
Proof. unfold wrap_u64. apply Z.add_mod_idemp_l. lia. Qed.

(** ** Strings: sequences of Unicode scalar values *)

Abbreviation str := (list Z).

Definition lit (s : string) : str :=
  map (λ a, Z.of_N (Ascii.N_of_ascii a)) (String.list_ascii_of_string s).

Definition streqb (a b : str) : bool := bool_decide (a = b).

Lemma streqb_eq a b : streqb a b = true <-> a = b.
Proof. apply bool_decide_eq_true. Qed.

Lemma streqb_refl a : streqb a a = true.
Proof. by apply streqb_eq. Qed.

Lemma streqb_neq a b : streqb a b = false <-> a <> b.
Proof. apply bool_decide_eq_false. Qed.

(** Character classes of the Rust standard library. *)
Definition is_ascii (c : Z) : bool := c <? 128.
Definition is_ascii_digit (c : Z) : bool := (48 <=? c) && (c <=? 57).
Definition is_ascii_upper (c : Z) : bool := (65 <=? c) && (c <=? 90).
Definition is_ascii_lower (c : Z) : bool := (97 <=? c) && (c <=? 122).
Definition is_ascii_alphanumeric (c : Z) : bool :=
  is_ascii_digit c || is_ascii_upper c || is_ascii_lower c.
Definition is_ascii_hexdigit (c : Z) : bool :=
  is_ascii_digit c || ((65 <=? c) && (c <=? 70)) || ((97 <=? c) && (c <=? 102)).
(** [char::is_ascii_whitespace]: space, tab, LF, FF, CR (no vertical tab). *)
Definition is_ascii_whitespace (c : Z) : bool :=
  (c =? 32) || (c =? 9) || (c =? 10) || (c =? 12) || (c =? 13).
(** [char::is_whitespace]: the Unicode White_Space property, used by [trim]. *)
Definition is_whitespace (c : Z) : bool :=
  ((9 <=? c) && (c <=? 13)) || (c =? 32) || (c =? 133) || (c =? 160) || (c =? 5760)
  || ((8192 <=? c) && (c <=? 8202)) || (c =? 8232) || (c =? 8233) || (c =? 8239)
  || (c =? 8287) || (c =? 12288).

Definition ascii_lower (c : Z) : Z := if is_ascii_upper c then c + 32 else c.
Definition to_ascii_lowercase (s : str) : str := map ascii_lower s.
Definition ascii_upper (c : Z) : Z := if is_ascii_lower c then c - 32 else c.
Definition to_ascii_uppercase (s : str) : str := map ascii_upper s.
Definition eq_ignore_ascii_case (a b : str) : bool :=
  streqb (to_ascii_lowercase a) (to_ascii_lowercase b).

(** Prefixes, suffixes and substrings. *)
Fixpoint strip_prefix (p s : str) : option str :=
  match p, s with
  | [], _ => Some s
  | _, [] => None
  | a :: p', b :: s' => if a =? b then strip_prefix p' s' else None
  end.

Definition starts_with (p s : str) : bool :=
  match strip_prefix p s with Some _ => true | None => false end.

Definition ends_with (p s : str) : bool := starts_with (reverse p) (reverse s).

(** [str::strip_suffix]. *)
Definition strip_suffix (suffix s : str) : option str :=
  reverse <$> strip_prefix (reverse suffix) (reverse s).

Fixpoint contains (p s : str) : bool :=
  starts_with p s || match s with [] => false | _ :: s' => contains p s' end.

Definition contains_char (c : Z) (s : str) : bool := existsb (Z.eqb c) s.

(** Trimming. *)
Fixpoint trim_start_by (P : Z -> bool) (s : str) : str :=
  match s with
  | [] => []
  | c :: s' => if P c then trim_start_by P s' else s
  end.
Definition trim_end_by (P : Z -> bool) (s : str) : str :=
  reverse (trim_start_by P (reverse s)).
Definition trim_by (P : Z -> bool) (s : str) : str := trim_end_by P (trim_start_by P s).
Definition trim (s : str) : str := trim_by is_whitespace s.

(** Splitting. *)
Fixpoint split_char (c : Z) (s : str) : list str :=
  match s with
  | [] => [[]]
  | x :: s' =>
      if x =? c then [] :: split_char c s'
      else match split_char c s' with
           | [] => [[x]]
           | h :: r => (x :: h) :: r
           end
  end.

(** [str::lines]: a line that a line feed ends loses one carriage return before it; the last
    line is left out when it is empty. *)
Definition line_end (line : str) : str :=
  match strip_suffix [13] line with Some l => l | None => line end.
Definition lines (s : str) : list str :=
  let pieces := split_char 10 s in
  map line_end (removelast pieces)
  ++ match list.last pieces with Some ((_ :: _) as l) => [l] | _ => [] end.

Fixpoint split_once (c : Z) (s : str) : option (str * str) :=
  match s with
  | [] => None
  | x :: s' =>
      if x =? c then Some ([], s')
      else match split_once c s' with
           | Some (a, b) => Some (x :: a, b)
           | None => None
           end
  end.

(** [str::split] on a (non-empty) string pattern, left to right, non overlapping:
    [skip] characters of the current occurrence remain to be dropped. *)
Fixpoint split_str_go (pat : str) (skip : nat) (acc : str) (s : str) : list str :=
  match s with
  | [] => [reverse acc]
  | x :: s' =>
      match skip with
      | S k => split_str_go pat k acc s'
      | O => if starts_with pat s
             then reverse acc :: split_str_go pat (length pat - 1)%nat [] s'
             else split_str_go pat O (x :: acc) s'
      end
  end.
Definition split_str (pat s : str) : list str := split_str_go pat O [] s.

(** [str::replace] with a non-empty pattern. *)
Fixpoint replace_go (pat to : str) (skip : nat) (s : str) : str :=
  match s with
  | [] => []
  | x :: s' =>
      match skip with
      | S k => replace_go pat to k s'
      | O => if starts_with pat s
             then to ++ replace_go pat to (length pat - 1)%nat s'
             else x :: replace_go pat to O s'
      end
  end.
Definition replace (pat to s : str) : str := replace_go pat to O s.

(** Numbers in strings. *)
Definition dec_value (s : str) : Z := foldl (λ acc c, 10 * acc + (c - 48)) 0 s.

(** [str::parse] for an unsigned type of maximum [mx]: an optional plus sign, then
    at least one digit, and no overflow. *)
Definition parse_uint (mx : Z) (s : str) : option Z :=
  let ds := match s with 43 :: t => t | _ => s end in
  if forallb is_ascii_digit ds && negb (bool_decide (ds = [])) && (dec_value ds <=? mx)
  then Some (dec_value ds) else None.

Fixpoint dec_go (fuel : nat) (n : Z) (acc : str) : str :=
  match fuel with
  | O => acc
  | S f => let acc' := (48 + n mod 10) :: acc in
           if n <? 10 then acc' else dec_go f (n / 10) acc'
  end.
(** [format!] of a non-negative integer. *)
Definition dec (n : Z) : str := dec_go (S (Z.to_nat (Z.log2 n))) n [].

(** ** Hash maps

    A [HashMap] is a [gmap]; the order in which it is iterated is not specified: it is the
    class [HashIter], of which only [HashIterLaws] is known. *)

Class HashIter := { hash_iter : ∀ {A : Type}, gmap (list Z) A -> list (list Z * A) }.

Class HashIterLaws (H : HashIter) := {
  hash_iter_perm : ∀ A (m : gmap (list Z) A), hash_iter m ≡ₚ map_to_list m;
}.

Definition listing : HashIter := {| hash_iter := λ A m, map_to_list m |}.
Lemma listing_laws : HashIterLaws listing.
Proof. by split. Defined.

Lemma elem_of_hash_iter `{H : HashIter} `{!HashIterLaws H} {A} (m : gmap (list Z) A) k v :
  (k, v) ∈ hash_iter m <-> m !! k = Some v.
Proof. rewrite hash_iter_perm. apply elem_of_map_to_list. Qed.

(** A [for] loop over a list; the body gives the new state and whether to [break]. *)
Fixpoint for_each {A S : Type} (body : A -> S -> S * bool) (l : list A) (s : S) : S :=
  match l with
  | [] => s
  | x :: l => match body x s with
              | (s, true) => s
              | (s, false) => for_each body l s
              end
  end.

(** [sort_by_key]: stable, by insertion from the right. *)
Fixpoint insert_by_key {A} (key : A -> Z) (r : A) (l : list A) : list A :=
  match l with
  | [] => [r]
  | r' :: l' => if key r <=? key r' then r :: l else r' :: insert_by_key key r l'
  end.
Definition sort_by_key {A} (key : A -> Z) (l : list A) : list A := foldr (insert_by_key key) [] l.

Definition nonempty {A} (l : list A) : bool := match l with [] => false | _ => true end.

(** ** Lemmas on strings *)

Create HintDb strdb.

Lemma strip_prefix_app p s : strip_prefix p (p ++ s) = Some s.
Proof. induction p as [|a p IH]; [by destruct s|]. simpl. by rewrite Z.eqb_refl. Qed.

Lemma strip_prefix_Some p s r : strip_prefix p s = Some r <-> s = p ++ r.
Proof.
  split; [|intros ->; apply strip_prefix_app].
  revert s. induction p as [|a p IH]; intros s; simpl.
  - intros [= ->]. done.
  - destruct s as [|b s]; [done|]. destruct (Z.eqb_spec a b) as [->|]; [|done].
    intros ->%IH. done.
Qed.

Lemma strip_suffix_Some p s r : strip_suffix p s = Some r <-> s = r ++ p.
Proof.
  unfold strip_suffix. split.
  - destruct (strip_prefix (reverse p) (reverse s)) as [q|] eqn:E; [|done]. cbn.
    intros [= <-]. apply strip_prefix_Some in E.
    rewrite <- (reverse_involutive s), E, reverse_app, reverse_involutive. done.
  - intros ->. by rewrite reverse_app, strip_prefix_app; cbn; rewrite reverse_involutive.
Qed.

Lemma starts_with_iff p s : starts_with p s = true <-> ∃ r, s = p ++ r.
Proof.
  unfold starts_with. destruct (strip_prefix p s) as [r|] eqn:E.
  - apply strip_prefix_Some in E. naive_solver.
  - split; [done|]. intros [r ->]. by rewrite strip_prefix_app in E.
Qed.

Lemma starts_with_app p s : starts_with p (p ++ s) = true.
Proof. apply starts_with_iff. eauto. Qed.

Lemma ends_with_iff p s : ends_with p s = true <-> ∃ r, s = r ++ p.
Proof.
  unfold ends_with. rewrite starts_with_iff. split.
  - intros [r Hr]. exists (reverse r).
    by rewrite <- (reverse_involutive s), Hr, reverse_app, reverse_involutive.
  - intros [r ->]. exists (reverse r). by rewrite reverse_app.
Qed.

Lemma contains_iff p s : contains p s = true <-> ∃ a b, s = a ++ p ++ b.
Proof.
  induction s as [|x s IH]; simpl.
  - rewrite orb_false_r, starts_with_iff. split.
    + intros [r Hr]. by exists [], r.
    + intros (a & b & H). exists b. by destruct a.
  - rewrite orb_true_iff, starts_with_iff, IH. split.
    + intros [[r Hr]|(a & b & ->)]; [by exists [], r|by exists (x :: a), b].
    + intros ([|y a] & b & H); [left; by exists b|right].
      simplify_eq/=. eauto.
Qed.

Lemma contains_char_iff c s : contains_char c s = true <-> c ∈ s.
Proof.
  unfold contains_char. rewrite existsb_exists. setoid_rewrite <- list_elem_of_In.
  split; [intros (x & ? & ->%Z.eqb_eq); done|]. intros. exists c. by rewrite Z.eqb_refl.
Qed.

Lemma contains_char_false c s : contains_char c s = false <-> c ∉ s.
Proof. rewrite <- contains_char_iff. by destruct (contains_char c s). Qed.

Lemma to_ascii_lowercase_app a b :
  to_ascii_lowercase (a ++ b) = to_ascii_lowercase a ++ to_ascii_lowercase b.
Proof. apply map_app. Qed.

Lemma ascii_lower_idemp c : ascii_lower (ascii_lower c) = ascii_lower c.
Proof.
  unfold ascii_lower, is_ascii_upper.
  destruct ((65 <=? c) && (c <=? 90)) eqn:E; [|by rewrite E].
  destruct ((65 <=? c + 32) && (c + 32 <=? 90)) eqn:E'; lia.
Qed.

Lemma to_ascii_lowercase_idemp s :
  to_ascii_lowercase (to_ascii_lowercase s) = to_ascii_lowercase s.
Proof.
  unfold to_ascii_lowercase. rewrite map_map. apply map_ext, ascii_lower_idemp.
Qed.

Lemma length_to_ascii_lowercase s : length (to_ascii_lowercase s) = length s.
Proof. apply length_map. Qed.

Lemma eq_ignore_ascii_case_iff a b :
  eq_ignore_ascii_case a b = true <-> to_ascii_lowercase a = to_ascii_lowercase b.
Proof. apply streqb_eq. Qed.

Lemma eq_ignore_ascii_case_refl a : eq_ignore_ascii_case a a = true.
Proof. by apply eq_ignore_ascii_case_iff. Qed.

Lemma eq_ignore_ascii_case_lower a b :
  eq_ignore_ascii_case (to_ascii_lowercase a) b = eq_ignore_ascii_case a b.
Proof. unfold eq_ignore_ascii_case. by rewrite to_ascii_lowercase_idemp. Qed.

(** *** Trimming *)

Definition not_head (P : Z -> bool) (s : str) : Prop :=
  match s with [] => True | c :: _ => P c = false end.

Lemma trim_start_by_not_head P s : not_head P (trim_start_by P s).
Proof. induction s as [|c s IH]; simpl; [done|]. by destruct (P c) eqn:E. Qed.

Lemma trim_start_by_id P s : not_head P s -> trim_start_by P s = s.
Proof. destruct s as [|c s]; simpl; [done|]. by intros ->. Qed.

Lemma trim_start_by_suffix P s : ∃ w, s = w ++ trim_start_by P s ∧ forallb P w = true.
Proof.
  induction s as [|c s (w & Hw & HP)]; simpl; [by exists []|].
  destruct (P c) eqn:E; [|by exists []].
  exists (c :: w). simpl. rewrite E, HP. by rewrite <- Hw.
Qed.

Lemma trim_start_by_all P s : forallb P s = true -> trim_start_by P s = [].
Proof. induction s as [|c s IH]; simpl; [done|]. intros [-> ?]%andb_true_iff. auto. Qed.

Lemma trim_end_by_prefix P s : ∃ w, s = trim_end_by P s ++ w.
Proof.
  unfold trim_end_by. destruct (trim_start_by_suffix P (reverse s)) as (w & Hw & _).
  exists (reverse w). rewrite <- reverse_app, <- Hw. by rewrite reverse_involutive.
Qed.

Lemma trim_end_by_not_head P s : not_head P s -> not_head P (trim_end_by P s).
Proof.
  intros H. destruct (trim_end_by_prefix P s) as (w & Hw).
  destruct (trim_end_by P s) as [|c t]; [done|]. simpl. by rewrite Hw in H.
Qed.

Lemma trim_end_by_not_last P s : not_head P (reverse (trim_end_by P s)).
Proof.
  unfold trim_end_by. rewrite reverse_involutive. apply trim_start_by_not_head.
Qed.

(** A string is trimmed when neither end is in the class. *)
Definition trimmed_by (P : Z -> bool) (s : str) : Prop :=
  not_head P s ∧ not_head P (reverse s).

Lemma trim_by_trimmed P s : trimmed_by P (trim_by P s).
Proof.
  split; [|apply trim_end_by_not_last].
  apply trim_end_by_not_head, trim_start_by_not_head.
Qed.

Lemma trim_by_id P s : trimmed_by P s -> trim_by P s = s.
Proof.
  intros [H1 H2]. unfold trim_by, trim_end_by.
  rewrite (trim_start_by_id P s) by done. rewrite trim_start_by_id by done.
  apply reverse_involutive.
Qed.

Lemma trim_trim s : trim (trim s) = trim s.
Proof. apply trim_by_id, trim_by_trimmed. Qed.

Lemma trim_sub P s : ∃ a b, s = a ++ trim_by P s ++ b.
Proof.
  destruct (trim_start_by_suffix P s) as (a & Ha & _).
  destruct (trim_end_by_prefix P (trim_start_by P s)) as (b & Hb).
  exists a, b. unfold trim_by. by rewrite <- Hb, <- Ha.
Qed.

Lemma trim_by_Forall P (Q : Z -> Prop) s : Forall Q s -> Forall Q (trim_by P s).
Proof.
  intros H. destruct (trim_sub P s) as (a & b & E). rewrite E in H.
  by apply Forall_app in H as [_ [? _]%Forall_app].
Qed.

(** *** Splitting *)

Lemma split_char_cons c s : ∃ h r, split_char c s = h :: r.
Proof.
  destruct s as [|x s]; simpl; [eauto|].
  destruct (x =? c); [eauto|]. destruct (split_char c s); eauto.
Qed.

Lemma split_char_app_sep c a s :
  c ∉ a -> split_char c (a ++ c :: s) = a :: split_char c s.
Proof.
  induction a as [|x a IH]; intros H; simpl; [by rewrite Z.eqb_refl|].
  apply not_elem_of_cons in H as [H1 H2].
  destruct (Z.eqb_spec x c) as [->|]; [done|]. by rewrite IH.
Qed.

Lemma split_char_none c a : c ∉ a -> split_char c a = [a].
Proof.
  induction a as [|x a IH]; intros H; simpl; [done|].
  apply not_elem_of_cons in H as [H1 H2].
  destruct (Z.eqb_spec x c) as [->|]; [done|]. by rewrite IH.
Qed.

Lemma split_char_pieces c s : Forall (λ p, c ∉ p) (split_char c s).
Proof.
  induction s as [|x s IH]; simpl; [by repeat constructor; apply not_elem_of_nil|].
  destruct (Z.eqb_spec x c); [by constructor; [apply not_elem_of_nil|]|].
  destruct (split_char c s) as [|h r].
  - repeat constructor. set_solver.
  - apply Forall_cons_1 in IH as [Hh Hr]. constructor; [set_solver|done].
Qed.

Lemma split_char_head c s h r : split_char c s = h :: r ->
  (r = [] ∧ s = h) ∨ ∃ s', s = h ++ c :: s' ∧ split_char c s' = r.
Proof.
  revert h r. induction s as [|x s IH]; intros h r; cbn.
  - intros [= <- <-]. by left.
  - destruct (Z.eqb_spec x c) as [->|Hn]; [intros [= <- <-]; right; by exists s|].
    destruct (split_char_cons c s) as (h' & r' & E). rewrite E. intros [= <- <-].
    destruct (IH h' r' E) as [[-> ->]|(s' & -> & Es)]; [by left|]. right. by exists s'.
Qed.

Lemma split_char_Forall c s (P : Z -> Prop) :
  Forall P s -> Forall (Forall P) (split_char c s).
Proof.
  induction 1 as [|x s Hx Hs IH]; simpl; [by repeat constructor|].
  destruct (x =? c); [by constructor|].
  destruct (split_char c s) as [|h r]; [by repeat constructor|].
  inversion IH; subst. by repeat constructor.
Qed.

Lemma split_once_app c a b : c ∉ a -> split_once c (a ++ c :: b) = Some (a, b).
Proof.
  induction a as [|x a IH]; intros H; simpl; [by rewrite Z.eqb_refl|].
  apply not_elem_of_cons in H as [H1 H2].
  destruct (Z.eqb_spec x c) as [->|]; [done|]. by rewrite IH.
Qed.

Lemma split_once_Some c s a b :
  split_once c s = Some (a, b) <-> s = a ++ c :: b ∧ c ∉ a.
Proof.
  split; [|intros [-> ?]; by apply split_once_app].
  revert a. induction s as [|x s IH]; intros a; simpl; [done|].
  destruct (Z.eqb_spec x c) as [->|Hx].
  - intros [= <- <-]. split; [done|]. by apply not_elem_of_nil.
  - destruct (split_once c s) as [[a' b']|]; [|done]. intros [= <- <-].
    destruct (IH a' eq_refl) as [-> ?]. split; [done|]. by apply not_elem_of_cons.
Qed.

Lemma split_once_None c s : split_once c s = None <-> c ∉ s.
Proof.
  induction s as [|x s IH]; simpl; [split; [intros _; apply not_elem_of_nil|done]|].
  rewrite not_elem_of_cons. destruct (Z.eqb_spec x c) as [->|Hx].
  - split; [done|]. by intros [? _].
  - destruct (split_once c s) as [[]|].
    + split; [done|]. intros [_ ?%IH]. done.
    + split; [|done]. intros _. split; [congruence|]. by apply IH.
Qed.

(** *** Lists *)

Lemma omap_cons {A B} (f : A -> option B) x (l : list A) :
  omap f (x :: l) = match f x with Some y => y :: omap f l | None => omap f l end.
Proof. done. Qed.

(** *** Decimal numbers *)

Lemma dec_value_app a b :
  dec_value (a ++ b) = foldl (λ acc c, 10 * acc + (c - 48)) (dec_value a) b.
Proof. unfold dec_value. by rewrite foldl_app. Qed.

Lemma dec_value_snoc a c : dec_value (a ++ [c]) = 10 * dec_value a + (c - 48).
Proof. by rewrite dec_value_app. Qed.

Lemma dec_go_acc fuel n acc : dec_go fuel n acc = dec_go fuel n [] ++ acc.
Proof.
  revert n acc. induction fuel as [|f IH]; intros n acc; simpl; [done|].
  destruct (n <? 10); [done|]. rewrite IH, (IH _ [_]). by rewrite <- app_assoc.
Qed.

Lemma dec_go_spec fuel n :
  0 <= n < 2 ^ Z.of_nat fuel -> (0 < fuel)%nat ->
  forallb is_ascii_digit (dec_go fuel n []) = true ∧
  dec_go fuel n [] ≠ [] ∧ dec_value (dec_go fuel n []) = n.
Proof.
  revert n. induction fuel as [|f IH]; intros n Hn Hf; [lia|]. simpl.
  assert (Hd : is_ascii_digit (48 + n mod 10) = true).
  { unfold is_ascii_digit. pose proof (Z.mod_pos_bound n 10). lia. }
  destruct (Z.ltb_spec n 10) as [Hlt|Hge].
  - simpl. rewrite Hd. repeat split; [done|].
    unfold dec_value. simpl. rewrite Z.mod_small; lia.
  - assert (Hf' : (0 < f)%nat).
    { destruct f; [|lia]. change (2 ^ Z.of_nat 1) with 2 in Hn. lia. }
    destruct (IH (n / 10)) as (H1 & H2 & H3); [|done|].
    { split; [apply Z.div_pos; lia|]. apply Z.div_lt_upper_bound; [lia|].
      rewrite Nat2Z.inj_succ, Z.pow_succ_r in Hn by lia. lia. }
    rewrite dec_go_acc. repeat split.
    + rewrite forallb_app, H1. simpl. by rewrite Hd.
    + by destruct (dec_go f (n / 10) []).
    + rewrite dec_value_snoc, H3. pose proof (Z.div_mod n 10). lia.
Qed.

Lemma dec_spec n :
  0 <= n ->
  forallb is_ascii_digit (dec n) = true ∧ dec n ≠ [] ∧ dec_value (dec n) = n.
Proof.
  intros H. apply dec_go_spec; [|lia]. split; [done|].
  rewrite Nat2Z.inj_succ, Z2Nat.id by apply Z.log2_nonneg.
  destruct (Z.eq_dec n 0) as [->|]; [done|]. apply Z.log2_spec. lia.
Qed.

Lemma dec_digits n : 0 <= n -> Forall (λ c, 48 <= c <= 57) (dec n).
Proof.
  intros H. destruct (dec_spec n H) as (Hd & _).
  apply Forall_forall. intros c Hc.
  rewrite forallb_forall in Hd. specialize (Hd c Hc). unfold is_ascii_digit in Hd. lia.
Qed.

(** Printing then parsing gives the number back. *)
Lemma parse_uint_dec mx n : 0 <= n <= mx -> parse_uint mx (dec n) = Some n.
Proof.
  intros [H0 H]. destruct (dec_spec n H0) as (H1 & H2 & H3).
  unfold parse_uint.
  assert (E : match dec n with 43 :: t => t | _ => dec n end = dec n).
  { pose proof (dec_digits n H0) as Hd. destruct (dec n) as [|c t]; [done|].
    inversion Hd; subst. destruct c as [|p|]; try done.
    do 6 (destruct p as [p|p|]; try done); lia. }
  rewrite E, H1, H3, bool_decide_eq_false_2 by done. simpl.
  by rewrite (proj2 (Z.leb_le n mx)).
Qed.

Lemma parse_uint_bounds mx s n : parse_uint mx s = Some n -> n <= mx.
Proof. unfold parse_uint. case_match; [|done]. intros [= <-]. lia. Qed.

Lemma dec_value_nonneg s : forallb is_ascii_digit s = true -> 0 <= dec_value s.
Proof.
  unfold dec_value. assert (∀ acc, 0 <= acc -> forallb is_ascii_digit s = true ->
    0 <= foldl (λ acc c, 10 * acc + (c - 48)) acc s) as H; [|by apply H].
  induction s as [|c s IH]; simpl; [done|].
  intros acc Hacc [Hc ?]%andb_true_iff. apply IH; [|done].
  unfold is_ascii_digit in Hc. lia.
Qed.

Lemma parse_uint_nonneg mx s n : parse_uint mx s = Some n -> 0 <= n.
Proof.
  unfold parse_uint. case_match eqn:E; [|done]. intros [= <-].
  apply andb_true_iff in E as [[E _]%andb_true_iff _]. by apply dec_value_nonneg.
Qed.

(** *** Case-insensitivity

    String operations that test characters with predicates blind to letter case commute
    with ASCII lower-casing; the rewrite database [lower] collects the instances. *)

Definition case_blind (P : Z -> bool) : Prop := ∀ c, P (ascii_lower c) = P c.

Ltac solve_blind :=
  intros c; unfold ascii_lower, is_ascii_upper, is_whitespace, is_ascii_whitespace,
    is_ascii_digit;
  destruct ((65 <=? c) && (c <=? 90)) eqn:?; lia.

Lemma is_whitespace_blind : case_blind is_whitespace.
Proof. solve_blind. Qed.
Lemma is_ascii_whitespace_blind : case_blind is_ascii_whitespace.
Proof. solve_blind. Qed.
Lemma is_ascii_digit_blind : case_blind is_ascii_digit.
Proof. solve_blind. Qed.
(** A single character that is not a letter. *)
Lemma char_blind k : (65 <=? k) && (k <=? 90) || is_ascii_lower k = false ->
  case_blind (Z.eqb k).
Proof.
  unfold is_ascii_lower. intros H c. unfold ascii_lower, is_ascii_upper.
  destruct ((65 <=? c) && (c <=? 90)) eqn:?; lia.
Qed.

#[export] Hint Resolve is_whitespace_blind is_ascii_whitespace_blind is_ascii_digit_blind
  : strdb.
#[export] Hint Extern 1 (case_blind (Z.eqb _)) => (apply char_blind; reflexivity) : strdb.

Lemma trim_start_by_lower P s : case_blind P ->
  trim_start_by P (to_ascii_lowercase s) = to_ascii_lowercase (trim_start_by P s).
Proof.
  intros HP. induction s as [|c s IH]; simpl; [done|]. rewrite HP.
  by destruct (P c).
Qed.

Lemma reverse_lower s : reverse (to_ascii_lowercase s) = to_ascii_lowercase (reverse s).
Proof. unfold to_ascii_lowercase. symmetry. apply (fmap_reverse ascii_lower s). Qed.

Lemma trim_by_lower P s : case_blind P ->
  trim_by P (to_ascii_lowercase s) = to_ascii_lowercase (trim_by P s).
Proof.
  intros HP. unfold trim_by, trim_end_by.
  by rewrite trim_start_by_lower, reverse_lower, trim_start_by_lower, reverse_lower.
Qed.

Lemma trim_lower s : trim (to_ascii_lowercase s) = to_ascii_lowercase (trim s).
Proof. apply trim_by_lower, is_whitespace_blind. Qed.

Lemma split_char_lower k s : case_blind (Z.eqb k) ->
  split_char k (to_ascii_lowercase s) = map to_ascii_lowercase (split_char k s).
Proof.
  intros Hk. induction s as [|c s IH]; [done|].
  cbn [to_ascii_lowercase map split_char]. fold (to_ascii_lowercase s).
  rewrite !(Z.eqb_sym _ k), Hk. destruct (k =? c); [by rewrite IH|].
  rewrite IH. by destruct (split_char k s).
Qed.

Lemma split_once_lower k s : case_blind (Z.eqb k) ->
  split_once k (to_ascii_lowercase s)
  = option_map (λ p, (to_ascii_lowercase p.1, to_ascii_lowercase p.2)) (split_once k s).
Proof.
  intros Hk. induction s as [|c s IH]; [done|].
  cbn [to_ascii_lowercase map split_once]. fold (to_ascii_lowercase s).
  rewrite !(Z.eqb_sym _ k), Hk. destruct (k =? c); [done|].
  rewrite IH. by destruct (split_once k s) as [[]|].
Qed.

Lemma drop_lower n s : drop n (to_ascii_lowercase s) = to_ascii_lowercase (drop n s).
Proof. apply skipn_map. Qed.

Lemma nonempty_map {A B} (f : A -> B) l : nonempty (map f l) = nonempty l.
Proof. by destruct l. Qed.

Create Rewrite HintDb lower.
#[export] Hint Rewrite trim_lower eq_ignore_ascii_case_lower to_ascii_lowercase_idemp
  reverse_lower drop_lower : lower.
#[export] Hint Rewrite trim_by_lower split_char_lower split_once_lower
  using (auto with strdb) : lower.

(** Text without characters of a class is not trimmed. *)
Lemma trim_by_none P s : Forall (λ c, P c = false) s -> trim_by P s = s.
Proof.
  intros H. apply trim_by_id. split.
  - by destruct H.
  - apply Forall_reverse in H. by destruct H.
Qed.

Lemma digit_facts c : is_ascii_digit c = true ->
  is_whitespace c = false ∧ (c =? 34) = false ∧ 48 <= c <= 57.
Proof. unfold is_ascii_digit, is_whitespace. lia. Qed.

(** ** Sorting *)

Lemma insert_by_key_perm {A} (key : A -> Z) r l : insert_by_key key r l ≡ₚ r :: l.
Proof.
  induction l as [|x l IH]; [done|]. cbn. destruct (key r <=? key x); [done|].
  rewrite IH. apply Permutation_swap.
Qed.

Lemma sort_by_key_perm {A} (key : A -> Z) l : sort_by_key key l ≡ₚ l.
Proof. induction l as [|x l IH]; [done|]. cbn. by rewrite insert_by_key_perm, IH. Qed.

Lemma insert_by_key_sorted {A} (key : A -> Z) r l :
  StronglySorted (λ a b, key a <= key b) l ->
  StronglySorted (λ a b, key a <= key b) (insert_by_key key r l).
Proof.
  induction 1 as [|x l Hs IH Hx]; cbn; [by repeat constructor|].
  destruct (Z.leb_spec (key r) (key x)).
  - constructor; [by constructor|]. constructor; [done|]. eapply Forall_impl; [|exact Hx]. cbn. lia.
  - constructor; [done|]. rewrite insert_by_key_perm. constructor; [lia|done].
Qed.

Lemma sort_by_key_sorted {A} (key : A -> Z) l :
  StronglySorted (λ a b, key a <= key b) (sort_by_key key l).
Proof. induction l as [|x l IH]; [constructor|]. by apply insert_by_key_sorted. Qed.

(** ** Boolean conditions on every element *)

Lemma forallb_map {A B} (P : B -> bool) (f : A -> B) l :
  forallb P (map f l) = forallb (λ x, P (f x)) l.
Proof. induction l as [|x l IH]; [done|]. cbn. by rewrite IH. Qed.

Lemma forallb_impl {A} (P Q : A -> bool) l :
  (∀ x, P x = true -> Q x = true) -> forallb P l = true -> forallb Q l = true.
Proof. intros H. rewrite !forallb_forall. eauto. Qed.
