(* ===== verification/Sanitize.v ===== *)
(** * Error-message sanitising ([src/src/utils/sanitize.rs])

    Rust strings are UTF-8: a [str] is the sequence of scalar values, [encode] its
    bytes.  The truncation routines of the source work on byte offsets and slice at
    character boundaries, so they are modelled on the bytes. *)

From S2P Require Import Prelude.

(** ** UTF-8 *)

Definition scalar (c : Z) : Prop := 0 <= c < 1114112.

Definition encode_char (c : Z) : list Z :=
  if c <? 128 then [c]
  else if c <? 2048 then [192 + c / 64; 128 + c mod 64]
  else if c <? 65536 then [224 + c / 4096; 128 + (c / 64) mod 64; 128 + c mod 64]
  else [240 + c / 262144; 128 + (c / 4096) mod 64; 128 + (c / 64) mod 64; 128 + c mod 64].

Definition encode (s : str) : list Z := concat (map encode_char s).

Definition is_continuation (b : Z) : bool := (128 <=? b) && (b <=? 191).

(** [str::is_char_boundary]. *)
Definition is_char_boundary (bs : list Z) (i : nat) : bool :=
  match i with
  | O => true
  | _ => if (i =? length bs)%nat then true
         else match bs !! i with Some b => negb (is_continuation b) | None => false end
  end.

(** ** The operations of sanitize.rs *)

Definition MAX_ERROR_MESSAGE_LENGTH : nat := Z.to_nat 2000.

Definition sanitize_error_message (message : str) : str :=
  List.filter (λ code, (32 <=? code) || (code =? 9) || (code =? 10) || (code =? 13)
                       || (127 <? code)) message.

(** The loop [while end > 0 && !value.is_char_boundary(end) { end -= 1 }]. *)
Fixpoint floor_boundary (value : list Z) (fin : nat) : nat :=
  match fin with
  | O => O
  | S e => if is_char_boundary value fin then fin else floor_boundary value e
  end.

Definition truncate_at_char_boundary (value : list Z) (max_len : nat) : list Z :=
  if (length value <=? max_len)%nat then value
  else take (floor_boundary value max_len) value.

Definition truncate_utf8 (value : list Z) (max_len : nat) : list Z :=
  truncate_at_char_boundary value max_len.

Definition truncate_utf8_with_suffix (value : list Z) (max_len : nat) (suffix : list Z)
  : list Z :=
  if (length value <=? max_len)%nat then value
  else if (max_len =? 0)%nat then []
  else if (max_len <=? length suffix)%nat then truncate_utf8 suffix max_len
  else truncate_at_char_boundary value (max_len - length suffix) ++ suffix.

Definition truncation_suffix (sanitized : str) : str :=
  lit "... (truncated, original length: " ++ dec (Z.of_nat (length sanitized)) ++ lit " chars)".

Definition sanitize_and_truncate_error_message (message : str) : list Z :=
  let sanitized := sanitize_error_message message in
  if (MAX_ERROR_MESSAGE_LENGTH <? length (encode sanitized))%nat
  then truncate_utf8_with_suffix (encode sanitized) MAX_ERROR_MESSAGE_LENGTH
         (encode (truncation_suffix sanitized))
  else encode sanitized.

(** ** Lemmas *)

Lemma encode_cons c s : encode (c :: s) = encode_char c ++ encode s.
Proof. done. Qed.

Lemma encode_app a b : encode (a ++ b) = encode a ++ encode b.
Proof. unfold encode. by rewrite map_app, concat_app. Qed.

(** A character is a leading byte followed by continuation bytes. *)
Lemma encode_char_shape c :
  scalar c ->
  ∃ b w, encode_char c = b :: w ∧ is_continuation b = false
         ∧ forallb is_continuation w = true.
Proof.
  unfold scalar, encode_char. intros Hc.
  pose proof (Z.mod_pos_bound c 64). pose proof (Z.mod_pos_bound (c / 64) 64).
  pose proof (Z.mod_pos_bound (c / 4096) 64).
  assert (Hcont : ∀ z, 0 <= z < 64 -> is_continuation (128 + z) = true).
  { unfold is_continuation. lia. }
  destruct (Z.ltb_spec c 128); [|destruct (Z.ltb_spec c 2048);
    [|destruct (Z.ltb_spec c 65536)]];
    eexists _, _; (split; [done|]); split;
    try (simpl; rewrite ?Hcont by lia; done); unfold is_continuation.
  - lia.
  - assert (2 <= c / 64) by (apply Z.div_le_lower_bound; lia). lia.
  - assert (0 <= c / 4096) by (apply Z.div_pos; lia). lia.
  - assert (0 <= c / 262144) by (apply Z.div_pos; lia). lia.
Qed.

Lemma encode_lead c s : scalar c -> ∃ b t, encode (c :: s) = b :: t ∧ is_continuation b = false.
Proof.
  intros Hc. destruct (encode_char_shape c Hc) as (b & w & E & Hb & _).
  exists b, (w ++ encode s). by rewrite encode_cons, E.
Qed.

Lemma lookup_encode_after c s i :
  (encode (c :: s)) !! (length (encode_char c) + i)%nat = encode s !! i.
Proof. rewrite encode_cons, lookup_app_r by lia. f_equal. lia. Qed.

(** The boundaries of an encoded string are the lengths of its encoded prefixes. *)
Lemma is_char_boundary_encode s i :
  Forall scalar s ->
  is_char_boundary (encode s) i = true ->
  ∃ k, (k <= length s)%nat ∧ i = length (encode (take k s)).
Proof.
  revert i. induction s as [|c s IH]; intros i Hs Hi.
  - exists 0%nat. destruct i; simpl in *; [done|]. done.
  - inversion Hs as [|? ? Hc Hs']; subst.
    destruct (encode_char_shape c Hc) as (b & w & E & Hb & Hw).
    destruct i as [|i]; [exists 0%nat; split; [lia|done]|].
    assert (Hlen : (length (encode_char c) <= S i)%nat
                   ∨ (0 < S i < length (encode_char c))%nat) by lia.
    destruct Hlen as [Hge|Hlt].
    + destruct (IH (S i - length (encode_char c))%nat Hs') as (k & Hk & Ek).
      * unfold is_char_boundary in *. rewrite encode_cons, length_app in Hi.
        destruct (S i - length (encode_char c))%nat as [|j] eqn:Ej; [done|].
        destruct (Nat.eqb_spec (S j) (length (encode s))); [done|].
        destruct (Nat.eqb_spec (S i) (length (encode_char c) + length (encode s))); [lia|].
        replace (S i) with (length (encode_char c) + S j)%nat in Hi by lia.
        by rewrite <- encode_cons, lookup_encode_after in Hi.
      * exists (S k). split; [simpl; lia|].
        simpl. rewrite encode_cons, length_app, <- Ek. lia.
    + exfalso. unfold is_char_boundary in Hi. rewrite encode_cons, length_app in Hi.
      destruct (Nat.eqb_spec (S i) (length (encode_char c) + length (encode s))); [lia|].
      rewrite lookup_app_l, E in Hi by lia. simpl in Hi.
      destruct (w !! i) as [x|] eqn:Ex; [|done].
      rewrite forallb_forall in Hw. rewrite (Hw x) in Hi; [done|].
      apply list_elem_of_In. by eapply list_elem_of_lookup_2.
Qed.

Lemma is_char_boundary_prefix s k :
  Forall scalar s -> (k <= length s)%nat ->
  is_char_boundary (encode s) (length (encode (take k s))) = true.
Proof.
  revert k. induction s as [|c s IH]; intros k Hs Hk; [by destruct k|].
  inversion Hs as [|? ? Hc Hs']; subst. destruct k as [|k]; [done|].
  simpl. rewrite !encode_cons, !length_app. specialize (IH k Hs'). simpl in Hk.
  unfold is_char_boundary in *. destruct (encode_char_shape c Hc) as (b & w & E & _ & _).
  destruct (length (encode_char c) + length (encode (take k s)))%nat as [|i] eqn:Ei; [done|].
  rewrite length_app, <- Ei.
  destruct (Nat.eqb_spec (length (encode_char c) + length (encode (take k s)))
              (length (encode_char c) + length (encode s))) as [|E1]; [done|].
  rewrite <- encode_cons, lookup_encode_after.
  destruct (length (encode (take k s))) as [|j] eqn:Ej.
  - destruct s as [|c' s].
    { simpl in *. lia. }
    inversion Hs'; subst. destruct (encode_lead c' s) as (b' & t & -> & Hb'); [done|].
    simpl. by rewrite Hb'.
  - rewrite (proj2 (Nat.eqb_neq _ _)) in IH; [apply IH; lia|].
    lia.
Qed.

Lemma floor_boundary_le bs n : (floor_boundary bs n <= n)%nat.
Proof. induction n as [|n IH]; simpl; [done|]. case_match; lia. Qed.

Lemma floor_boundary_ok bs n : is_char_boundary bs (floor_boundary bs n) = true.
Proof. induction n as [|n IH]; [done|]. simpl floor_boundary. by case_match. Qed.

Lemma floor_boundary_max bs n i :
  (i <= n)%nat -> is_char_boundary bs i = true -> (i <= floor_boundary bs n)%nat.
Proof.
  induction n as [|n IH]; intros Hi Hb; [simpl; lia|]. cbn [floor_boundary].
  destruct (is_char_boundary bs (S n)) eqn:E; [done|]. apply IH; [|done].
  destruct (decide (i = S n)) as [->|]; [congruence|lia].
Qed.

Lemma encode_take_app s k : encode s = encode (take k s) ++ encode (drop k s).
Proof. rewrite <- encode_app. by rewrite take_drop. Qed.

Lemma take_encode s k :
  take (length (encode (take k s))) (encode s) = encode (take k s).
Proof.
  transitivity (take (length (encode (take k s))) (encode (take k s) ++ encode (drop k s))).
  - by rewrite <- encode_take_app.
  - apply take_app_length.
Qed.

(** Truncation cuts between characters, and as late as the bound allows. *)
Lemma truncate_at_char_boundary_prefix s n :
  Forall scalar s ->
  ∃ k, truncate_at_char_boundary (encode s) n = encode (take k s)
       ∧ (length (encode (take k s)) <= n)%nat
       ∧ (k <= length s)%nat
       ∧ ((k < length s)%nat -> (n < length (encode (take (S k) s)))%nat).
Proof.
  intros Hs. unfold truncate_at_char_boundary.
  destruct (Nat.leb_spec (length (encode s)) n) as [Hle|Hgt].
  { exists (length s). rewrite take_ge by done. repeat split; [done|done|lia]. }
  destruct (is_char_boundary_encode s (floor_boundary (encode s) n) Hs) as (k & Hk & Ek).
  { apply floor_boundary_ok. }
  exists k. rewrite Ek, take_encode. rewrite <- Ek.
  repeat split; [apply floor_boundary_le|done|]. intros Hlt.
  destruct (Nat.lt_ge_cases n (length (encode (take (S k) s)))) as [|Hge]; [done|].
  pose proof (floor_boundary_max (encode s) n (length (encode (take (S k) s))) Hge
                (is_char_boundary_prefix s (S k) Hs Hlt)) as Hmax.
  rewrite Ek in Hmax.
  destruct (lookup_lt_is_Some_2 s k Hlt) as [c Hc].
  rewrite (take_S_r s k c Hc), encode_app, length_app in Hmax.
  assert (Hsc : scalar c). { rewrite Forall_lookup in Hs. eauto. }
  destruct (encode_lead c [] Hsc) as (b & t & Hbt & _). rewrite Hbt in Hmax. simpl in Hmax. lia.
Qed.

Lemma sanitize_scalar m : Forall scalar m -> Forall scalar (sanitize_error_message m).
Proof.
  intros H. unfold sanitize_error_message. apply Forall_forall. intros x [Hx _]%filter_In.
  rewrite Forall_forall in H. auto.
Qed.

Lemma lit_scalar t : Forall scalar (lit t).
Proof.
  unfold lit. apply Forall_forall. intros x (a & <- & _)%in_map_iff.
  unfold scalar. pose proof (Ascii.N_ascii_bounded a). lia.
Qed.

Lemma truncate_with_suffix_prefix s n suf :
  Forall scalar s -> Forall scalar suf ->
  ∃ k j, truncate_utf8_with_suffix (encode s) n (encode suf)
         = encode (take k s ++ take j suf)
       ∧ (length (truncate_utf8_with_suffix (encode s) n (encode suf)) <= n)%nat.
Proof.
  intros Hs Hsuf. unfold truncate_utf8_with_suffix, truncate_utf8.
  destruct (Nat.leb_spec (length (encode s)) n) as [Hle|Hgt].
  { exists (length s), 0%nat. rewrite take_ge, app_nil_r by done. done. }
  destruct (Nat.eqb_spec n 0); [exists 0%nat, 0%nat; split; [done|simpl; lia]|].
  destruct (Nat.leb_spec n (length (encode suf))) as [Hsl|Hsl].
  - destruct (truncate_at_char_boundary_prefix suf n Hsuf) as (j & -> & Hj & _).
    by exists 0%nat, j.
  - destruct (truncate_at_char_boundary_prefix s (n - length (encode suf)) Hs)
      as (k & -> & Hk & _).
    exists k, (length suf). rewrite encode_app, length_app, (take_ge suf) by done.
    split; [done|lia].
Qed.

(** ** Properties *)

(** Truncation to a byte budget never splits a character and drops no more
    than it must: the result is the encoding of a prefix of the text, fits the budget,
    and one more character would not fit. *)
Theorem truncate_utf8_longest_prefix s n :
  Forall scalar s ->
  ∃ k, truncate_utf8 (encode s) n = encode (take k s)
       ∧ (length (truncate_utf8 (encode s) n) <= n)%nat
       ∧ ((k < length s)%nat -> (n < length (encode (take (S k) s)))%nat).
Proof.
  intros Hs. unfold truncate_utf8.
  destruct (truncate_at_char_boundary_prefix s n Hs) as (k & -> & ? & ? & ?).
  by exists k.
Qed.

Definition euro_text : str := [65; 8364; 66].
Definition long_text : str := repeat 8364 700.

Lemma truncate_utf8_longest_prefix_witness :
  Forall scalar euro_text ∧ truncate_utf8 (encode euro_text) 3 = [65] ∧
  ∃ k, truncate_utf8 (encode euro_text) 3 = encode (take k euro_text)
       ∧ (length (truncate_utf8 (encode euro_text) 3) <= 3)%nat
       ∧ ((k < length euro_text)%nat -> (3 < length (encode (take (S k) euro_text)))%nat).
Proof.
  assert (H : Forall scalar euro_text) by (repeat constructor; unfold scalar; lia).
  split; [exact H|]. split; [reflexivity|].
  exact (truncate_utf8_longest_prefix euro_text 3 H).
Defined.

(** A stored error message is valid UTF-8 built from a prefix of the sanitised
    text and of the truncation note, never exceeds the byte limit, and holds no control
    character other than tab, line feed and carriage return. *)
Theorem stored_error_message_wf m :
  Forall scalar m ->
  (length (sanitize_and_truncate_error_message m) <= MAX_ERROR_MESSAGE_LENGTH)%nat ∧
  ∃ k j, sanitize_and_truncate_error_message m
         = encode (take k (sanitize_error_message m)
                   ++ take j (truncation_suffix (sanitize_error_message m)))
       ∧ Forall (λ c, c < 32 -> c = 9 \/ c = 10 \/ c = 13)
           (take k (sanitize_error_message m)).
Proof.
  intros Hm.
  assert (Hclean : ∀ k, Forall (λ c, c < 32 -> c = 9 \/ c = 10 \/ c = 13)
                          (take k (sanitize_error_message m))).
  { intros k. apply Forall_take, Forall_forall. intros c [_ Hc]%filter_In. lia. }
  pose proof (sanitize_scalar m Hm) as Hs.
  unfold sanitize_and_truncate_error_message.
  destruct (Nat.ltb_spec MAX_ERROR_MESSAGE_LENGTH
              (length (encode (sanitize_error_message m)))) as [Hlt|Hge].
  - assert (Hsuf : Forall scalar (truncation_suffix (sanitize_error_message m))).
    { unfold truncation_suffix. rewrite !Forall_app. repeat split; try apply lit_scalar.
      eapply Forall_impl; [|apply dec_digits; lia]. unfold scalar. simpl. lia. }
    destruct (truncate_with_suffix_prefix _ MAX_ERROR_MESSAGE_LENGTH _ Hs Hsuf)
      as (k & j & E & Hlen).
    split; [done|]. exists k, j. auto.
  - split; [done|]. exists (length (sanitize_error_message m)), 0%nat.
    split; [|apply Hclean]. by rewrite app_nil_r, firstn_all.
Qed.

Lemma stored_error_message_wf_witness :
  Forall scalar long_text ∧
  (length (sanitize_and_truncate_error_message long_text) = 1999)%nat ∧
  (length (sanitize_and_truncate_error_message long_text)
     <= MAX_ERROR_MESSAGE_LENGTH)%nat.
Proof.
  assert (H : Forall scalar long_text).
  { unfold long_text. apply Forall_forall. intros x ->%repeat_spec. unfold scalar. lia. }
  split; [exact H|]. split; [vm_compute; reflexivity|].
  exact (proj1 (stored_error_message_wf long_text H)).
Defined.

Lemma filter_filter_id {A} (f : A -> bool) l :
  List.filter f (List.filter f l) = List.filter f l.
Proof.
  induction l as [|x l IH]; simpl; [done|].
  destruct (f x) eqn:E; simpl; rewrite ?E, IH; done.
Qed.

(** Sanitising twice is sanitising once. *)
Theorem sanitize_idempotent m :
  sanitize_error_message (sanitize_error_message m) = sanitize_error_message m.
Proof. apply filter_filter_id. Qed.
