(* ===== verification/Net.v ===== *)
(** * Addresses, URLs and the libraries behind them

    The IP address types and predicates are those of [std::net].  The [url] crate is not
    part of the repository: it is the class [UrlLib], its documented behaviour the laws
    [UrlLaws].  Unicode lower-casing ([str::to_lowercase]) is the class [Lowercase]; the
    program only relies on its ASCII fragment, stated as [LowercaseLaws].  The module
    [Demo] gives concrete instances, used to evaluate the model. *)

From S2P Require Import Prelude.
From Stdlib Require Import Eqdep_dec.

(** ** std::net *)

Record ipv4 := Ipv4Addr { v4_a : Z; v4_b : Z; v4_c : Z; v4_d : Z }.
Record ipv6 := Ipv6Addr {
  v6_0 : Z; v6_1 : Z; v6_2 : Z; v6_3 : Z; v6_4 : Z; v6_5 : Z; v6_6 : Z; v6_7 : Z }.

Inductive IpAddr :=
  | V4 (v4 : ipv4)
  | V6 (v6 : ipv6).

Definition wf_ipv4 (ip : ipv4) : Prop :=
  0 <= v4_a ip <= 255 ∧ 0 <= v4_b ip <= 255 ∧ 0 <= v4_c ip <= 255 ∧ 0 <= v4_d ip <= 255.

Definition wf_seg (s : Z) : Prop := 0 <= s <= 65535.
Definition wf_ipv6 (ip : ipv6) : Prop :=
  wf_seg (v6_0 ip) ∧ wf_seg (v6_1 ip) ∧ wf_seg (v6_2 ip) ∧ wf_seg (v6_3 ip) ∧
  wf_seg (v6_4 ip) ∧ wf_seg (v6_5 ip) ∧ wf_seg (v6_6 ip) ∧ wf_seg (v6_7 ip).

Module V4.
Definition is_loopback (ip : ipv4) : bool := v4_a ip =? 127.
Definition is_private (ip : ipv4) : bool :=
  (v4_a ip =? 10)
  || ((v4_a ip =? 172) && (16 <=? v4_b ip) && (v4_b ip <=? 31))
  || ((v4_a ip =? 192) && (v4_b ip =? 168)).
Definition is_link_local (ip : ipv4) : bool := (v4_a ip =? 169) && (v4_b ip =? 254).
Definition is_multicast (ip : ipv4) : bool := (224 <=? v4_a ip) && (v4_a ip <=? 239).
Definition is_broadcast (ip : ipv4) : bool :=
  (v4_a ip =? 255) && (v4_b ip =? 255) && (v4_c ip =? 255) && (v4_d ip =? 255).
Definition is_documentation (ip : ipv4) : bool :=
  ((v4_a ip =? 192) && (v4_b ip =? 0) && (v4_c ip =? 2))
  || ((v4_a ip =? 198) && (v4_b ip =? 51) && (v4_c ip =? 100))
  || ((v4_a ip =? 203) && (v4_b ip =? 0) && (v4_c ip =? 113)).
End V4.

Module V6.
Definition segments (ip : ipv6) : list Z :=
  [v6_0 ip; v6_1 ip; v6_2 ip; v6_3 ip; v6_4 ip; v6_5 ip; v6_6 ip; v6_7 ip].
Definition first_zero (n : nat) (ip : ipv6) : bool :=
  forallb (Z.eqb 0) (take n (segments ip)).
Definition is_unspecified (ip : ipv6) : bool := first_zero 8 ip.
Definition is_loopback (ip : ipv6) : bool := first_zero 7 ip && (v6_7 ip =? 1).
(** fc00::/7, fe80::/10 and ff00::/8 *)
Definition is_unique_local (ip : ipv6) : bool := Z.land (v6_0 ip) 65024 =? 64512.
Definition is_unicast_link_local (ip : ipv6) : bool := Z.land (v6_0 ip) 65472 =? 65152.
Definition is_multicast (ip : ipv6) : bool := Z.land (v6_0 ip) 65280 =? 65280.

Definition low_v4 (ip : ipv6) : ipv4 :=
  Ipv4Addr (v6_6 ip / 256) (v6_6 ip mod 256) (v6_7 ip / 256) (v6_7 ip mod 256).
Definition to_ipv4_mapped (ip : ipv6) : option ipv4 :=
  if first_zero 5 ip && (v6_5 ip =? 65535) then Some (low_v4 ip) else None.
Definition to_ipv4 (ip : ipv6) : option ipv4 :=
  if first_zero 5 ip && ((v6_5 ip =? 0) || (v6_5 ip =? 65535))
  then Some (low_v4 ip) else None.
End V6.

(** ** The url crate *)

Inductive Host :=
  | Domain (d : str)
  | Ipv4 (ip : ipv4)
  | Ipv6 (ip : ipv6).

Class UrlLib := {
  Url : Type;
  url_parse : str -> option Url;
  url_join : Url -> str -> option Url;
  url_scheme : Url -> str;
  url_host : Url -> option Host;
  url_host_str : Url -> option str;
  url_to_string : Url -> str;
}.

(** The serialisation of a URL parses back to that URL. *)
Class UrlLaws (U : UrlLib) := {
  url_reparse : ∀ u : Url, url_parse (url_to_string u) = Some u;
}.

Class Lowercase := { to_lowercase : str -> str }.
Class LowercaseLaws (L : Lowercase) := {
  to_lowercase_ascii : ∀ s, forallb is_ascii s = true -> to_lowercase s = to_ascii_lowercase s;
}.

#[export] Instance ipv4_eq_dec : EqDecision ipv4.
Proof. solve_decision. Defined.
#[export] Instance ipv6_eq_dec : EqDecision ipv6.
Proof. solve_decision. Defined.
#[export] Instance IpAddr_eq_dec : EqDecision IpAddr.
Proof. solve_decision. Defined.
#[export] Instance Host_eq_dec : EqDecision Host.
Proof. solve_decision. Defined.

(** ** Concrete instances *)

Module Demo.
Definition ascii_lowercase : Lowercase := {| to_lowercase := to_ascii_lowercase |}.
Lemma ascii_lowercase_laws : LowercaseLaws ascii_lowercase.
Proof. by split. Defined.

(** URLs [scheme://host/path]: the scheme has no colon, the host no slash; a host of
    four decimal octets is an IPv4 address. *)
Record url := MkUrl { scheme : str; host : str; path : str }.
#[export] Instance url_eq_dec : EqDecision url.
Proof. solve_decision. Defined.

Definition octet (s : str) : option Z := parse_uint 255 s.
Definition parse_host (h : str) : Host :=
  match map octet (split_char 46 h) with
  | [Some a; Some b; Some c; Some d] => Ipv4 (Ipv4Addr a b c d)
  | _ => Domain h
  end.

Definition parse (s : str) : option url :=
  match split_once 58 s with
  | Some (sch, 47 :: 47 :: rest) =>
      if nonempty sch then
        match split_once 47 rest with
        | Some (h, p) => if nonempty h then Some (MkUrl sch h (47 :: p)) else None
        | None => if nonempty rest then Some (MkUrl sch rest []) else None
        end
      else None
  | _ => None
  end.

Definition to_string (u : url) : str := scheme u ++ lit "://" ++ host u ++ path u.

(** The URLs whose serialisation parses back. *)
Definition canonical (u : url) : bool := bool_decide (parse (to_string u) = Some u).
Definition curl : Type := { u : url | canonical u = true }.

Definition make (u : url) : option curl :=
  match Bool.bool_dec (canonical u) true with
  | left H => Some (u ↾ H)
  | right _ => None
  end.

Definition join (u : curl) (s : str) : option curl :=
  match parse s with
  | Some absolute => make absolute
  | None =>
      let '(MkUrl sch h _) := proj1_sig u in
      make (MkUrl sch h (match s with 47 :: _ => s | _ => 47 :: s end))
  end.

Definition urls : UrlLib := {|
  Url := curl;
  url_parse := λ s, match parse s with Some u => make u | None => None end;
  url_join := join;
  url_scheme := λ u, scheme (proj1_sig u);
  url_host := λ u, Some (parse_host (host (proj1_sig u)));
  url_host_str := λ u, Some (host (proj1_sig u));
  url_to_string := λ u, to_string (proj1_sig u);
|}.

Lemma urls_laws : UrlLaws urls.
Proof.
  split. intros [u H]. simpl. pose proof H as Hp. apply bool_decide_eq_true in Hp.
  rewrite Hp. unfold make. destruct (Bool.bool_dec (canonical u) true) as [H'|]; [|done].
  f_equal. f_equal. apply (UIP_dec Bool.bool_dec).
Defined.
End Demo.
