(* ===== verification/Security.v ===== *)
(** * SSRF protection ([src/src/security/])

    [url_validation.rs] decides which URLs and addresses may be contacted;
    [safe_resolver.rs] filters DNS answers with the same predicate. *)

From S2P Require Import Prelude Net.

(** ** url_validation.rs *)

Definition is_private_ipv4 (ip : ipv4) : bool :=
  if V4.is_loopback ip || V4.is_private ip || V4.is_link_local ip || V4.is_multicast ip
     || V4.is_broadcast ip || V4.is_documentation ip
  then true
  else (v4_a ip =? 0)
       || ((v4_a ip =? 100) && ((64 <=? v4_b ip) && (v4_b ip <=? 127)))
       || ((v4_a ip =? 198) && ((v4_b ip =? 18) || (v4_b ip =? 19)))
       || ((v4_a ip =? 192) && (v4_b ip =? 0) && (v4_c ip =? 0))
       || (240 <=? v4_a ip).

Definition is_private_ipv6 (ip : ipv6) : bool :=
  match V6.to_ipv4_mapped ip with
  | Some v4 => is_private_ipv4 v4
  | None =>
      if V6.is_unspecified ip || V6.is_loopback ip || V6.is_unique_local ip
         || V6.is_unicast_link_local ip || V6.is_multicast ip
      then true
      else if (v6_0 ip =? 8193) && (v6_1 ip =? 3512) then true
      else match V6.to_ipv4 ip with
           | Some v4 => is_private_ipv4 v4
           | None => false
           end
  end.

Definition is_private_ip (ip : IpAddr) : bool :=
  match ip with
  | V4 v4 => is_private_ipv4 v4
  | V6 v6 => is_private_ipv6 v6
  end.

(** The reasons for which a URL is refused. *)
Inductive UnsafeUrl :=
  | UrlParseFailed
  | UnsafeScheme (scheme : str)
  | LocalhostDomain (domain : str)
  | PrivateIpv4 (ip : ipv4)
  | PrivateIpv6 (ip : ipv6)
  | NoHostComponent.

Section Validation.
Context `{U : UrlLib} `{L : Lowercase}.

Definition is_localhost_domain (domain : str) : bool :=
  let domain_lower := to_lowercase domain in
  streqb domain_lower (lit "localhost") || streqb domain_lower (lit "localhost.")
  || streqb domain_lower (lit "localhost.localdomain")
  || streqb domain_lower (lit "localhost.localdomain.")
  || ends_with (lit ".localhost") domain_lower
  || ends_with (lit ".localhost.") domain_lower.

Definition is_http_scheme (scheme : str) : bool :=
  streqb scheme (lit "http") || streqb scheme (lit "https").

Definition validate_url_safe (url_str : str) : result unit UnsafeUrl :=
  match url_parse url_str with
  | None => Err UrlParseFailed
  | Some url =>
      if negb (is_http_scheme (url_scheme url)) then Err (UnsafeScheme (url_scheme url))
      else match url_host url with
           | Some (Domain domain) =>
               if is_localhost_domain domain then Err (LocalhostDomain domain) else Ok tt
           | Some (Ipv4 ip) => if is_private_ipv4 ip then Err (PrivateIpv4 ip) else Ok tt
           | Some (Ipv6 ip) => if is_private_ipv6 ip then Err (PrivateIpv6 ip) else Ok tt
           | None => Err NoHostComponent
           end
  end.

(** The redirect policy of the download clients: follow or stop. *)
Inductive RedirectAction := Follow | Stop.
Definition ssrf_safe_redirect_policy (url : str) : RedirectAction :=
  match validate_url_safe url with
  | Ok _ => Follow
  | Err _ => Stop
  end.
End Validation.

(** ** safe_resolver.rs *)

Record SocketAddr := MkSocketAddr { sa_ip : IpAddr; sa_port : Z }.

Definition is_public_ip (ip : IpAddr) : bool := negb (is_private_ip ip).

(** [None] is the [PermissionDenied] error raised when no answer is public. *)
Definition filter_public_socket_addrs (ips : list IpAddr) : option (list SocketAddr) :=
  let safe_addrs :=
    List.filter (λ addr, is_public_ip (sa_ip addr)) (map (λ ip, MkSocketAddr ip 0) ips) in
  match safe_addrs with
  | [] => None
  | _ => Some safe_addrs
  end.

(** [SafeResolver::resolve], the lookup itself being the resolver library's. *)
Definition resolve {E} (lookup_ip : str -> result (list IpAddr) E) (name : str)
  : result (list SocketAddr) (option E) :=
  match lookup_ip name with
  | Err e => Err (Some e)
  | Ok ips => match filter_public_socket_addrs ips with
              | Some addrs => Ok addrs
              | None => Err None
              end
  end.

(** ** Reference: the refused ranges as CIDR blocks *)

Definition ip32 (ip : ipv4) : Z :=
  v4_a ip * 16777216 + v4_b ip * 65536 + v4_c ip * 256 + v4_d ip.

Definition in_cidr4 (ip : ipv4) (block : ipv4 * Z) : bool :=
  let (net, len) := block in ip32 ip / 2 ^ (32 - len) =? ip32 net / 2 ^ (32 - len).

Definition private_blocks4 : list (ipv4 * Z) :=
  [ (Ipv4Addr 0 0 0 0, 8); (Ipv4Addr 10 0 0 0, 8); (Ipv4Addr 100 64 0 0, 10);
    (Ipv4Addr 127 0 0 0, 8); (Ipv4Addr 169 254 0 0, 16); (Ipv4Addr 172 16 0 0, 12);
    (Ipv4Addr 192 0 0 0, 24); (Ipv4Addr 192 0 2 0, 24); (Ipv4Addr 192 168 0 0, 16);
    (Ipv4Addr 198 18 0 0, 15); (Ipv4Addr 198 51 100 0, 24); (Ipv4Addr 203 0 113 0, 24);
    (Ipv4Addr 224 0 0 0, 4); (Ipv4Addr 240 0 0 0, 4) ].

(** 128-bit value and prefix test for IPv6. *)
Definition ip128 (ip : ipv6) : Z := foldl (λ acc s, acc * 65536 + s) 0 (V6.segments ip).

Definition in_cidr6 (ip : ipv6) (block : ipv6 * Z) : bool :=
  let (net, len) := block in ip128 ip / 2 ^ (128 - len) =? ip128 net / 2 ^ (128 - len).

Definition private_blocks6 : list (ipv6 * Z) :=
  [ (Ipv6Addr 0 0 0 0 0 0 0 0, 128); (Ipv6Addr 0 0 0 0 0 0 0 1, 128);
    (Ipv6Addr 64512 0 0 0 0 0 0 0, 7); (Ipv6Addr 65152 0 0 0 0 0 0 0, 10);
    (Ipv6Addr 65280 0 0 0 0 0 0 0, 8); (Ipv6Addr 8193 3512 0 0 0 0 0 0, 32) ].

Definition v4_mapped_block : ipv6 * Z := (Ipv6Addr 0 0 0 0 0 65535 0 0, 96).
Definition v4_compatible_block : ipv6 * Z := (Ipv6Addr 0 0 0 0 0 0 0 0, 96).

Definition private_ipv6_spec (ip : ipv6) : bool :=
  existsb (in_cidr6 ip) private_blocks6
  || ((in_cidr6 ip v4_mapped_block || in_cidr6 ip v4_compatible_block)
      && existsb (in_cidr4 (V6.low_v4 ip)) private_blocks4).

Definition wf_ip (ip : IpAddr) : Prop :=
  match ip with V4 v4 => wf_ipv4 v4 | V6 v6 => wf_ipv6 v6 end.

Definition private_ip_spec (ip : IpAddr) : bool :=
  match ip with
  | V4 v4 => existsb (in_cidr4 v4) private_blocks4
  | V6 v6 => private_ipv6_spec v6
  end.

(** ** Lemmas: one per prefix length *)

Ltac cidr4 :=
  intros Hx Hy; unfold wf_ipv4 in *; apply Bool.eq_iff_eq_true;
  unfold in_cidr4, ip32; cbn [Z.sub Z.pow Z.pow_pos Pos.iter Z.mul Pos.mul];
  rewrite ?andb_true_iff, ?Z.eqb_eq; Z.to_euclidean_division_equations; lia.

Section Cidr4.
Context (x y : ipv4).

Lemma in_cidr4_4 : wf_ipv4 x -> wf_ipv4 y ->
  in_cidr4 x (y, 4) = (v4_a x / 16 =? v4_a y / 16).
Proof. cidr4. Qed.
Lemma in_cidr4_8 : wf_ipv4 x -> wf_ipv4 y -> in_cidr4 x (y, 8) = (v4_a x =? v4_a y).
Proof. cidr4. Qed.
Lemma in_cidr4_10 : wf_ipv4 x -> wf_ipv4 y ->
  in_cidr4 x (y, 10) = (v4_a x =? v4_a y) && (v4_b x / 64 =? v4_b y / 64).
Proof. cidr4. Qed.
Lemma in_cidr4_12 : wf_ipv4 x -> wf_ipv4 y ->
  in_cidr4 x (y, 12) = (v4_a x =? v4_a y) && (v4_b x / 16 =? v4_b y / 16).
Proof. cidr4. Qed.
Lemma in_cidr4_15 : wf_ipv4 x -> wf_ipv4 y ->
  in_cidr4 x (y, 15) = (v4_a x =? v4_a y) && (v4_b x / 2 =? v4_b y / 2).
Proof. cidr4. Qed.
Lemma in_cidr4_16 : wf_ipv4 x -> wf_ipv4 y ->
  in_cidr4 x (y, 16) = (v4_a x =? v4_a y) && (v4_b x =? v4_b y).
Proof. cidr4. Qed.
Lemma in_cidr4_24 : wf_ipv4 x -> wf_ipv4 y ->
  in_cidr4 x (y, 24) = (v4_a x =? v4_a y) && (v4_b x =? v4_b y) && (v4_c x =? v4_c y).
Proof. cidr4. Qed.
End Cidr4.

Lemma private_blocks4_wf : Forall (λ b, wf_ipv4 b.1) private_blocks4.
Proof. repeat constructor; simpl; lia. Qed.

Lemma is_private_ipv4_cidr ip :
  wf_ipv4 ip -> is_private_ipv4 ip = existsb (in_cidr4 ip) private_blocks4.
Proof.
  intros H. unfold private_blocks4. cbn [existsb].
  rewrite ?in_cidr4_4, ?in_cidr4_8, ?in_cidr4_10, ?in_cidr4_12, ?in_cidr4_15,
    ?in_cidr4_16, ?in_cidr4_24 by (done || (unfold wf_ipv4; simpl; lia)).
  unfold is_private_ipv4, V4.is_loopback, V4.is_private, V4.is_link_local,
    V4.is_multicast, V4.is_broadcast, V4.is_documentation, wf_ipv4 in *.
  cbn [v4_a v4_b v4_c v4_d]. destruct ip as [a b c d]; cbn [v4_a v4_b v4_c v4_d] in *.
  assert (Ha : (a / 16 =? 224 / 16) = (224 <=? a) && (a <=? 239)).
  { Z.to_euclidean_division_equations; lia. }
  assert (Hf : (a / 16 =? 240 / 16) = (240 <=? a)).
  { Z.to_euclidean_division_equations; lia. }
  assert (Hb : (b / 64 =? 64 / 64) = (64 <=? b) && (b <=? 127)).
  { Z.to_euclidean_division_equations; lia. }
  assert (Hc : (b / 16 =? 16 / 16) = (16 <=? b) && (b <=? 31)).
  { Z.to_euclidean_division_equations; lia. }
  assert (Hd : (b / 2 =? 18 / 2) = (b =? 18) || (b =? 19)).
  { Z.to_euclidean_division_equations; lia. }
  rewrite Ha, Hf, Hb, Hc, Hd. clear Ha Hf Hb Hc Hd.
  rewrite <- orb_lazy_alt.
  repeat match goal with
  | |- context [a =? ?k] => destruct (Z.eqb_spec a k) as [->|?]; [simpl; lia|]
  end; lia.
Qed.

(** IPv6 addresses are numbers of eight digits in base 65536; a prefix of [16 * n] bits
    keeps the first [n] digits. *)
Section Base.
Definition digits_value (l : list Z) : Z := foldl (λ acc s, acc * 65536 + s) 0 l.

Lemma digits_value_foldl acc l :
  foldl (λ acc s, acc * 65536 + s) acc l
  = acc * 65536 ^ Z.of_nat (length l) + digits_value l.
Proof.
  unfold digits_value. revert acc. induction l as [|s l IH]; intros acc; simpl foldl.
  - simpl. lia.
  - rewrite IH, (IH (0 * 65536 + s)). cbn [length].
    rewrite Nat2Z.inj_succ, Z.pow_succ_r by lia. lia.
Qed.

Lemma digits_value_cons s l :
  digits_value (s :: l) = s * 65536 ^ Z.of_nat (length l) + digits_value l.
Proof. unfold digits_value at 1. simpl foldl. apply digits_value_foldl. Qed.

Lemma digits_value_app a b :
  digits_value (a ++ b)
  = digits_value a * 65536 ^ Z.of_nat (length b) + digits_value b.
Proof. unfold digits_value at 1. rewrite foldl_app. apply digits_value_foldl. Qed.

Lemma digits_value_range l :
  Forall wf_seg l -> 0 <= digits_value l < 65536 ^ Z.of_nat (length l).
Proof.
  induction 1 as [|s l Hs Hl IH]; [done|]. rewrite digits_value_cons.
  cbn [length]. rewrite Nat2Z.inj_succ, Z.pow_succ_r by lia. unfold wf_seg in Hs. nia.
Qed.

Lemma digits_value_inj a b :
  Forall wf_seg a -> Forall wf_seg b -> length a = length b ->
  digits_value a = digits_value b -> a = b.
Proof.
  intros Ha. revert b. induction Ha as [|s a Hs Ha IH]; intros [|t b] Hb Hlen; try done.
  inversion Hb as [|? ? Ht Hb']; subst. injection Hlen as Hlen.
  rewrite !digits_value_cons, <- Hlen. intros E.
  pose proof (digits_value_range a Ha). pose proof (digits_value_range b Hb') as Hr.
  rewrite <- Hlen in Hr.
  assert (s = t) as -> by nia. f_equal. apply IH; [done|done|lia].
Qed.

Lemma digits_value_div a b :
  Forall wf_seg b ->
  digits_value (a ++ b) / 65536 ^ Z.of_nat (length b) = digits_value a.
Proof.
  intros Hb. rewrite digits_value_app. pose proof (digits_value_range b Hb).
  rewrite Z.div_add_l by lia. rewrite Z.div_small by done. lia.
Qed.
End Base.

Lemma segments_wf x : wf_ipv6 x -> Forall wf_seg (V6.segments x).
Proof. intros H. unfold wf_ipv6 in H. unfold V6.segments. repeat apply Forall_cons_2; try tauto. apply Forall_nil_2. Qed.

Lemma ip128_div x (n : nat) :
  wf_ipv6 x -> (n <= 8)%nat ->
  ip128 x / 2 ^ (128 - 16 * Z.of_nat n) = digits_value (take n (V6.segments x)).
Proof.
  intros Hx Hn. pose proof (segments_wf x Hx) as Hs. unfold ip128. fold (digits_value (V6.segments x)).
  rewrite <- (take_drop n (V6.segments x)) at 1.
  replace (2 ^ (128 - 16 * Z.of_nat n))
    with (65536 ^ Z.of_nat (length (drop n (V6.segments x)))).
  - apply digits_value_div. by apply Forall_drop.
  - rewrite length_drop. change (length (V6.segments x)) with 8%nat.
    change 65536 with (2 ^ 16). rewrite <- Z.pow_mul_r by lia. f_equal. lia.
Qed.

Lemma in_cidr6_aligned x y (n : nat) :
  wf_ipv6 x -> wf_ipv6 y -> (n <= 8)%nat ->
  in_cidr6 x (y, 16 * Z.of_nat n)
  = bool_decide (take n (V6.segments x) = take n (V6.segments y)).
Proof.
  intros Hx Hy Hn. unfold in_cidr6. rewrite !ip128_div by done.
  apply Bool.eq_iff_eq_true. rewrite Z.eqb_eq, bool_decide_eq_true.
  split; [|by intros ->]. apply digits_value_inj.
  - by apply Forall_take, segments_wf.
  - by apply Forall_take, segments_wf.
  - by rewrite !length_take.
Qed.

(** Prefixes within the first digit. *)
Lemma in_cidr6_short x y len :
  wf_ipv6 x -> wf_ipv6 y -> 0 <= len <= 16 ->
  in_cidr6 x (y, len) = (v6_0 x / 2 ^ (16 - len) =? v6_0 y / 2 ^ (16 - len)).
Proof.
  intros Hx Hy Hl.
  assert (H : ∀ z, wf_ipv6 z -> ip128 z / 2 ^ (128 - len) = v6_0 z / 2 ^ (16 - len)).
  { intros z Hz. replace (128 - len) with (112 + (16 - len)) by lia.
    rewrite Z.pow_add_r, <- Z.div_div by lia. f_equal.
    change 112 with (128 - 16 * Z.of_nat 1). rewrite ip128_div by (done || lia).
    by unfold digits_value, V6.segments. }
  unfold in_cidr6. by rewrite !H.
Qed.

Lemma first_zero_take n ip :
  (n <= 8)%nat ->
  V6.first_zero n ip
  = bool_decide (take n (V6.segments ip) = take n (V6.segments (Ipv6Addr 0 0 0 0 0 0 0 0))).
Proof.
  intros Hn. unfold V6.first_zero. change (V6.segments (Ipv6Addr _ _ _ _ _ _ _ _))
    with (replicate 8 0). rewrite take_replicate, Nat.min_l by lia.
  apply Bool.eq_iff_eq_true. rewrite forallb_forall, bool_decide_eq_true.
  split; [|by intros -> x [-> _]%list_elem_of_In%elem_of_replicate].
  intros H. symmetry. apply replicate_as_elem_of. split; [rewrite length_take; simpl; lia|].
  intros x Hx%list_elem_of_In%H. lia.
Qed.

Lemma mask_div x k :
  0 <= k <= 16 -> 0 <= x <= 65535 ->
  Z.land x (65536 - 2 ^ k) = x / 2 ^ k * 2 ^ k.
Proof.
  intros Hk Hx. rewrite <- Z.shiftr_div_pow2, <- Z.shiftl_mul_pow2 by lia.
  apply Z.bits_inj'. intros i Hi. rewrite Z.land_spec.
  replace (65536 - 2 ^ k) with (Z.shiftl (Z.ones (16 - k)) k).
  - destruct (Z.lt_ge_cases i k).
    + by rewrite !Z.shiftl_spec_low, andb_false_r by lia.
    + rewrite !Z.shiftl_spec, Z.shiftr_spec by lia.
      replace (i - k + k) with i by lia.
      destruct (Z.lt_ge_cases i 16).
      * by rewrite Z.ones_spec_low, andb_true_r by lia.
      * rewrite Z.ones_spec_high, andb_false_r by lia. symmetry.
        destruct (Z.eq_dec x 0) as [->|]; [apply Z.bits_0|].
        apply Z.bits_above_log2; [lia|].
        apply Z.lt_le_trans with 16; [|done]. apply Z.log2_lt_pow2; [lia|].
        change (2 ^ 16) with 65536. lia.
  - rewrite Z.shiftl_mul_pow2, Z.ones_equiv by lia.
    replace 65536 with (2 ^ ((16 - k) + k)) by (replace (16 - k + k) with 16 by lia; done).
    rewrite Z.pow_add_r by lia. lia.
Qed.

Lemma mask_eqb x y k :
  0 <= k <= 16 -> 0 <= x <= 65535 -> 0 <= y <= 65535 -> y mod 2 ^ k = 0 ->
  (Z.land x (65536 - 2 ^ k) =? y) = (x / 2 ^ k =? y / 2 ^ k).
Proof.
  intros Hk Hx Hy Hm. rewrite mask_div by done.
  assert (0 < 2 ^ k) by (apply Z.pow_pos_nonneg; lia).
  pose proof (Z.div_mod y (2 ^ k)). apply Bool.eq_iff_eq_true. rewrite !Z.eqb_eq. nia.
Qed.

Lemma bool_decide_cons (a b : Z) l k :
  bool_decide (a :: l = b :: k) = (a =? b) && bool_decide (l = k).
Proof.
  apply Bool.eq_iff_eq_true. rewrite andb_true_iff, !bool_decide_eq_true, Z.eqb_eq.
  split; [by intros [= -> ->]|by intros [-> ->]].
Qed.

Lemma in_cidr6_32 x y :
  wf_ipv6 x -> wf_ipv6 y ->
  in_cidr6 x (y, 32) = (v6_0 x =? v6_0 y) && (v6_1 x =? v6_1 y).
Proof.
  intros Hx Hy. change 32 with (16 * Z.of_nat 2). rewrite in_cidr6_aligned by (done || lia).
  unfold V6.segments. simpl take. by rewrite !bool_decide_cons, andb_true_r.
Qed.

Lemma in_cidr6_96 x y :
  wf_ipv6 x -> wf_ipv6 y ->
  in_cidr6 x (y, 96)
  = bool_decide (take 5 (V6.segments x) = take 5 (V6.segments y)) && (v6_5 x =? v6_5 y).
Proof.
  intros Hx Hy. change 96 with (16 * Z.of_nat 6). rewrite in_cidr6_aligned by (done || lia).
  unfold V6.segments. simpl take. rewrite !bool_decide_cons.
  by rewrite <- !andb_assoc, !andb_true_r.
Qed.

Lemma in_cidr6_128 x y :
  wf_ipv6 x -> wf_ipv6 y ->
  in_cidr6 x (y, 128)
  = bool_decide (take 5 (V6.segments x) = take 5 (V6.segments y)) && (v6_5 x =? v6_5 y)
    && (v6_6 x =? v6_6 y) && (v6_7 x =? v6_7 y).
Proof.
  intros Hx Hy. change 128 with (16 * Z.of_nat 8). rewrite in_cidr6_aligned by (done || lia).
  unfold V6.segments. simpl take. rewrite !bool_decide_cons.
  by rewrite <- !andb_assoc, !andb_true_r.
Qed.

(** The first [n] digits are zero: five of them are common to all the special forms. *)
Lemma first_zero_5 ip : ∃ z,
  V6.first_zero 5 ip = z
  ∧ bool_decide (take 5 (V6.segments ip) = [0; 0; 0; 0; 0]) = z
  ∧ V6.first_zero 7 ip = z && (v6_5 ip =? 0) && (v6_6 ip =? 0)
  ∧ V6.first_zero 8 ip = z && (v6_5 ip =? 0) && (v6_6 ip =? 0) && (v6_7 ip =? 0)
  ∧ (z = true -> v6_0 ip = 0).
Proof.
  eexists. split; [done|]. rewrite !first_zero_take by lia.
  unfold V6.segments. simpl take. rewrite !bool_decide_cons.
  cbn [v6_0 v6_1 v6_2 v6_3 v6_4 v6_5 v6_6 v6_7].
  rewrite <- !andb_assoc. rewrite !andb_true_r. repeat split; try done.
  intros [E _]%andb_true_iff. lia.
Qed.

Lemma private_ipv6_spec_eq ip :
  wf_ipv6 ip -> is_private_ipv6 ip = private_ipv6_spec ip.
Proof.
  intros H.
  assert (Hlow : wf_ipv4 (V6.low_v4 ip)).
  { unfold wf_ipv6, wf_seg, wf_ipv4, V6.low_v4 in *; cbn [v4_a v4_b v4_c v4_d].
    Z.to_euclidean_division_equations; lia. }
  unfold private_ipv6_spec, private_blocks6, v4_mapped_block, v4_compatible_block.
  cbn [existsb]. rewrite <- (is_private_ipv4_cidr _ Hlow). clear Hlow.
  rewrite !in_cidr6_128, !in_cidr6_96, in_cidr6_32, (in_cidr6_short ip _ 7),
    (in_cidr6_short ip _ 10), (in_cidr6_short ip _ 8)
    by (done || lia || (unfold wf_ipv6, wf_seg; simpl; lia)).
  unfold is_private_ipv6, V6.to_ipv4_mapped, V6.to_ipv4, V6.is_unspecified, V6.is_loopback,
    V6.is_unique_local, V6.is_unicast_link_local, V6.is_multicast.
  assert (H0 : 0 <= v6_0 ip <= 65535) by apply H.
  pose proof (mask_eqb (v6_0 ip) 64512 9 ltac:(lia) H0 ltac:(lia) eq_refl) as M7.
  pose proof (mask_eqb (v6_0 ip) 65152 6 ltac:(lia) H0 ltac:(lia) eq_refl) as M10.
  pose proof (mask_eqb (v6_0 ip) 65280 8 ltac:(lia) H0 ltac:(lia) eq_refl) as M8.
  change (65536 - 2 ^ 9) with 65024 in M7. change (65536 - 2 ^ 6) with 65472 in M10.
  change (65536 - 2 ^ 8) with 65280 in M8. rewrite M7, M10, M8. clear M7 M10 M8.
  destruct (first_zero_5 ip) as (z & -> & Hz & -> & -> & Hz0).
  change (16 - 7) with 9. change (16 - 10) with 6. change (16 - 8) with 8.
  cbn [v6_0 v6_1 v6_5 v6_6 v6_7]. cbn [V6.segments take v6_0 v6_1 v6_2 v6_3 v6_4] in *.
  rewrite !Hz. clear Hz H H0.
  destruct z; cbn [andb orb].
  - rewrite Hz0 by done. simpl.
    destruct (Z.eqb_spec (v6_5 ip) 65535) as [->|]; simpl; [done|].
    destruct (v6_5 ip =? 0), (v6_6 ip =? 0), (v6_7 ip =? 0), (v6_7 ip =? 1),
      (is_private_ipv4 (V6.low_v4 ip)) eqn:?; simpl; done.
  - destruct (v6_0 ip / 2 ^ 9 =? 64512 / 2 ^ 9), (v6_0 ip / 2 ^ 6 =? 65152 / 2 ^ 6),
      (v6_0 ip / 2 ^ 8 =? 65280 / 2 ^ 8), (v6_0 ip =? 8193), (v6_1 ip =? 3512);
      simpl; done.
Qed.

(** ** Properties *)

(** C20: The chain of predicates that classifies an address as private is membership in
    the reserved CIDR blocks: 14 IPv4 blocks; for IPv6 six blocks, and for the addresses
    that embed an IPv4 address (mapped or compatible) the IPv4 blocks again. *)
Theorem is_private_ip_cidr ip : wf_ip ip -> is_private_ip ip = private_ip_spec ip.
Proof.
  destruct ip; simpl; [apply is_private_ipv4_cidr|apply private_ipv6_spec_eq].
Qed.

Definition cgnat_mapped : IpAddr := V6 (Ipv6Addr 0 0 0 0 0 65535 25664 1).

Lemma is_private_ip_cidr_witness :
  wf_ip cgnat_mapped ∧ is_private_ip cgnat_mapped = true
  ∧ is_private_ip cgnat_mapped = private_ip_spec cgnat_mapped.
Proof.
  assert (H : wf_ip cgnat_mapped) by (unfold wf_ip, wf_ipv6, wf_seg; simpl; lia).
  split; [exact H|]. split; [reflexivity|]. exact (is_private_ip_cidr _ H).
Defined.

Section ValidationSpec.
Context `{U : UrlLib} `{L : Lowercase}.

(** What the scanner may contact: a domain that is no spelling of localhost, or an address
    outside the private blocks. *)
Definition localhost_names : list str :=
  [lit "localhost"; lit "localhost."; lit "localhost.localdomain"; lit "localhost.localdomain."].

Definition safe_host (h : Host) : Prop :=
  match h with
  | Domain d =>
      ¬ (to_lowercase d ∈ localhost_names)
      ∧ ∀ sub, to_lowercase d <> sub ++ lit ".localhost" ∧ to_lowercase d <> sub ++ lit ".localhost."
  | Ipv4 ip => private_ip_spec (V4 ip) = false
  | Ipv6 ip => private_ip_spec (V6 ip) = false
  end.

(** Octets and segments in range: what the [Ipv4Addr] and [Ipv6Addr] of a URL are. *)
Definition wf_host (h : Host) : Prop :=
  match h with Domain _ => True | Ipv4 ip => wf_ipv4 ip | Ipv6 ip => wf_ipv6 ip end.

Lemma localhost_domain_spec d : is_localhost_domain d = false <-> safe_host (Domain d).
Proof.
  unfold is_localhost_domain, safe_host, localhost_names. cbn zeta.
  rewrite !orb_false_iff, !streqb_neq, !not_elem_of_cons.
  assert (He : ∀ p s, ends_with p s = false <-> ∀ sub, s <> sub ++ p).
  { intros p s. rewrite <- not_true_iff_false, ends_with_iff. naive_solver. }
  rewrite !He. split.
  - intros [[[[[? ?] ?] ?] ?] ?]. split; [|by intros; split].
    split_and!; try done. by apply not_elem_of_nil.
  - intros [(? & ? & ? & ? & _) Hs]. split_and!; try done; intros sub; apply (Hs sub).
Qed.

(** A URL is accepted exactly when it parses, its scheme is http or https, and
    its host is a domain that does not name the local machine or an address outside the
    private CIDR blocks. *)
Theorem validate_url_safe_iff s :
  (∀ u h, url_host u = Some h -> wf_host h) ->
  validate_url_safe s = Ok tt <->
  ∃ u h, url_parse s = Some u
    ∧ (url_scheme u = lit "http" \/ url_scheme u = lit "https")
    ∧ url_host u = Some h ∧ safe_host h.
Proof.
  intros Hwf. unfold validate_url_safe, is_http_scheme. destruct (url_parse s) as [u|].
  2: { split; [done|]. by intros (? & ? & ? & _). }
  destruct (streqb (url_scheme u) (lit "http") || streqb (url_scheme u) (lit "https"))
    eqn:E; cbn [negb].
  2: { split; [done|]. intros (? & h & [= <-] & Hs & _).
       rewrite orb_false_iff, !streqb_neq in E. tauto. }
  rewrite orb_true_iff, !streqb_eq in E.
  assert (Hh : ∀ h, url_host u = Some h ->
    match h with
    | Domain domain => is_localhost_domain domain
    | Ipv4 ip => is_private_ipv4 ip | Ipv6 ip => is_private_ipv6 ip
    end = false <-> safe_host h).
  { intros h Hu%Hwf. destruct h as [d|ip|ip]; cbn in Hu.
    - apply localhost_domain_spec.
    - by rewrite (is_private_ipv4_cidr ip Hu).
    - by rewrite (private_ipv6_spec_eq ip Hu). }
  split.
  - intros H. exists u. destruct (url_host u) as [h|] eqn:Eh; [|done].
    exists h. split_and!; [done|done|done|]. apply Hh; [done|]. destruct h; by case_match.
  - intros (? & h & [= <-] & _ & Eh & Hs). rewrite Eh. apply Hh in Hs; [|done].
    destruct h; by rewrite Hs.
Qed.

Lemma ends_with_suffix p s : ends_with p (s ++ p) = true.
Proof. apply ends_with_iff. eauto. Qed.

(** Every spelling of a subdomain of localhost is refused: any ASCII label
    prefix, any letter case, with or without the trailing dot. *)
Theorem localhost_subdomains_refused `{!LowercaseLaws L} sub d :
  forallb is_ascii (sub ++ d) = true ->
  to_ascii_lowercase d = lit "localhost" \/ to_ascii_lowercase d = lit "localhost." ->
  is_localhost_domain d = true ∧ is_localhost_domain (sub ++ lit "." ++ d) = true.
Proof.
  intros Ha Hd. rewrite forallb_app, andb_true_iff in Ha. destruct Ha as [Hs Ha].
  unfold is_localhost_domain.
  rewrite !to_lowercase_ascii by (rewrite ?forallb_app, ?Hs, ?Ha; done).
  rewrite !to_ascii_lowercase_app. split.
  - by destruct Hd as [-> | ->].
  - destruct Hd as [-> | ->].
    + change (to_ascii_lowercase (lit ".") ++ lit "localhost") with (lit ".localhost").
      rewrite (ends_with_suffix (lit ".localhost") (to_ascii_lowercase sub)).
      by rewrite !orb_true_r.
    + change (to_ascii_lowercase (lit ".") ++ lit "localhost.") with (lit ".localhost.").
      rewrite (ends_with_suffix (lit ".localhost.") (to_ascii_lowercase sub)).
      by rewrite !orb_true_r.
Qed.
End ValidationSpec.

Lemma demo_hosts_wf (u : Demo.curl) h : @url_host Demo.urls u = Some h -> wf_host h.
Proof.
  cbn. intros [= <-]. unfold Demo.parse_host.
  destruct (map Demo.octet (split_char 46 (Demo.host (proj1_sig u))))
    as [|[a|] [|[b|] [|[c|] [|[d|] [|]]]]] eqn:E; try done.
  assert (Ho : ∀ x, Some x ∈ map Demo.octet (split_char 46 (Demo.host (proj1_sig u))) ->
                    0 <= x <= 255).
  { intros x. change (map ?f ?l) with (f <$> l).
    intros (s & Hs & _)%list_elem_of_fmap. symmetry in Hs. unfold Demo.octet in Hs.
    split; [by eapply parse_uint_nonneg|by eapply parse_uint_bounds]. }
  rewrite E in Ho. cbn. unfold wf_ipv4. cbn.
  pose proof (Ho a ltac:(set_solver)). pose proof (Ho b ltac:(set_solver)).
  pose proof (Ho c ltac:(set_solver)). pose proof (Ho d ltac:(set_solver)). lia.
Qed.

Lemma validate_url_safe_iff_witness :
  @validate_url_safe Demo.urls Demo.ascii_lowercase (lit "https://example.com/") = Ok tt.
Proof.
  apply (@validate_url_safe_iff Demo.urls Demo.ascii_lowercase (lit "https://example.com/")
           demo_hosts_wf).
  destruct (@url_parse Demo.urls (lit "https://example.com/")) as [u|] eqn:E;
    [|by vm_compute in E].
  apply (f_equal (option_map (@url_host_str Demo.urls))) in E as Eh.
  apply (f_equal (option_map (@url_scheme Demo.urls))) in E as Es.
  exists u, (Domain (lit "example.com")). split_and!; [done|right; by injection Es|..].
  - cbn in Eh |- *. injection Eh as Eh. by rewrite <- Eh.
  - apply localhost_domain_spec. reflexivity.
Defined.

Lemma localhost_subdomains_refused_witness :
  @is_localhost_domain Demo.ascii_lowercase (lit "LocalHost.") = true
  ∧ @is_localhost_domain Demo.ascii_lowercase (lit "Admin.LocalHost.") = true.
Proof.
  exact (@localhost_subdomains_refused Demo.ascii_lowercase Demo.ascii_lowercase_laws
           (lit "Admin") (lit "LocalHost.") eq_refl (or_intror eq_refl)).
Defined.

(** The resolver hands out exactly the public addresses of the answer, in
    order and with port 0; it refuses the answer when no address is public, and a failed
    lookup is passed on. *)
Theorem resolve_spec {E} (lookup_ip : str -> result (list IpAddr) E) name :
  match lookup_ip name with
  | Err e => resolve lookup_ip name = Err (Some e)
  | Ok ips =>
      let public := filter (λ ip, is_private_ip ip = false) ips in
      resolve lookup_ip name
      = if nonempty public then Ok (map (λ ip, MkSocketAddr ip 0) public) else Err None
  end.
Proof.
  unfold resolve. destruct (lookup_ip name) as [ips|e]; [|done]. cbn zeta.
  assert (H : List.filter (λ addr, is_public_ip (sa_ip addr))
                (map (λ ip, MkSocketAddr ip 0) ips)
              = map (λ ip, MkSocketAddr ip 0) (filter (λ ip, is_private_ip ip = false) ips)).
  { induction ips as [|ip ips IH]; [done|]. simpl. rewrite filter_cons.
    unfold is_public_ip at 1. simpl. by destruct (is_private_ip ip); simpl; rewrite IH. }
  unfold filter_public_socket_addrs. rewrite H.
  by destruct (filter _ ips).
Qed.
