(* ===== verification/Hsts.v ===== *)
(** * HSTS headers ([src/src/security/hsts.rs])

    The parser of [Strict-Transport-Security] values: normalisation, the segment
    handlers and the tolerant [max-age] scanner. *)

From S2P Require Import Prelude.

Record HstsDirectives := MkHsts {
  max_age : option Z;
  include_subdomains : bool;
  preload : bool;
}.

Definition default_directives : HstsDirectives := MkHsts None false false.

(** Quotes are single bytes, so the byte tests of the source are tests on characters. *)
Definition strip_matching_quotes (s : str) : option str :=
  match s with
  | first :: rest =>
      match reverse rest with
      | lst :: mid =>
          if ((first =? 34) && (lst =? 34)) || ((first =? 39) && (lst =? 39))
          then Some (reverse mid) else None
      | [] => None
      end
  | [] => None
  end.

Definition hsts_prefix : str := lit "strict-transport-security:".

Definition normalize_hsts_value (value : str) : str :=
  let s := trim value in
  let s := match strip_matching_quotes s with Some unquoted => trim unquoted | None => s end in
  let lower := to_ascii_lowercase s in
  match strip_prefix hsts_prefix lower with
  | Some _ => trim (drop (length hsts_prefix) s)
  | None => s
  end.

Definition split_directive_name_value (segment : str) : str * option str :=
  match split_once 61 segment with
  | Some (name, value) => (trim name, Some value)
  | None => (trim segment, None)
  end.

Definition apply_flag_name (name : str) (result : HstsDirectives) : HstsDirectives :=
  if eq_ignore_ascii_case name (lit "includesubdomains") then
    MkHsts (max_age result) true (preload result)
  else if eq_ignore_ascii_case name (lit "preload") then
    MkHsts (max_age result) (include_subdomains result) true
  else result.

Definition trim_quoted (raw : str) : str := trim (trim_by (Z.eqb 34) (trim raw)).

(** The digit loop; [digits] is the string built so far. *)
Fixpoint max_age_digits (digits : str) (raw : str) : str :=
  match raw with
  | [] => digits
  | c :: raw' =>
      if is_ascii_digit c then max_age_digits (digits ++ [c]) raw'
      else if (c =? 44) || (c =? 95) then max_age_digits digits raw'
      else if is_ascii_whitespace c then
        if nonempty digits then digits else max_age_digits digits raw'
      else digits
  end.

Definition parse_max_age_number (raw : str) : option Z :=
  let digits := max_age_digits [] (trim_quoted raw) in
  if nonempty digits then parse_uint u64_max digits else None.

Fixpoint remainder_loop (seen_digit : bool) (raw : str) : option str :=
  match raw with
  | [] => None
  | c :: raw' =>
      if is_ascii_digit c then remainder_loop true raw'
      else if (c =? 44) || (c =? 95) then remainder_loop seen_digit raw'
      else if is_ascii_whitespace c then
        if seen_digit then Some raw else remainder_loop seen_digit raw'
      else Some raw
  end.

Definition remainder_after_max_age_number (raw : str) : option str :=
  remainder_loop false (trim_quoted raw).

Definition apply_trailing_comma_flags (raw_age : str) (result : HstsDirectives)
  : HstsDirectives :=
  match remainder_after_max_age_number raw_age with
  | None => result
  | Some leftover =>
      foldl (λ result part,
        match trim part with
        | [] => result
        | (c :: _) as name => if is_ascii_digit c then result else apply_flag_name name result
        end) result (split_char 44 leftover)
  end.

Definition apply_hsts_segment (result : HstsDirectives) (segment : str) : HstsDirectives :=
  let segment := trim segment in
  if negb (nonempty segment) then result
  else
    let (name, value) := split_directive_name_value segment in
    if eq_ignore_ascii_case name (lit "max-age") || eq_ignore_ascii_case name (lit "maxage")
    then match value with
         | Some raw =>
             apply_trailing_comma_flags raw
               (MkHsts (parse_max_age_number raw) (include_subdomains result) (preload result))
         | None => result
         end
    else apply_flag_name name result.

Definition parse_hsts_directive (value : str) : HstsDirectives :=
  foldl apply_hsts_segment default_directives (split_char 59 (normalize_hsts_value value)).

Definition sample : str :=
  [34] ++ lit "Strict-Transport-Security: Max-Age=31,536,000 includeSubDomains, PRELOAD" ++ [34].
Example parse_sample : parse_hsts_directive sample = MkHsts (Some 31536000) true true.
Proof. vm_compute. reflexivity. Qed.

(** ** Case-insensitivity *)

Lemma strip_matching_quotes_lower s :
  strip_matching_quotes (to_ascii_lowercase s)
  = option_map to_ascii_lowercase (strip_matching_quotes s).
Proof.
  destruct s as [|a s]; [done|]. cbn [strip_matching_quotes to_ascii_lowercase map].
  fold (to_ascii_lowercase s). rewrite reverse_lower.
  destruct (reverse s) as [|b r]; [done|]. cbn [to_ascii_lowercase map].
  fold (to_ascii_lowercase r).
  rewrite !(Z.eqb_sym (ascii_lower _)), !(char_blind 34), !(char_blind 39) by done.
  rewrite !(Z.eqb_sym 34), !(Z.eqb_sym 39).
  destruct (_ || _); [|done]. cbn [option_map]. by rewrite reverse_lower.
Qed.

Lemma normalize_lower v :
  normalize_hsts_value (to_ascii_lowercase v) = to_ascii_lowercase (normalize_hsts_value v).
Proof.
  unfold normalize_hsts_value. rewrite trim_lower, strip_matching_quotes_lower.
  set (s := match strip_matching_quotes (trim v) with
            | Some u => trim u | None => trim v end).
  assert (E : match option_map to_ascii_lowercase (strip_matching_quotes (trim v)) with
              | Some u => trim u | None => to_ascii_lowercase (trim v) end
              = to_ascii_lowercase s).
  { subst s. destruct (strip_matching_quotes (trim v)); [|done]. simpl. apply trim_lower. }
  cbn zeta. rewrite E, to_ascii_lowercase_idemp.
  destruct (strip_prefix _ _); [|done]. by autorewrite with lower.
Qed.

Lemma apply_flag_name_lower n r :
  apply_flag_name (to_ascii_lowercase n) r = apply_flag_name n r.
Proof. unfold apply_flag_name. by autorewrite with lower. Qed.

Lemma trim_quoted_lower raw :
  trim_quoted (to_ascii_lowercase raw) = to_ascii_lowercase (trim_quoted raw).
Proof. unfold trim_quoted. by autorewrite with lower. Qed.

Lemma ascii_lower_digit c : is_ascii_digit c = true -> ascii_lower c = c.
Proof.
  unfold is_ascii_digit, ascii_lower, is_ascii_upper. intros H.
  by destruct ((65 <=? c) && (c <=? 90)) eqn:?; [lia|].
Qed.

Lemma separator_lower c :
  (ascii_lower c =? 44) || (ascii_lower c =? 95) = (c =? 44) || (c =? 95).
Proof.
  rewrite !(Z.eqb_sym (ascii_lower c)), !(char_blind 44), !(char_blind 95) by done.
  by rewrite (Z.eqb_sym 44), (Z.eqb_sym 95).
Qed.

Lemma max_age_digits_lower d raw :
  max_age_digits d (to_ascii_lowercase raw) = max_age_digits d raw.
Proof.
  revert d. induction raw as [|c raw IH]; intros d; [done|].
  cbn [to_ascii_lowercase map max_age_digits]. fold (to_ascii_lowercase raw).
  rewrite is_ascii_digit_blind, is_ascii_whitespace_blind, separator_lower, !IH.
  destruct (is_ascii_digit c) eqn:E; [|done]. by rewrite ascii_lower_digit.
Qed.

Lemma parse_max_age_number_lower raw :
  parse_max_age_number (to_ascii_lowercase raw) = parse_max_age_number raw.
Proof. unfold parse_max_age_number. by rewrite trim_quoted_lower, max_age_digits_lower. Qed.

Lemma remainder_loop_lower b raw :
  remainder_loop b (to_ascii_lowercase raw)
  = option_map to_ascii_lowercase (remainder_loop b raw).
Proof.
  revert b. induction raw as [|c raw IH]; intros b; [done|].
  cbn [to_ascii_lowercase map remainder_loop]. fold (to_ascii_lowercase raw).
  rewrite is_ascii_digit_blind, is_ascii_whitespace_blind, separator_lower, !IH.
  by repeat case_match.
Qed.

Lemma apply_trailing_lower raw r :
  apply_trailing_comma_flags (to_ascii_lowercase raw) r = apply_trailing_comma_flags raw r.
Proof.
  unfold apply_trailing_comma_flags, remainder_after_max_age_number.
  rewrite trim_quoted_lower, remainder_loop_lower.
  destruct (remainder_loop _ _) as [l|]; [|done]. cbn [option_map].
  rewrite split_char_lower by auto with strdb. revert r.
  induction (split_char 44 l) as [|p ps IH]; intros r; [done|].
  cbn [map foldl]. rewrite trim_lower. rewrite IH. f_equal.
  destruct (trim p) as [|c t]; [done|]. cbn [to_ascii_lowercase map].
  rewrite is_ascii_digit_blind. destruct (is_ascii_digit c); [done|].
  apply (apply_flag_name_lower (c :: t)).
Qed.

Lemma split_directive_lower s :
  split_directive_name_value (to_ascii_lowercase s)
  = (to_ascii_lowercase (split_directive_name_value s).1,
     option_map to_ascii_lowercase (split_directive_name_value s).2).
Proof.
  unfold split_directive_name_value. rewrite split_once_lower by auto with strdb.
  destruct (split_once 61 s) as [[n v]|]; simpl; by rewrite trim_lower.
Qed.

Lemma apply_hsts_segment_lower r s :
  apply_hsts_segment r (to_ascii_lowercase s) = apply_hsts_segment r s.
Proof.
  unfold apply_hsts_segment. rewrite trim_lower. cbn zeta.
  unfold to_ascii_lowercase at 1. rewrite nonempty_map.
  destruct (negb _); [done|]. rewrite split_directive_lower.
  destruct (split_directive_name_value (trim s)) as [n [v|]]; cbn [fst snd option_map];
    rewrite !eq_ignore_ascii_case_lower.
  - by rewrite parse_max_age_number_lower, apply_trailing_lower, apply_flag_name_lower.
  - by rewrite apply_flag_name_lower.
Qed.

(** Header values that differ only in ASCII letter case are parsed to the same
    directives: the prefix, the quotes, the directive names and the trailing flags are all
    matched case-insensitively. *)
Theorem parse_hsts_case_insensitive v w :
  eq_ignore_ascii_case v w = true -> parse_hsts_directive v = parse_hsts_directive w.
Proof.
  intros E%eq_ignore_ascii_case_iff.
  assert (H : ∀ u, parse_hsts_directive (to_ascii_lowercase u) = parse_hsts_directive u).
  { intros u. unfold parse_hsts_directive. rewrite normalize_lower.
    rewrite split_char_lower by auto with strdb.
    generalize default_directives as r.
    induction (split_char 59 (normalize_hsts_value u)) as [|s l IH]; intros r; [done|].
    cbn [map foldl]. by rewrite apply_hsts_segment_lower, IH. }
  by rewrite <- (H v), E, H.
Qed.

Definition lower_sample : str := to_ascii_lowercase sample.
Lemma parse_hsts_case_insensitive_witness :
  sample <> lower_sample ∧ parse_hsts_directive sample = parse_hsts_directive lower_sample.
Proof.
  split; [by vm_compute|].
  exact (parse_hsts_case_insensitive sample lower_sample eq_refl).
Defined.

(** ** Round trip *)

(** The canonical header of a set of directives (RFC 6797). *)
Definition render_hsts (d : HstsDirectives) : str :=
  let flags := (if include_subdomains d then lit "; includeSubDomains" else [])
               ++ (if preload d then lit "; preload" else []) in
  match max_age d with
  | Some n => lit "max-age=" ++ dec n ++ flags
  | None => drop 2 flags
  end.

Lemma max_age_digits_all d s :
  forallb is_ascii_digit s = true -> max_age_digits d s = d ++ s.
Proof.
  revert d. induction s as [|c s IH]; intros d; simpl; [by rewrite app_nil_r|].
  intros [-> H]%andb_true_iff. rewrite IH by done. by rewrite <- app_assoc.
Qed.

Lemma remainder_loop_all b s : forallb is_ascii_digit s = true -> remainder_loop b s = None.
Proof.
  revert b. induction s as [|c s IH]; intros b; simpl; [done|].
  intros [-> H]%andb_true_iff. auto.
Qed.

Lemma digits_Forall (Q : Z -> Prop) s :
  forallb is_ascii_digit s = true -> (∀ c, is_ascii_digit c = true -> Q c) -> Forall Q s.
Proof.
  intros H HQ. apply Forall_forall. rewrite forallb_forall in H. intros c Hc. auto.
Qed.

Lemma trim_quoted_digits s : forallb is_ascii_digit s = true -> trim_quoted s = s.
Proof.
  intros H. unfold trim_quoted, trim.
  assert (Hw : Forall (λ c, is_whitespace c = false) s)
    by (apply (digits_Forall _ _ H); intros; by apply digit_facts).
  rewrite (trim_by_none is_whitespace s Hw), (trim_by_none (Z.eqb 34) s).
  - by apply trim_by_none.
  - apply (digits_Forall _ _ H). intros c Hc. rewrite Z.eqb_sym. by apply digit_facts.
Qed.

Lemma max_age_segment r n :
  0 <= n <= u64_max ->
  apply_hsts_segment r (lit "max-age=" ++ dec n)
  = MkHsts (Some n) (include_subdomains r) (preload r).
Proof.
  intros Hn. destruct (dec_spec n) as (Hd & Hne & _); [lia|].
  unfold apply_hsts_segment.
  assert (Hw : Forall (λ c, is_whitespace c = false) (lit "max-age=" ++ dec n)).
  { apply Forall_app. split; [by repeat constructor|].
    apply (digits_Forall _ _ Hd). intros. by apply digit_facts. }
  unfold trim. rewrite (trim_by_none _ _ Hw). cbn zeta.
  change (lit "max-age=" ++ dec n) with (lit "max-age" ++ 61 :: dec n).
  cbn [nonempty lit]. unfold split_directive_name_value.
  rewrite split_once_app by (apply contains_char_false; reflexivity).
  change (trim (lit "max-age")) with (lit "max-age"). rewrite eq_ignore_ascii_case_refl.
  cbn [orb negb nonempty app]. change (nonempty (lit "max-age" ++ _)) with true.
  unfold apply_trailing_comma_flags, remainder_after_max_age_number, parse_max_age_number.
  rewrite trim_quoted_digits, remainder_loop_all, max_age_digits_all by done.
  simpl. rewrite parse_uint_dec by done. by destruct (dec n).
Qed.

Lemma normalize_none n rest :
  0 <= n ->
  trimmed_by is_whitespace (lit "max-age=" ++ dec n ++ rest) ->
  normalize_hsts_value (lit "max-age=" ++ dec n ++ rest) = lit "max-age=" ++ dec n ++ rest.
Proof.
  intros Hn Ht. unfold normalize_hsts_value, trim. rewrite (trim_by_id _ _ Ht).
  assert (E : strip_matching_quotes (lit "max-age=" ++ dec n ++ rest) = None).
  { simpl. by destruct (reverse _). }
  by rewrite E.
Qed.

Lemma dec_rest_trimmed n rest :
  0 <= n -> not_head is_whitespace (reverse rest) ->
  trimmed_by is_whitespace (lit "max-age=" ++ dec n ++ rest).
Proof.
  intros Hn Hr. split; [done|]. rewrite !reverse_app.
  destruct (reverse rest) as [|c t]; [|done]. simpl.
  destruct (dec_spec n Hn) as (Hd & Hne & _).
  assert (Forall (λ c, is_whitespace c = false) (reverse (dec n))) as Hw.
  { apply Forall_reverse, (digits_Forall _ _ Hd). intros. by apply digit_facts. }
  destruct (reverse (dec n)) as [|c t] eqn:E; [|by inversion Hw].
  apply (f_equal reverse) in E. by rewrite reverse_involutive in E.
Qed.

(** Parsing the canonical header of a set of directives gives the directives
    back, whatever the [u64] age. *)
Theorem parse_render_hsts d :
  (∀ n, max_age d = Some n -> 0 <= n <= u64_max) ->
  parse_hsts_directive (render_hsts d) = d.
Proof.
  destruct d as [[n|] i p]; intros H; [|by destruct i, p].
  specialize (H n eq_refl). unfold parse_hsts_directive, render_hsts.
  cbn [max_age include_subdomains preload].
  assert (Hs : 59 ∉ lit "max-age=" ++ dec n).
  { apply contains_char_false. unfold contains_char. rewrite existsb_app. simpl.
    destruct (existsb _ (dec n)) eqn:E; [|done]. apply existsb_exists in E as (c & Hc & ?).
    destruct (dec_spec n) as (Hd & _); [lia|]. rewrite forallb_forall in Hd.
    specialize (Hd c Hc). unfold is_ascii_digit in Hd. lia. }
  rewrite normalize_none by (lia || (apply dec_rest_trimmed; [lia|by destruct i, p])).
  rewrite app_assoc.
  destruct i, p; cbn [app lit]; rewrite ?app_nil_r;
    (rewrite (split_char_none 59 _ Hs)
     || match goal with |- context [split_char 59 (?a ++ ?b)] =>
          change (split_char 59 (a ++ b)) with (split_char 59 (a ++ 59 :: drop 1 b));
          rewrite (split_char_app_sep 59 a _ Hs) end);
    cbn [foldl]; rewrite max_age_segment by done; reflexivity.
Qed.

Definition two_years : HstsDirectives := MkHsts (Some 63072000) true true.
Lemma parse_render_hsts_witness :
  render_hsts two_years = lit "max-age=63072000; includeSubDomains; preload"
  ∧ parse_hsts_directive (render_hsts two_years) = two_years.
Proof.
  split; [vm_compute; reflexivity|]. apply (parse_render_hsts two_years).
  intros n [= <-]. unfold u64_max. lia.
Defined.

(** ** Bounds and exactness *)

Lemma apply_flag_name_age n r : max_age (apply_flag_name n r) = max_age r.
Proof. unfold apply_flag_name. by repeat case_match. Qed.

Lemma apply_trailing_age raw r : max_age (apply_trailing_comma_flags raw r) = max_age r.
Proof.
  unfold apply_trailing_comma_flags. destruct (remainder_after_max_age_number raw) as [l'|]; [|done].
  revert r. induction (split_char 44 l') as [|p l IH]; intros r; [done|].
  cbn [foldl]. rewrite IH. destruct (trim p) as [|c t]; [done|].
  destruct (is_ascii_digit c); [done|]. apply apply_flag_name_age.
Qed.

Definition age_ok (r : HstsDirectives) : Prop :=
  ∀ n, max_age r = Some n -> 0 <= n <= u64_max.

Lemma apply_hsts_segment_age r s : age_ok r -> age_ok (apply_hsts_segment r s).
Proof.
  unfold age_ok. intros Hr n. unfold apply_hsts_segment. cbn zeta.
  destruct (negb _); [apply Hr|].
  destruct (split_directive_name_value (trim s)) as [name [raw|]];
    destruct (_ || _); rewrite ?apply_flag_name_age; try apply Hr.
  rewrite apply_trailing_age. cbn [max_age]. unfold parse_max_age_number.
  destruct (nonempty _); [|done]. intros E.
  split; [by eapply parse_uint_nonneg|by eapply parse_uint_bounds].
Qed.

(** Whatever the header, the parsed age is a [u64]: longer digit strings are
    treated as absent, never wrapped. *)
Theorem parse_hsts_age_u64 v n :
  max_age (parse_hsts_directive v) = Some n -> 0 <= n <= u64_max.
Proof.
  revert n. change (age_ok (parse_hsts_directive v)). unfold parse_hsts_directive.
  assert (H : age_ok default_directives) by (intros n; discriminate). revert H.
  generalize default_directives as r.
  induction (split_char 59 (normalize_hsts_value v)) as [|s l IH]; intros r Hr; [done|].
  cbn [foldl]. by apply IH, apply_hsts_segment_age.
Qed.

Lemma parse_hsts_age_u64_witness :
  max_age (parse_hsts_directive (lit "max-age=18446744073709551616")) = None
  ∧ max_age (parse_hsts_directive (lit "max-age=18446744073709551615")) = Some u64_max
  ∧ 0 <= u64_max <= u64_max.
Proof.
  split; [vm_compute; reflexivity|]. split; [vm_compute; reflexivity|].
  apply (parse_hsts_age_u64 (lit "max-age=18446744073709551615")). vm_compute. reflexivity.
Defined.

Definition names_flag (flag : str) (segment : str) : bool :=
  eq_ignore_ascii_case (trim segment) flag.

Lemma split_char_no_sep c k s : k ∉ s -> Forall (λ seg, k ∉ seg) (split_char c s).
Proof.
  intros H. assert (Forall (λ x, x <> k) s) as Hs.
  { apply Forall_forall. intros x Hx ->. apply H. by apply list_elem_of_In. }
  apply (split_char_Forall c) in Hs. eapply Forall_impl; [|exact Hs].
  intros seg Hseg Hk. rewrite Forall_forall in Hseg.
  apply (Hseg k); [by apply list_elem_of_In|done].
Qed.

Lemma eq_ignore_trans a b c :
  eq_ignore_ascii_case a b = true -> eq_ignore_ascii_case a c = eq_ignore_ascii_case b c.
Proof.
  rewrite eq_ignore_ascii_case_iff. unfold eq_ignore_ascii_case. by intros ->.
Qed.

Lemma plain_segment r s :
  61 ∉ s ->
  apply_hsts_segment r s
  = MkHsts (max_age r)
      (include_subdomains r || names_flag (lit "includesubdomains") s)
      (preload r || names_flag (lit "preload") s).
Proof.
  intros Hs. unfold apply_hsts_segment, names_flag. cbn zeta.
  destruct (trim s) as [|c t] eqn:E.
  { simpl. rewrite !orb_false_r. by destruct r. }
  cbn [nonempty negb]. unfold split_directive_name_value.
  rewrite (proj2 (split_once_None _ _)).
  2: { rewrite <- E. destruct (trim_sub is_whitespace s) as (a & b & Es). intros Hin.
       apply Hs. rewrite Es. set_solver. }
  rewrite <- E, trim_trim, E. unfold apply_flag_name.
  destruct (eq_ignore_ascii_case (c :: t) (lit "includesubdomains")) eqn:E1.
  { rewrite !(eq_ignore_trans _ _ _ E1). vm_compute (eq_ignore_ascii_case _ _).
    cbn [orb]. by rewrite orb_true_r, orb_false_r. }
  destruct (eq_ignore_ascii_case (c :: t) (lit "preload")) eqn:E2.
  { rewrite !(eq_ignore_trans _ _ _ E2). vm_compute (eq_ignore_ascii_case _ _).
    cbn [orb]. by rewrite orb_true_r, orb_false_r. }
  rewrite !orb_false_r. destruct (_ || _); by destruct r.
Qed.

(** In a header without assignments a flag is set exactly when one of the
    semicolon-separated segments is that flag's name, up to case and surrounding space:
    a name that merely contains it does not count. *)
Theorem hsts_flags_exact v :
  61 ∉ normalize_hsts_value v ->
  let segments := split_char 59 (normalize_hsts_value v) in
  parse_hsts_directive v
  = MkHsts None (existsb (names_flag (lit "includesubdomains")) segments)
      (existsb (names_flag (lit "preload")) segments).
Proof.
  intros H segments. unfold parse_hsts_directive. fold segments.
  assert (Hs : Forall (λ seg, 61 ∉ seg) segments) by by apply split_char_no_sep.
  assert (G : ∀ r, foldl apply_hsts_segment r segments
    = MkHsts (max_age r)
        (include_subdomains r || existsb (names_flag (lit "includesubdomains")) segments)
        (preload r || existsb (names_flag (lit "preload")) segments)); [|by rewrite G].
  clearbody segments. induction Hs as [|s l Hs Hl IH]; intros r; cbn [foldl existsb].
  - rewrite !orb_false_r. by destruct r.
  - rewrite IH, plain_segment by done. cbn. by rewrite !orb_assoc.
Qed.

Definition not_preload : str := lit "not-preload; IncludeSubdomains".
Lemma hsts_flags_exact_witness :
  (61 ∉ normalize_hsts_value not_preload)
  ∧ parse_hsts_directive not_preload = MkHsts None true false.
Proof.
  assert (H : 61 ∉ normalize_hsts_value not_preload)
    by (apply contains_char_false; vm_compute; reflexivity).
  split; [exact H|]. exact (hsts_flags_exact not_preload H).
Defined.
