(* ===== verification/Input.v ===== *)
(** * Input lines ([src/src/app/url.rs], [src/src/run/init.rs])

    What one line of the input file becomes: a comment, a rejected line, or the normalised
    URL of a task.  [url.len()] counts bytes and the log message slices at byte 50, so the
    lengths are those of the UTF-8 encoding and the slice may panic. *)

From S2P Require Import Prelude Sanitize Net Security.

(** ** app/url.rs *)

Definition MAX_URL_LENGTH : nat := Z.to_nat 2048.

(** [&s[..n]]: panics when [n] is not a character boundary. *)
Definition slice_to (s : list Z) (n : nat) : outcome (list Z) :=
  if is_char_boundary s n then Returns (take n s) else Panics.

(** [warn!] formats its arguments only when warnings are enabled. *)
Definition warn_sliced (warn_enabled : bool) (s : list Z) : outcome (option str) :=
  if warn_enabled then
    match slice_to s (Nat.min 50 (length s)) with
    | Returns _ => Returns None
    | Panics => Panics
    end
  else Returns None.

Section Normalize.
Context `{U : UrlLib} (warn_enabled : bool).

Definition validate_and_normalize_url (url : str) : outcome (option str) :=
  if (MAX_URL_LENGTH <? length (encode url))%nat then warn_sliced warn_enabled (encode url)
  else
    let normalized :=
      if contains (lit "://") url then url else lit "https://" ++ url in
    if (MAX_URL_LENGTH <? length (encode normalized))%nat
    then warn_sliced warn_enabled (encode normalized)
    else
      Returns match url_parse normalized with
              | Some parsed =>
                  if streqb (url_scheme parsed) (lit "http")
                     || streqb (url_scheme parsed) (lit "https")
                  then Some normalized else None
              | None => None
              end.
End Normalize.

(** ** run/init.rs: the total shown in the progress messages

    The counting pass stops at the first read error or at the end of the file. *)

Inductive ReadResult :=
  | Line (line : str)
  | Eof
  | ReadError.

Definition is_url_line (line : str) : bool :=
  let trimmed := trim line in
  negb (bool_decide (trimmed = [])) && negb (starts_with (lit "#") trimmed).

Fixpoint count_urls (reads : list ReadResult) : nat :=
  match reads with
  | Line line :: reads => ((if is_url_line line then 1 else 0) + count_urls reads)%nat
  | _ => O
  end.

(** ** run/mod.rs: the body of the scan loop up to the permit *)

Inductive LineOutcome :=
  | Ignored
  | SkippedLine
  | Accepted (url : str)
  | LinePanics.

Section ReadLine.
Context `{U : UrlLib} `{L : Lowercase} (warn_enabled allow_localhost_for_tests : bool).

Definition handle_line (line : str) : LineOutcome :=
  let trimmed := trim line in
  if bool_decide (trimmed = []) || starts_with (lit "#") trimmed then Ignored
  else
    match validate_and_normalize_url warn_enabled trimmed with
    | Panics => LinePanics
    | Returns None => SkippedLine
    | Returns (Some url) =>
        if negb allow_localhost_for_tests then
          match validate_url_safe url with
          | Ok _ => Accepted url
          | Err _ => SkippedLine
          end
        else Accepted url
    end.

(** What a URL that reaches a worker satisfies. *)
Definition admissible (url : str) : Prop :=
  (length (encode url) <= MAX_URL_LENGTH)%nat
  ∧ (∃ parsed, url_parse url = Some parsed
       ∧ (url_scheme parsed = lit "http" \/ url_scheme parsed = lit "https"))
  ∧ (allow_localhost_for_tests = false -> validate_url_safe url = Ok tt).

Lemma handle_line_ignored line : handle_line line = Ignored -> is_url_line line = false.
Proof.
  unfold handle_line, is_url_line. rewrite <- negb_orb.
  destruct (_ || _); [done|].
  destruct (validate_and_normalize_url _ _) as [[url|]|]; [|done..].
  destruct (negb allow_localhost_for_tests); [|done].
  by destruct (validate_url_safe url).
Qed.

Lemma handle_line_url line : is_url_line line = false -> handle_line line = Ignored.
Proof. unfold handle_line, is_url_line. rewrite <- negb_orb. by destruct (_ || _). Qed.
End ReadLine.

(** ** Lemmas *)

Section InputLemmas.
Context `{U : UrlLib} (warn_enabled : bool).

Lemma warn_sliced_none s url : warn_sliced warn_enabled s <> Returns (Some url).
Proof. unfold warn_sliced. destruct warn_enabled; [|done]. by destruct (slice_to _ _). Qed.

Lemma normalize_accepts url n :
  validate_and_normalize_url warn_enabled url = Returns (Some n) <->
  (length (encode url) <= MAX_URL_LENGTH)%nat
  ∧ (length (encode n) <= MAX_URL_LENGTH)%nat
  ∧ n = (if contains (lit "://") url then url else lit "https://" ++ url)
  ∧ ∃ parsed, url_parse n = Some parsed
      ∧ (url_scheme parsed = lit "http" \/ url_scheme parsed = lit "https").
Proof.
  unfold validate_and_normalize_url. cbn zeta. split.
  - destruct (Nat.ltb_spec MAX_URL_LENGTH (length (encode url)));
      [by intros ?%warn_sliced_none|].
    remember (if contains (lit "://") url then url else lit "https://" ++ url) as m eqn:Em.
    destruct (Nat.ltb_spec MAX_URL_LENGTH (length (encode m)));
      [by intros ?%warn_sliced_none|].
    destruct (url_parse m) as [p|] eqn:Ep; [|done].
    destruct (_ || _) eqn:Es; [|done]. intros [= <-].
    split_and!; [done..|]. exists p. split; [done|].
    apply orb_true_iff in Es as [Es|Es]; apply streqb_eq in Es; auto.
  - intros (H1 & H2 & <- & p & Hp & Hs).
    destruct (Nat.ltb_spec MAX_URL_LENGTH (length (encode url))); [lia|].
    destruct (Nat.ltb_spec MAX_URL_LENGTH (length (encode n))); [lia|]. rewrite Hp.
    destruct Hs as [-> | ->]; by rewrite streqb_refl, ?orb_true_r.
Qed.

Lemma normalized_has_scheme url :
  contains (lit "://") (if contains (lit "://") url then url else lit "https://" ++ url) = true.
Proof.
  destruct (contains (lit "://") url) eqn:E; [done|].
  apply contains_iff. by exists (lit "https"), url.
Qed.
End InputLemmas.

Lemma handle_line_admissible `{U : UrlLib} `{L : Lowercase} warn allow line url :
  handle_line warn allow line = Accepted url -> admissible allow url.
Proof.
  unfold handle_line. destruct (_ || _); [done|].
  destruct (validate_and_normalize_url warn (trim line)) as [[n|]|] eqn:En; [|done..].
  apply normalize_accepts in En as (_ & H2 & _ & Hp).
  destruct allow; cbn [negb].
  - intros [= <-]. by split_and!.
  - destruct (validate_url_safe n) as [[]|] eqn:Ev; [|done]. intros [= <-]. by split_and!.
Qed.

(** ** Properties *)

Section InputProperties.
Context `{U : UrlLib}.

(** Normalising a line gives a URL that fits the length limit, parses with an http
    or https scheme, extends the line by at most the scheme, and is normal: it passes
    through unchanged when it is fed back. *)
Theorem normalize_url_normal warn url n :
  validate_and_normalize_url warn url = Returns (Some n) ->
  (n = url \/ n = lit "https://" ++ url)
  ∧ (length (encode n) <= MAX_URL_LENGTH)%nat
  ∧ (∃ parsed, url_parse n = Some parsed
       ∧ (url_scheme parsed = lit "http" \/ url_scheme parsed = lit "https"))
  ∧ validate_and_normalize_url warn n = Returns (Some n).
Proof.
  intros (H1 & H2 & -> & Hp)%normalize_accepts. split_and!; [|done|done|].
  - destruct (contains _ url); auto.
  - apply normalize_accepts. rewrite normalized_has_scheme. by split_and!.
Qed.

(** Normalising panics exactly when warnings are logged and the line, or its
    normalised form, is too long and has a multi-byte character across byte 50: the
    message is cut with a byte slice. *)
Theorem normalize_url_panics warn url :
  validate_and_normalize_url warn url = Panics <->
  warn = true ∧ ∃ s,
    (s = url \/ (length (encode url) <= MAX_URL_LENGTH)%nat
                ∧ contains (lit "://") url = false ∧ s = lit "https://" ++ url)
    ∧ (MAX_URL_LENGTH < length (encode s))%nat ∧ is_char_boundary (encode s) 50 = false.
Proof.
  assert (Hw : ∀ s, (MAX_URL_LENGTH < length s)%nat ->
    (warn_sliced warn s = Panics <-> warn = true ∧ is_char_boundary s 50 = false)).
  { intros s Hs. unfold warn_sliced, slice_to. rewrite (Nat.min_l 50) by (unfold MAX_URL_LENGTH in Hs; lia).
    destruct warn; [|naive_solver]. destruct (is_char_boundary s 50); naive_solver. }
  unfold validate_and_normalize_url. cbn zeta.
  destruct (Nat.ltb_spec MAX_URL_LENGTH (length (encode url))) as [Hl|Hl].
  { rewrite Hw by done. split; [naive_solver|].
    intros (? & s & [->|(? & _ & _)] & _ & Hb); [done|lia]. }
  destruct (contains (lit "://") url) eqn:Ec.
  - destruct (Nat.ltb_spec MAX_URL_LENGTH (length (encode url))); [lia|].
    split; [by destruct (url_parse url)|].
    intros (_ & s & [->|(_ & ? & _)] & ? & _); [lia|done].
  - destruct (Nat.ltb_spec MAX_URL_LENGTH (length (encode (lit "https://" ++ url)))) as [Hn|Hn].
    + rewrite Hw by done. split.
      * intros [-> Hb]. split; [done|]. exists (lit "https://" ++ url). naive_solver.
      * intros (-> & s & [->|(_ & _ & ->)] & ? & Hb); [lia|done].
    + split; [by destruct (url_parse _)|].
      intros (_ & s & [->|(_ & _ & ->)] & ? & _); lia.
Qed.
End InputProperties.

(** A line of 2100 characters whose 50th byte is the second of a two-byte character. *)
Definition long_line : str := replicate 49 97 ++ [233] ++ replicate (Z.to_nat 2050) 97.

Lemma normalize_url_panics_witness :
  @validate_and_normalize_url Demo.urls true long_line = Panics.
Proof.
  apply (@normalize_url_panics Demo.urls true long_line). split; [reflexivity|].
  exists long_line. split_and!.
  - left. reflexivity.
  - apply Nat.ltb_lt. vm_compute. reflexivity.
  - vm_compute. reflexivity.
Defined.

Definition bare_host : str := lit "a.example/x".
Lemma normalize_url_normal_witness :
  @validate_and_normalize_url Demo.urls true bare_host = Returns (Some (lit "https://a.example/x"))
  ∧ @validate_and_normalize_url Demo.urls true (lit "https://a.example/x")
    = Returns (Some (lit "https://a.example/x")).
Proof.
  split; [vm_compute; reflexivity|].
  apply (@normalize_url_normal Demo.urls true bare_host (lit "https://a.example/x")).
  vm_compute. reflexivity.
Defined.
