(* ===== verification/Redirects.v ===== *)
(** * Redirect chains ([src/src/fetch/redirects.rs])

    The HTTP client is a parameter: sending a request takes the client from one state to
    the next and gives a response or an error.  Only the status and the [Location] header
    of a response are looked at here; the rest is for [Response] and [Handler]. *)

From S2P Require Import Prelude Net Security.

(** [reqwest::Version]; the text of another version is its [Debug] output. *)
Inductive HttpVersion := HTTP_09 | HTTP_10 | HTTP_11 | HTTP_2 | HTTP_3 | OtherVersion (text : str).

Section Redirects.
Context `{U : UrlLib} `{L : Lowercase}.

Definition is_loopback_url (url_str : str) : bool :=
  match url_parse url_str with
  | Some u =>
      match url_host u with
      | Some (Ipv4 ip) => V4.is_loopback ip
      | Some (Ipv6 ip) => V6.is_loopback ip
      | Some (Domain _) => false
      | None => false
      end
  | None => false
  end.

Inductive RedirectError :=
  | Downgrade (url : str)
  | UnsafeTarget (e : UnsafeUrl).

Definition validate_redirect_target (new_url_str new_scheme : str)
    (chain_started_https allow_loopback : bool) : result unit RedirectError :=
  if chain_started_https && streqb new_scheme (lit "http") then Err (Downgrade new_url_str)
  else
    let skip_validation := allow_loopback && is_loopback_url new_url_str in
    if negb skip_validation then
      match validate_url_safe new_url_str with
      | Ok _ => Ok tt
      | Err e => Err (UnsafeTarget e)
      end
    else Ok tt.

Definition is_redirect_status (status_code : Z) : bool :=
  (status_code =? 301) || (status_code =? 302) || (status_code =? 303)
  || (status_code =? 307) || (status_code =? 308).

(** A response: the headers in the order of the [HeaderMap] with lowercase names, a value
    that [to_str] refuses as [None]; the body as the chunks the stream will yield. *)
Record Response := MkResponse {
  status : Z;
  resp_url : str;
  resp_version : HttpVersion;
  resp_headers : list (str * option str);
  resp_content_length : option Z;
  resp_chunks : list (result (list Z) str);
}.

(** [HeaderMap::get]: the first value of a name; [Some None] is a value that is not text. *)
Definition header_get (name : str) (headers : list (str * option str)) : option (option str) :=
  snd <$> List.find (λ h, streqb h.1 name) headers.

Definition location (r : Response) : option (option str) :=
  header_get (lit "location") (resp_headers r).

Inductive ChainError (E : Type) :=
  | MaxHopsZero
  | UnsafeInitial (e : UnsafeUrl)
  | HttpError (e : E)
  | BadLocation (loc : str).
Arguments MaxHopsZero {E}.
Arguments UnsafeInitial {E} e.
Arguments HttpError {E} e.
Arguments BadLocation {E} loc.

Context {S E : Type} (send : S -> str -> S * result Response E).

(** What the loop leaves behind: the last URL fetched, the chain, the response kept. *)
Definition LoopResult : Type := str * list (str * Z) * option Response.

(** [Url::parse(loc).or_else(|_| Url::parse(current).and_then(|base| base.join(loc)))]. *)
Definition redirect_target (current loc : str) : option Url :=
  match url_parse loc with
  | Some u => Some u
  | None => match url_parse current with
            | Some base => url_join base loc
            | None => None
            end
  end.

(** The loop [for hop_num in 0..max_hops]; [hops_left] is [max_hops - hop_num]. *)
Fixpoint redirect_loop (chain_started_https allow_loopback : bool) (hops_left : nat)
    (st : S) (current last_fetched_url : str) (chain : list (str * Z))
  : S * result LoopResult (ChainError E) :=
  match hops_left with
  | O => (st, Ok (last_fetched_url, chain, None))
  | Datatypes.S hops =>
      let last_fetched_url := current in
      match send st current with
      | (st, Err e) => (st, Err (HttpError e))
      | (st, Ok resp) =>
          let chain := chain ++ [(current, status resp)] in
          if is_redirect_status (status resp) then
            match location resp with
            | Some None => (st, Ok (last_fetched_url, chain, None))
            | Some (Some loc_str) =>
                match redirect_target current loc_str with
                | None => (st, Err (BadLocation loc_str))
                | Some new_url =>
                    match validate_redirect_target (url_to_string new_url)
                            (url_scheme new_url) chain_started_https allow_loopback with
                    | Err _ => (st, Ok (last_fetched_url, chain, None))
                    | Ok _ =>
                        if (hops =? 0)%nat then (st, Ok (last_fetched_url, chain, None))
                        else redirect_loop chain_started_https allow_loopback hops st
                               (url_to_string new_url) last_fetched_url chain
                    end
                end
            | None => (st, Ok (last_fetched_url, chain, None))
            end
          else (st, Ok (last_fetched_url, chain, Some resp))
      end
  end.

Definition started_https (start_url : str) : bool :=
  match url_parse start_url with
  | Some u => streqb (url_scheme u) (lit "https")
  | None => false
  end.

(** The guard that follows the loop appends a status-0 entry if the last URL is missing. *)
Definition close_chain (last_fetched_url : str) (chain : list (str * Z)) : list (str * Z) :=
  match list.last chain with
  | Some (url, _) =>
      if streqb url last_fetched_url then chain else chain ++ [(last_fetched_url, 0)]
  | None => chain ++ [(last_fetched_url, 0)]
  end.

Definition resolve_redirect_chain (start_url : str) (max_hops : nat) (allow_loopback : bool)
    (st : S) : S * result LoopResult (ChainError E) :=
  if (max_hops =? 0)%nat then (st, Err MaxHopsZero)
  else
    let skip_initial_validation := allow_loopback && is_loopback_url start_url in
    match (if negb skip_initial_validation then validate_url_safe start_url else Ok tt) with
    | Err e => (st, Err (UnsafeInitial e))
    | Ok _ =>
        match redirect_loop (started_https start_url) allow_loopback max_hops st
                start_url start_url [] with
        | (st, Err e) => (st, Err e)
        | (st, Ok (last_fetched_url, chain, final_response)) =>
            (st, Ok (last_fetched_url, close_chain last_fetched_url chain, final_response))
        end
    end.
End Redirects.

Arguments MaxHopsZero {E}.
Arguments UnsafeInitial {E} e.
Arguments HttpError {E} e.
Arguments BadLocation {E} loc.

(** ** Lemmas on the loop *)

Section RedirectLemmas.
Context `{U : UrlLib} `{L : Lowercase}.
Context {S E : Type} (send : S -> str -> S * result Response E).

(** A property of URLs that validated targets have is kept by every request. *)
Lemma redirect_loop_invariant (I : S -> Prop) (P : str -> Prop) https lo :
  (∀ st u, P u -> I st -> I (send st u).1) ->
  (∀ new, validate_redirect_target (url_to_string new) (url_scheme new) https lo = Ok tt ->
    P (url_to_string new)) ->
  ∀ hops st cur prev chain,
    P cur -> I st -> Forall (λ e, P e.1) chain ->
    let r := redirect_loop send https lo hops st cur prev chain in
    I r.1 ∧ ∀ lst c resp, r.2 = Ok (lst, c, resp) -> Forall (λ e, P e.1) c.
Proof.
  intros Hsend Hval. induction hops as [|hops IH]; intros st cur prev chain Hc Hi Hch.
  { simpl. split; [done|]. by intros ??? [= <- <- <-]. }
  cbn [redirect_loop]. pose proof (Hsend st cur Hc Hi) as Hi'.
  destruct (send st cur) as [st' [resp|e]]; simpl in Hi'; [|by split].
  assert (Hch' : Forall (λ e, P e.1) (chain ++ [(cur, status resp)])).
  { apply Forall_app. split; [done|]. by repeat constructor. }
  destruct (is_redirect_status (status resp)).
  2: { split; [done|]. by intros ??? [= <- <- <-]. }
  destruct (location resp) as [[loc|]|]; try by (split; [done|]; intros ??? [= <- <- <-]).
  destruct (redirect_target cur loc) as [new|]; [|by split].
  destruct (validate_redirect_target _ _ https lo) as [[]|] eqn:Ev.
  2: { split; [done|]. by intros ??? [= <- <- <-]. }
  destruct (hops =? 0)%nat; [split; [done|]; by intros ??? [= <- <- <-]|].
  apply IH; [by apply Hval|done|done].
Qed.

(** Consecutive entries of a chain: a redirect status, and the next URL is the target of
    the location the first one answered with. *)
Inductive linked : list (str * Z) -> Prop :=
  | linked_one e : linked [e]
  | linked_cons u s v t rest loc new :
      is_redirect_status s = true -> redirect_target u loc = Some new ->
      v = url_to_string new -> linked ((v, t) :: rest) ->
      linked ((u, s) :: (v, t) :: rest).

Definition final_entry (u : str) (s : Z) (resp : option Response) : Prop :=
  match resp with
  | Some r => status r = s ∧ is_redirect_status s = false
  | None => is_redirect_status s = true
  end.

Lemma redirect_loop_shape https lo hops st cur prev chain st' lst c resp :
  (0 < hops)%nat ->
  redirect_loop send https lo hops st cur prev chain = (st', Ok (lst, c, resp)) ->
  ∃ s0 ext s, c = chain ++ (cur, s0) :: ext ∧ (length ext < hops)%nat
    ∧ linked ((cur, s0) :: ext) ∧ list.last ((cur, s0) :: ext) = Some (lst, s)
    ∧ final_entry lst s resp.
Proof.
  revert st cur prev chain. induction hops as [|hops IH]; [lia|].
  intros st cur prev chain _. cbn [redirect_loop].
  destruct (send st cur) as [st1 [r|e]]; [|done].
  assert (Hdone : ∀ rs, final_entry cur (status r) rs ->
    (st1, Ok (cur, chain ++ [(cur, status r)], rs) : result LoopResult (ChainError E))
    = (st', Ok (lst, c, resp)) ->
    ∃ s0 ext s, c = chain ++ (cur, s0) :: ext ∧ (length ext < Datatypes.S hops)%nat
      ∧ linked ((cur, s0) :: ext) ∧ list.last ((cur, s0) :: ext) = Some (lst, s)
      ∧ final_entry lst s resp).
  { intros rs Hf [= <- <- <- <-]. exists (status r), [], (status r).
    repeat split; [simpl; lia|constructor|done]. }
  destruct (is_redirect_status (status r)) eqn:Er.
  2: { apply Hdone. by split. }
  destruct (location r) as [[loc|]|]; try (by apply (Hdone None)).
  destruct (redirect_target cur loc) as [new|] eqn:Et; [|done].
  destruct (validate_redirect_target _ _ https lo); [|by apply (Hdone None)].
  destruct (Nat.eqb_spec hops 0); [by apply (Hdone None)|].
  intros (s0 & ext & s & -> & Hlen & Hl & Hlast & Hf)%IH; [|lia].
  exists (status r), ((url_to_string new, s0) :: ext), s.
  rewrite <- app_assoc. repeat split; [simpl; lia| |done|done].
  by eapply linked_cons.
Qed.

(** Sending through a client that counts its requests. *)
Definition counting (st : S * nat) (u : str) : S * nat * result Response E :=
  let (st', r) := send st.1 u in (st', Datatypes.S st.2, r).

Lemma redirect_loop_count https lo hops st n cur prev chain :
  let r := redirect_loop counting https lo hops (st, n) cur prev chain in
  (r.1.2 <= n + hops)%nat ∧
  ∀ lst c resp, r.2 = Ok (lst, c, resp) -> (r.1.2 + length chain = n + length c)%nat.
Proof.
  revert st n cur prev chain. induction hops as [|hops IH]; intros st n cur prev chain.
  { simpl. split; [lia|]. intros ??? [= <- <- <-]. lia. }
  cbn [redirect_loop]. cbn zeta.
  assert (Ec : counting (st, n) cur
               = let (st', r) := send st cur in (st', Datatypes.S n, r)) by done.
  rewrite Ec. clear Ec.
  destruct (send st cur) as [st1 [r|e]]; [|by split; [simpl; lia|]].
  assert (Hdone : ∀ rs : option Response,
    let r' := ((st1, Datatypes.S n),
      Ok (cur, chain ++ [(cur, status r)], rs) : result LoopResult (ChainError E)) in
    (r'.1.2 <= n + Datatypes.S hops)%nat ∧
    ∀ lst c resp, r'.2 = Ok (lst, c, resp) ->
      (r'.1.2 + length chain = n + length c)%nat).
  { intros rs. simpl. split; [lia|]. intros ??? [= <- <- <-]. rewrite length_app. simpl. lia. }
  destruct (is_redirect_status (status r)); [|apply Hdone].
  destruct (location r) as [[loc|]|]; try apply Hdone.
  destruct (redirect_target cur loc) as [new|]; [|split; [simpl; lia|by intros ??? [=]]].
  destruct (validate_redirect_target _ _ https lo); [|apply Hdone].
  destruct (hops =? 0)%nat; [apply Hdone|].
  destruct (IH st1 (Datatypes.S n) (url_to_string new) cur (chain ++ [(cur, status r)]))
    as [H1 H2]. split; [lia|].
  intros lst c resp Hr%H2. rewrite length_app in Hr. simpl in Hr. lia.
Qed.

Lemma close_chain_id lst s chain :
  list.last chain = Some (lst, s) -> close_chain lst chain = chain.
Proof. unfold close_chain. intros ->. by rewrite streqb_refl. Qed.

Lemma last_app_cons {A} (l : list A) x r : list.last (l ++ x :: r) = list.last (x :: r).
Proof. rewrite last_app. by destruct (list.last (x :: r)) eqn:Hl; [|apply last_None in Hl]. Qed.
End RedirectLemmas.

(** ** Properties *)

Section RedirectProperties.
Context `{U : UrlLib} `{L : Lowercase}.
Context {S E : Type} (send : S -> str -> S * result Response E).

(** What may be requested when resolving the chain of [start]. *)
Definition permitted (start : str) (allow_loopback : bool) (u : str) : Prop :=
  (validate_url_safe u = Ok tt \/ allow_loopback && is_loopback_url u = true)
  ∧ (started_https start = true ->
     ∀ v, url_parse u = Some v -> url_scheme v <> lit "http").

Lemma validated_permitted `{!UrlLaws U} start lo new :
  validate_redirect_target (url_to_string new) (url_scheme new) (started_https start) lo
    = Ok tt ->
  permitted start lo (url_to_string new).
Proof.
  unfold validate_redirect_target, permitted.
  destruct (started_https start && streqb (url_scheme new) (lit "http")) eqn:Eh; [done|].
  intros H. split.
  - cbn zeta in H. destruct (lo && is_loopback_url _); [by right|left]. cbn [negb] in H.
    by destruct (validate_url_safe _) as [[]|].
  - intros Hs v. rewrite url_reparse. intros [= <-]. rewrite Hs in Eh.
    by apply streqb_neq.
Qed.

(** C5: Every request made while a redirect chain is resolved is for a URL that
    passed the SSRF check (or is an allowed loopback address of a test run), and none is
    for an http URL when the chain started on https; nothing is requested when the first
    URL is refused.  [I] is any invariant of the client kept by permitted requests. *)
Theorem redirect_requests_permitted `{!UrlLaws U} (I : S -> Prop) start max_hops lo st :
  (∀ s u, permitted start lo u -> I s -> I (send s u).1) -> I st ->
  let r := resolve_redirect_chain send start max_hops lo st in
  I r.1 ∧ ∀ final chain resp, r.2 = Ok (final, chain, resp) ->
    Forall (λ e, permitted start lo e.1) chain.
Proof.
  intros Hsend Hi. unfold resolve_redirect_chain.
  destruct (Nat.eqb_spec max_hops 0) as [|Hm]; [by split|].
  assert (Hm' : (0 < max_hops)%nat) by lia.
  assert (Hstart : ∀ x, (if negb (lo && is_loopback_url start)
                         then validate_url_safe start else Ok tt) = Ok x ->
                        permitted start lo start).
  { intros [] Hv. split.
    - destruct (lo && is_loopback_url start); [by right|by left].
    - unfold started_https. intros Hs v Ev. rewrite Ev, streqb_eq in Hs. by rewrite Hs. }
  cbn zeta. destruct (if negb _ then _ else _) as [x|e]; [|by split].
  pose proof (redirect_loop_invariant send I (permitted start lo) (started_https start) lo
    Hsend (validated_permitted start lo) max_hops st start start [] (Hstart x eq_refl) Hi
    (Forall_nil_2 _)) as [H1 H2]; cbn zeta in *.
  destruct (redirect_loop _ _ _ _ _ _ _ _) as [st' [[[lst c] resp]|e]] eqn:Er; [|by split].
  split; [done|]. intros ??? [= <- <- <-].
  destruct (redirect_loop_shape send _ _ _ _ _ _ _ _ _ _ _ Hm' Er)
    as (s0 & ext & s & Ec & _ & _ & Hl & _).
  rewrite (close_chain_id _ s); [by eapply H2|]. by rewrite Ec, last_app_cons.
Qed.

(** A resolved chain starts at the first URL, holds at most [max_hops]
    entries, each answered with a redirect to the next, and ends at the reported final
    URL; the response is kept exactly when the last status is no redirect.  In
    particular the status-0 entry of the final guard is never appended. *)
Theorem redirect_chain_shape start max_hops lo st st' final chain resp :
  resolve_redirect_chain send start max_hops lo st = (st', Ok (final, chain, resp)) ->
  ∃ s0 ext s, chain = (start, s0) :: ext ∧ (length chain <= max_hops)%nat
    ∧ linked chain ∧ list.last chain = Some (final, s) ∧ final_entry final s resp.
Proof.
  unfold resolve_redirect_chain. destruct (Nat.eqb_spec max_hops 0) as [|Hm]; [done|].
  assert (Hm' : (0 < max_hops)%nat) by lia. cbn zeta. destruct (if negb _ then _ else _) as [x|e]; [|done].
  destruct (redirect_loop _ _ _ _ _ _ _ _) as [st1 [[[lst c] resp']|e]] eqn:Er; [|done].
  intros [= <- <- <- <-].
  destruct (redirect_loop_shape send _ _ _ _ _ _ _ _ _ _ _ Hm' Er)
    as (s0 & ext & s & -> & Hlen & Hl & Hlast & Hf).
  rewrite (close_chain_id _ s) by done. exists s0, ext, s.
  repeat split; [simpl; lia|done|done|done].
Qed.

(** Resolving a chain sends at most [max_hops] requests, and on success one
    per chain entry. *)
Theorem redirect_request_budget start max_hops lo st :
  let r := resolve_redirect_chain (counting send) start max_hops lo (st, 0%nat) in
  (r.1.2 <= max_hops)%nat ∧
  ∀ final chain resp, r.2 = Ok (final, chain, resp) -> r.1.2 = length chain.
Proof.
  unfold resolve_redirect_chain. destruct (Nat.eqb_spec max_hops 0) as [|Hm].
  { split; [simpl; lia|by intros]. }
  assert (Hm' : (0 < max_hops)%nat) by lia. cbn zeta. destruct (if negb _ then _ else _) as [x|e].
  2: { split; [simpl; lia|by intros]. }
  pose proof (redirect_loop_count send (started_https start) lo max_hops st 0 start start [])
    as [H1 H2]; cbn zeta in *.
  destruct (redirect_loop _ _ _ _ _ _ _ _) as [[st1 n] [[[lst c] resp']|e]] eqn:Er.
  2: { split; [done|by intros]. }
  split; [done|]. intros ??? [= <- <- <-]. specialize (H2 _ _ _ eq_refl).
  destruct (redirect_loop_shape (counting send) _ _ _ _ _ _ _ _ _ _ _ Hm' Er)
    as (s0 & ext & s & -> & _ & _ & Hlast & _).
  rewrite (close_chain_id _ s) by done. simpl in H2 |- *. lia.
Qed.
End RedirectProperties.

(** ** A concrete chain: a downgrade attempt at the second hop *)

Module Scenario.
Definition start : str := lit "https://a.example/".
Definition step : str := lit "https://b.example/x".

Definition answer (code : Z) (headers : list (str * option str)) : Response :=
  MkResponse code [] HTTP_11 headers None [].

(** The client state is the list of requested URLs. *)
Definition send (log : list str) (u : str) : list str * result Response str :=
  (log ++ [u],
   if streqb u start then Ok (answer 302 [(lit "location", Some step)])
   else if streqb u step then Ok (answer 301 [(lit "location", Some (lit "http://b.example/x"))])
   else Ok (answer 200 [])).

Definition run : list str * result LoopResult (ChainError str) :=
  @resolve_redirect_chain Demo.urls Demo.ascii_lowercase (list str) str send start 10 false [].
End Scenario.

Lemma redirect_requests_permitted_witness :
  Scenario.run = ([Scenario.start; Scenario.step],
                  Ok (Scenario.step, [(Scenario.start, 302); (Scenario.step, 301)], None))
  ∧ Forall (@permitted Demo.urls Demo.ascii_lowercase Scenario.start false) Scenario.run.1.
Proof.
  split; [vm_compute; reflexivity|].
  apply (@redirect_requests_permitted Demo.urls Demo.ascii_lowercase (list str) str
           Scenario.send Demo.urls_laws
           (Forall (@permitted Demo.urls Demo.ascii_lowercase Scenario.start false))
           Scenario.start 10 false []).
  - intros log u Hu Hlog. apply Forall_app. split; [exact Hlog|].
    apply Forall_cons_2; [exact Hu|apply Forall_nil_2].
  - apply Forall_nil_2.
Defined.

Lemma redirect_chain_shape_witness :
  ∃ s0 ext s, [(Scenario.start, 302); (Scenario.step, 301)] = (Scenario.start, s0) :: ext
    ∧ list.last [(Scenario.start, 302); (Scenario.step, 301)] = Some (Scenario.step, s).
Proof.
  destruct (@redirect_chain_shape Demo.urls Demo.ascii_lowercase (list str) str
              Scenario.send Scenario.start 10 false [] [Scenario.start; Scenario.step]
              Scenario.step [(Scenario.start, 302); (Scenario.step, 301)] None)
    as (s0 & ext & s & H1 & _ & _ & H2 & _).
  - vm_compute. reflexivity.
  - exists s0, ext, s. split; assumption.
Defined.
