(* ===== verification/Cookies.v ===== *)
(** * Cookies ([src/src/fetch/cookies.rs])

    One parse of [Set-Cookie] feeds the stored cookie attributes and the lower-cased
    name-to-value map that fingerprinting uses. *)

From S2P Require Import Prelude Net.

Record ParsedSetCookie := MkCookie {
  name : str;
  value : option str;
  secure : bool;
  http_only : bool;
  same_site : option str;
  domain : option str;
  path : option str;
}.

(** RFC 6265bis [SameSite]. *)
Definition allowlisted_same_site (raw : str) : option str :=
  let token := trim raw in
  if eq_ignore_ascii_case token (lit "strict") then Some (lit "strict")
  else if eq_ignore_ascii_case token (lit "lax") then Some (lit "lax")
  else if eq_ignore_ascii_case token (lit "none") then Some (lit "none")
  else None.

(** The mutable variables of the attribute loop. *)
Record AttrState := MkAttrs {
  a_secure : bool;
  a_http_only : bool;
  a_same_site : option str;
  a_same_site_invalid : bool;
  a_domain : option str;
  a_path : option str;
}.

Definition no_attrs : AttrState := MkAttrs false false None false None None.

(** [part.split_once('=')] with both sides trimmed; a part without [=] is only a name. *)
Definition split_attribute (part : str) : str * option str :=
  match split_once 61 part with
  | Some (n, v) => (trim n, Some (trim v))
  | None => (part, None)
  end.

(** The [SameSite] arm of the loop. *)
Definition apply_same_site (attr_value : option str) (st : AttrState) : AttrState :=
  match attr_value ≫= allowlisted_same_site with
  | Some v =>
      if bool_decide (a_same_site st = None) && negb (a_same_site_invalid st) then
        MkAttrs (a_secure st) (a_http_only st) (Some v) (a_same_site_invalid st)
          (a_domain st) (a_path st)
      else st
  | None =>
      MkAttrs (a_secure st) (a_http_only st) None true (a_domain st) (a_path st)
  end.

Definition apply_attribute (st : AttrState) (part : str) : AttrState :=
  let part := trim part in
  if negb (nonempty part) then st
  else
    let (attr_name, attr_value) := split_attribute part in
    if eq_ignore_ascii_case attr_name (lit "secure") then
      MkAttrs true (a_http_only st) (a_same_site st) (a_same_site_invalid st)
        (a_domain st) (a_path st)
    else if eq_ignore_ascii_case attr_name (lit "httponly") then
      MkAttrs (a_secure st) true (a_same_site st) (a_same_site_invalid st)
        (a_domain st) (a_path st)
    else if eq_ignore_ascii_case attr_name (lit "samesite") then apply_same_site attr_value st
    else if eq_ignore_ascii_case attr_name (lit "domain") then
      MkAttrs (a_secure st) (a_http_only st) (a_same_site st) (a_same_site_invalid st)
        (match attr_value with
         | Some v => if nonempty v then Some v else None
         | None => None
         end) (a_path st)
    else if eq_ignore_ascii_case attr_name (lit "path") then
      MkAttrs (a_secure st) (a_http_only st) (a_same_site st) (a_same_site_invalid st)
        (a_domain st) attr_value
    else st.

(** [name_value.splitn(2, '=')]. *)
Definition split_name_value (s : str) : str * option str :=
  match split_once 61 s with
  | Some (n, v) => (n, Some v)
  | None => (s, None)
  end.

Definition parse_set_cookie (s : str) : option ParsedSetCookie :=
  match split_char 59 s with
  | [] => None
  | name_value :: parts =>
      let (n, v) := split_name_value name_value in
      let name := trim n in
      if negb (nonempty name) then None
      else
        let value := option_map trim v in
        let st := foldl apply_attribute no_attrs parts in
        Some (MkCookie name value (a_secure st) (a_http_only st) (a_same_site st)
                (a_domain st) (a_path st))
  end.

(** The headers of a response: the [Set-Cookie] values and the first [Cookie] value, each
    absent when it is not visible ASCII ([HeaderValue::to_str] fails). *)
Record CookieHeaders := MkHeaders {
  set_cookie : list (option str);
  cookie : option (option str);
}.

Definition parse_all_set_cookies (headers : CookieHeaders) : list ParsedSetCookie :=
  omap (λ val, val ≫= parse_set_cookie) (set_cookie headers).

Record CookieInfo := MkCookieInfo {
  ci_name : str;
  ci_secure : bool;
  ci_http_only : bool;
  ci_same_site : option str;
  ci_domain : option str;
  ci_path : option str;
}.

Definition extract_cookie_infos (headers : CookieHeaders) : list CookieInfo :=
  map (λ c, MkCookieInfo (name c) (secure c) (http_only c) (same_site c) (domain c) (path c))
    (parse_all_set_cookies headers).

Section CookieMap.
Context `{L : Lowercase}.

(** Name and value of one pair of the [Cookie] header. *)
Definition cookie_pair (pair : str) : option (str * str) :=
  match split_name_value (trim pair) with
  | (n, Some v) => Some (to_lowercase (trim n), to_lowercase (trim v))
  | (_, None) => None
  end.

Definition set_cookie_pairs (headers : CookieHeaders) : list (str * str) :=
  omap (λ c, match value c with
             | Some v => Some (to_lowercase (name c), to_lowercase v)
             | None => None
             end) (parse_all_set_cookies headers).

Definition extract_cookies_name_value_map (headers : CookieHeaders) : gmap str str :=
  let cookies := foldl (λ m p, <[p.1 := p.2]> m) ∅ (set_cookie_pairs headers) in
  match cookie headers with
  | Some (Some cookie_str) =>
      foldl (λ m pair, match cookie_pair pair with
                       | Some p => <[p.1 := p.2]> m
                       | None => m
                       end) cookies (split_char 59 cookie_str)
  | _ => cookies
  end.
End CookieMap.

(** ** The SameSite policy, declaratively *)

(** The values of the [SameSite] attributes, in order; [None] for a value that is missing
    or not allowlisted. *)
Definition same_site_token (part : str) : option (option str) :=
  if nonempty (trim part) then
    let (attr_name, attr_value) := split_attribute (trim part) in
    if eq_ignore_ascii_case attr_name (lit "samesite")
    then Some (attr_value ≫= allowlisted_same_site) else None
  else None.

Definition same_site_tokens (parts : list str) : list (option str) := omap same_site_token parts.

(** The first value counts, and only if every value is allowlisted. *)
Definition same_site_spec (tokens : list (option str)) : option str :=
  if forallb (λ t, bool_decide (is_Some t)) tokens then mjoin (head tokens) else None.

Lemma eq_ignore_excludes a b c :
  eq_ignore_ascii_case a c = true -> eq_ignore_ascii_case b c = false ->
  eq_ignore_ascii_case a b = false.
Proof.
  unfold eq_ignore_ascii_case. intros E%streqb_eq. rewrite E, !streqb_neq. congruence.
Qed.

(** What one part does to the SameSite variables. *)
Lemma apply_attribute_same_site st part :
  let st' := apply_attribute st part in
  match same_site_token part with
  | None => a_same_site st' = a_same_site st
            ∧ a_same_site_invalid st' = a_same_site_invalid st
  | Some None => a_same_site st' = None ∧ a_same_site_invalid st' = true
  | Some (Some v) =>
      a_same_site_invalid st' = a_same_site_invalid st ∧
      a_same_site st' = if bool_decide (a_same_site st = None)
                           && negb (a_same_site_invalid st)
                        then Some v else a_same_site st
  end.
Proof.
  unfold apply_attribute, same_site_token. cbn zeta.
  destruct (nonempty (trim part)); cbn [negb]; [|done].
  destruct (split_attribute (trim part)) as [n v].
  destruct (eq_ignore_ascii_case n (lit "samesite")) eqn:E.
  - rewrite (eq_ignore_excludes _ (lit "secure") _ E) by reflexivity.
    rewrite (eq_ignore_excludes _ (lit "httponly") _ E) by reflexivity.
    unfold apply_same_site. destruct (v ≫= allowlisted_same_site); [|done].
    by destruct (bool_decide _ && negb _).
  - repeat (destruct (eq_ignore_ascii_case n _); [done|]). done.
Qed.

Lemma same_site_tokens_cons part parts :
  same_site_tokens (part :: parts)
  = match same_site_token part with
    | Some t => t :: same_site_tokens parts
    | None => same_site_tokens parts
    end.
Proof. done. Qed.

Lemma foldl_same_site parts st :
  (a_same_site_invalid st = true -> a_same_site st = None) ->
  a_same_site (foldl apply_attribute st parts)
  = if a_same_site_invalid st
       || negb (forallb (λ t, bool_decide (is_Some t)) (same_site_tokens parts))
    then None
    else match a_same_site st with
         | Some v => Some v
         | None => mjoin (head (same_site_tokens parts))
         end.
Proof.
  revert st. induction parts as [|part parts IH]; intros st Hinv.
  { simpl. rewrite orb_false_r. destruct (a_same_site_invalid st); [by apply Hinv|].
    by destruct (a_same_site st). }
  cbn [foldl]. pose proof (apply_attribute_same_site st part) as H. cbn zeta in H.
  rewrite same_site_tokens_cons.
  destruct (same_site_token part) as [[v|]|].
  - destruct H as [H1 H2]. rewrite IH.
    + rewrite H1, H2. simpl. destruct (a_same_site_invalid st) eqn:Ei; [done|]. simpl.
      destruct (negb _); [done|]. rewrite andb_true_r. by destruct (a_same_site st).
    + rewrite H1, H2. intros Hi. by rewrite Hi, andb_false_r, Hinv.
  - destruct H as [H1 H2]. rewrite IH by done. rewrite H2. simpl. by rewrite orb_true_r.
  - destruct H as [H1 H2]. rewrite IH; rewrite H1, H2; done.
Qed.

(** The shape of a parsed cookie. *)
Definition plain (s : str) : Prop := ¬ (59 ∈ s) ∧ trim s = s.

Definition wf_cookie (c : ParsedSetCookie) : Prop :=
  name c <> [] ∧ plain (name c) ∧ ¬ (61 ∈ name c)
  ∧ (∀ v, value c = Some v -> plain v)
  ∧ (∀ v, same_site c = Some v -> v = lit "strict" \/ v = lit "lax" \/ v = lit "none")
  ∧ (∀ v, domain c = Some v -> v <> [] ∧ plain v)
  ∧ (∀ v, path c = Some v -> plain v).

Definition wf_attrs (st : AttrState) : Prop :=
  (∀ v, a_same_site st = Some v -> v = lit "strict" \/ v = lit "lax" \/ v = lit "none")
  ∧ (∀ v, a_domain st = Some v -> v <> [] ∧ plain v)
  ∧ (∀ v, a_path st = Some v -> plain v).

Lemma trim_not_in c s : c ∉ s -> c ∉ trim s.
Proof. intros H Hin. apply H. destruct (trim_sub is_whitespace s) as (a & b & ->). set_solver. Qed.

Lemma plain_trim s : 59 ∉ s -> plain (trim s).
Proof. intros H. split; [by apply trim_not_in|apply trim_trim]. Qed.

Lemma split_once_sub k c s a b : split_once c s = Some (a, b) -> k ∉ s -> ¬ (k ∈ a) ∧ ¬ (k ∈ b).
Proof. intros [-> _]%split_once_Some. set_solver. Qed.

Lemma split_attribute_plain part :
  59 ∉ part -> ∀ v, (split_attribute part).2 = Some v -> plain v.
Proof.
  unfold split_attribute. intros Hp v. destruct (split_once 61 part) as [[a b]|] eqn:E; [|done].
  intros [= <-]. apply plain_trim. by apply (split_once_sub 59 _ _ _ _ E).
Qed.

Lemma allowlisted_cases raw v :
  allowlisted_same_site raw = Some v -> v = lit "strict" \/ v = lit "lax" \/ v = lit "none".
Proof. unfold allowlisted_same_site. repeat case_match; intros [=]; subst; auto. Qed.

Lemma apply_attribute_wf st part :
  59 ∉ part -> wf_attrs st -> wf_attrs (apply_attribute st part).
Proof.
  intros Hp (H1 & H2 & H3). unfold apply_attribute. cbn zeta.
  destruct (negb _); [by split_and!|].
  pose proof (split_attribute_plain (trim part) (trim_not_in _ _ Hp)) as Hv.
  destruct (split_attribute (trim part)) as [n v]. simpl in Hv.
  repeat (destruct (eq_ignore_ascii_case n _); [|]); unfold wf_attrs; cbn; try tauto.
  - unfold apply_same_site. destruct (v ≫= allowlisted_same_site) as [w|] eqn:Ew; cbn.
    + destruct (bool_decide _ && _); cbn; [|tauto]. split; [|tauto].
      intros ? [= <-]. apply bind_Some in Ew as (x & _ & ?). by eapply allowlisted_cases.
    + split; [done|tauto].
  - split; [done|]. split; [|done]. intros w. destruct v as [v|]; [|done].
    destruct v; cbn; [done|]. intros [= <-]. split; [done|]. by apply Hv.
Qed.

Lemma foldl_attributes_wf parts st :
  Forall (λ p, 59 ∉ p) parts -> wf_attrs st -> wf_attrs (foldl apply_attribute st parts).
Proof.
  intros H. revert st. induction H as [|p parts Hp _ IH]; intros st Hst; [done|].
  cbn [foldl]. by apply IH, apply_attribute_wf.
Qed.

(** The pieces between separators hold no separator. *)
Lemma split_name_value_spec s :
  ¬ (61 ∈ (split_name_value s).1) ∧
  (∀ k, k ∉ s -> ¬ (k ∈ (split_name_value s).1)
                 ∧ ∀ v, (split_name_value s).2 = Some v -> k ∉ v).
Proof.
  unfold split_name_value. destruct (split_once 61 s) as [[a b]|] eqn:E; simpl.
  - split; [by apply split_once_Some in E as [_ ?]|].
    intros k Hk. destruct (split_once_sub k _ _ _ _ E Hk). split; [done|]. by intros ? [= <-].
  - split; [by apply split_once_None|]. intros k Hk. by split.
Qed.

(** The last binding of a key wins. *)
Definition last_binding (k : str) (pairs : list (str * str)) : option str :=
  list.last (omap (λ p, if bool_decide (p.1 = k) then Some p.2 else None) pairs).

Lemma foldl_insert_lookup (pairs : list (str * str)) (m : gmap str str) k :
  foldl (λ m p, <[p.1 := p.2]> m) m pairs !! k
  = match last_binding k pairs with Some v => Some v | None => m !! k end.
Proof.
  revert m. induction pairs as [|[n v] pairs IH] using rev_ind; intros m; [done|].
  rewrite foldl_app. simpl. unfold last_binding in *. rewrite omap_app. simpl.
  destruct (decide (n = k)) as [->|Hn].
  - rewrite lookup_insert_eq, bool_decide_eq_true_2 by done. by rewrite last_snoc.
  - rewrite lookup_insert_ne, bool_decide_eq_false_2, app_nil_r by done. apply IH.
Qed.

Lemma foldl_omap {A B C} (f : A -> option B) (g : C -> B -> C) l c :
  foldl (λ c a, match f a with Some b => g c b | None => c end) c l = foldl g c (omap f l).
Proof.
  revert c. induction l as [|a l IH]; intros c; [done|]. simpl. rewrite IH.
  by destruct (f a).
Qed.

(** ** Properties *)

(** A parsed cookie has a non-empty name without [=], its [SameSite] is one of
    the three allowed tokens in lower case, its domain is not empty, and no field holds a
    separator or surrounding space. *)
Theorem parse_set_cookie_wf s c : parse_set_cookie s = Some c -> wf_cookie c.
Proof.
  unfold parse_set_cookie. pose proof (split_char_pieces 59 s) as Hp.
  destruct (split_char 59 s) as [|nv parts]; [done|].
  inversion Hp as [|? ? Hnv Hparts]; subst.
  destruct (split_name_value_spec nv) as [Hn Hk]. specialize (Hk 59 Hnv).
  destruct (split_name_value nv) as [n v]. simpl in Hn, Hk. destruct Hk as [Hn59 Hv].
  cbn zeta. destruct (trim n) as [|x t] eqn:Et; [done|]. cbn [nonempty negb]. intros [= <-].
  pose proof (foldl_attributes_wf parts no_attrs Hparts) as (H1 & H2 & H3); [by split_and!|].
  unfold wf_cookie. cbn [name value same_site domain path]. rewrite <- Et. split_and!.
  - by rewrite Et.
  - by apply plain_trim.
  - by apply trim_not_in.
  - intros w. destruct v as [v|]; [|done]. intros [= <-]. by apply plain_trim, Hv.
  - done.
  - done.
  - done.
Qed.

Definition jammed : str := lit " sid = 1 ; Secure; Path=/; SameSite=Lax, b=2; SameSite=None".
Lemma parse_set_cookie_wf_witness :
  ∃ c, parse_set_cookie jammed = Some c ∧ name c = lit "sid" ∧ wf_cookie c.
Proof.
  eexists. split; [vm_compute; reflexivity|]. split; [reflexivity|].
  apply (parse_set_cookie_wf jammed). vm_compute. reflexivity.
Defined.

(** The SameSite state machine of the attribute loop computes the declarative
    policy: the first value, provided that every SameSite attribute of the header is
    allowlisted; one bad token anywhere leaves the cookie without SameSite. *)
Theorem same_site_policy s c :
  parse_set_cookie s = Some c ->
  same_site c = same_site_spec (same_site_tokens (tail (split_char 59 s))).
Proof.
  unfold parse_set_cookie. destruct (split_char 59 s) as [|nv parts]; [done|].
  destruct (split_name_value nv) as [n v]. cbn zeta. destruct (negb _); [done|].
  intros [= <-]. cbn [same_site tail]. rewrite foldl_same_site by done.
  unfold same_site_spec. simpl. by destruct (forallb _ _).
Qed.

Lemma same_site_policy_witness :
  ∃ c, parse_set_cookie jammed = Some c ∧ same_site c = None
  ∧ same_site c = same_site_spec (same_site_tokens (tail (split_char 59 jammed))).
Proof.
  eexists. split; [vm_compute; reflexivity|]. split; [reflexivity|].
  apply (same_site_policy jammed). vm_compute. reflexivity.
Defined.

(** The fingerprint cookie map binds a name to the value of its last
    occurrence, the pairs of the [Cookie] header overriding those of [Set-Cookie];
    cookies without a value are absent. *)
Theorem cookie_map_lookup `{L : Lowercase} headers k :
  extract_cookies_name_value_map headers !! k
  = last_binding k
      (set_cookie_pairs headers ++
       match cookie headers with
       | Some (Some cookie_str) => omap cookie_pair (split_char 59 cookie_str)
       | _ => []
       end).
Proof.
  unfold extract_cookies_name_value_map. cbn zeta.
  assert (H : ∀ pairs, foldl (λ (m : gmap str str) p, <[p.1 := p.2]> m) ∅ pairs !! k
                       = last_binding k pairs).
  { intros pairs. rewrite foldl_insert_lookup, lookup_empty.
    by destruct (last_binding k pairs). }
  rewrite <- H, foldl_app.
  destruct (cookie headers) as [[cs|]|]; try done.
  pose proof (foldl_omap cookie_pair (λ (m : gmap str str) p, <[p.1 := p.2]> m)
    (split_char 59 cs) (foldl (λ m p, <[p.1 := p.2]> m) ∅ (set_cookie_pairs headers))) as E.
  by rewrite <- E.
Qed.
