(* ===== verification/Errors.v ===== *)
(** * Error categorisation ([src/src/error_handling/], [src/src/storage/failure/error.rs])

    Errors of the HTTP client and of the resolver are values of the libraries: what the
    program reads of them are the predicates and messages collected in [ReqwestError] and
    [NetError].  An [anyhow] error is a stack of context messages on a root error with its
    sources. *)

From S2P Require Import Prelude Net.

(** ** types.rs *)

Inductive ErrorType :=
  | HttpRequestBuilderError
  | HttpRequestRedirectError
  | HttpRequestStatusError
  | HttpRequestTimeoutError
  | HttpRequestRequestError
  | HttpRequestConnectError
  | HttpRequestBodyError
  | HttpRequestDecodeError
  | HttpRequestOtherError
  | HttpRequestTooManyRequests
  | HttpRequestBotDetectionError
  | HttpRequestBadRequest
  | HttpRequestUnauthorized
  | HttpRequestNotFound
  | HttpRequestInternalServerError
  | HttpRequestBadGateway
  | HttpRequestServiceUnavailable
  | HttpRequestGatewayTimeout
  | ProcessUrlTimeout
  | ScanCancelled
  | DnsForwardLookupError
  | DnsNsLookupError
  | DnsTxtLookupError
  | DnsMxLookupError
  | DnsCnameLookupError
  | DnsAaaaLookupError
  | DnsCaaLookupError
  | TlsCertificateError
  | TechnologyDetectionError
  | SatelliteInsertError.

Definition all_error_types : list ErrorType :=
  [HttpRequestBuilderError;
   HttpRequestRedirectError;
   HttpRequestStatusError;
   HttpRequestTimeoutError;
   HttpRequestRequestError;
   HttpRequestConnectError;
   HttpRequestBodyError;
   HttpRequestDecodeError;
   HttpRequestOtherError;
   HttpRequestTooManyRequests;
   HttpRequestBotDetectionError;
   HttpRequestBadRequest;
   HttpRequestUnauthorized;
   HttpRequestNotFound;
   HttpRequestInternalServerError;
   HttpRequestBadGateway;
   HttpRequestServiceUnavailable;
   HttpRequestGatewayTimeout;
   ProcessUrlTimeout;
   ScanCancelled;
   DnsForwardLookupError;
   DnsNsLookupError;
   DnsTxtLookupError;
   DnsMxLookupError;
   DnsCnameLookupError;
   DnsAaaaLookupError;
   DnsCaaLookupError;
   TlsCertificateError;
   TechnologyDetectionError;
   SatelliteInsertError].

Definition as_str (e : ErrorType) : str :=
  match e with
  | HttpRequestBuilderError => lit "HTTP request builder error"
  | HttpRequestRedirectError => lit "HTTP request redirect error"
  | HttpRequestStatusError => lit "HTTP request status error"
  | HttpRequestTimeoutError => lit "HTTP request timeout error"
  | HttpRequestRequestError => lit "HTTP request error"
  | HttpRequestConnectError => lit "HTTP request connect error"
  | HttpRequestBodyError => lit "HTTP request body error"
  | HttpRequestDecodeError => lit "HTTP request decode error"
  | HttpRequestOtherError => lit "HTTP request other error"
  | HttpRequestTooManyRequests => lit "Too many requests"
  | HttpRequestBotDetectionError => lit "Bot detection (403 Forbidden)"
  | HttpRequestBadRequest => lit "Bad Request (400)"
  | HttpRequestUnauthorized => lit "Unauthorized (401)"
  | HttpRequestNotFound => lit "Not Found (404)"
  | HttpRequestInternalServerError => lit "Internal Server Error (500)"
  | HttpRequestBadGateway => lit "Bad Gateway (502)"
  | HttpRequestServiceUnavailable => lit "Service Unavailable (503)"
  | HttpRequestGatewayTimeout => lit "Gateway Timeout (504)"
  | ProcessUrlTimeout => lit "Process URL timeout"
  | ScanCancelled => lit "Scan cancelled"
  | DnsForwardLookupError => lit "DNS forward lookup error"
  | DnsNsLookupError => lit "DNS NS lookup error"
  | DnsTxtLookupError => lit "DNS TXT lookup error"
  | DnsMxLookupError => lit "DNS MX lookup error"
  | DnsCnameLookupError => lit "DNS CNAME lookup error"
  | DnsAaaaLookupError => lit "DNS AAAA lookup error"
  | DnsCaaLookupError => lit "DNS CAA lookup error"
  | TlsCertificateError => lit "TLS certificate error"
  | TechnologyDetectionError => lit "Technology detection error"
  | SatelliteInsertError => lit "Satellite insert error"
  end.

#[export] Instance ErrorType_eq_dec : EqDecision ErrorType.
Proof. solve_decision. Defined.

Inductive WarningType :=
  | MissingMetaDescription
  | MissingTitle.

Definition all_warning_types : list WarningType := [MissingMetaDescription; MissingTitle].

#[export] Instance WarningType_eq_dec : EqDecision WarningType.
Proof. solve_decision. Defined.

Inductive InfoType :=
  | HttpRedirect
  | HttpsRedirect
  | BotDetection403
  | MultipleRedirects.

Definition all_info_types : list InfoType :=
  [HttpRedirect; HttpsRedirect; BotDetection403; MultipleRedirects].

#[export] Instance InfoType_eq_dec : EqDecision InfoType.
Proof. solve_decision. Defined.

(** ** categorization.rs and reqwest_ext.rs *)

Record ReqwestError := MkReqwest {
  r_status : option Z;
  is_builder : bool;
  is_redirect : bool;
  is_status : bool;
  is_timeout : bool;
  is_request : bool;
  is_connect : bool;
  is_body : bool;
  is_decode : bool;
  r_message : str;
}.

(** [StatusCode::is_client_error], [StatusCode::is_server_error]. *)
Definition is_client_error (code : Z) : bool := (400 <=? code) && (code <? 500).
Definition is_server_error (code : Z) : bool := (500 <=? code) && (code <? 600).

Definition categorize_status (code : Z) : option ErrorType :=
  if code =? 400 then Some HttpRequestBadRequest
  else if code =? 401 then Some HttpRequestUnauthorized
  else if code =? 403 then Some HttpRequestBotDetectionError
  else if code =? 404 then Some HttpRequestNotFound
  else if code =? 429 then Some HttpRequestTooManyRequests
  else if code =? 500 then Some HttpRequestInternalServerError
  else if code =? 502 then Some HttpRequestBadGateway
  else if code =? 503 then Some HttpRequestServiceUnavailable
  else if code =? 504 then Some HttpRequestGatewayTimeout
  else if is_client_error code then Some HttpRequestOtherError
  else if is_server_error code then Some HttpRequestOtherError
  else None.

Definition categorize_reqwest_error (error : ReqwestError) : ErrorType :=
  match r_status error ≫= categorize_status with
  | Some t => t
  | None =>
      if is_builder error then HttpRequestBuilderError
      else if is_redirect error then HttpRequestRedirectError
      else if is_status error then HttpRequestStatusError
      else if is_timeout error then HttpRequestTimeoutError
      else if is_request error then HttpRequestRequestError
      else if is_connect error then HttpRequestConnectError
      else if is_body error then HttpRequestBodyError
      else if is_decode error then HttpRequestDecodeError
      else HttpRequestOtherError
  end.

Definition HTTP_STATUS_TOO_MANY_REQUESTS : Z := 429.

Definition is_retriable (error : ReqwestError) : bool :=
  let by_status :=
    match r_status error with
    | Some code =>
        if code =? HTTP_STATUS_TOO_MANY_REQUESTS then Some true
        else if (400 <=? code) && (code <? 500) then Some false
        else if (500 <=? code) && (code <? 600) then Some true
        else None
    | None => None
    end in
  match by_status with
  | Some b => b
  | None =>
      if is_timeout error || is_connect error || is_request error then true
      else if is_redirect error || is_decode error then false
      else false
  end.

(** ** resolve_ext.rs *)

Record NetError := MkNet {
  is_nx_domain : bool;
  is_no_records_found : bool;
  is_net_timeout : bool;
  n_message : str;
}.

Inductive DnsResolveErrorKind :=
  | NxDomain
  | NoRecords
  | Timeout
  | Other.

Definition categorize_resolve_error (e : NetError) : DnsResolveErrorKind :=
  if is_nx_domain e then NxDomain
  else if is_no_records_found e then NoRecords
  else if is_net_timeout e then Timeout
  else Other.

(** ** failure/context.rs *)

Record FailureContext := MkFailureContext {
  fc_final_url : option str;
  fc_redirect_chain : list str;
  fc_response_headers : list (str * str);
}.

Definition no_failure_context : FailureContext := MkFailureContext None [] [].

(** The [Display] of a [FailureContextError]. *)
Definition failure_context_text (c : FailureContext) : str :=
  match fc_final_url c with
  | Some final_url =>
      match fc_redirect_chain c with
      | [] => lit "Request failed for " ++ final_url
      | first :: more =>
          lit "Request failed for " ++ final_url ++ lit " (redirected from " ++ first
          ++ lit " via " ++ dec (Z.of_nat (length more)) ++ lit " hop(s))"
      end
  | None => lit "Request failed (no final URL available)"
  end.

(** ** Error chains *)

Inductive Cause :=
  | CReqwest (e : ReqwestError)
  | CFailureContext (context : FailureContext)
  | CUrlParse (message : str)
  | CSqlx (message : str)
  | CNet (e : NetError)
  | CMessage (message : str).

Definition cause_message (c : Cause) : str :=
  match c with
  | CReqwest e => r_message e
  | CNet e => n_message e
  | CFailureContext c => failure_context_text c
  | CUrlParse m | CSqlx m | CMessage m => m
  end.

Record AnyhowError := MkAnyhow {
  contexts : list str;
  root : Cause;
  sources : list Cause;
}.

Definition error_chain (e : AnyhowError) : list Cause :=
  map CMessage (contexts e) ++ root e :: sources e.

Definition error_to_string (e : AnyhowError) : str :=
  match error_chain e with c :: _ => cause_message c | [] => [] end.

Definition with_context (c : str) (e : AnyhowError) : AnyhowError :=
  MkAnyhow (c :: contexts e) (root e) (sources e).

(** [attach_failure_context]: the context becomes the root; of the error only the text of
    its outermost cause is left, as the context of that root. *)
Definition attach_failure_context (error : AnyhowError) (context : FailureContext) : AnyhowError :=
  MkAnyhow [error_to_string error] (CFailureContext context) [].

(** [downcast_ref] sees the root below the contexts, not its sources. *)
Definition extract_failure_context (error : AnyhowError) : FailureContext :=
  match root error with
  | CFailureContext context => context
  | _ => no_failure_context
  end.

(** [utils/retry.rs]: the first cause of a known type decides. *)
Fixpoint retriable_chain (chain : list Cause) : bool :=
  match chain with
  | [] => false
  | CReqwest e :: _ => is_retriable e
  | CUrlParse _ :: _ => false
  | CSqlx _ :: _ => false
  | CNet _ :: _ => true
  | CMessage _ :: rest | CFailureContext _ :: rest => retriable_chain rest
  end.

Definition is_retriable_error (error : AnyhowError) : bool := retriable_chain (error_chain error).

(** ** failure/error.rs *)

Definition mentions_nameserver_record (msg : str) : bool :=
  contains (lit "nameserver") msg || contains (lit " ns ") msg || contains (lit " ns:") msg
  || contains (lit ":ns ") msg || starts_with (lit "ns ") msg || ends_with (lit " ns") msg.

Definition dns_error_type_from_message (msg : str) : ErrorType :=
  if contains (lit "txt") msg then DnsTxtLookupError
  else if contains (lit "mx") msg || contains (lit "mail") msg then DnsMxLookupError
  else if mentions_nameserver_record msg then DnsNsLookupError
  else DnsNsLookupError.

Definition mentions_tls (msg : str) : bool :=
  contains (lit "tls") msg || contains (lit "ssl") msg || contains (lit "certificate") msg
  || contains (lit "handshake") msg.

Definition first_net_error (chain : list Cause) : option NetError :=
  head (omap (λ c, match c with CNet e => Some e | _ => None end) chain).

Definition first_reqwest_error (chain : list Cause) : option ReqwestError :=
  head (omap (λ c, match c with CReqwest e => Some e | _ => None end) chain).

Section Lower.
Context `{L : Lowercase}.

Definition net_error_type (e : NetError) : ErrorType :=
  match categorize_resolve_error e with
  | Timeout => ProcessUrlTimeout
  | NxDomain | NoRecords | Other => dns_error_type_from_message (to_lowercase (n_message e))
  end.

Definition reqwest_error_type (e : ReqwestError) : ErrorType :=
  let base_type := categorize_reqwest_error e in
  let error_msg := to_lowercase (r_message e) in
  if mentions_tls error_msg then TlsCertificateError
  else if (bool_decide (base_type = HttpRequestRequestError)
           || bool_decide (base_type = HttpRequestConnectError))
          && contains (lit "timeout") error_msg
  then HttpRequestTimeoutError
  else base_type.

Definition message_error_type (msg : str) : ErrorType :=
  if contains (lit "request timeout") msg
     || contains (lit "http") msg && contains (lit "timeout") msg
  then HttpRequestTimeoutError
  else if contains (lit "timeout") msg then ProcessUrlTimeout
  else if contains (lit "connect") msg
          && (contains (lit "dns") msg || contains (lit "name resolution") msg
              || contains (lit "failed to resolve") msg)
  then HttpRequestConnectError
  else if contains (lit "dns") msg || contains (lit "resolve") msg
          || contains (lit "lookup failed") msg
  then if contains (lit "txt") msg then DnsTxtLookupError
       else if contains (lit "mx") msg || contains (lit "mail") msg then DnsMxLookupError
       else if mentions_nameserver_record msg then DnsNsLookupError
       else DnsNsLookupError
  else if mentions_tls msg then TlsCertificateError
  else HttpRequestOtherError.

Definition extract_error_type (error : AnyhowError) : ErrorType :=
  match first_net_error (error_chain error) with
  | Some e => net_error_type e
  | None =>
      match first_reqwest_error (error_chain error) with
      | Some e => reqwest_error_type e
      | None => message_error_type (to_lowercase (error_to_string error))
      end
  end.
End Lower.

(** The three passes of [extract_http_status]: the error itself ([downcast_ref] sees the
    root below the contexts), the chain, and the sources once more. *)
Definition cause_status (c : Cause) : option Z :=
  match c with CReqwest e => r_status e | _ => None end.

Fixpoint first_status (chain : list Cause) : option Z :=
  match chain with
  | [] => None
  | c :: rest => match cause_status c with Some s => Some s | None => first_status rest end
  end.

Definition extract_http_status (error : AnyhowError) : option Z :=
  match cause_status (root error) with
  | Some s => Some s
  | None =>
      match first_status (error_chain error) with
      | Some s => Some s
      | None => first_status (tail (error_chain error))
      end
  end.

(** ** stats.rs: one counter per kind, wrapping like [AtomicUsize] on 64 bits *)

Record ProcessingStats := MkStats {
  errors : ErrorType -> Z;
  warnings : WarningType -> Z;
  info : InfoType -> Z;
}.

Definition new_stats : ProcessingStats := MkStats (λ _, 0) (λ _, 0) (λ _, 0).

Definition bump `{EqDecision A} (m : A -> Z) (k : A) : A -> Z :=
  λ x, if decide (x = k) then wrap_u64 (m x + 1) else m x.

Definition increment_error (s : ProcessingStats) (e : ErrorType) : ProcessingStats :=
  MkStats (bump (errors s) e) (warnings s) (info s).
Definition increment_warning (s : ProcessingStats) (w : WarningType) : ProcessingStats :=
  MkStats (errors s) (bump (warnings s) w) (info s).
Definition increment_info (s : ProcessingStats) (i : InfoType) : ProcessingStats :=
  MkStats (errors s) (warnings s) (bump (info s) i).

Definition sum_Z (l : list Z) : Z := foldr Z.add 0 l.

Definition total_errors (s : ProcessingStats) : Z := sum_Z (map (errors s) all_error_types).
Definition total_warnings (s : ProcessingStats) : Z :=
  sum_Z (map (warnings s) all_warning_types).
Definition total_info (s : ProcessingStats) : Z := sum_Z (map (info s) all_info_types).

Definition update_error_stats (s : ProcessingStats) (e : ReqwestError) : ProcessingStats :=
  increment_error s (categorize_reqwest_error e).

(** ** Lemmas *)

Lemma first_status_messages ms chain : first_status (map CMessage ms ++ chain) = first_status chain.
Proof. by induction ms. Qed.

Lemma retriable_messages ms chain :
  retriable_chain (map CMessage ms ++ chain) = retriable_chain chain.
Proof. by induction ms. Qed.

Lemma omap_messages {A} (f : Cause -> option A) ms chain :
  (∀ m, f (CMessage m) = None) -> omap f (map CMessage ms ++ chain) = omap f chain.
Proof. intros Hf. induction ms as [|m ms IH]; [done|]. simpl. by rewrite Hf. Qed.

(** ** Properties *)

(** The three passes of [extract_http_status] return the status of the first
    HTTP error of the chain that has one: the first and the third pass are redundant. *)
Theorem extract_http_status_first e : extract_http_status e = first_status (error_chain e).
Proof.
  unfold extract_http_status, error_chain. rewrite first_status_messages. simpl.
  destruct (cause_status (root e)) eqn:E; [done|].
  destruct (first_status (sources e)) eqn:Es; [done|].
  destruct (contexts e) as [|c cs]; [done|]. simpl. rewrite first_status_messages. simpl.
  by rewrite E, Es.
Qed.

(** Adding context to an error changes neither the retry decision nor the HTTP
    status found in it, and not its type either when the chain holds an HTTP or resolver
    error. *)
Theorem context_invariance `{L : Lowercase} c e :
  is_retriable_error (with_context c e) = is_retriable_error e
  ∧ extract_http_status (with_context c e) = extract_http_status e
  ∧ (is_Some (first_net_error (error_chain e)) \/ is_Some (first_reqwest_error (error_chain e)) ->
     extract_error_type (with_context c e) = extract_error_type e).
Proof.
  split_and!; [done|by rewrite !extract_http_status_first|].
  unfold extract_error_type. change (error_chain (with_context c e)) with
    (CMessage c :: error_chain e).
  change (first_net_error (CMessage c :: error_chain e)) with (first_net_error (error_chain e)).
  change (first_reqwest_error (CMessage c :: error_chain e))
    with (first_reqwest_error (error_chain e)).
  destruct (first_net_error _); [done|]. destruct (first_reqwest_error _); [done|].
  by intros [[]|[]].
Qed.

Definition reset_error : ReqwestError :=
  MkReqwest (Some 503) false false true false false false false false (lit "unavailable").
Lemma context_invariance_witness :
  @extract_error_type Demo.ascii_lowercase
    (with_context (lit "outer") (MkAnyhow [] (CReqwest reset_error) []))
  = HttpRequestServiceUnavailable.
Proof.
  destruct (@context_invariance Demo.ascii_lowercase (lit "outer")
              (MkAnyhow [] (CReqwest reset_error) [])) as (_ & _ & H).
  rewrite H; [vm_compute; reflexivity|]. right. eexists. reflexivity.
Defined.

(** For an HTTP status error of the 4xx or 5xx classes the recorded type and
    the retry decision follow the same table: exactly 429 and the 5xx codes are retried,
    the nine codes with a type of their own get it, the others are generic. *)
Theorem status_retry_table e code :
  r_status e = Some code -> 400 <= code < 600 ->
  is_retriable e = (code =? 429) || (500 <=? code)
  ∧ categorize_reqwest_error e
    = match categorize_status code with Some t => t | None => HttpRequestOtherError end
  ∧ (categorize_reqwest_error e = HttpRequestTooManyRequests <-> code = 429)
  ∧ (categorize_reqwest_error e = HttpRequestNotFound <-> code = 404).
Proof.
  intros Hs Hc.
  assert (E : ∃ t, categorize_status code = Some t).
  { unfold categorize_status, is_client_error, is_server_error. repeat case_match; eauto. lia. }
  destruct E as [t E]. unfold categorize_reqwest_error, is_retriable. rewrite Hs. simpl.
  rewrite E. split_and!.
  - unfold HTTP_STATUS_TOO_MANY_REQUESTS. clear E. destruct (Z.eqb_spec code 429); [done|].
    cbn [orb]. destruct ((400 <=? code) && (code <? 500)) eqn:E4; cbn; [lia|].
    rewrite (proj2 (andb_true_iff _ _)) by lia. lia.
  - done.
  - revert E. unfold categorize_status. repeat case_match; intros [= <-];
      split; intros; try done; lia.
  - revert E. unfold categorize_status. repeat case_match; intros [= <-];
      split; intros; try done; lia.
Qed.

Lemma status_retry_table_witness :
  is_retriable reset_error = (503 =? 429) || (500 <=? 503).
Proof. apply (status_retry_table reset_error 503); [reflexivity|lia]. Defined.

(** The text of the error made by the URL timeout handler (35 s). *)
Definition timeout_error (url : str) : AnyhowError :=
  MkAnyhow [] (CMessage (lit "Process URL timeout after 35 seconds for " ++ url)) [].

Lemma contains_mono p a b : contains p b = true -> contains p (a ++ b) = true.
Proof.
  rewrite !contains_iff. intros (x & y & ->). exists (a ++ x), y. by rewrite <- app_assoc.
Qed.

Lemma contains_left p a b : contains p a = true -> contains p (a ++ b) = true.
Proof.
  rewrite !contains_iff. intros (x & y & ->). exists x, (y ++ b). by rewrite <- !app_assoc.
Qed.

(** A URL that runs into the processing timeout is recorded with the type
    "HTTP request timeout error", never as a URL-processing timeout: the message of the
    timeout names the URL, whose scheme contains [http]. *)
Theorem timeout_recorded_as_http_timeout `{L : Lowercase} `{!LowercaseLaws L} url rest :
  forallb is_ascii url = true -> to_ascii_lowercase url = lit "http" ++ rest ->
  extract_error_type (timeout_error url) = HttpRequestTimeoutError.
Proof.
  intros Ha Hu. unfold extract_error_type, timeout_error. simpl.
  change (error_to_string _) with (lit "Process URL timeout after 35 seconds for " ++ url).
  rewrite to_lowercase_ascii by (rewrite forallb_app, Ha; done).
  rewrite to_ascii_lowercase_app, Hu. unfold message_error_type.
  rewrite (contains_left (lit "timeout")) by reflexivity.
  rewrite (contains_mono (lit "http")) by (apply contains_left; reflexivity).
  by rewrite orb_true_r.
Qed.

Lemma timeout_recorded_as_http_timeout_witness :
  @extract_error_type Demo.ascii_lowercase (timeout_error (lit "https://example.com/"))
  = HttpRequestTimeoutError.
Proof.
  apply (@timeout_recorded_as_http_timeout Demo.ascii_lowercase Demo.ascii_lowercase_laws
           (lit "https://example.com/") (lit "s://example.com/")); reflexivity.
Defined.

(** The retry wrapper adds the context "Non-retriable error" to every terminal
    error.  For an error without an HTTP or resolver cause this hides its message: it is
    always recorded as a generic error, whatever the message said. *)
Theorem terminal_message_types_hidden `{L : Lowercase} `{!LowercaseLaws L} e :
  first_net_error (error_chain e) = None -> first_reqwest_error (error_chain e) = None ->
  extract_error_type (with_context (lit "Non-retriable error") e) = HttpRequestOtherError.
Proof.
  intros H1 H2. unfold extract_error_type.
  change (first_net_error (error_chain (with_context _ e))) with (first_net_error (error_chain e)).
  change (first_reqwest_error (error_chain (with_context _ e)))
    with (first_reqwest_error (error_chain e)).
  rewrite H1, H2. change (error_to_string _) with (lit "Non-retriable error").
  rewrite to_lowercase_ascii by reflexivity. vm_compute. reflexivity.
Qed.

Definition tls_failure : AnyhowError := MkAnyhow [] (CMessage (lit "TLS handshake failed")) [].
Lemma terminal_message_types_hidden_witness :
  @extract_error_type Demo.ascii_lowercase tls_failure = TlsCertificateError
  ∧ is_retriable_error tls_failure = false
  ∧ @extract_error_type Demo.ascii_lowercase
      (with_context (lit "Non-retriable error") tls_failure) = HttpRequestOtherError.
Proof.
  split; [vm_compute; reflexivity|]. split; [reflexivity|].
  apply (@terminal_message_types_hidden Demo.ascii_lowercase Demo.ascii_lowercase_laws);
    reflexivity.
Defined.

(** The enumerations list every kind once. *)
Lemma all_error_types_complete t : t ∈ all_error_types.
Proof. apply list_elem_of_In. destruct t; simpl; tauto. Qed.

Lemma all_error_types_nodup : NoDup all_error_types.
Proof. apply (bool_decide_unpack _). vm_compute. reflexivity. Qed.

Lemma sum_bump `{EqDecision A} (m : A -> Z) k l :
  NoDup l -> 0 <= m k < u64_max ->
  sum_Z (map (bump m k) l) = sum_Z (map m l) + if decide (k ∈ l) then 1 else 0.
Proof.
  intros Hl Hk. induction Hl as [|x l Hx Hl IH]; [done|].
  cbn [map sum_Z foldr]. fold (sum_Z (map (bump m k) l)). fold (sum_Z (map m l)).
  rewrite IH. unfold bump at 1. destruct (decide (x = k)) as [->|Hne].
  - rewrite wrap_u64_small by lia. rewrite decide_False by done.
    rewrite decide_True by set_solver. lia.
  - destruct (decide (k ∈ l)).
    + rewrite decide_True by set_solver. lia.
    + rewrite decide_False by set_solver. lia.
Qed.

(** Counting an HTTP error raises its own counter by one, leaves the other
    counters alone and raises the total by exactly one, as long as the counter has not
    reached the 64-bit maximum. *)
Theorem update_error_stats_total s e :
  0 <= errors s (categorize_reqwest_error e) < u64_max ->
  let s' := update_error_stats s e in
  errors s' (categorize_reqwest_error e) = errors s (categorize_reqwest_error e) + 1
  ∧ (∀ t, t <> categorize_reqwest_error e -> errors s' t = errors s t)
  ∧ total_errors s' = total_errors s + 1
  ∧ total_warnings s' = total_warnings s ∧ total_info s' = total_info s.
Proof.
  intros H s'. subst s'. unfold update_error_stats, increment_error. cbn [errors].
  split_and!; try done.
  - unfold bump. rewrite decide_True by done. apply wrap_u64_small. lia.
  - intros t Ht. unfold bump. by rewrite decide_False.
  - unfold total_errors. cbn [errors]. rewrite sum_bump by (done || apply all_error_types_nodup).
    by rewrite decide_True by apply all_error_types_complete.
Qed.

Lemma update_error_stats_total_witness :
  total_errors (update_error_stats new_stats reset_error) = total_errors new_stats + 1.
Proof.
  apply (update_error_stats_total new_stats reset_error).
  unfold new_stats, u64_max. cbn. lia.
Defined.
