(* ===== verification/Retry.v ===== *)
(** * Retry loops

    The three loops of the program: [execute_with_retry] of [utils/process.rs] with the
    back-off of [error_handling/categorization.rs], [with_sqlite_retry] of
    [storage/insert/retry.rs] and [with_network_download_retry] of [utils/retry.rs].
    The operation is a parameter that takes the world from one state to the next; the
    delays slept are recorded in milliseconds.  Each loop is shown to refine one
    abstract bounded retry. *)

From S2P Require Import Prelude Net Errors.

(** ** The back-off iterator *)

Definition RETRY_INITIAL_DELAY_MS : Z := 500.
Definition RETRY_FACTOR : Z := 2.
Definition RETRY_MAX_DELAY_SECS : Z := 15.
Definition RETRY_MAX_ATTEMPTS : nat := 3.

Record ExponentialBackoff := MkBackoff {
  current_ms : Z;
  factor : Z;
  max_delay : Z;
  remaining : nat;
}.

Definition next (b : ExponentialBackoff) : ExponentialBackoff * option Z :=
  match remaining b with
  | O => (b, None)
  | S r =>
      let delay := Z.min (current_ms b) (max_delay b) in
      (MkBackoff (sat_mul_u64 (current_ms b) (factor b)) (factor b) (max_delay b) r, Some delay)
  end.

Definition get_retry_strategy : ExponentialBackoff :=
  MkBackoff RETRY_INITIAL_DELAY_MS RETRY_FACTOR (1000 * RETRY_MAX_DELAY_SECS) RETRY_MAX_ATTEMPTS.

(** The delays an iterator yields. *)
Fixpoint delays_go (n : nat) (b : ExponentialBackoff) : list Z :=
  match n with
  | O => []
  | S n => match next b with
           | (b', Some d) => d :: delays_go n b'
           | (_, None) => []
           end
  end.
Definition delays (b : ExponentialBackoff) : list Z := delays_go (remaining b) b.

(** ** The abstract bounded retry *)

(** What a retried call leaves: the world, the result, the delays slept, and the number of
    attempts made. *)
Record Run (S A E : Type) := MkRun {
  run_state : S;
  run_result : result A E;
  run_slept : list Z;
  run_attempts : nat;
}.
Arguments MkRun {S A E}.
Arguments run_state {S A E}.
Arguments run_result {S A E}.
Arguments run_slept {S A E}.
Arguments run_attempts {S A E}.

Section Abstract.
Context {S A E : Type} (op : S -> S * result A E) (retriable : E -> bool).

Fixpoint retry (budget : list Z) (st : S) : Run S A E :=
  match op st with
  | (st', Ok a) => MkRun st' (Ok a) [] 1
  | (st', Err e) =>
      if retriable e then
        match budget with
        | d :: budget =>
            let r := retry budget st' in
            MkRun (run_state r) (run_result r) (d :: run_slept r)
              (Datatypes.S (run_attempts r))
        | [] => MkRun st' (Err e) [] 1
        end
      else MkRun st' (Err e) [] 1
  end.

(** The first [n] calls of the operation. *)
Fixpoint attempts (n : nat) (st : S) : S * list (result A E) :=
  match n with
  | O => (st, [])
  | Datatypes.S n => let (st', r) := op st in
                     let (st'', rs) := attempts n st' in (st'', r :: rs)
  end.

Definition transient (r : result A E) : bool :=
  match r with Ok _ => false | Err e => retriable e end.
End Abstract.

(** ** utils/process.rs *)

Record RuntimeMetrics := MkMetrics { retried_requests : Z; non_retriable_failures : Z }.

Definition record_retry (m : RuntimeMetrics) : RuntimeMetrics :=
  MkMetrics (wrap_u64 (retried_requests m + 1)) (non_retriable_failures m).
Definition record_non_retriable_failure (m : RuntimeMetrics) : RuntimeMetrics :=
  MkMetrics (retried_requests m) (wrap_u64 (non_retriable_failures m + 1)).

Section Process.
Context {S A : Type} (operation : S -> S * result A AnyhowError).

(** What the loop changes: the world, the attempt counter, the metrics, the delays. *)
Record Loop := MkLoop {
  l_state : S;
  attempt_count : Z;
  metrics : RuntimeMetrics;
  slept : list Z;
}.

(** [loop { ... }]; [None] when the fuel runs out. *)
Fixpoint execute_with_retry (fuel : nat) (retry_strategy : ExponentialBackoff) (l : Loop)
  : option (Loop * result A AnyhowError) :=
  match fuel with
  | O => None
  | Datatypes.S fuel =>
      let count := (attempt_count l + 1) mod 4294967296 in
      match operation (l_state l) with
      | (st, Ok value) => Some (MkLoop st count (metrics l) (slept l), Ok value)
      | (st, Err error) =>
          if negb (is_retriable_error error) then
            Some (MkLoop st count (record_non_retriable_failure (metrics l)) (slept l),
                  Err (with_context (lit "Non-retriable error") error))
          else
            match next retry_strategy with
            | (_, None) => Some (MkLoop st count (metrics l) (slept l), Err error)
            | (retry_strategy, Some delay) =>
                execute_with_retry fuel retry_strategy
                  (MkLoop st count (record_retry (metrics l)) (slept l ++ [delay]))
            end
      end
  end.

Record ProcessUrlResult := MkProcessed { p_result : result A AnyhowError; retry_count : Z }.

(** [process_url]: a fresh counter, the loop, one retry less than attempts. *)
Definition process_url (fuel : nat) (st : S) (m : RuntimeMetrics)
  : option (Loop * ProcessUrlResult) :=
  match execute_with_retry fuel get_retry_strategy (MkLoop st 0 m []) with
  | Some (l, r) => Some (l, MkProcessed r (sat_sub (attempt_count l) 1))
  | None => None
  end.
End Process.
Arguments MkLoop {S}.
Arguments l_state {S}.
Arguments attempt_count {S}.
Arguments metrics {S}.
Arguments slept {S}.

(** ** storage/insert/retry.rs *)

Definition MAX_RETRIES : nat := 3.
Definition INITIAL_DELAY_MS : Z := 50.

(** [DatabaseError]: what [is_retriable_error] and the callers look at. *)
Inductive DatabaseError :=
  | FileCreationError (context : str)
  | SqlDatabase (message : str)
  | SqlPoolClosed
  | SqlOther (message : str).

Definition is_retriable_database_error (error : DatabaseError) : bool :=
  match error with
  | SqlDatabase message =>
      contains (lit "database is locked") message || contains (lit "database is busy") message
  | _ => false
  end.

Section Sqlite.
Context {S A : Type} (operation : S -> S * result A DatabaseError).

(** The loop [for attempt in 0..=MAX_RETRIES]; [todo] iterations remain. *)
Fixpoint sqlite_loop (todo : nat) (attempt : nat) (st : S) (slept : list Z)
  : S * result A DatabaseError * list Z :=
  match todo with
  | O => (st, Err SqlPoolClosed, slept)
  | Datatypes.S todo =>
      match operation st with
      | (st, Ok r) => (st, Ok r, slept)
      | (st, Err e) =>
          if negb (is_retriable_database_error e) || (MAX_RETRIES <=? attempt)%nat
          then (st, Err e, slept)
          else sqlite_loop todo (Datatypes.S attempt) st
                 (slept ++ [INITIAL_DELAY_MS * Z.shiftl 1 (Z.of_nat attempt)])
      end
  end.

Definition with_sqlite_retry (st : S) : S * result A DatabaseError * list Z :=
  sqlite_loop (Datatypes.S MAX_RETRIES) 0 st [].
End Sqlite.

(** ** utils/retry.rs *)

Definition MAX_NETWORK_DOWNLOAD_RETRIES : nat := 3.

Section Download.
Context {S A E : Type} (no_attempts : E) (op : S -> S * result A E).

(** The loop [for attempt in 1..=MAX_NETWORK_DOWNLOAD_RETRIES]; [no_attempts] is the
    error built when no attempt was made. *)
Fixpoint download_loop (base_delay_secs : Z) (todo : nat) (attempt : nat)
    (last_error : option E) (st : S) (slept : list Z) : S * result A E * list Z :=
  match todo with
  | O => (st, Err (match last_error with Some e => e | None => no_attempts end), slept)
  | Datatypes.S todo =>
      match op st with
      | (st, Ok value) => (st, Ok value, slept)
      | (st, Err e) =>
          let slept :=
            if (attempt <? MAX_NETWORK_DOWNLOAD_RETRIES)%nat
            then slept ++ [1000 * wrap_u64 (Z.shiftl base_delay_secs (Z.of_nat attempt - 1))]
            else slept in
          download_loop base_delay_secs todo (Datatypes.S attempt) (Some e) st slept
      end
  end.

Definition with_network_download_retry (base_delay_secs : Z) (st : S)
  : S * result A E * list Z :=
  download_loop base_delay_secs MAX_NETWORK_DOWNLOAD_RETRIES 1 None st [].
End Download.

(** ** Lemmas *)

Lemma delays_go_spec n b :
  n = remaining b -> 0 <= current_ms b <= u64_max -> 1 <= factor b ->
  delays_go n b
  = map (λ k, Z.min (Z.min u64_max (current_ms b * factor b ^ Z.of_nat k)) (max_delay b))
      (seq 0 n).
Proof.
  revert b. induction n as [|n IH]; intros b Hn Hc Hf; [done|].
  destruct b as [c f m r]. simpl in *. subst r. unfold next. cbn [remaining].
  cbn [current_ms factor max_delay]. f_equal.
  - change (Z.of_nat 0) with 0. rewrite Z.pow_0_r. lia.
  - rewrite IH; cbn [remaining current_ms factor max_delay];
      [|done|unfold sat_mul_u64, u64_max in *; nia|done].
    rewrite <- (seq_shift n 0), map_map. apply map_ext_in. intros k _.
    f_equal. rewrite Nat2Z.inj_succ, Z.pow_succ_r by lia. unfold sat_mul_u64.
    assert (1 <= f ^ Z.of_nat k) by (pose proof (Z.pow_pos_nonneg f (Z.of_nat k)); lia).
    destruct (Z.le_gt_cases (c * f) u64_max).
    + rewrite (Z.min_r u64_max (c * f)) by done. f_equal. lia.
    + rewrite (Z.min_l u64_max (c * f)) by lia. rewrite !Z.min_l by (unfold u64_max in *; nia).
      done.
Qed.

Section RetryLemmas.
Context {S A E : Type} (op : S -> S * result A E) (retriable : E -> bool).

(** The attempts of a bounded retry: all but the last failed transiently, the last one
    succeeded, failed for good, or exhausted the budget; one delay between attempts. *)
Definition good_run (budget : list Z) (st : S) (r : Run S A E) : Prop :=
  let n := run_attempts r in
  (1 <= n <= Datatypes.S (length budget))%nat
  ∧ run_slept r = take (n - 1) budget
  ∧ ∃ failures, attempts op n st = (run_state r, failures ++ [run_result r])
    ∧ Forall (λ x, transient retriable x = true) failures
    ∧ (transient retriable (run_result r) = false \/ n = Datatypes.S (length budget)).

Lemma retry_good budget st : good_run budget st (retry op retriable budget st).
Proof.
  revert st. induction budget as [|d budget IH]; intros st; simpl;
    destruct (op st) as [st' [a|e]] eqn:Eo; unfold good_run; simpl; rewrite ?Eo.
  - split; [lia|]. split; [done|]. exists []. simpl. split_and!; auto.
  - destruct (retriable e) eqn:Er; simpl; rewrite Eo; (split; [lia|]; split; [done|]);
      exists []; simpl; split_and!; auto.
  - split; [lia|]. split; [done|]. exists []. simpl. split_and!; auto.
  - destruct (retriable e) eqn:Er; simpl; rewrite Eo.
    2: { split; [lia|]. split; [done|]. exists []. simpl. split_and!; auto. }
    destruct (IH st') as (Hn & Hs & failures & Ha & Hf & Hl).
    set (r := retry op retriable budget st') in *.
    split; [lia|]. split.
    { rewrite Hs. destruct (run_attempts r) as [|k]; [lia|]. simpl. by rewrite Nat.sub_0_r. }
    exists (Err e :: failures). rewrite Ha. split_and!; [done|by constructor|].
    destruct Hl; [by left|right; lia].
Qed.
End RetryLemmas.

(** The error a retried URL ends with: terminal errors get the context. *)
Definition finish {A} (r : result A AnyhowError) : result A AnyhowError :=
  match r with
  | Ok a => Ok a
  | Err e => if is_retriable_error e then Err e
             else Err (with_context (lit "Non-retriable error") e)
  end.

Definition terminal {A} (r : result A AnyhowError) : bool :=
  match r with Ok _ => false | Err e => negb (is_retriable_error e) end.

Lemma execute_refines {S A} (op : S -> S * result A AnyhowError) b fuel l :
  (remaining b < fuel)%nat -> 0 <= attempt_count l ->
  attempt_count l + Z.of_nat (remaining b) < u32_max ->
  0 <= retried_requests (metrics l) ->
  retried_requests (metrics l) + Z.of_nat (remaining b) <= u64_max ->
  0 <= non_retriable_failures (metrics l) < u64_max ->
  let r := retry op is_retriable_error (delays b) (l_state l) in
  execute_with_retry op fuel b l
  = Some (MkLoop (run_state r) (attempt_count l + Z.of_nat (run_attempts r))
            (MkMetrics (retried_requests (metrics l) + Z.of_nat (run_attempts r - 1))
               (non_retriable_failures (metrics l)
                + if terminal (run_result r) then 1 else 0))
            (slept l ++ run_slept r),
          finish (run_result r)).
Proof.
  revert b l. induction fuel as [|fuel IH]; intros b l Hf Hc Hc' Hm Hm' Hn; [lia|].
  unfold u32_max in *. cbn [execute_with_retry]. rewrite Z.mod_small by lia.
  destruct l as [st c [mr mn] sl]. cbn [l_state attempt_count metrics slept
    retried_requests non_retriable_failures] in *.
  unfold delays. destruct (remaining b) as [|rem] eqn:Er; simpl delays_go.
  - simpl retry. destruct (op st) as [st' [a|e]]; simpl; rewrite ?app_nil_r, ?Z.add_0_r.
    { done. }
    unfold finish, terminal. destruct (is_retriable_error e) eqn:Ee; simpl.
    + unfold next. rewrite Er. by rewrite Ee, app_nil_r, !Z.add_0_r.
    + unfold record_non_retriable_failure. cbn. rewrite wrap_u64_small by lia.
      by rewrite Ee, app_nil_r, Z.add_0_r.
  - unfold next. rewrite Er. simpl retry.
    destruct (op st) as [st' [a|e]]; simpl; rewrite ?app_nil_r, ?Z.add_0_r; [done|].
    destruct (is_retriable_error e) eqn:Ee; simpl.
    + rewrite IH; cbn [remaining l_state attempt_count metrics slept record_retry
        retried_requests non_retriable_failures]; rewrite ?wrap_u64_small; try lia.
      unfold delays. cbn [remaining]. f_equal. f_equal. f_equal.
      * lia.
      * f_equal. pose proof (retry_good op is_retriable_error (delays_go rem
          (MkBackoff (sat_mul_u64 (current_ms b) (factor b)) (factor b) (max_delay b) rem)) st')
          as ((Hge & _) & _). lia.
      * by rewrite <- app_assoc.
    + unfold finish, terminal, record_non_retriable_failure. cbn. rewrite Ee. simpl.
      rewrite wrap_u64_small by lia. by rewrite app_nil_r, Z.add_0_r.
Qed.

(** What every attempt does to a view of the world, the whole loop does: a success has its
    effect once, a failure none.  The loop ends. *)
Lemma execute_transfers {S A C} (op : S -> S * result A AnyhowError) (view : S -> C)
  (P : C -> S -> A -> Prop) :
  (∀ s, match (op s).2 with Ok a => P (view s) (op s).1 a | Err _ => view (op s).1 = view s end) ->
  ∀ fuel b l, (remaining b < fuel)%nat ->
  ∃ l' r, execute_with_retry op fuel b l = Some (l', r)
    ∧ match r with
      | Ok a => P (view (l_state l)) (l_state l') a
      | Err _ => view (l_state l') = view (l_state l)
      end.
Proof.
  intros Hop. induction fuel as [|fuel IH]; intros b l Hf; [lia|]. cbn [execute_with_retry].
  specialize (Hop (l_state l)). destruct (op (l_state l)) as [st [a|e]]; cbn [fst snd] in Hop.
  { by eexists _, _. }
  destruct (is_retriable_error e); cbn [negb]; [|by eexists _, _].
  unfold next. destruct (remaining b) as [|rem]; [by eexists _, _|].
  edestruct IH as (l' & r & Hr & Hv); [|eexists _, _; split; [exact Hr|]]; [cbn; lia|].
  cbn [l_state] in Hv. by rewrite Hop in Hv.
Qed.

Lemma process_url_transfers {S A C} (op : S -> S * result A AnyhowError) (view : S -> C)
  (P : C -> S -> A -> Prop) fuel st m :
  (∀ s, match (op s).2 with Ok a => P (view s) (op s).1 a | Err _ => view (op s).1 = view s end) ->
  (4 <= fuel)%nat ->
  ∃ l r, process_url op fuel st m = Some (l, r)
    ∧ match p_result r with
      | Ok a => P (view st) (l_state l) a
      | Err _ => view (l_state l) = view st
      end.
Proof.
  intros Hop Hf. unfold process_url.
  destruct (execute_transfers op view P Hop fuel get_retry_strategy (MkLoop st 0 m []))
    as (l & r & -> & Hr); [cbn; unfold RETRY_MAX_ATTEMPTS; lia|].
  by eexists _, _.
Qed.

Lemma sqlite_refines {S A} (op : S -> S * result A DatabaseError) todo attempt st sl :
  (attempt + todo = MAX_RETRIES)%nat ->
  let r := retry op is_retriable_database_error
             (map (λ k, INITIAL_DELAY_MS * Z.shiftl 1 (Z.of_nat k)) (seq attempt todo)) st in
  sqlite_loop op (Datatypes.S todo) attempt st sl
  = (run_state r, run_result r, sl ++ run_slept r).
Proof.
  revert attempt st sl. induction todo as [|todo IH]; intros attempt st sl Ha;
    cbn [sqlite_loop seq map retry].
  - destruct (op st) as [st' [a|e]]; [simpl; by rewrite app_nil_r|].
    replace (MAX_RETRIES <=? attempt)%nat with true by (symmetry; apply Nat.leb_le; lia).
    rewrite orb_true_r. destruct (is_retriable_database_error e); simpl; by rewrite app_nil_r.
  - destruct (op st) as [st' [a|e]]; [simpl; by rewrite app_nil_r|].
    replace (MAX_RETRIES <=? attempt)%nat with false by (symmetry; apply Nat.leb_gt; lia).
    rewrite orb_false_r. destruct (is_retriable_database_error e);
      [|simpl; by rewrite app_nil_r]. cbn [negb run_state run_result run_slept].
    specialize (IH (Datatypes.S attempt) st' (sl ++ [INITIAL_DELAY_MS * Z.shiftl 1 (Z.of_nat attempt)])
      ltac:(lia)). cbn zeta in IH. cbn [sqlite_loop] in IH. rewrite IH. by rewrite <- app_assoc.
Qed.

Lemma download_refines {S A E} (na : E) (op : S -> S * result A E) base todo attempt le st sl :
  (attempt + todo = MAX_NETWORK_DOWNLOAD_RETRIES)%nat ->
  let r := retry op (λ _, true)
             (map (λ k, 1000 * wrap_u64 (Z.shiftl base (Z.of_nat k - 1))) (seq attempt todo)) st in
  download_loop na op base (Datatypes.S todo) attempt le st sl
  = (run_state r, run_result r, sl ++ run_slept r).
Proof.
  revert attempt le st sl. induction todo as [|todo IH]; intros attempt le st sl Ha;
    cbn [download_loop seq map retry].
  - destruct (op st) as [st' [a|e]]; [simpl; by rewrite app_nil_r|].
    replace (attempt <? MAX_NETWORK_DOWNLOAD_RETRIES)%nat with false
      by (symmetry; apply Nat.ltb_ge; lia). simpl. by rewrite app_nil_r.
  - destruct (op st) as [st' [a|e]]; [simpl; by rewrite app_nil_r|].
    replace (attempt <? MAX_NETWORK_DOWNLOAD_RETRIES)%nat with true
      by (symmetry; apply Nat.ltb_lt; lia).
    cbn [run_state run_result run_slept].
    specialize (IH (Datatypes.S attempt) (Some e) st'
      (sl ++ [1000 * wrap_u64 (Z.shiftl base (Z.of_nat attempt - 1))]) ltac:(lia)).
    cbn zeta in IH. cbn [download_loop] in IH. rewrite IH. by rewrite <- app_assoc.
Qed.

(** ** Properties *)

(** The back-off iterator yields exactly its budget of delays: the [k]-th is the
    initial delay times the [k]-th power of the factor, saturated at [u64] and capped. *)
Theorem backoff_delays b :
  0 <= current_ms b <= u64_max -> 1 <= factor b ->
  delays b
  = map (λ k, Z.min (Z.min u64_max (current_ms b * factor b ^ Z.of_nat k)) (max_delay b))
      (seq 0 (remaining b)).
Proof. intros. by apply delays_go_spec. Qed.

Lemma backoff_delays_witness : delays get_retry_strategy = [500; 1000; 2000].
Proof.
  rewrite (backoff_delays get_retry_strategy).
  - vm_compute. reflexivity.
  - vm_compute. split; discriminate.
  - vm_compute. discriminate.
Defined.

(** C22: Processing a URL refines the bounded retry with delays of 0.5, 1 and 2
    seconds: five units of fuel always suffice; between one and four attempts are made, all
    but the last failed transiently; the retry count and the retry metric are the attempts
    minus one; a terminal error carries the context and is counted as such. *)
Theorem process_url_refines {S A} (operation : S -> S * result A AnyhowError) fuel st m :
  (5 <= fuel)%nat -> 0 <= retried_requests m -> retried_requests m + 3 <= u64_max ->
  0 <= non_retriable_failures m < u64_max ->
  let r := retry operation is_retriable_error [500; 1000; 2000] st in
  let n := run_attempts r in
  process_url operation fuel st m
  = Some (MkLoop (run_state r) (Z.of_nat n)
            (MkMetrics (retried_requests m + Z.of_nat (n - 1))
               (non_retriable_failures m + if terminal (run_result r) then 1 else 0))
            (take (n - 1) [500; 1000; 2000]),
          MkProcessed (finish (run_result r)) (Z.of_nat (n - 1)))
  ∧ (1 <= n <= 4)%nat
  ∧ ∃ failures, attempts operation n st = (run_state r, failures ++ [run_result r])
    ∧ Forall (λ x, transient is_retriable_error x = true) failures.
Proof.
  intros Hf Hm Hm' Hn r n.
  destruct (retry_good operation is_retriable_error [500; 1000; 2000] st)
    as (Hlen & Hs & failures & Ha & Hfs & _). fold r in Hlen, Hs, Ha. fold n in Hlen, Hs, Ha.
  cbn [length] in Hlen. split; [|split; [lia|eauto]].
  assert (Hr : remaining get_retry_strategy = 3%nat) by reflexivity.
  unfold process_url. rewrite execute_refines; cbn [attempt_count metrics l_state slept];
    rewrite ?Hr; unfold u32_max; try lia.
  change (delays get_retry_strategy) with [500; 1000; 2000]. fold r. fold n.
  rewrite Hs. cbn [attempt_count]. do 2 f_equal. f_equal. unfold sat_sub. lia.
Qed.

Definition url_delays : list Z := [500; 1000; 2000].
Definition download_delays : list Z := [1000 * 1; 2000 * 1].

(** An operation that always times out. *)
Definition always_down (calls : nat) : nat * result unit AnyhowError :=
  (S calls, Err (MkAnyhow []
     (CReqwest (MkReqwest None false false false true false false false false (lit "timeout"))) [])).

(** Four attempts are made although the configuration documents a total of three. *)
Lemma process_url_refines_witness :
  process_url always_down 5 0%nat (MkMetrics 0 0)
  = Some (MkLoop 4%nat 4 (MkMetrics 3 0) [500; 1000; 2000],
          MkProcessed (always_down 0).2 3)
  ∧ (1 <= run_attempts (retry always_down is_retriable_error url_delays 0) <= 4)%nat.
Proof.
  split; [vm_compute; reflexivity|].
  apply (process_url_refines always_down 5 0%nat (MkMetrics 0 0));
    unfold u64_max; simpl; lia.
Defined.

(** A database operation is attempted between one and four times, with delays
    of 50, 100 and 200 ms, and only "locked" and "busy" errors are retried; the error after
    the loop is never produced by the loop itself. *)
Theorem with_sqlite_retry_refines {S A} (operation : S -> S * result A DatabaseError) st :
  let r := retry operation is_retriable_database_error [50; 100; 200] st in
  with_sqlite_retry operation st = (run_state r, run_result r, run_slept r)
  ∧ (1 <= run_attempts r <= 4)%nat
  ∧ ∃ failures, attempts operation (run_attempts r) st
                = (run_state r, failures ++ [run_result r])
    ∧ Forall (λ x, transient is_retriable_database_error x = true) failures.
Proof.
  intros r. destruct (retry_good operation is_retriable_database_error [50; 100; 200] st)
    as (Hlen & _ & failures & Ha & Hf & _). cbn [length] in Hlen.
  split; [|split; [subst r; lia|exists failures; by split]].
  unfold with_sqlite_retry. by rewrite sqlite_refines.
Qed.

(** A download is attempted between one and three times, whatever the error, with
    delays of [base] and [2 * base] seconds; the fallback error is never returned. *)
Theorem with_network_download_retry_refines {S A E} (no_attempts : E)
    (op : S -> S * result A E) base st :
  0 <= base <= 1000000 ->
  let r := retry op (λ _, true) [1000 * base; 2000 * base] st in
  with_network_download_retry no_attempts op base st
  = (run_state r, run_result r, run_slept r)
  ∧ (1 <= run_attempts r <= 3)%nat
  ∧ ∃ failures, attempts op (run_attempts r) st = (run_state r, failures ++ [run_result r]).
Proof.
  intros Hb r. destruct (retry_good op (λ _, true) [1000 * base; 2000 * base] st)
    as (Hlen & _ & failures & Ha & _). cbn [length] in Hlen.
  split; [|split; [subst r; lia|by exists failures]].
  unfold with_network_download_retry.
  change MAX_NETWORK_DOWNLOAD_RETRIES with 3%nat. rewrite download_refines by done.
  cbn [seq map app]. change (Z.of_nat 1 - 1) with 0. change (Z.of_nat 2 - 1) with 1.
  rewrite Z.shiftl_0_r, Z.shiftl_mul_pow2 by lia. change (2 ^ 1) with 2.
  rewrite !wrap_u64_small by (unfold u64_max; lia).
  subst r. by replace (1000 * (base * 2)) with (2000 * base) by lia.
Qed.

Lemma with_network_download_retry_refines_witness :
  (1 <= run_attempts (retry always_down (λ _, true) download_delays 0) <= 3)%nat.
Proof.
  apply (with_network_download_retry_refines (MkAnyhow [] (CMessage []) []) always_down 1 0%nat).
  lia.
Defined.
