(* ===== verification/Scan.v ===== *)
(** * The scan ([src/src/run/mod.rs], [task.rs], [finalize.rs])

    The main loop, the worker tasks and the shared state as a transition system.  Each
    event is one step between two points where the scheduler may switch: an access to the
    shared state, or the completion of an awaited call.  The environment chooses the event,
    so every interleaving of the main loop and the tasks is covered; what a fetch returns
    and whether a database write succeeds is part of the event. *)

From S2P Require Import Prelude Sanitize Net Security Errors Input.

(** ** Data *)

(** fetch/handler/mod.rs *)
Inductive UrlProcessOutcome := Inserted | Updated | Skipped.

#[export] Instance UrlProcessOutcome_eq_dec : EqDecision UrlProcessOutcome.
Proof. solve_decision. Defined.

Inductive ScanPhase := Scanning | DrainingPhase | Finalizing.

(** How a task ends: normally, or with a [JoinError] (it panicked or was aborted). *)
Inductive JoinOutcome := JoinOk | JoinError.

(** The handler that runs the progress callback. *)
Inductive Handler :=
  | HandleSuccess
  | HandleFailure (error : AnyhowError)
  | HandleTimeout
  | HandleCancelled.

(** Where a task is in [process_url_task] and the async block around it. *)
Inductive TaskPc :=
  | Spawned                              (** never polled: owns the permit, no guard yet *)
  | Registered                           (** guard in place, before the first check *)
  | RateLimited                          (** in [wait_for_rate_limits] *)
  | LetThrough                             (** before the second check *)
  | Processing (committed : bool)        (** in the [select!]; [url_status] row committed? *)
  | Cancelling                           (** inserting the row of [handle_cancelled] *)
  | CancelRecorded                       (** before its [failed_urls] increment *)
  | Counted (handler : Handler)          (** counter incremented, before the callback *)
  | RecordingFailure (error : AnyhowError) (** in [record_url_failure] *)
  | RecordingTimeout
  | Finishing (stat : option ErrorType)  (** before the error statistics and the return *)
  | Leaving (outcome : JoinOutcome)      (** permit dropped, guard still registered *)
  | Ended (outcome : JoinOutcome)        (** in the [JoinSet], not joined *)
  | Reaped (outcome : JoinOutcome).      (** joined by the main loop *)

(** [increments] is a history variable: how often a result counter was incremented on
    behalf of this task.  No transition reads it. *)
Record Task := MkTask {
  t_url : str;
  t_pc : TaskPc;
  t_aborted : bool;
  increments : nat;
}.

(** Where [run_scan] is. *)
Inductive MainPc :=
  | Reading (consecutive_errors : nat)
  | Acquiring (url : str)                (** waiting for a permit, racing the cancellation *)
  | Draining
  | Abandoning (rest : list str) (abandoned_count : nat)
  | Aborting (abandoned_count : nat)
  | Drained (abandoned : option nat)     (** [Some n]: the deadline fired *)
  | ReadFailed                           (** returned an error *)
  | MainPanicked.

(** The atomic counters (64-bit; at most two increments per input line). *)
Record Counters := MkCounters {
  total_urls_attempted : nat;
  successful_urls : nat;
  failed_urls : nat;
  skipped_urls : nat;
}.

(** The rows of this run in the fact tables. *)
Record Facts := MkFacts {
  url_status : nat;
  url_failures : list (str * ErrorType);
}.

Record Scan := MkScan {
  main : MainPc;
  scan_phase : ScanPhase;
  cancelled : bool;
  permits : nat;
  counters : Counters;
  in_flight_urls : gset str;
  tasks : list Task;
  error_stats : ProcessingStats;
  facts : Facts;
}.

Definition set_main (m : MainPc) (s : Scan) : Scan :=
  MkScan m (scan_phase s) (cancelled s) (permits s) (counters s) (in_flight_urls s) (tasks s)
    (error_stats s) (facts s).
Definition set_phase (p : ScanPhase) (s : Scan) : Scan :=
  MkScan (main s) p (cancelled s) (permits s) (counters s) (in_flight_urls s) (tasks s)
    (error_stats s) (facts s).
Definition cancel (s : Scan) : Scan :=
  MkScan (main s) (scan_phase s) true (permits s) (counters s) (in_flight_urls s) (tasks s)
    (error_stats s) (facts s).
Definition set_permits (n : nat) (s : Scan) : Scan :=
  MkScan (main s) (scan_phase s) (cancelled s) n (counters s) (in_flight_urls s) (tasks s)
    (error_stats s) (facts s).
Definition set_counters (c : Counters) (s : Scan) : Scan :=
  MkScan (main s) (scan_phase s) (cancelled s) (permits s) c (in_flight_urls s) (tasks s)
    (error_stats s) (facts s).
Definition set_in_flight (f : gset str) (s : Scan) : Scan :=
  MkScan (main s) (scan_phase s) (cancelled s) (permits s) (counters s) f (tasks s)
    (error_stats s) (facts s).
Definition set_tasks (ts : list Task) (s : Scan) : Scan :=
  MkScan (main s) (scan_phase s) (cancelled s) (permits s) (counters s) (in_flight_urls s) ts
    (error_stats s) (facts s).
Definition set_stats (e : ProcessingStats) (s : Scan) : Scan :=
  MkScan (main s) (scan_phase s) (cancelled s) (permits s) (counters s) (in_flight_urls s)
    (tasks s) e (facts s).
Definition set_facts (f : Facts) (s : Scan) : Scan :=
  MkScan (main s) (scan_phase s) (cancelled s) (permits s) (counters s) (in_flight_urls s)
    (tasks s) (error_stats s) f.

(** The [fetch_add]s. *)
Definition add_attempted (c : Counters) : Counters :=
  MkCounters (S (total_urls_attempted c)) (successful_urls c) (failed_urls c) (skipped_urls c).
Definition add_successful (c : Counters) : Counters :=
  MkCounters (total_urls_attempted c) (S (successful_urls c)) (failed_urls c) (skipped_urls c).
Definition add_failed (n : nat) (c : Counters) : Counters :=
  MkCounters (total_urls_attempted c) (successful_urls c) (failed_urls c + n) (skipped_urls c).
Definition add_skipped (c : Counters) : Counters :=
  MkCounters (total_urls_attempted c) (successful_urls c) (failed_urls c) (S (skipped_urls c)).

(** [insert_url_failure]: one row when the write succeeds. *)
Definition insert_failure_row (ok : bool) (url : str) (e : ErrorType) (s : Scan) : Scan :=
  if ok then set_facts (MkFacts (url_status (facts s)) (url_failures (facts s) ++ [(url, e)])) s
  else s.

(** ** task.rs *)

Inductive TaskEvent :=
  | TPoll                       (** first poll: [InFlightGuard::register] *)
  | TCheck                      (** [cancel.is_cancelled()] *)
  | TAdmit                      (** both rate limiters have let the task pass *)
  | TCancelled                  (** the cancellation arm of a [select!] *)
  | TCommit                     (** the [url_status] row is committed *)
  | TDone (outcome : UrlProcessOutcome)
  | TFail (error : AnyhowError)
  | TTimeout                    (** [URL_PROCESSING_TIMEOUT] elapsed *)
  | TRecord (ok : bool)         (** the failure row was written, or the write failed *)
  | TCount                      (** the increment of [handle_cancelled] *)
  | TCallback                   (** [invoke_progress_callback] returned *)
  | TReturn                     (** [process_url_task] returns and drops the permit *)
  | TUnregister                 (** [InFlightGuard::drop] *)
  | TPanic
  | TDrop.                      (** an aborted task is dropped at an await point *)

(** The counter of [handle_success]. *)
Definition count_outcome (outcome : UrlProcessOutcome) (c : Counters) : Counters :=
  match outcome with
  | Inserted => add_successful c
  | Updated => add_skipped c
  | Skipped => add_skipped c
  end.

(** What follows the progress callback. *)
Definition after_callback (h : Handler) : TaskPc :=
  match h with
  | HandleSuccess => Finishing None
  | HandleFailure error => RecordingFailure error
  | HandleTimeout => RecordingTimeout
  | HandleCancelled => Finishing (Some ScanCancelled)
  end.

(** The await points of a task that is running. *)
Definition awaiting (pc : TaskPc) : bool :=
  match pc with
  | RateLimited | Processing _ | Cancelling | RecordingFailure _ | RecordingTimeout => true
  | _ => false
  end.

(** The body of [process_url_task]. *)
Definition in_body (pc : TaskPc) : bool :=
  match pc with
  | Spawned | Leaving _ | Ended _ | Reaped _ => false
  | _ => true
  end.

Definition goto (i : nat) (t : Task) (pc : TaskPc) (s : Scan) : Scan :=
  set_tasks (<[i := MkTask (t_url t) pc (t_aborted t) (increments t)]> (tasks s)) s.

(** Move on and count the URL once. *)
Definition goto_counted (i : nat) (t : Task) (h : Handler) (c : Counters) (s : Scan) : Scan :=
  set_counters c
    (set_tasks (<[i := MkTask (t_url t) (Counted h) (t_aborted t) (S (increments t))]> (tasks s)) s).

Definition release_permit (s : Scan) : Scan := set_permits (S (permits s)) s.

Definition record_stat (stat : option ErrorType) (s : Scan) : Scan :=
  match stat with
  | Some e => set_stats (increment_error (error_stats s) e) s
  | None => s
  end.

Section Step.
Context `{L : Lowercase} `{U : UrlLib} `{Hi : HashIter}.
Context (warn_enabled allow_localhost_for_tests : bool).

Definition step_task (i : nat) (t : Task) (e : TaskEvent) (s : Scan) : option Scan :=
  match e, t_pc t with
  | TPoll, Spawned =>
      Some (set_in_flight ({[ t_url t ]} ∪ in_flight_urls s) (goto i t Registered s))
  | TCheck, Registered => Some (goto i t (if cancelled s then Cancelling else RateLimited) s)
  | TAdmit, RateLimited => Some (goto i t LetThrough s)
  | TCheck, LetThrough =>
      Some (goto i t (if cancelled s then Cancelling else Processing false) s)
  | TCancelled, RateLimited | TCancelled, Processing _ =>
      if cancelled s then Some (goto i t Cancelling s) else None
  | TCommit, Processing false =>
      Some (set_facts (MkFacts (S (url_status (facts s))) (url_failures (facts s)))
              (goto i t (Processing true) s))
  | TDone outcome, Processing committed =>
      if bool_decide (outcome = Inserted) then
        if committed
        then Some (goto_counted i t HandleSuccess (count_outcome outcome (counters s)) s)
        else None
      else if committed then None
      else Some (goto_counted i t HandleSuccess (count_outcome outcome (counters s)) s)
  | TFail error, Processing false =>
      Some (goto_counted i t (HandleFailure error) (add_failed 1 (counters s)) s)
  | TTimeout, Processing _ =>
      Some (goto_counted i t HandleTimeout (add_failed 1 (counters s)) s)
  | TRecord ok, Cancelling =>
      Some (insert_failure_row ok (t_url t) ScanCancelled (goto i t CancelRecorded s))
  | TCount, CancelRecorded =>
      Some (goto_counted i t HandleCancelled (add_failed 1 (counters s)) s)
  | TCallback, Counted h => Some (goto i t (after_callback h) s)
  | TRecord ok, RecordingFailure error =>
      Some (insert_failure_row ok (t_url t) (extract_error_type error)
              (goto i t (Finishing None) s))
  | TRecord ok, RecordingTimeout =>
      Some (insert_failure_row ok (t_url t) (extract_error_type (timeout_error (t_url t)))
              (goto i t (Finishing (Some ProcessUrlTimeout)) s))
  | TReturn, Finishing stat =>
      Some (record_stat stat (release_permit (goto i t (Leaving JoinOk) s)))
  | TUnregister, Leaving outcome =>
      Some (set_in_flight (in_flight_urls s ∖ {[ t_url t ]}) (goto i t (Ended outcome) s))
  | TPanic, pc =>
      if in_body pc then Some (release_permit (goto i t (Leaving JoinError) s)) else None
  | TDrop, Spawned =>
      if t_aborted t then Some (release_permit (goto i t (Ended JoinError) s)) else None
  | TDrop, pc =>
      if t_aborted t && awaiting pc
      then Some (release_permit (goto i t (Leaving JoinError) s)) else None
  | _, _ => None
  end.

(** ** mod.rs *)

Definition MAX_CONSECUTIVE_ERRORS : nat := 10.

Inductive Event :=
  | Interrupt                   (** Ctrl-C *)
  | ETask (i : nat) (e : TaskEvent)
  | MReap (i : nat)             (** [join_next] yields this task *)
  | MRead (r : ReadResult)
  | MPermit                     (** [acquire_owned] succeeds *)
  | MSemaphoreClosed            (** [acquire_owned] fails *)
  | MCancelled                  (** the cancellation arm of either [select!] *)
  | MEmpty                      (** [join_next] yields [None] while draining *)
  | MDeadline                   (** the drain deadline has passed *)
  | MRecord (ok : bool)         (** one iteration of [record_drain_timeout_failures] *)
  | MCountAbandoned
  | MAbort.                     (** [abort_all] and [cancel] *)

Definition is_reaped (t : Task) : bool := match t_pc t with Reaped _ => true | _ => false end.
Definition is_ended (t : Task) : bool :=
  match t_pc t with Ended _ | Reaped _ => true | _ => false end.

(** [abort_all], also run when the [JoinSet] is dropped: no effect on a task that has
    ended. *)
Definition abort (t : Task) : Task :=
  if is_ended t then t else MkTask (t_url t) (t_pc t) true (increments t).
Definition drop_join_set (s : Scan) : Scan := set_tasks (map abort (tasks s)) s.

Definition skip_url (s : Scan) : Scan :=
  set_counters (add_skipped (add_attempted (counters s))) s.

(** Leaving the loop starts the drain phase. *)
Definition leave_loop (s : Scan) : Scan := set_phase DrainingPhase (set_main Draining s).

Definition read_line (r : ReadResult) (consecutive_errors : nat) (s : Scan) : Scan :=
  match r with
  | Line line =>
      let s := set_main (Reading 0) s in
      match handle_line warn_enabled allow_localhost_for_tests line with
      | Ignored => s
      | SkippedLine => skip_url s
      | Accepted url => set_main (Acquiring url) s
      | LinePanics => drop_join_set (set_main MainPanicked s)
      end
  | Eof => leave_loop s
  | ReadError =>
      if (MAX_CONSECUTIVE_ERRORS <? S consecutive_errors)%nat
      then cancel (drop_join_set (set_main ReadFailed s))
      else set_main (Reading (S consecutive_errors)) s
  end.

(** [task_result] of a [join_next]. *)
Definition reap (i : nat) (t : Task) (outcome : JoinOutcome) (s : Scan) : Scan :=
  match outcome with
  | JoinOk => goto i t (Reaped JoinOk) s
  | JoinError =>
      set_counters (add_failed 1 (counters s))
        (set_tasks (<[i := MkTask (t_url t) (Reaped JoinError) (t_aborted t) (S (increments t))]>
                      (tasks s)) s)
  end.

(** The snapshot of the registry, in hash order. *)
Definition abandoned_urls (s : Scan) : list str :=
  (hash_iter (gset_to_gmap () (in_flight_urls s))).*1.

Definition joins (m : MainPc) : bool :=
  match m with Reading _ | Draining => true | _ => false end.

Definition step_main (e : Event) (s : Scan) : option Scan :=
  match e, main s with
  | MReap i, m =>
      if joins m then
        match tasks s !! i with
        | Some t => match t_pc t with Ended outcome => Some (reap i t outcome s) | _ => None end
        | None => None
        end
      else None
  | MRead r, Reading n => Some (read_line r n s)
  | MCancelled, Reading _ | MCancelled, Acquiring _ =>
      if cancelled s then Some (leave_loop s) else None
  | MPermit, Acquiring url =>
      match permits s with
      | O => None
      | S n =>
          Some (set_permits n
                  (set_counters (add_attempted (counters s))
                     (set_tasks (tasks s ++ [MkTask url Spawned false 0])
                        (set_main (Reading 0) s))))
      end
  | MSemaphoreClosed, Acquiring _ =>
      Some (set_counters (add_failed 1 (add_attempted (counters s))) (set_main (Reading 0) s))
  | MEmpty, Draining => if forallb is_reaped (tasks s) then Some (set_main (Drained None) s) else None
  | MDeadline, Draining =>
      let abandoned := abandoned_urls s in
      Some (set_main (if nonempty abandoned then Abandoning abandoned (length abandoned)
                      else Aborting 0) s)
  | MRecord ok, Abandoning (url :: rest) n =>
      Some (insert_failure_row ok url ProcessUrlTimeout (set_main (Abandoning rest n) s))
  | MCountAbandoned, Abandoning [] n =>
      Some (set_counters (add_failed n (counters s)) (set_main (Aborting n) s))
  | MAbort, Aborting n =>
      Some (cancel (drop_join_set (set_main (Drained (Some n)) s)))
  | _, _ => None
  end.

Definition step (e : Event) (s : Scan) : option Scan :=
  match e with
  | Interrupt => Some (cancel s)
  | ETask i te => match tasks s !! i with Some t => step_task i t te s | None => None end
  | _ => step_main e s
  end.

Fixpoint run (es : list Event) (s : Scan) : option Scan :=
  match es with
  | [] => Some s
  | e :: es => match step e s with Some s => run es s | None => None end
  end.

(** [init_scan_resources]: a semaphore of [max_concurrency] permits. *)
Definition init (max_concurrency : nat) : Scan :=
  MkScan (Reading 0) Scanning false max_concurrency (MkCounters 0 0 0 0) ∅ [] new_stats (MkFacts 0 []).

Inductive reachable (max_concurrency : nat) : Scan -> Prop :=
  | reach_init : reachable max_concurrency (init max_concurrency)
  | reach_step e s s' : reachable max_concurrency s -> step e s = Some s' ->
      reachable max_concurrency s'.
End Step.

(** ** finalize.rs *)

(** The [as usize] of an [i32]. *)
Definition i32_as_usize (z : Z) : Z := wrap_u64 z.

(** storage/insert/run.rs *)
Definition saturating_i32_count (count : Z) : Z := Z.min i32_max (Z.max 0 count).

Record RunFactCounts := MkFactCounts { fact_successful : Z; fact_failed : Z }.

Definition count_run_fact_rows (f : Facts) : RunFactCounts :=
  MkFactCounts (Z.of_nat (url_status f)) (Z.of_nat (length (url_failures f))).

Record FinalRunCounts := MkFinal {
  total_urls : Z;
  final_successful : Z;
  final_failed : Z;
  final_skipped : Z;
}.

(** The two queries may fail; the counts are also what [update_run_stats] stores. *)
Definition persist_run_counts {E} (count_query : result RunFactCounts E)
    (update_run_stats : FinalRunCounts -> result unit E) (c : Counters)
  : result FinalRunCounts E :=
  let total := as_i32 (Z.of_nat (total_urls_attempted c)) in
  let skipped := as_i32 (Z.of_nat (skipped_urls c)) in
  match count_query with
  | Err e => Err e
  | Ok facts =>
      let stats := MkFinal total (saturating_i32_count (fact_successful facts))
                     (saturating_i32_count (fact_failed facts)) skipped in
      match update_run_stats stats with
      | Err e => Err e
      | Ok _ => Ok stats
      end
  end.

Record ScanReport := MkReport {
  report_total : Z;
  report_successful : Z;
  report_failed : Z;
  report_skipped : Z;
}.

Definition scan_report (c : FinalRunCounts) : ScanReport :=
  MkReport (i32_as_usize (total_urls c)) (i32_as_usize (final_successful c))
    (i32_as_usize (final_failed c)) (i32_as_usize (final_skipped c)).

(** [finalize_scan] on the state it finds; the environment says whether the count query and
    the update succeed. *)
Definition finalize_scan {E} (query_error update_error : option E) (s : Scan)
  : result ScanReport E :=
  match persist_run_counts
          (match query_error with Some e => Err e | None => Ok (count_run_fact_rows (facts s)) end)
          (λ _, match update_error with Some e => Err e | None => Ok tt end) (counters s) with
  | Ok c => Ok (scan_report c)
  | Err e => Err e
  end.

(** ** Lemmas *)

Definition results (c : Counters) : nat := successful_urls c + failed_urls c + skipped_urls c.

Definition holds (t : Task) : nat :=
  match t_pc t with Leaving _ | Ended _ | Reaped _ => 0 | _ => 1 end.

(** The guard exists. *)
Definition registered (t : Task) : bool :=
  match t_pc t with Spawned | Ended _ | Reaped _ => false | _ => true end.

Definition total {A} (f : A -> nat) (l : list A) : nat := foldr (λ x n, (f x + n)%nat) O l.

Lemma total_app {A} (f : A -> nat) l x : total f (l ++ [x]) = (total f l + f x)%nat.
Proof. induction l as [|y l IH]; simpl; [lia|]. rewrite IH. lia. Qed.

Lemma total_insert {A} (f : A -> nat) l i x y :
  l !! i = Some x -> (total f (<[i := y]> l) + f x = total f l + f y)%nat.
Proof.
  revert i. induction l as [|z l IH]; intros [|i]; simpl; intros H; simplify_eq; [lia|].
  specialize (IH i H). lia.
Qed.

Lemma total_map {A} (f : A -> nat) (g : A -> A) l :
  (∀ x, f (g x) = f x) -> total f (map g l) = total f l.
Proof. intros H. induction l as [|x l IH]; simpl; [done|]. by rewrite H, IH. Qed.

Lemma total_bounds {A} (f g : A -> nat) l :
  Forall (λ x, f x <= g x)%nat l -> (total f l <= total g l)%nat.
Proof. induction 1; simpl; lia. Qed.

Lemma total_const {A} (f : A -> nat) k l : Forall (λ x, f x = k) l -> total f l = (k * length l)%nat.
Proof. induction 1 as [|x l Hx _ IH]; simpl; [lia|]. rewrite Hx, IH. lia. Qed.

#[global] Arguments total : simpl never.

(** Take a transition apart: one goal per event and state in which it is enabled. *)
Ltac invert_step H :=
  repeat match type of H with
         | context [match ?x with _ => _ end] => destruct x eqn:?; try discriminate H
         end;
  try (injection H as <-).

Section StepLemmas.
Context `{L : Lowercase} `{U : UrlLib} `{Hi : HashIter}.
Context (warn allow : bool).

(** What one step of a task leaves alone, and how it moves the permits and counters. *)
Lemma step_task_frame i t e s s' :
  step_task i t e s = Some s' ->
  ∃ t', tasks s' = <[i := t']> (tasks s) ∧ t_url t' = t_url t ∧ t_aborted t' = t_aborted t
    ∧ main s' = main s ∧ cancelled s' = cancelled s
    ∧ total_urls_attempted (counters s') = total_urls_attempted (counters s)
    ∧ (results (counters s') + increments t = results (counters s) + increments t')%nat
    ∧ (permits s' + holds t' = permits s + holds t)%nat.
Proof.
  unfold step_task, results, holds, insert_failure_row, record_stat. intros H.
  destruct e as [| | | | |[]| | | | | | | | |], (t_pc t) as [| | | | | | |[]| | | | | |] eqn:Epc;
    try discriminate H; invert_step H;
    eexists; (split; [reflexivity|]); cbn in *; split_and!; try discriminate; try done; lia.
Qed.

(** How often a task has been counted where it is. *)
Definition history_ok (t : Task) : Prop :=
  match t_pc t with
  | Spawned | Registered | RateLimited | LetThrough | Processing _ | Cancelling
  | CancelRecorded => increments t = 0%nat
  | Counted _ | RecordingFailure _ | RecordingTimeout | Finishing _
  | Leaving JoinOk | Ended JoinOk | Reaped JoinOk => increments t = 1%nat
  | Leaving JoinError | Ended JoinError => (increments t <= 1)%nat
  | Reaped JoinError => (1 <= increments t <= 2)%nat
  end.

Lemma step_task_history i t e s s' :
  step_task i t e s = Some s' -> tasks s !! i = Some t -> history_ok t ->
  ∀ t', tasks s' !! i = Some t' -> history_ok t'.
Proof.
  unfold step_task, insert_failure_row, record_stat. intros H Hlk Ht t'.
  unfold history_ok in Ht.
  destruct e as [| | | | |[]| | | | | | | | |], (t_pc t) as [| | | | | | |[]| | | | | |] eqn:Epc;
    try discriminate H; invert_step H; cbn in *; try discriminate;
    rewrite list_lookup_insert_eq by (by eapply lookup_lt_Some);
    intros [= <-]; unfold history_ok; cbn; try case_match; try lia; by destruct outcome.
Qed.

(** A step of a task registers its URL, removes it, or leaves the registry alone. *)
Lemma step_task_registry i t e s s' t' :
  step_task i t e s = Some s' -> tasks s !! i = Some t -> tasks s' !! i = Some t' ->
  (in_flight_urls s' = {[ t_url t ]} ∪ in_flight_urls s ∧ registered t' = true)
  \/ (in_flight_urls s' = in_flight_urls s ∖ {[ t_url t ]} ∧ registered t' = false)
  \/ (in_flight_urls s' = in_flight_urls s ∧ registered t' = registered t).
Proof.
  unfold step_task, insert_failure_row, record_stat, registered. intros H Hlk.
  destruct e as [| | | | |[]| | | | | | | | |], (t_pc t) as [| | | | | | |[]| | | | | |] eqn:Epc;
    try discriminate H; invert_step H; cbn in *; try discriminate;
    rewrite list_lookup_insert_eq by (by eapply lookup_lt_Some);
    intros [= <-]; cbn; eauto; by destruct (t_aborted t).
Qed.
End StepLemmas.

(** ** The invariant *)

(** What the drain phase has added to [failed_urls] for abandoned URLs. *)
Definition abandoned_counted (m : MainPc) : nat :=
  match m with Aborting n | Drained (Some n) => n | _ => O end.

Record invariant `{U : UrlLib} `{L : Lowercase} (allow : bool) (max_concurrency : nat) (s : Scan)
  : Prop := {
  inv_history : Forall history_ok (tasks s);
  inv_ledger : (total_urls_attempted (counters s) + total increments (tasks s)
                + abandoned_counted (main s) = results (counters s) + length (tasks s))%nat;
  inv_permits : (permits s + total holds (tasks s) = max_concurrency)%nat;
  inv_registry : ∀ u, u ∈ in_flight_urls s ->
    ∃ i t, tasks s !! i = Some t ∧ t_url t = u ∧ registered t = true;
  inv_urls : Forall (λ t, admissible allow (t_url t)) (tasks s);
  inv_acquiring : ∀ u, main s = Acquiring u -> admissible allow u;
}.

Section Invariant.
Context `{L : Lowercase} `{U : UrlLib} `{Hi : HashIter}.
Context (warn allow : bool) (max_concurrency : nat).

Lemma step_task_invariant i t e s s' :
  tasks s !! i = Some t -> step_task i t e s = Some s' ->
  invariant allow max_concurrency s -> invariant allow max_concurrency s'.
Proof.
  intros Hlk H [I1 I2 I3 I4 I5 I6].
  destruct (step_task_frame _ _ _ _ _ H) as (t' & Ht & Hu & _ & Hm & _ & Ha & Hr & Hp).
  assert (Hi' : tasks s' !! i = Some t').
  { rewrite Ht. by apply list_lookup_insert_eq, lookup_lt_Some with t. }
  pose proof (step_task_history _ _ _ _ _ H Hlk (Forall_lookup_1 _ _ _ _ I1 Hlk) _ Hi') as Hh.
  pose proof (total_insert increments _ _ _ t' Hlk) as Hinc.
  pose proof (total_insert holds _ _ _ t' Hlk) as Hhold.
  split; rewrite ?Ht, ?Hm, ?length_insert.
  - by apply Forall_insert.
  - rewrite Ha. lia.
  - lia.
  - intros u Hu'. pose proof (step_task_registry _ _ _ _ _ _ H Hlk Hi') as Hreg.
    assert (Hcase : (u = t_url t ∧ registered t' = true)
      \/ (u ∈ in_flight_urls s ∧ (u <> t_url t \/ registered t' = registered t))).
    { destruct (decide (u = t_url t)) as [->|Hne]; [|right].
      - destruct Hreg as [[E Hr']|[[E _]|[E Hr']]]; rewrite E in Hu'; [by left| |by eauto].
        by apply elem_of_difference in Hu' as [_ []%not_elem_of_singleton].
      - split; [|by left]. destruct Hreg as [[E _]|[[E _]|[E _]]]; rewrite E in Hu'; [| |done].
        + by apply elem_of_union in Hu' as [?%elem_of_singleton|?].
        + by apply elem_of_difference in Hu' as [? _]. }
    destruct Hcase as [[-> Hr']|[(j & tj & Hj & Hju & Hjr)%I4 Hc]].
    + exists i, t'. rewrite list_lookup_insert_eq by (by eapply lookup_lt_Some).
      by split_and!.
    + destruct (decide (i = j)) as [->|Hij].
      * exists j, t'. rewrite list_lookup_insert_eq by (by eapply lookup_lt_Some).
        simplify_eq. destruct Hc as [Hc|Hc]; [done|]. by rewrite Hc, Hjr.
      * exists j, tj. by rewrite list_lookup_insert_ne.
  - apply Forall_insert; [done|]. rewrite Hu. by eapply Forall_lookup_1 in I5.
  - done.
Qed.

(** Changing only the main loop and the cancellation flag. *)
Lemma invariant_idle s s' :
  tasks s' = tasks s -> counters s' = counters s -> permits s' = permits s ->
  in_flight_urls s' = in_flight_urls s ->
  abandoned_counted (main s') = abandoned_counted (main s) ->
  (∀ u, main s' = Acquiring u -> admissible allow u) ->
  invariant allow max_concurrency s -> invariant allow max_concurrency s'.
Proof.
  intros Et Ec Ep Ef Em Hm [I1 I2 I3 I4 I5 I6]. split; rewrite ?Et, ?Ec, ?Ep, ?Ef, ?Em; done.
Qed.

Lemma abort_same t : t_url (abort t) = t_url t ∧ increments (abort t) = increments t
  ∧ holds (abort t) = holds t ∧ registered (abort t) = registered t
  ∧ (history_ok t -> history_ok (abort t)).
Proof. unfold abort. by destruct (is_ended t). Qed.

Lemma invariant_drop_join_set s :
  invariant allow max_concurrency s -> invariant allow max_concurrency (drop_join_set s).
Proof.
  intros [I1 I2 I3 I4 I5 I6]. split; cbn; rewrite ?length_map, ?total_map by (intros; apply abort_same).
  - apply Forall_map. eapply Forall_impl; [|exact I1]. intros t. apply abort_same.
  - done.
  - done.
  - intros u (i & t & Hl & Hu & Hr)%I4. exists i, (abort t).
    change (map abort (tasks s)) with (abort <$> tasks s). rewrite list_lookup_fmap, Hl.
    destruct (abort_same t) as (E1 & _ & _ & E4 & _). by rewrite E1, E4.
  - apply Forall_map. eapply Forall_impl; [|exact I5]. intros t Ht. cbn.
    by destruct (abort_same t) as (-> & _).
  - done.
Qed.

Lemma invariant_skip s :
  invariant allow max_concurrency s -> invariant allow max_concurrency (skip_url s).
Proof. intros [I1 I2 I3 I4 I5 I6]. split; try done. unfold results in *. cbn in *. lia. Qed.

Lemma reap_invariant i t outcome s :
  tasks s !! i = Some t -> t_pc t = Ended outcome ->
  invariant allow max_concurrency s -> invariant allow max_concurrency (reap i t outcome s).
Proof.
  intros Hlk Hpc [I1 I2 I3 I4 I5 I6].
  pose proof (Forall_lookup_1 _ _ _ _ I1 Hlk) as Hh.
  pose proof (Forall_lookup_1 _ _ _ _ I5 Hlk) as Hu.
  assert (Hreg : ∀ pc n u, u ∈ in_flight_urls s ->
    ∃ j tj, <[i:=MkTask (t_url t) pc (t_aborted t) n]> (tasks s) !! j = Some tj
            ∧ t_url tj = u ∧ registered tj = true).
  { intros pc n u (j & tj & Hj & Hju & Hjr)%I4. exists j, tj.
    rewrite list_lookup_insert_ne; [done|]. intros ->. simplify_eq.
    unfold registered in Hjr. by rewrite Hpc in Hjr. }
  assert (Hsum : ∀ pc n, (total increments (<[i:=MkTask (t_url t) pc (t_aborted t) n]> (tasks s))
                          + increments t = total increments (tasks s) + n)%nat).
  { intros. by apply total_insert. }
  assert (Hhold : ∀ n, (total holds (<[i:=MkTask (t_url t) (Reaped outcome) (t_aborted t) n]> (tasks s))
                        = total holds (tasks s))%nat).
  { intros n. pose proof (total_insert holds _ _ _ (MkTask (t_url t) (Reaped outcome) (t_aborted t) n) Hlk).
    unfold holds in *. rewrite Hpc in *. cbn in *. lia. }
  unfold history_ok in Hh. rewrite Hpc in Hh.
  destruct outcome; cbn in *; split; cbn; rewrite ?length_insert, ?Hhold; try done; eauto;
    try (apply Forall_insert; [done|]; unfold history_ok; cbn; lia || done).
  - specialize (Hsum (Reaped JoinOk) (increments t)). lia.
  - specialize (Hsum (Reaped JoinError) (S (increments t))). unfold results in *. cbn. lia.
Qed.
Lemma read_line_invariant r n s :
  main s = Reading n -> invariant allow max_concurrency s ->
  invariant allow max_concurrency (read_line warn allow r n s).
Proof.
  intros Hm Hs.
  assert (Hidle : ∀ m, abandoned_counted m = O -> (∀ u, m = Acquiring u -> admissible allow u) ->
    invariant allow max_concurrency (set_main m s)).
  { intros m Hm0 Hu. eapply invariant_idle; [..|exact Hs]; try done. by rewrite Hm. }
  unfold read_line, leave_loop. destruct r as [line| |].
  - destruct (handle_line warn allow line) as [| |url|] eqn:El; cbn zeta.
    + by apply Hidle.
    + by apply invariant_skip, Hidle.
    + eapply invariant_idle; [..|by apply (Hidle (Reading 0))]; try done.
      cbn. intros u [= <-]. by eapply handle_line_admissible.
    + apply invariant_drop_join_set. eapply invariant_idle; [..|by apply (Hidle (Reading 0))]; done.
  - by eapply invariant_idle; [..|by apply (Hidle Draining)].
  - destruct (_ <? _)%nat; [|by apply Hidle].
    eapply invariant_idle; [..|apply invariant_drop_join_set; by apply (Hidle ReadFailed)]; done.
Qed.

Lemma step_main_invariant e s s' :
  step_main warn allow e s = Some s' ->
  invariant allow max_concurrency s -> invariant allow max_concurrency s'.
Proof.
  intros H Hs. pose proof Hs as [I1 I2 I3 I4 I5 I6].
  destruct e, (main s) as [n|url| |[|u us] n|n|n| |] eqn:Em; cbn in H; rewrite ?Em in H;
    try discriminate H; invert_step H;
    try (by apply reap_invariant); try (by apply read_line_invariant);
    try (eapply invariant_idle; [..|exact Hs]; cbn; rewrite ?Em; try done; fail).
  - split; cbn; rewrite ?total_app, ?length_app; cbn; try done.
    + apply Forall_app. by repeat constructor.
    + unfold results in *. cbn in *. lia.
    + lia.
    + intros u (i & t & Hl & ?)%I4. exists i, t. split; [by apply lookup_app_l_Some|done].
    + apply Forall_app. split; [done|]. constructor; [by apply I6|constructor].
  - split; cbn; try done. unfold results in *. cbn in *. lia.
  - eapply invariant_idle; [..|exact Hs]; unfold insert_failure_row; destruct ok; cbn;
      rewrite ?Em; done.
  - split; cbn; try done. unfold results in *. cbn in *. lia.
  - eapply invariant_idle; [..|apply invariant_drop_join_set, Hs]; cbn; rewrite ?Em; try done.
Qed.

Lemma reachable_invariant s :
  reachable warn allow max_concurrency s -> invariant allow max_concurrency s.
Proof.
  induction 1 as [|e s s' _ IH H].
  - split; cbn; try done; unfold total; cbn; lia.
  - destruct e; try exact (step_main_invariant _ _ _ H IH).
    + cbn in H. injection H as <-. eapply invariant_idle; [..|exact IH]; try done. apply IH.
    + cbn in H. destruct (tasks s !! i) as [t|] eqn:Ht; [|done].
      by apply (step_task_invariant _ _ _ _ _ Ht H).
Qed.

Lemma reachable_run s es s' :
  reachable warn allow max_concurrency s -> run warn allow es s = Some s' ->
  reachable warn allow max_concurrency s'.
Proof.
  revert s. induction es as [|e es IH]; cbn; intros s Hs H; [by simplify_eq|].
  destruct (step warn allow e s) as [s1|] eqn:E; [|done].
  eapply IH; [|exact H]. by eapply reach_step.
Qed.

(** A reaped task does not move, and the main loop stays where it has stopped. *)
Lemma step_task_reaped i t e s s' :
  step_task i t e s = Some s' -> is_reaped t = false ∧ ∀ r, t_pc t <> Reaped r.
Proof.
  unfold step_task, is_reaped. intros H. destruct (t_pc t) eqn:Epc; try done.
  destruct e; try discriminate H. cbn in H. by rewrite andb_false_r in H.
Qed.

Lemma drained_all_reaped s :
  reachable warn allow max_concurrency s -> main s = Drained None ->
  Forall (λ t, is_reaped t = true) (tasks s).
Proof.
  induction 1 as [|e s s' _ IH H]; intros Hm; [done|].
  destruct e as [|i te| i|r| | | | | |ok| |]; cbn in H.
  - injection H as <-. auto.
  - destruct (tasks s !! i) as [t|] eqn:Ht; [|done].
    destruct (step_task_frame _ _ _ _ _ H) as (t' & _ & _ & _ & Hm' & _).
    rewrite Hm' in Hm. pose proof (Forall_lookup_1 _ _ _ _ (IH Hm) Ht) as Hr. cbn in Hr.
    apply step_task_reaped in H as [H _]. congruence.
  - destruct (main s) eqn:Em; cbn in H; try discriminate H; invert_step H;
      unfold reap in Hm; case_match; cbn in Hm; congruence.
  - destruct (main s) eqn:Em; try discriminate H. injection H as <-.
    unfold read_line, leave_loop, drop_join_set, skip_url in Hm.
    repeat case_match; cbn in Hm; congruence.
  - destruct (main s) eqn:Em; try discriminate H; invert_step H; done.
  - destruct (main s) eqn:Em; try discriminate H; invert_step H; done.
  - destruct (main s) eqn:Em; try discriminate H; invert_step H; done.
  - destruct (main s) eqn:Em; try discriminate H; invert_step H. cbn.
    by apply Forall_forall, forallb_forall.
  - destruct (main s) eqn:Em; try discriminate H; injection H as <-. cbn in Hm. by case_match.
  - destruct (main s) as [| | |[|]| | | |] eqn:Em; try discriminate H; injection H as <-.
    unfold insert_failure_row in Hm. by destruct ok.
  - destruct (main s) as [| | |[|]| | | |] eqn:Em; try discriminate H; injection H as <-. done.
  - destruct (main s) as [| | |[|]| | | |] eqn:Em; try discriminate H; injection H as <-. done.
Qed.
End Invariant.

(** ** Complete registry

    A registered task's URL is missing from the registry only when another task has the
    same URL. *)

Section Registry.
Context `{L : Lowercase} `{U : UrlLib} `{Hi : HashIter}.
Context (warn allow : bool) (max_concurrency : nat).

Definition registry_complete (s : Scan) : Prop :=
  NoDup (map t_url (tasks s)) ->
  ∀ i t, tasks s !! i = Some t -> registered t = true -> t_url t ∈ in_flight_urls s.

Lemma map_url_insert i t t' (l : list Task) :
  l !! i = Some t -> t_url t' = t_url t -> map t_url (<[i := t']> l) = map t_url l.
Proof.
  intros Hl Hu. change (t_url <$> <[i := t']> l = t_url <$> l).
  rewrite list_fmap_insert, Hu. apply list_insert_id. by rewrite list_lookup_fmap, Hl.
Qed.

Lemma registry_unchanged s s' :
  in_flight_urls s' = in_flight_urls s -> map t_url (tasks s') = map t_url (tasks s) ->
  (∀ i t', tasks s' !! i = Some t' -> registered t' = true ->
     ∃ t, tasks s !! i = Some t ∧ t_url t = t_url t' ∧ registered t = true) ->
  registry_complete s -> registry_complete s'.
Proof.
  intros Ef Eu Ht Hs Hnd i t' Hl Hr. rewrite Ef, Eu in *.
  destruct (Ht i t' Hl Hr) as (t & Hl' & <- & Hr'). by apply (Hs Hnd i).
Qed.

Lemma step_task_complete i t e s s' :
  tasks s !! i = Some t -> step_task i t e s = Some s' ->
  registry_complete s -> registry_complete s'.
Proof.
  intros Hlk H Hs Hnd.
  destruct (step_task_frame _ _ _ _ _ H) as (t' & Ht & Hu & _).
  assert (Hi' : tasks s' !! i = Some t').
  { rewrite Ht. by apply list_lookup_insert_eq, lookup_lt_Some with t. }
  pose proof (step_task_registry _ _ _ _ _ _ H Hlk Hi') as Hreg.
  rewrite Ht, (map_url_insert _ t) in Hnd by done.
  intros j tj Hj Hjr. destruct (decide (i = j)) as [<-|Hij].
  - simplify_eq. rewrite Hu. destruct Hreg as [[-> _]|[[_ E]|[-> Hr]]]; [set_solver|congruence|].
    apply (Hs Hnd i); [done|congruence].
  - rewrite Ht, list_lookup_insert_ne in Hj by done.
    pose proof (Hs Hnd j tj Hj Hjr) as Hin.
    assert (Hne : t_url tj <> t_url t).
    { intros E. apply Hij. eapply NoDup_lookup; [exact Hnd| |].
      - change (map t_url (tasks s)) with (t_url <$> tasks s). by rewrite list_lookup_fmap, Hlk.
      - change (map t_url (tasks s)) with (t_url <$> tasks s). by rewrite list_lookup_fmap, Hj, <- E. }
    destruct Hreg as [[-> _]|[[-> _]|[-> _]]]; set_solver.
Qed.

(** [tasks'] continues [tasks]: the same URLs in front, and no task registered anew. *)
Definition continues (ts ts' : list Task) : Prop :=
  (∃ us, map t_url ts' = map t_url ts ++ us)
  ∧ ∀ i t', ts' !! i = Some t' -> registered t' = true ->
      ∃ t, ts !! i = Some t ∧ t_url t = t_url t' ∧ registered t = true.

Lemma continues_refl ts : continues ts ts.
Proof. split; [exists []; by rewrite app_nil_r|eauto]. Qed.

Lemma continues_abort ts : continues ts (map abort ts).
Proof.
  split.
  - exists []. rewrite app_nil_r, map_map. apply map_ext. intros t. apply abort_same.
  - intros i t'. change (map abort ts) with (abort <$> ts). rewrite list_lookup_fmap.
    destruct (ts !! i) as [t|]; [|done]. intros [= <-] Hr. exists t.
    destruct (abort_same t) as (-> & _ & _ & E & _). by rewrite E in Hr.
Qed.

Lemma continues_complete s s' :
  in_flight_urls s' = in_flight_urls s -> continues (tasks s) (tasks s') ->
  registry_complete s -> registry_complete s'.
Proof.
  intros Ef [[us Hus] Ht] Hs Hnd i t' Hl Hr. rewrite Ef.
  destruct (Ht i t' Hl Hr) as (t & Hl' & <- & Hr'). apply (Hs) with i; [|done..].
  rewrite Hus in Hnd. by apply list.NoDup_app in Hnd as [? _].
Qed.

Lemma continues_reaped i t outcome n ts :
  ts !! i = Some t -> t_pc t = Ended outcome ->
  continues ts (<[i := MkTask (t_url t) (Reaped outcome) (t_aborted t) n]> ts).
Proof.
  intros Hl Hpc. split; [exists []; by rewrite app_nil_r, (map_url_insert i t)|].
  intros j t' Hj Hr. destruct (decide (i = j)) as [<-|Hij].
  - rewrite list_lookup_insert_eq in Hj by (by eapply lookup_lt_Some). by injection Hj as <-.
  - rewrite list_lookup_insert_ne in Hj by done. eauto.
Qed.

Lemma step_main_continues e s s' :
  step_main warn allow e s = Some s' ->
  in_flight_urls s' = in_flight_urls s ∧ continues (tasks s) (tasks s').
Proof.
  unfold step_main. intros H. destruct e, (main s) as [n|url| |[|u us] n|n|n| |] eqn:Em; cbn in H;
    try discriminate H; invert_step H; cbn;
    try (split; [done|]; apply continues_refl || apply continues_abort).
  1,2: split; [by destruct outcome|]; unfold reap; destruct outcome; by eapply continues_reaped.
  - unfold read_line, leave_loop, drop_join_set, skip_url.
    repeat case_match; cbn; split; try done; apply continues_refl || apply continues_abort.
  - split; [done|]. split; [exists [url]; by rewrite map_app|]. intros j t' Hl Hr.
    apply lookup_app_Some in Hl as [Hl|[_ Hl]]; [by eauto|].
    by destruct (j - length (tasks s))%nat; [injection Hl as <-|].
  - unfold insert_failure_row. destruct ok; (split; [done|apply continues_refl]).
Qed.

Lemma reachable_complete s :
  reachable warn allow max_concurrency s -> registry_complete s.
Proof.
  induction 1 as [|e s s' _ IH H]; [intros _ i t; done|].
  destruct e as [|i te| | | | | | | | | |];
    try (destruct (step_main_continues _ _ _ H); by eapply continues_complete).
  - cbn in H. injection H as <-. exact IH.
  - cbn in H. destruct (tasks s !! i) as [t|] eqn:Ht; [|done].
    by apply (step_task_complete _ _ _ _ _ Ht H).
Qed.
End Registry.

(** ** The drain deadline *)

(** Registered, and not yet counted. *)
Definition waiting (t : Task) : bool :=
  match t_pc t with
  | Registered | RateLimited | LetThrough | Processing _ | Cancelling | CancelRecorded => true
  | _ => false
  end.

Definition waiting_urls (s : Scan) : list str :=
  map t_url (filter (λ t, waiting t = true) (tasks s)).

(** What the main loop does when the deadline fires; [oks] says which rows get written. *)
Definition deadline_events (oks : list bool) : list Event :=
  MDeadline :: map MRecord oks ++ (if nonempty oks then [MCountAbandoned] else []) ++ [MAbort].

Lemma size_urls (l : list str) : (size (list_to_set l : gset str) <= length l)%nat
  ∧ (size (list_to_set l : gset str) = length l -> NoDup l).
Proof.
  induction l as [|x l [IH1 IH2]]; cbn; [by split; [|constructor]|].
  destruct (decide (x ∈ l)) as [Hx|Hx].
  - assert (E : {[x]} ∪ list_to_set l = (list_to_set l : gset str)) by set_solver.
    rewrite E. split; lia.
  - rewrite size_union by set_solver. rewrite size_singleton. split; [lia|].
    intros H. apply list.NoDup_cons. split; [done|]. apply IH2. lia.
Qed.

Lemma nodup_filter_lookup {A B} (f : A -> B) (P : A -> Prop) `{!∀ x, Decision (P x)} l i j x y :
  NoDup (map f (filter P l)) -> l !! i = Some x -> l !! j = Some y -> P x -> P y -> f x = f y -> i = j.
Proof.
  revert i j. induction l as [|z l IH]; [done|]. intros i j Hnd Hi Hj Hx Hy He.
  rewrite filter_cons in Hnd.
  assert (Hin : ∀ k w, l !! k = Some w -> P w -> f w ∈ map f (filter P l)).
  { intros k w Hw Hp. apply list_elem_of_fmap_2, list_elem_of_filter. split; [done|].
    by eapply list_elem_of_lookup_2. }
  destruct i as [|i], j as [|j]; cbn in Hi, Hj; simplify_eq; [done| | |].
  - rewrite decide_True in Hnd by done. apply list.NoDup_cons in Hnd as [Hn _].
    rewrite He in Hn. by apply (Hin j) in Hj.
  - rewrite decide_True in Hnd by done. apply list.NoDup_cons in Hnd as [Hn _].
    rewrite <- He in Hn. by apply (Hin i) in Hi.
  - f_equal. eapply IH; [|done..]. destruct (decide (P z)); [|done].
    by apply list.NoDup_cons in Hnd as [_ ?].
Qed.

Section Deadline.
Context `{L : Lowercase} `{U : UrlLib} `{Hi : HashIter} `{!HashIterLaws Hi}.
Context (warn allow : bool) (max_concurrency : nat).

Lemma length_abandoned s : length (abandoned_urls s) = size (in_flight_urls s).
Proof.
  unfold abandoned_urls. rewrite length_fmap, hash_iter_perm.
  rewrite length_map_to_list. by rewrite <- size_dom, dom_gset_to_gmap.
Qed.

Lemma run_app es es' s :
  run warn allow (es ++ es') s
  = match run warn allow es s with Some s' => run warn allow es' s' | None => None end.
Proof.
  revert s. induction es as [|e es IH]; intros s; cbn; [done|].
  destruct (step warn allow e s); [apply IH|done].
Qed.

Lemma run_records oks us n s :
  main s = Abandoning us n -> length oks = length us ->
  ∃ s', run warn allow (map MRecord oks) s = Some s' ∧ main s' = Abandoning [] n
    ∧ counters s' = counters s ∧ tasks s' = tasks s.
Proof.
  revert us s. induction oks as [|ok oks IH]; intros [|u us] s Hm Hl; try done.
  - by exists s.
  - cbn. rewrite Hm.
    destruct (IH us (insert_failure_row ok u ProcessUrlTimeout (set_main (Abandoning us n) s)))
      as (s' & Hr & Hm' & Hc & Ht).
    + by destruct ok.
    + by injection Hl.
    + exists s'. split_and!; [done..| |]; [rewrite Hc|rewrite Ht]; by destruct ok.
Qed.

(** The deadline adds the size of the registry to the failures. *)
Lemma run_deadline oks s :
  main s = Draining -> length oks = size (in_flight_urls s) ->
  ∃ s', run warn allow (deadline_events oks) s = Some s' ∧ main s' = Drained (Some (length oks))
    ∧ total_urls_attempted (counters s') = total_urls_attempted (counters s)
    ∧ results (counters s') = (results (counters s) + size (in_flight_urls s))%nat.
Proof.
  intros Hm Hl. rewrite <- length_abandoned in *.
  unfold deadline_events. cbn [run step step_main]. rewrite Hm.
  destruct (abandoned_urls s) as [|u us] eqn:Ea; cbn [nonempty].
  - destruct oks; [|done]. eexists. split; [reflexivity|]. cbn. split_and!; [done..|lia].
  - destruct oks as [|ok oks]; [done|]. rewrite run_app.
    destruct (run_records (ok :: oks) (u :: us) (length (u :: us))
                (set_main (Abandoning (u :: us) (length (u :: us))) s))
      as (s1 & -> & Hm1 & Hc1 & _); [done..|].
    cbn [nonempty app run step step_main]. rewrite Hm1. eexists. split; [reflexivity|].
    unfold results. cbn in *. injection Hl as Hl. rewrite Hc1, Hl. cbn.
    split_and!; [done..|lia].
Qed.

Lemma waiting_count s :
  Forall (λ t, t_pc t = Reaped JoinOk \/ waiting t = true) (tasks s) ->
  Forall history_ok (tasks s) ->
  (total increments (tasks s) + length (waiting_urls s) = length (tasks s))%nat.
Proof.
  unfold waiting_urls. induction 1 as [|t l Ht _ IH]; intros Hh; [done|].
  inversion_clear Hh as [|?? Hh1 Hh2]. specialize (IH Hh2). rewrite filter_cons.
  change (total increments (t :: l)) with (increments t + total increments l)%nat.
  unfold history_ok in Hh1. destruct Ht as [Ht|Ht].
  - rewrite Ht in Hh1. rewrite decide_False by (unfold waiting; by rewrite Ht).
    rewrite length_map in *. cbn. lia.
  - rewrite decide_True by done. rewrite length_map in *. cbn.
    unfold waiting in Ht. destruct (t_pc t); try done; lia.
Qed.
End Deadline.

(** ** The steps that lead out of the scan

    A task has no say in them: they are taken by the main loop, and the one the loop can take
    next depends on where it is. *)

Definition loop_ended (m : MainPc) : bool :=
  match m with Drained _ | ReadFailed | MainPanicked => true | _ => false end.

Definition exit_event (m : MainPc) : Event :=
  match m with
  | Reading _ | Acquiring _ => MCancelled
  | Draining => MDeadline
  | Abandoning (_ :: _) _ => MRecord true
  | Abandoning [] _ => MCountAbandoned
  | _ => MAbort
  end.

(** The arms of the two [select!]s that stay in the loop. *)
Definition loop_step (e : Event) : bool :=
  match e with MRead _ | MPermit | MSemaphoreClosed => true | _ => false end.

(** The other steps of the main loop: joining a task, leaving the loop, the drain. *)
Definition exit_step (e : Event) : bool :=
  match e with Interrupt | ETask _ _ => false | e => negb (loop_step e) end.

Definition occurring (p : Event -> bool) (es : list Event) : nat := length (List.filter p es).

(** How many exit steps are left at most. *)
Definition unreaped (t : Task) : nat := if is_reaped t then 0 else 1.
Definition to_go (s : Scan) : nat :=
  total unreaped (tasks s)
  + match main s with
    | Reading _ | Acquiring _ => 5 + length (tasks s)
    | Draining => 4 + length (tasks s)
    | Abandoning rest _ => 3 + length rest
    | Aborting _ => 1
    | _ => 0
    end.

Section Termination.
Context `{L : Lowercase} `{U : UrlLib} `{Hi : HashIter} `{!HashIterLaws Hi}.
Context (warn allow : bool) (max_concurrency : nat).

Lemma step_task_unreaped i t e s s' :
  tasks s !! i = Some t -> step_task i t e s = Some s' ->
  to_go s' = to_go s ∧ cancelled s' = cancelled s.
Proof.
  intros Hlk H. destruct (step_task_frame _ _ _ _ _ H) as (t' & Ht & _ & _ & Hm & Hc & _).
  split; [|exact Hc]. unfold to_go. rewrite Ht, Hm, length_insert.
  pose proof (total_insert unreaped _ _ _ t' Hlk) as Htot.
  assert (unreaped t' = unreaped t) as Hu; [|lia].
  apply step_task_reaped in H as Hr. destruct Hr as [Hr _]. unfold unreaped. rewrite Hr.
  assert (Hi' : tasks s' !! i = Some t').
  { rewrite Ht. by apply list_lookup_insert_eq, lookup_lt_Some with t. }
  clear - H Hlk Hi'. unfold step_task, insert_failure_row, record_stat, is_reaped in *.
  destruct e as [| | | | |[]| | | | | | | | |], (t_pc t) as [| | | | | | |[]| | | | | |] eqn:Epc;
    try discriminate H; invert_step H; cbn in *; try discriminate;
    rewrite list_lookup_insert_eq in Hi' by (by eapply lookup_lt_Some);
    injection Hi' as <-; done.
Qed.

Lemma total_unreaped_abort ts : total unreaped (map abort ts) = total unreaped ts.
Proof.
  apply total_map. intros t. unfold unreaped, abort, is_reaped. by destruct (is_ended t).
Qed.

Lemma registry_bound s :
  invariant allow max_concurrency s -> (size (in_flight_urls s) <= length (tasks s))%nat.
Proof.
  intros [_ _ _ I4 _ _]. rewrite <- (length_map t_url).
  etransitivity; [|apply size_urls]. apply subseteq_size. intros u (i & t & Ht & <- & _)%I4.
  apply elem_of_list_to_set, list_elem_of_fmap_2. by eapply list_elem_of_lookup_2.
Qed.

(** An exit step uses one up; only a step of the loop adds to what is left. *)
Lemma step_to_go e s s' :
  invariant allow max_concurrency s -> step warn allow e s = Some s' ->
  (to_go s' + (if exit_step e then 1 else 0) <= to_go s + (if loop_step e then 2 else 0))%nat
  ∧ (cancelled s = true -> cancelled s' = true).
Proof.
  intros Hinv H. destruct e as [|i te|i|r| | | | | |ok| |]; cbn in H.
  - injection H as <-. split; [cbn|done]. unfold to_go. cbn. lia.
  - destruct (tasks s !! i) as [t|] eqn:Ht; [|done].
    destruct (step_task_unreaped _ _ _ _ _ Ht H) as [-> ->]. cbn. split; [lia|done].
  - destruct (joins (main s)); [|done]. destruct (tasks s !! i) as [t|] eqn:Ht; [|done].
    destruct (t_pc t) as [| | | | | | | | | | | |o|] eqn:Epc; try done. injection H as <-.
    assert (Hu : unreaped t = 1%nat) by (unfold unreaped, is_reaped; by rewrite Epc).
    destruct o; cbn [exit_step loop_step negb]; split; try done; unfold to_go, reap, goto;
      cbn [tasks main set_counters set_tasks]; rewrite length_insert;
      match goal with |- context [<[i := ?t']> _] =>
        pose proof (total_insert unreaped _ _ _ t' Ht) as Htot end;
      rewrite Hu in Htot; cbn in Htot; destruct (main s); lia.
  - destruct (main s) as [n| | | | | | | ] eqn:Em; try done. injection H as <-.
    unfold read_line, to_go. rewrite Em. cbn [exit_step loop_step negb].
    destruct r as [line| |].
    + destruct (handle_line warn allow line); cbn; (split; [|done]);
        try rewrite total_unreaped_abort; lia.
    + cbn. split; [lia|done].
    + destruct (_ <? _)%nat; cbn; (split; [|done]); try rewrite total_unreaped_abort; lia.
  - destruct (main s) as [|u| | | | | | ] eqn:Em; try done. destruct (permits s); [done|].
    injection H as <-. unfold to_go. cbn. rewrite total_app, length_app, Em. cbn.
    split; [lia|done].
  - destruct (main s) as [|u| | | | | | ] eqn:Em; try done. injection H as <-.
    unfold to_go. cbn. rewrite Em. split; [lia|done].
  - destruct (main s) as [n|u| | | | | | ] eqn:Em; try done;
      (destruct (cancelled s) eqn:Ec; [|done]); injection H as <-;
      unfold to_go; cbn; rewrite Em; split; [lia|done|lia|done].
  - destruct (main s) eqn:Em; try done. destruct (forallb is_reaped (tasks s)); [|done].
    injection H as <-. unfold to_go. cbn. rewrite Em. split; [lia|done].
  - destruct (main s) eqn:Em; try done. injection H as <-.
    pose proof (registry_bound s Hinv) as Hb. rewrite <- length_abandoned in Hb.
    unfold to_go. cbn. rewrite Em.
    destruct (abandoned_urls s); cbn in *; split; try done; lia.
  - destruct (main s) as [| | |[|u us] n| | | | ] eqn:Em; try done. injection H as <-.
    unfold to_go. destruct ok; cbn; rewrite Em; cbn; split; try done; lia.
  - destruct (main s) as [| | |[|u us] n| | | | ] eqn:Em; try done. injection H as <-.
    unfold to_go. cbn. rewrite Em. cbn. split; [lia|done].
  - destruct (main s) eqn:Em; try done. injection H as <-.
    unfold to_go. cbn. rewrite total_unreaped_abort, Em. split; [lia|done].
Qed.

Lemma run_to_go es s s' :
  reachable warn allow max_concurrency s -> run warn allow es s = Some s' ->
  (to_go s' + occurring exit_step es <= to_go s + 2 * occurring loop_step es)%nat
  ∧ (cancelled s = true -> cancelled s' = true).
Proof.
  revert s. induction es as [|e es IH]; cbn [run]; intros s Hr H.
  { injection H as <-. split; [cbn; lia|done]. }
  destruct (step warn allow e s) as [s1|] eqn:E; [|done].
  destruct (step_to_go e s s1 (reachable_invariant _ _ _ _ Hr) E) as [H1 Hc1].
  destruct (IH s1 (reach_step _ _ _ _ _ _ Hr E) H) as [H2 Hc2]. split; [|by auto].
  unfold occurring in *. cbn [List.filter]. destruct (exit_step e), (loop_step e); cbn; lia.
Qed.

Lemma exit_enabled s :
  cancelled s = true -> loop_ended (main s) = false ->
  exit_step (exit_event (main s)) = true
  ∧ is_Some (step warn allow (exit_event (main s)) s).
Proof.
  intros Hc Hf. unfold exit_event. destruct (main s) as [n|u| |[|u us] n|n| | | ] eqn:Em; try done;
    (split; [done|]); cbn; rewrite Em; rewrite ?Hc; by eexists.
Qed.

(** The main loop alone can finish. *)
Lemma exits_finish s :
  reachable warn allow max_concurrency s -> cancelled s = true ->
  ∃ es s', run warn allow es s = Some s' ∧ loop_ended (main s') = true
    ∧ Forall (λ e, exit_step e = true) es.
Proof.
  remember (to_go s) as n eqn:En. revert s En.
  induction (lt_wf n) as [n _ IH]. intros s -> Hr Hc.
  destruct (loop_ended (main s)) eqn:Hf; [exists [], s; by repeat constructor|].
  destruct (exit_enabled s Hc Hf) as [He [s1 H1]].
  destruct (step_to_go _ _ _ (reachable_invariant _ _ _ _ Hr) H1) as [Hlt Hc1].
  rewrite He in Hlt. assert (Hl : loop_step (exit_event (main s)) = false).
  { by destruct (main s) as [| | |[]| | | | ]. }
  rewrite Hl in Hlt.
  destruct (IH (to_go s1) ltac:(lia) s1 eq_refl (reach_step _ _ _ _ _ _ Hr H1) (Hc1 Hc))
    as (es & s' & Hrun & Hfin & Hall).
  exists (exit_event (main s) :: es), s'. cbn [run]. rewrite H1. by repeat constructor.
Qed.
End Termination.

(** ** Quiet runs

    No interrupt, deadline, timeout or panic, and every failure row is written.  (What a
    fetch returns and the order of the steps are still arbitrary.) *)

Definition quiet (e : Event) : bool :=
  match e with
  | Interrupt | MSemaphoreClosed | MDeadline | MRecord _ | MCountAbandoned | MAbort
  | ETask _ TTimeout | ETask _ TPanic | ETask _ (TRecord false) => false
  | _ => true
  end.

Definition quiet_task (t : Task) : Prop :=
  t_aborted t = false
  ∧ match t_pc t with
    | Cancelling | CancelRecorded | RecordingTimeout
    | Counted HandleTimeout | Counted HandleCancelled
    | Leaving JoinError | Ended JoinError | Reaped JoinError => False
    | _ => True
    end.

(** A row that is not yet counted, and a count whose row is not yet written. *)
Definition status_ahead (t : Task) : nat := match t_pc t with Processing true => 1 | _ => 0 end.
Definition failure_behind (t : Task) : nat :=
  match t_pc t with Counted (HandleFailure _) | RecordingFailure _ => 1 | _ => 0 end.

Definition rows_match (s : Scan) : Prop :=
  cancelled s = false ∧ Forall quiet_task (tasks s)
  ∧ url_status (facts s) = (successful_urls (counters s) + total status_ahead (tasks s))%nat
  ∧ (length (url_failures (facts s)) + total failure_behind (tasks s)
     = failed_urls (counters s))%nat.

Definition quiet_invariant (s : Scan) : Prop :=
  match main s with
  | ReadFailed | MainPanicked => True
  | Reading _ | Acquiring _ | Draining | Drained None => rows_match s
  | _ => False
  end.

(** The tasks that were joined with an error: they panicked or were aborted. *)
Definition failed_join (t : Task) : nat := match t_pc t with Reaped JoinError => 1 | _ => 0 end.
Definition body (t : Task) : nat := if in_body (t_pc t) then 1 else 0.

Section Quiet.
Context `{L : Lowercase} `{U : UrlLib} `{Hi : HashIter}.
Context (warn allow : bool).

Lemma step_task_quiet i t e s s' t' :
  step_task i t e s = Some s' -> quiet (ETask i e) = true -> tasks s !! i = Some t ->
  cancelled s = false -> quiet_task t -> tasks s' !! i = Some t' ->
  quiet_task t'
  ∧ (url_status (facts s') + successful_urls (counters s) + status_ahead t
     = url_status (facts s) + successful_urls (counters s') + status_ahead t')%nat
  ∧ (length (url_failures (facts s')) + failed_urls (counters s) + failure_behind t'
     = length (url_failures (facts s)) + failed_urls (counters s') + failure_behind t)%nat.
Proof.
  unfold step_task, insert_failure_row, record_stat, quiet_task. intros H Hq Hlk Hc [Ha Hpc].
  unfold status_ahead, failure_behind.
  destruct e as [| | | | |[]| | |[]| | | | | |], (t_pc t) as [| | | |[]| | |[]| | | |[]|[]|[]] eqn:Epc;
    try discriminate H; try discriminate Hq; try contradiction; rewrite ?Hc, ?Ha in H;
    try discriminate H; invert_step H; cbn;
    rewrite list_lookup_insert_eq by (by eapply lookup_lt_Some);
    intros [= <-]; cbn; rewrite ?length_app; cbn; split_and!; try done; lia.
Qed.

Lemma rows_match_task i t e s s' :
  step_task i t e s = Some s' -> quiet (ETask i e) = true -> tasks s !! i = Some t ->
  rows_match s -> rows_match s'.
Proof.
  intros H Hq Hlk (Hc & Hts & Hst & Hfl).
  destruct (step_task_frame _ _ _ _ _ H) as (t' & Ht & _ & _ & _ & Hc' & _).
  assert (Hi' : tasks s' !! i = Some t').
  { rewrite Ht. by apply list_lookup_insert_eq, lookup_lt_Some with t. }
  destruct (step_task_quiet _ _ _ _ _ _ H Hq Hlk Hc (Forall_lookup_1 _ _ _ _ Hts Hlk) Hi')
    as (H1 & H2 & H3).
  pose proof (total_insert status_ahead _ _ _ t' Hlk).
  pose proof (total_insert failure_behind _ _ _ t' Hlk).
  unfold rows_match. rewrite Ht, Hc'. split_and!; [done|by apply Forall_insert|lia|lia].
Qed.

(** The main loop between two settled states. *)
Lemma rows_match_main s s' :
  rows_match s -> cancelled s' = cancelled s -> facts s' = facts s ->
  successful_urls (counters s') = successful_urls (counters s) ->
  failed_urls (counters s') = failed_urls (counters s) -> Forall quiet_task (tasks s') ->
  total status_ahead (tasks s') = total status_ahead (tasks s) ->
  total failure_behind (tasks s') = total failure_behind (tasks s) -> rows_match s'.
Proof. unfold rows_match. intros (? & ? & ? & ?) -> -> -> -> ? -> ->. done. Qed.

Lemma rows_match_reap i t outcome s :
  tasks s !! i = Some t -> t_pc t = Ended outcome -> rows_match s ->
  rows_match (reap i t outcome s) ∧ main (reap i t outcome s) = main s.
Proof.
  intros Hlk Hpc Hs. pose proof Hs as (_ & Hts & _).
  pose proof (Forall_lookup_1 _ _ _ _ Hts Hlk) as [Ha Hq]. rewrite Hpc in Hq.
  destruct outcome; [|done]. split; [|done]. cbn.
  eapply rows_match_main; [exact Hs|done..| | |].
  - by apply Forall_insert.
  - pose proof (total_insert status_ahead _ _ _
      (MkTask (t_url t) (Reaped JoinOk) (t_aborted t) (increments t)) Hlk) as E.
    unfold status_ahead in E at 2 4. rewrite Hpc in E. cbn in *. lia.
  - pose proof (total_insert failure_behind _ _ _
      (MkTask (t_url t) (Reaped JoinOk) (t_aborted t) (increments t)) Hlk) as E.
    unfold failure_behind in E at 2 4. rewrite Hpc in E. cbn in *. lia.
Qed.

Lemma quiet_step e s s' :
  step warn allow e s = Some s' -> quiet e = true ->
  quiet_invariant s -> quiet_invariant s'.
Proof.
  intros H Hq Hs. destruct e as [|i te|i|r| | | | | |ok| |]; try discriminate Hq.
  - cbn in H. destruct (tasks s !! i) as [t|] eqn:Hlk; [|done].
    destruct (step_task_frame _ _ _ _ _ H) as (_ & _ & _ & _ & Hm & _).
    pose proof (rows_match_task _ _ _ _ _ H Hq Hlk) as Hrows.
    unfold quiet_invariant in *. rewrite Hm. by destruct (main s) as [| | | | |[]| |]; auto.
  - unfold quiet_invariant in Hs. cbn in H.
    destruct (main s) as [n| | | | |[]| |] eqn:Em; cbn in H; try discriminate H;
      destruct (tasks s !! i) as [t|] eqn:Hlk; try discriminate H;
      destruct (t_pc t) as [| | | | | | | | | | | |outcome|] eqn:Hpc; try discriminate H;
      injection H as <-; pose proof (rows_match_reap i t outcome s Hlk Hpc Hs) as [Hr Hm];
      unfold quiet_invariant; by rewrite Hm, Em.
  - unfold quiet_invariant in Hs. cbn in H. destruct (main s) as [n| | | | | | |] eqn:Em;
      try discriminate H. injection H as <-. unfold read_line, leave_loop.
    destruct r as [line| |]; [destruct (handle_line warn allow line)| |destruct (_ <? _)%nat];
      try exact I; cbn; by eapply rows_match_main; [exact Hs|..]; try done; apply Hs.
  - unfold quiet_invariant in Hs. cbn in H. destruct (main s) as [|url| | | | | |] eqn:Em;
      try discriminate H. destruct (permits s); [done|]. injection H as <-.
    cbn. eapply rows_match_main; [exact Hs|done..| | |]; cbn; rewrite ?total_app; cbn; try lia.
    apply Forall_app. split; [apply Hs|by repeat constructor].
  - unfold quiet_invariant in Hs. cbn in H.
    destruct (main s) as [|url| | | | | |] eqn:Em; try discriminate H;
      destruct Hs as (Hc & _); rewrite Hc in H; discriminate H.
  - unfold quiet_invariant in Hs. cbn in H.
    destruct (main s) as [| | | | |[]| |] eqn:Em; try discriminate H.
    destruct (forallb is_reaped (tasks s)); [|done]. injection H as <-. exact Hs.
Qed.

Lemma quiet_run es s s' :
  run warn allow es s = Some s' -> Forall (λ e, quiet e = true) es ->
  quiet_invariant s -> quiet_invariant s'.
Proof.
  revert s. induction es as [|e es IH]; cbn; intros s H Hq Hs; [by simplify_eq|].
  destruct (step warn allow e s) as [s1|] eqn:E; [|done].
  inversion_clear Hq as [|?? Hq1 Hq2]. eapply IH; [exact H|done|]. by eapply quiet_step.
Qed.

Lemma rows_match_reaped s :
  rows_match s -> Forall (λ t, is_reaped t = true) (tasks s) ->
  url_status (facts s) = successful_urls (counters s)
  ∧ length (url_failures (facts s)) = failed_urls (counters s)
  ∧ total failed_join (tasks s) = 0%nat.
Proof.
  intros (_ & Hts & -> & <-) Hr.
  assert (H0 : Forall (λ t, status_ahead t = 0%nat ∧ failure_behind t = 0%nat
                            ∧ failed_join t = 0%nat) (tasks s)).
  { apply Forall_lookup. intros i t Ht.
    pose proof (Forall_lookup_1 _ _ _ _ Hr Ht) as Hx.
    pose proof (Forall_lookup_1 _ _ _ _ Hts Ht) as [_ Hq]. cbn in Hx.
    unfold is_reaped, status_ahead, failure_behind, failed_join in *.
    by destruct (t_pc t) as [| | | | | | | | | | | | |[]]. }
  rewrite !(total_const _ 0) by (eapply Forall_impl; [|exact H0]; cbn; tauto). lia.
Qed.
End Quiet.

(** ** Properties *)

Section ScanProperties.
Context `{L : Lowercase} `{U : UrlLib} `{Hi : HashIter}.
Context (warn allow : bool) (max_concurrency : nat).

(** C1: When the drain phase ends by itself every URL taken from the input is
    accounted for: [successful + failed + skipped] is the number of attempted URLs, plus at
    most one for each task that panicked (a panic after the URL was counted is counted
    again when it is joined).  No URL is left in the registry and every permit is back. *)
Theorem scan_ledger s :
  reachable warn allow max_concurrency s -> main s = Drained None ->
  (total_urls_attempted (counters s) <= results (counters s)
   <= total_urls_attempted (counters s) + total failed_join (tasks s))%nat
  ∧ in_flight_urls s = ∅ ∧ permits s = max_concurrency.
Proof.
  intros Hr Hm. pose proof (drained_all_reaped _ _ _ _ Hr Hm) as Hd.
  pose proof (reachable_invariant _ _ _ _ Hr) as [I1 I2 I3 I4 _ _].
  assert (Hpc : Forall (λ t, (1 <= increments t <= 1 + failed_join t)%nat ∧ holds t = O
                             ∧ registered t = false) (tasks s)).
  { apply Forall_lookup. intros i t Ht.
    pose proof (Forall_lookup_1 _ _ _ _ I1 Ht) as Hh. pose proof (Forall_lookup_1 _ _ _ _ Hd Ht) as Hx.
    cbn in Hx. unfold is_reaped, history_ok, failed_join, holds, registered in *.
    destruct (t_pc t) as [| | | | | | | | | | | | |[]]; try done; split_and!; try done; lia. }
  rewrite Hm in I2. cbn in I2. split_and!.
  - assert (H1 : (1 * length (tasks s) <= total increments (tasks s))%nat).
    { rewrite <- (total_const (λ _ : Task, 1%nat) 1 (tasks s)) by (by apply Forall_forall).
      apply total_bounds. eapply Forall_impl; [|exact Hpc]. intros t [? _]. lia. }
    lia.
  - assert (H2 : (total increments (tasks s) <= length (tasks s) + total failed_join (tasks s))%nat).
    { clear -Hpc. induction Hpc as [|t l [Ht _] _ IH]; unfold total in *; cbn in *; lia. }
    lia.
  - apply leibniz_equiv, elem_of_equiv_empty. intros u (i & t & Ht & _ & Hreg)%I4.
    apply (Forall_lookup_1 _ _ _ _ Hpc) in Ht as (_ & _ & ?). congruence.
  - rewrite (total_const holds 0) in I3; [lia|].
    eapply Forall_impl; [|exact Hpc]. by intros t (_ & ? & _).
Qed.

(** C7: At no time are more than [max_concurrency] URLs processed, and every URL
    that is processed was accepted: within the length limit, http or https, and, except in
    the test configuration, not refused by the SSRF check. *)
Theorem scan_concurrency s :
  reachable warn allow max_concurrency s ->
  (total body (tasks s) <= max_concurrency)%nat
  ∧ Forall (λ t, admissible allow (t_url t)) (tasks s).
Proof.
  intros Hr. pose proof (reachable_invariant _ _ _ _ Hr) as [_ _ I3 _ I5 _].
  split; [|done]. enough (total body (tasks s) <= total holds (tasks s))%nat by lia.
  apply total_bounds, Forall_forall. intros t _. unfold body, holds.
  destruct (t_pc t); cbn; lia.
Qed.



(** C13: When nothing disturbs a scan - no interrupt, no deadline or timeout, no panic,
    and the database works - the report says exactly what happened: the counts read back
    from the fact tables are those of the counters, and they add up to the number of URLs
    attempted.  The counts are stored as [i32]. *)
Theorem quiet_scan_report {E} es s :
  run warn allow es (init max_concurrency) = Some s ->
  Forall (λ e, quiet e = true) es -> main s = Drained None ->
  Z.of_nat (total_urls_attempted (counters s)) <= i32_max ->
  @finalize_scan E None None s
  = Ok (MkReport (Z.of_nat (total_urls_attempted (counters s)))
          (Z.of_nat (successful_urls (counters s))) (Z.of_nat (failed_urls (counters s)))
          (Z.of_nat (skipped_urls (counters s))))
  ∧ total_urls_attempted (counters s) = results (counters s).
Proof.
  intros Hrun Hq Hm Hmax.
  assert (Hr : reachable warn allow max_concurrency s).
  { eapply reachable_run; [apply reach_init|exact Hrun]. }
  assert (Hs : quiet_invariant s).
  { eapply quiet_run; [exact Hrun|exact Hq|]. by repeat split. }
  unfold quiet_invariant in Hs. rewrite Hm in Hs.
  pose proof (drained_all_reaped _ _ _ _ Hr Hm) as Hd.
  destruct (rows_match_reaped s Hs Hd) as (H1 & H2 & H3).
  pose proof (reachable_invariant _ _ _ _ Hr) as [I1 I2 _ _ _ _]. rewrite Hm in I2.
  assert (Hinc : Forall (λ t, increments t = 1%nat) (tasks s)).
  { apply Forall_lookup. intros i t Ht.
    pose proof (Forall_lookup_1 _ _ _ _ Hd Ht) as Hx. pose proof (Forall_lookup_1 _ _ _ _ I1 Ht) as Hh.
    destruct Hs as (_ & Hts & _). pose proof (Forall_lookup_1 _ _ _ _ Hts Ht) as [_ Hqt].
    cbn in Hx. unfold is_reaped, history_ok in *.
    by destruct (t_pc t) as [| | | | | | | | | | | | |[]]. }
  rewrite (total_const _ 1 _ Hinc) in I2. cbn in I2.
  assert (Hres : total_urls_attempted (counters s) = results (counters s)) by lia.
  split; [|exact Hres]. unfold results in Hres.
  unfold finalize_scan, persist_run_counts, scan_report, count_run_fact_rows. cbn.
  rewrite H1, H2. unfold i32_as_usize, saturating_i32_count, as_i32, i32_max in *.
  rewrite !Z.mod_small, !wrap_u64_small by (unfold u64_max; lia).
  f_equal. f_equal; lia.
Qed.
End ScanProperties.

(** ** Concrete runs *)

Module DemoScan.
Definition line : str := lit "a.example".
Definition other : str := lit "b.example".

(** A task from its spawn to the [select!]. *)
Definition started (i : nat) : list Event :=
  [ETask i TPoll; ETask i TCheck; ETask i TAdmit; ETask i TCheck].
Definition spawned (l : str) : list Event := [MRead (Line l); MPermit].
Definition returned (i : nat) : list Event :=
  [ETask i TCallback; ETask i TReturn; ETask i TUnregister; MReap i].
Definition stored (i : nat) : list Event := [ETask i TCommit; ETask i (TDone Inserted)].

Definition failure : AnyhowError := MkAnyhow [] (CMessage (lit "connection reset")) [].
Definition failed (i : nat) : list Event :=
  [ETask i (TFail failure); ETask i TCallback; ETask i (TRecord true);
   ETask i TReturn; ETask i TUnregister; MReap i].

(** Two URLs, one stored and one failed, a comment and a rejected line. *)
Definition two_urls : list Event :=
  [MRead (Line (lit "# comment"))] ++ spawned line ++ spawned other ++ started 0 ++ started 1
  ++ stored 0 ++ [MRead (Line (lit "ftp://c.example"))] ++ failed 1 ++ [MRead Eof] ++ returned 0
  ++ [MEmpty].

(** The same URL twice, both in flight when the input ends. *)
Definition duplicate : list Event :=
  spawned line ++ spawned line ++ started 0 ++ started 1 ++ [MRead Eof].

(** Ctrl-C between the commit of a row and the end of its task. *)
Definition interrupted : list Event :=
  spawned line ++ started 0
  ++ [ETask 0 TCommit; Interrupt; ETask 0 TCancelled; ETask 0 (TRecord true); ETask 0 TCount]
  ++ [MCancelled] ++ returned 0 ++ [MEmpty].

Definition exec (es : list Event) : option Scan :=
  @run Demo.ascii_lowercase Demo.urls listing true false es (init 2).
Definition after (es : list Event) : Scan := default (init 2) (exec es).

Lemma after_run es : is_Some (exec es) ->
  @run Demo.ascii_lowercase Demo.urls listing true false es (init 2) = Some (after es).
Proof. unfold after. intros [s Hs]. rewrite Hs. exact Hs. Defined.

Lemma after_reachable es :
  is_Some (exec es) -> @reachable Demo.ascii_lowercase Demo.urls listing true false 2 (after es).
Proof.
  intros H%after_run. eapply (@reachable_run Demo.ascii_lowercase Demo.urls listing);
    [apply reach_init|exact H].
Defined.
End DemoScan.

(** A row that is committed before the interrupt is counted by the report as a success and
    as a failure. *)
Example interrupt_counts_twice :
  option_map (@finalize_scan unit None None) (DemoScan.exec DemoScan.interrupted)
  = Some (Ok (MkReport 1 1 1 0)).
Proof. vm_compute. reflexivity. Qed.

(** The task that holds the only URL ends while the row of its abandonment is written: one URL
    attempted, two results. *)
Example deadline_counts_twice :
  option_map counters (DemoScan.exec
    (DemoScan.spawned DemoScan.line ++ DemoScan.started 0
     ++ [MRead Eof; MDeadline] ++ DemoScan.stored 0 ++ [MRecord true; MCountAbandoned; MAbort]))
  = Some (MkCounters 1 1 1 0).
Proof. vm_compute. reflexivity. Qed.

Lemma scan_ledger_witness :
  counters (DemoScan.after DemoScan.two_urls) = MkCounters 3 1 1 1
  ∧ in_flight_urls (DemoScan.after DemoScan.two_urls) = ∅.
Proof.
  split; [vm_compute; reflexivity|].
  apply (@scan_ledger Demo.ascii_lowercase Demo.urls listing true false 2).
  - apply DemoScan.after_reachable. vm_compute. eexists. reflexivity.
  - vm_compute. reflexivity.
Defined.

Lemma scan_concurrency_witness :
  total body (tasks (DemoScan.after DemoScan.duplicate)) = 2%nat
  ∧ (total body (tasks (DemoScan.after DemoScan.duplicate)) <= 2)%nat.
Proof.
  split; [vm_compute; reflexivity|].
  apply (@scan_concurrency Demo.ascii_lowercase Demo.urls listing true false 2).
  apply DemoScan.after_reachable. vm_compute. eexists. reflexivity.
Defined.



Lemma quiet_scan_report_witness :
  @finalize_scan unit None None (DemoScan.after DemoScan.two_urls) = Ok (MkReport 3 1 1 1).
Proof.
  apply (@quiet_scan_report Demo.ascii_lowercase Demo.urls listing true false 2 unit
           DemoScan.two_urls (DemoScan.after DemoScan.two_urls)).
  - refine (DemoScan.after_run DemoScan.two_urls _). vm_compute. eexists. reflexivity.
  - apply Forall_forall, forallb_forall. vm_compute. reflexivity.
  - vm_compute. reflexivity.
  - vm_compute. discriminate.
Defined.
