(* ===== verification/Float.v ===== *)
(** * binary64 arithmetic ([f64])

    The [f64] operations of the source as the standard library's IEEE 754 specification
    computes them ([SpecFloat] with 53 and 1024, rounding to nearest even), and the lower
    bounds the rate limiters need: an operation whose exact result is at least a
    representable number [k * 2^j] returns at least that number. *)

From Stdlib Require Import SpecFloat.
From S2P Require Import Prelude.

Definition f64_of_int (z : Z) : spec_float := binary_normalize 53 1024 z 0 false.
Definition f64_add : spec_float -> spec_float -> spec_float := SFadd 53 1024.
Definition f64_sub : spec_float -> spec_float -> spec_float := SFsub 53 1024.
Definition f64_div : spec_float -> spec_float -> spec_float := SFdiv 53 1024.
Definition f64_mul : spec_float -> spec_float -> spec_float := SFmul 53 1024.
Definition f64_gt (a b : spec_float) : bool :=
  match SFcompare a b with Some Gt => true | _ => false end.

(** [f64::floor]. *)
Definition f64_floor (x : spec_float) : spec_float :=
  match x with
  | S754_finite s m e => if 0 <=? e then x else f64_of_int (cond_Zopp s (Zpos m) / 2 ^ (- e))
  | _ => x
  end.

(** [as usize]: truncates towards zero and saturates; a NaN becomes 0. *)
Definition f64_as_usize (x : spec_float) : Z :=
  match x with
  | S754_finite false m e => Z.min u64_max (if 0 <=? e then Zpos m * 2 ^ e else Zpos m / 2 ^ (- e))
  | S754_infinity false => u64_max
  | _ => 0
  end.

(** ** Values as integers

    [2^scale] times the value of a float is an integer, and so are the bounds. *)

Definition scale : Z := 4096.
Definition scaled (k j : Z) : Z := k * 2 ^ (j + scale).
Arguments scaled : simpl never.

Lemma scaled_shift k j n : 0 <= n -> - scale <= j -> scaled k (j + n) = scaled (k * 2 ^ n) j.
Proof.
  intros. unfold scaled. replace (j + n + scale) with (n + (j + scale)) by lia.
  rewrite Z.pow_add_r by lia. lia.
Qed.

Lemma scaled_le k l j : k <= l -> scaled k j <= scaled l j.
Proof. intros. apply Z.mul_le_mono_nonneg_r; [apply Z.pow_nonneg; lia|done]. Qed.

Lemma scaled_le_inv k l j : - scale <= j -> scaled k j <= scaled l j -> k <= l.
Proof.
  intros Hj H. apply (Z.mul_le_mono_pos_r _ _ (2 ^ (j + scale))); [|done].
  apply Z.pow_pos_nonneg; lia.
Qed.

(** [k * 2^j] is a number of the format that is not negative. *)
Definition representable (k j : Z) : Prop := 0 <= k < 2 ^ 53 ∧ -1074 <= j.

(** The float is a number that is not negative and at least [k * 2^j]. *)
Definition at_least (k j : Z) (x : spec_float) : Prop :=
  match x with
  | S754_zero _ => k <= 0
  | S754_infinity s => s = false
  | S754_nan => False
  | S754_finite s m e => s = false ∧ -1074 <= e ∧ Zpos m < 2 ^ 53 ∧ scaled k j <= scaled (Zpos m) e
  end.

Lemma at_least_weaken k k' j x : k' <= k -> at_least k j x -> at_least k' j x.
Proof.
  intros Hk. destruct x as [| | |s m e]; simpl; [lia|done|done|].
  intros (? & ? & ? & H). repeat split; try done. pose proof (scaled_le k' k j Hk). lia.
Qed.

Lemma at_least_zero j j' x : at_least 0 j x -> at_least 0 j' x.
Proof. destruct x; simpl; [done..|]. unfold scaled. by rewrite !Z.mul_0_l. Qed.

(** ** Digits *)

Lemma digits2_size m : digits2_pos m = Pos.size m.
Proof. induction m; simpl; by f_equal. Qed.

Lemma digits2_bounds m : 2 ^ (Z.pos (digits2_pos m) - 1) <= Zpos m < 2 ^ Z.pos (digits2_pos m).
Proof.
  rewrite digits2_size. pose proof (Pos.size_gt m) as Hg. pose proof (Pos.size_le m) as Hl.
  rewrite <- (Pos2Z.inj_pow 2 (Pos.size m)).
  split; [|lia].
  apply (Z.mul_le_mono_pos_l _ _ 2); [lia|].
  rewrite <- Z.pow_succ_r by lia.
  replace (Z.succ (Z.pos (Pos.size m) - 1)) with (Z.pos (Pos.size m)) by lia.
  rewrite <- (Pos2Z.inj_pow 2 (Pos.size m)). lia.
Qed.

Lemma digits2_unique m d : 2 ^ (d - 1) <= Zpos m < 2 ^ d -> 0 < d -> Z.pos (digits2_pos m) = d.
Proof.
  intros [H1 H2] Hd. pose proof (digits2_bounds m) as [H3 H4].
  assert (d - 1 < Z.pos (digits2_pos m)) by (apply (Z.pow_lt_mono_r_iff 2); lia).
  assert (Z.pos (digits2_pos m) - 1 < d) by (apply (Z.pow_lt_mono_r_iff 2); lia). lia.
Qed.

Lemma iter_xO m d : Zpos (Pos.iter xO m d) = Zpos m * 2 ^ Zpos d.
Proof.
  induction d as [|d IH] using Pos.peano_ind; [simpl; lia|].
  rewrite Pos.iter_succ, Pos2Z.inj_succ, Z.pow_succ_r by lia.
  change (Z.pos (xO (Pos.iter xO m d))) with (2 * Z.pos (Pos.iter xO m d)). lia.
Qed.

(** ** Rounding *)

Lemma shr_m_shr_1 r : 0 <= shr_m r -> shr_m (shr_1 r) = shr_m r / 2.
Proof.
  destruct r as [m b c]; simpl. intros Hm. destruct m as [|p|p]; [done| |lia].
  destruct p as [p|p|]; simpl; [| |done].
  - rewrite (Pos2Z.inj_xI p). apply (Z.div_unique _ _ _ 1); lia.
  - rewrite (Pos2Z.inj_xO p). apply (Z.div_unique _ _ _ 0); lia.
Qed.

Lemma shr_m_iter n r : 0 <= shr_m r -> shr_m (SpecFloat.iter_pos shr_1 n r) = shr_m r / 2 ^ Zpos n.
Proof.
  revert r. induction n as [n IH|n IH|]; intros r Hr; simpl SpecFloat.iter_pos.
  - assert (H1 : 0 <= shr_m (shr_1 r)) by (rewrite shr_m_shr_1 by done; apply Z.div_pos; lia).
    assert (H2 : 0 <= shr_m (SpecFloat.iter_pos shr_1 n (shr_1 r)))
      by (rewrite IH by done; apply Z.div_pos; lia).
    rewrite IH, IH, shr_m_shr_1 by done. rewrite !Z.div_div by lia.
    f_equal. rewrite (Pos2Z.inj_xI n), Z.pow_add_r, Z.pow_1_r by lia.
    replace (2 * Z.pos n) with (Z.pos n + Z.pos n) by lia. rewrite Z.pow_add_r by lia. lia.
  - assert (H2 : 0 <= shr_m (SpecFloat.iter_pos shr_1 n r)) by (rewrite IH by done; apply Z.div_pos; lia).
    rewrite IH, IH by done. rewrite !Z.div_div by lia.
    f_equal. rewrite (Pos2Z.inj_xO n).
    replace (2 * Z.pos n) with (Z.pos n + Z.pos n) by lia. rewrite Z.pow_add_r by lia. lia.
  - rewrite shr_m_shr_1 by done. by rewrite Z.pow_1_r.
Qed.

Lemma shr_m_of_loc m l : shr_m (shr_record_of_loc m l) = m.
Proof. by destruct l as [|[]]. Qed.

(** Rounding the mantissa to the format keeps a representable lower bound. *)
Lemma shr_fexp_at_least k j m e l :
  representable k j -> -3000 <= e -> 0 <= m -> scaled k j <= scaled m e ->
  match shr_fexp 53 1024 m e l with
  | (r, e') => 0 <= shr_m r < 2 ^ 53 ∧ -1074 <= e' ∧ scaled k j <= scaled (shr_m r) e'
  end.
Proof.
  intros [Hk Hj] He Hm H. unfold shr_fexp, shr.
  remember (fexp 53 1024 (Zdigits2 m + e)) as f eqn:Ef.
  assert (Hf : -1074 <= f ∧ Zdigits2 m + e - 53 <= f
    ∧ (f = Zdigits2 m + e - 53 ∨ f = -1074)) by (rewrite Ef; unfold fexp, emin; lia).
  assert (Hd : 0 <= m < 2 ^ Zdigits2 m ∧ (0 < m -> 2 ^ (Zdigits2 m - 1) <= m)).
  { destruct m as [|m|m]; [by split; [split|]| |lia]. simpl Zdigits2.
    pose proof (digits2_bounds m). lia. }
  destruct Hf as (Hf1 & Hf2 & Hf3). destruct (f - e) as [|n|n] eqn:En.
  1, 3: rewrite shr_m_of_loc; repeat split; try lia.
  1, 2: apply Z.lt_le_trans with (2 ^ Zdigits2 m); [lia|apply Z.pow_le_mono_r; lia].
  rewrite shr_m_iter; rewrite shr_m_of_loc; [|done].
  assert (Hp : 0 < 2 ^ Z.pos n) by (apply Z.pow_pos_nonneg; lia).
  assert (Hmod := Z.div_mod m (2 ^ Z.pos n)). assert (Hmb := Z.mod_pos_bound m (2 ^ Z.pos n) Hp).
  repeat split; [by apply Z.div_pos| |lia|].
  - apply Z.div_lt_upper_bound; [done|]. rewrite <- Z.pow_add_r by lia.
    apply Z.lt_le_trans with (2 ^ Zdigits2 m); [lia|apply Z.pow_le_mono_r; lia].
  - assert (e + Z.pos n = f) as -> by lia. destruct (Z.le_gt_cases f j) as [Hfj|Hfj].
    + replace j with (f + (j - f)) in H |- * by lia. rewrite scaled_shift in H |- * by (unfold scale; lia).
      apply scaled_le. apply Z.div_le_lower_bound; [done|].
      replace (scaled (k * 2 ^ (j - f)) f) with (scaled (k * 2 ^ (j - f)) (e + Z.pos n)) in H
        by (f_equal; lia).
      rewrite scaled_shift in H by (unfold scale; lia).
      apply scaled_le_inv in H; [|unfold scale; lia]. by rewrite Z.mul_comm.
    + destruct Hf3 as [Hf3|]; [|lia].
      assert (0 < m). { destruct m; simpl in *; lia. }
      replace f with (j + (f - j)) by lia. rewrite scaled_shift by (unfold scale; lia).
      apply scaled_le.
      assert (2 ^ 52 <= m / 2 ^ Z.pos n).
      { apply Z.div_le_lower_bound; [done|]. rewrite <- Z.pow_add_r by lia.
        replace (Z.pos n + 52) with (Zdigits2 m - 1) by lia. apply Hd. done. }
      assert (2 ^ 1 <= 2 ^ (f - j)) by (apply Z.pow_le_mono_r; lia). nia.
Qed.

Lemma round_nearest_even_ge m l : m <= round_nearest_even m l.
Proof. destruct l as [|[]]; simpl; try lia. destruct (Z.even m); lia. Qed.

Lemma round_aux_at_least k j m e l :
  representable k j -> -3000 <= e -> 0 <= m -> scaled k j <= scaled m e ->
  at_least k j (binary_round_aux 53 1024 false m e l).
Proof.
  intros Hr He Hm H. unfold binary_round_aux.
  pose proof (shr_fexp_at_least k j m e l Hr He Hm H) as H1.
  destruct (shr_fexp 53 1024 m e l) as [r1 e1]. destruct H1 as (Hr1 & He1 & H1).
  pose proof (round_nearest_even_ge (shr_m r1) (loc_of_shr_record r1)) as Hge.
  set (m2 := round_nearest_even (shr_m r1) (loc_of_shr_record r1)) in *.
  assert (H2 : scaled k j <= scaled m2 e1)
    by (pose proof (scaled_le _ _ e1 Hge); lia).
  pose proof (shr_fexp_at_least k j m2 e1 loc_Exact Hr ltac:(lia) ltac:(lia) H2) as H3.
  destruct (shr_fexp 53 1024 m2 e1 loc_Exact) as [r3 e3]. destruct H3 as (Hr3 & He3 & H3).
  destruct (shr_m r3) as [|m3|m3] eqn:E3; simpl at_least; [| |lia].
  - apply (scaled_le_inv _ _ e3); [unfold scale; lia|].
    destruct Hr as [Hk Hj]. unfold scaled in H3 |- *. rewrite Z.mul_0_l in *.
    assert (0 < 2 ^ (j + scale)) by (apply Z.pow_pos_nonneg; unfold scale; lia).
    assert (k = 0) by nia. subst. lia.
  - destruct (e3 <=? 1024 - 53); simpl; [|done]. repeat split; lia.
Qed.

Lemma binary_round_at_least k j m e :
  representable k j -> -2000 <= e -> scaled k j <= scaled (Zpos m) e ->
  at_least k j (binary_round 53 1024 false m e).
Proof.
  intros Hr He H. unfold binary_round, shl_align.
  set (f := fexp 53 1024 (Z.pos (digits2_pos m) + e)).
  assert (-1074 <= f) by (unfold f, fexp, emin; lia).
  destruct (f - e) as [|d|d] eqn:Ed.
  1, 2: apply round_aux_at_least; try done; lia.
  apply round_aux_at_least; [done|lia..|]. rewrite iter_xO.
  replace e with (f + Z.pos d) in H by lia. by rewrite scaled_shift in H by (unfold scale; lia).
Qed.

Lemma normalize_at_least k j m e :
  representable k j -> -2000 <= e -> 0 <= m -> scaled k j <= scaled m e ->
  at_least k j (binary_normalize 53 1024 m e false).
Proof.
  intros Hr He Hm H. destruct m as [|m|m]; simpl; [|by apply binary_round_at_least|lia].
  destruct Hr as [Hk Hj]. apply (scaled_le_inv _ _ j); [unfold scale; lia|].
  unfold scaled in *. lia.
Qed.

(** ** Operations *)

Lemma scaled_pos m e : - scale <= e -> 0 < scaled (Zpos m) e.
Proof. intros. unfold scaled. apply Z.mul_pos_pos; [lia|]. apply Z.pow_pos_nonneg; lia. Qed.

Lemma scaled_mul k1 j1 k2 j2 :
  - scale <= j1 -> - scale <= j2 -> - scale <= j1 + j2 ->
  scaled k1 j1 * scaled k2 j2 = scaled (k1 * k2) (j1 + j2) * 2 ^ scale.
Proof.
  intros. unfold scaled.
  transitivity (k1 * k2 * (2 ^ (j1 + scale) * 2 ^ (j2 + scale))); [ring|].
  rewrite <- (Z.mul_assoc (k1 * k2)), <- !Z.pow_add_r by (unfold scale in *; lia).
  do 2 f_equal. lia.
Qed.

Lemma f64_of_int_at_least k z : 0 <= k < 2 ^ 53 -> k <= z -> at_least k 0 (f64_of_int z).
Proof.
  intros Hk Hz. apply normalize_at_least; [split; lia|lia..|]. by apply scaled_le.
Qed.

Lemma f64_mul_at_least k1 j1 k2 j2 x y :
  representable (k1 * k2) (j1 + j2) -> 0 < k1 -> 0 < k2 -> -1074 <= j1 -> -1074 <= j2 ->
  at_least k1 j1 x -> at_least k2 j2 y -> at_least (k1 * k2) (j1 + j2) (f64_mul x y).
Proof.
  intros Hr Hk1 Hk2 Hj1 Hj2. destruct x as [sx|sx| |sx mx ex], y as [sy|sy| |sy my ey]; simpl;
    try lia; try done; try (intros ? ?; by destruct_and?; subst).
  intros (-> & He1 & _ & H1) (-> & He2 & _ & H2). simpl xorb.
  apply round_aux_at_least; [done|lia..|]. rewrite Pos2Z.inj_mul.
  apply (Z.mul_le_mono_pos_r _ _ (2 ^ scale)); [by apply Z.pow_pos_nonneg|].
  rewrite <- !scaled_mul by (unfold scale; lia).
  apply Z.mul_le_mono_nonneg; [|done| |done]; unfold scaled; apply Z.mul_nonneg_nonneg;
    (lia || (apply Z.pow_nonneg; lia)).
Qed.

(** A product of numbers that are not negative, the first one finite. *)
Lemma f64_mul_nonneg m e y j :
  -1074 <= e -> at_least 0 j y -> at_least 0 j (f64_mul (S754_finite false m e) y).
Proof.
  intros He Hy. destruct y as [sy|sy| |sy my ey]; simpl in *; try done; try by subst.
  destruct Hy as (-> & He2 & _ & _). apply (at_least_zero (-1074)).
  apply round_aux_at_least; [by split|lia..|]. unfold scaled at 1. rewrite Z.mul_0_l.
  apply Z.lt_le_incl. apply (scaled_pos (m * my)). unfold scale. lia.
Qed.

Lemma shl_align_scaled m e ez :
  - scale <= ez <= e -> scaled (Zpos (fst (shl_align m e ez))) ez = scaled (Zpos m) e.
Proof.
  intros. unfold shl_align. destruct (ez - e) as [|d|d] eqn:Ed; cbn [fst].
  - f_equal. lia.
  - lia.
  - rewrite iter_xO. rewrite <- scaled_shift by lia. f_equal. lia.
Qed.

Lemma scaled_add k l j : scaled (k + l) j = scaled k j + scaled l j.
Proof. unfold scaled. lia. Qed.

Lemma f64_add_at_least k1 k2 j x y :
  representable (k1 + k2) j -> 0 <= k1 -> 0 <= k2 ->
  at_least k1 j x -> at_least k2 j y -> at_least (k1 + k2) j (f64_add x y).
Proof.
  intros Hr Hk1 Hk2.
  destruct x as [sx|sx| |sx mx ex], y as [sy|sy| |sy my ey]; simpl; intros Hx Hy; try done.
  - destruct sx, sy; simpl; lia.
  - replace k1 with 0 by lia. by rewrite Z.add_0_l.
  - by subst.
  - replace k2 with 0 by lia. by rewrite Z.add_0_r.
  - destruct Hx as (-> & He1 & _ & H1), Hy as (-> & He2 & _ & H2).
    apply normalize_at_least; [done|lia|simpl; lia|].
    simpl cond_Zopp. rewrite !scaled_add.
    rewrite !shl_align_scaled by (unfold scale; lia). lia.
Qed.

(** A quotient that is exactly at least a power of two. *)
Lemma f64_div_at_least j mx ex my ey :
  -1074 <= j <= 0 -> -1074 <= ex <= 1000 -> -1074 <= ey <= 1000 ->
  scaled (Zpos my) (ey + j) <= scaled (Zpos mx) ex ->
  at_least 1 j (f64_div (S754_finite false mx ex) (S754_finite false my ey)).
Proof.
  intros Hj Hex Hey H. unfold f64_div, SFdiv, SFdiv_core_binary.
  set (f := fexp 53 1024 (Zdigits2 (Z.pos mx) + ex - (Zdigits2 (Z.pos my) + ey))).
  set (e := Z.min f (ex - ey)).
  assert (Hf : -1074 <= f ∧ (f = Zdigits2 (Z.pos mx) + ex - (Zdigits2 (Z.pos my) + ey) - 53
                              ∨ f = -1074)) by (unfold f, fexp, emin; lia).
  assert (He : -2074 <= e ∧ e <= ex - ey ∧ e <= f) by lia. destruct Hf as [Hf1 Hf2].
  clearbody e f. destruct He as (He1 & He2 & He3).
  set (m' := match ex - ey - e with 0 => _ | Z.pos _ => _ | Z.neg _ => 0 end).
  assert (Hm' : m' = Z.pos mx * 2 ^ (ex - ey - e)).
  { unfold m'. destruct (ex - ey - e) as [|p|p] eqn:Ep; [lia| |lia].
    by rewrite Z.shiftl_mul_pow2 by lia. }
  clearbody m'. unfold Z.div_eucl. fold (Z.div_eucl m' (Z.pos my)).
  destruct (Z.div_eucl m' (Z.pos my)) as [q r] eqn:Eq.
  assert (Hq : q = m' / Z.pos my) by (unfold Z.div; by rewrite Eq).
  simpl xorb. apply round_aux_at_least; [split; lia|lia| |].
  { rewrite Hq, Hm'. apply Z.div_pos; [|lia]. apply Z.mul_nonneg_nonneg; [lia|].
    apply Z.pow_nonneg. lia. }
  destruct (Z.le_gt_cases e j) as [Hej|Hej].
  - replace j with (e + (j - e)) by lia. rewrite scaled_shift by (unfold scale; lia).
    apply scaled_le. rewrite Hq, Z.mul_1_l. apply Z.div_le_lower_bound; [lia|]. rewrite Hm'.
    replace (ey + j) with (ey + e + (j - e)) in H by lia.
    rewrite scaled_shift in H by (unfold scale; lia).
    replace ex with (ey + e + (ex - ey - e)) in H at 1 by lia.
    rewrite (scaled_shift (Z.pos mx) (ey + e)) in H by (unfold scale; lia).
    apply scaled_le_inv in H; [done|unfold scale; lia].
  - replace e with (j + (e - j)) by lia. rewrite scaled_shift by (unfold scale; lia).
    apply scaled_le.
    assert (1 <= q); [|assert (0 < 2 ^ (e - j)) by (apply Z.pow_pos_nonneg; lia); nia].
    rewrite Hq. apply Z.div_le_lower_bound; [lia|]. rewrite Hm'.
    destruct Hf2 as [Hf2|]; [|lia]. simpl Zdigits2 in Hf2.
    pose proof (digits2_bounds mx) as [Hbx _]. pose proof (digits2_bounds my) as [_ Hby].
    apply Z.le_trans with (2 ^ (Z.pos (digits2_pos mx) - 1) * 2 ^ (ex - ey - e)).
    + rewrite <- Z.pow_add_r by lia.
      apply Z.le_trans with (2 ^ Z.pos (digits2_pos my)); [lia|apply Z.pow_le_mono_r; lia].
    + apply Z.mul_le_mono_nonneg_r; [apply Z.pow_nonneg; lia|done].
Qed.

(** ** Integers below [2^53] are exact *)

(** A mantissa of at most 53 digits at an exponent of the format is not rounded. *)
Lemma round_aux_exact m e :
  fexp 53 1024 (Z.pos (digits2_pos m) + e) <= e <= 971 ->
  binary_round_aux 53 1024 false (Zpos m) e loc_Exact = S754_finite false m e.
Proof.
  intros [Hf He].
  assert (Hs : shr_fexp 53 1024 (Zpos m) e loc_Exact = (Build_shr_record (Zpos m) false false, e)).
  { unfold shr_fexp, shr. simpl Zdigits2.
    destruct (fexp 53 1024 (Z.pos (digits2_pos m) + e) - e) eqn:E; [done|lia|done]. }
  unfold binary_round_aux. rewrite Hs. simpl round_nearest_even. rewrite Hs. simpl shr_m.
  replace (e <=? 1024 - 53) with true; [done|]. symmetry. apply Z.leb_le. lia.
Qed.

Lemma f64_of_int_exact p : Zpos p < 2 ^ 53 ->
  ∃ m e, f64_of_int (Zpos p) = S754_finite false m e ∧ -52 <= e <= 0
         ∧ Zpos m = Zpos p * 2 ^ (- e).
Proof.
  intros Hp. unfold f64_of_int, binary_normalize, binary_round.
  pose proof (digits2_bounds p) as [Hd1 Hd2].
  set (d := Z.pos (digits2_pos p)) in *.
  assert (Hd : 1 <= d <= 53).
  { split; [unfold d; lia|]. assert (d - 1 < 53); [|lia].
    apply (Z.pow_lt_mono_r_iff 2); lia. }
  assert (Hf : fexp 53 1024 (d + 0) = d - 53) by (unfold fexp, emin; lia). rewrite Hf.
  unfold shl_align. rewrite Z.sub_0_r. destruct (d - 53) as [|n|n] eqn:En; [|lia|].
  - rewrite round_aux_exact; [|fold d; lia]. exists p, 0. repeat split; lia.
  - assert (Hm : Z.pos (Pos.iter xO p n) = Zpos p * 2 ^ Z.pos n) by apply iter_xO.
    set (m := Pos.iter xO p n) in *. rewrite round_aux_exact.
    + exists m, (Z.neg n). repeat split; [lia|lia|done].
    + replace (Z.pos (digits2_pos m)) with 53; [unfold fexp, emin; lia|].
      symmetry. apply digits2_unique; [|lia]. rewrite Hm.
      replace (53 - 1) with (d - 1 + Z.pos n) by lia.
      replace 53 with (d + Z.pos n) by lia. rewrite !Z.pow_add_r by lia.
      split; [apply Z.mul_le_mono_nonneg_r|apply Z.mul_lt_mono_pos_r]; try done; lia.
Qed.

Lemma as_usize_of_int w : 0 <= w < 2 ^ 53 -> f64_as_usize (f64_of_int w) = w.
Proof.
  intros Hw. destruct w as [|p|p]; [done| |lia].
  destruct (f64_of_int_exact p) as (m & e & -> & He & Hm); [lia|]. simpl f64_as_usize.
  rewrite Z.min_r.
  - destruct (Z.leb_spec 0 e).
    + assert (e = 0) as -> by lia. rewrite Hm. lia.
    + rewrite Hm. apply Z.div_mul. apply Z.pow_nonzero; lia.
  - unfold u64_max. destruct (Z.leb_spec 0 e).
    + assert (e = 0) as -> by lia. rewrite Hm. lia.
    + rewrite Hm, Z.div_mul by (apply Z.pow_nonzero; lia). lia.
Qed.

(** ** Splitting off the whole part *)

Definition whole_part (x : spec_float) : Z := f64_as_usize (f64_floor x).

Lemma as_usize_range x : 0 <= f64_as_usize x <= u64_max.
Proof.
  destruct x as [| [] | | [] m e]; simpl; unfold u64_max; try lia.
  split; [|lia]. apply Z.min_glb; [lia|]. destruct (Z.leb_spec 0 e).
  - apply Z.mul_nonneg_nonneg; [lia|apply Z.pow_nonneg; lia].
  - apply Z.div_pos; [lia|apply Z.pow_pos_nonneg; lia].
Qed.

Lemma whole_part_finite m e : -1074 <= e -> Zpos m < 2 ^ 53 ->
  whole_part (S754_finite false m e)
  = if 0 <=? e then Z.min u64_max (Zpos m * 2 ^ e) else Zpos m / 2 ^ (- e).
Proof.
  intros He Hm. unfold whole_part, f64_floor. destruct (Z.leb_spec 0 e) as [H0|H0].
  - simpl. by rewrite (proj2 (Z.leb_le 0 e) H0).
  - apply as_usize_of_int. simpl cond_Zopp. split.
    + apply Z.div_pos; [lia|apply Z.pow_pos_nonneg; lia].
    + apply Z.le_lt_trans with (Zpos m); [|lia].
      apply Z.div_le_upper_bound; [apply Z.pow_pos_nonneg; lia|].
      assert (0 < 2 ^ (- e)) by (apply Z.pow_pos_nonneg; lia). nia.
Qed.

(** A float of at least one has a whole part. *)
Lemma whole_part_pos k j x : -1074 <= j <= 0 -> 2 ^ (- j) <= k -> at_least k j x -> 1 <= whole_part x.
Proof.
  intros Hj Hk. assert (Hp : 0 < 2 ^ (- j)) by (apply Z.pow_pos_nonneg; lia).
  destruct x as [| | |s m e]; simpl at_least; [lia|by intros ->|done|].
  intros (-> & He & Hm & H). rewrite whole_part_finite by done.
  destruct (Z.leb_spec 0 e) as [H0|H0].
  - apply Z.min_glb; [unfold u64_max; lia|].
    assert (0 < 2 ^ e) by (apply Z.pow_pos_nonneg; lia). nia.
  - apply Z.div_le_lower_bound; [apply Z.pow_pos_nonneg; lia|]. rewrite Z.mul_1_r.
    apply (scaled_le_inv _ _ e); [unfold scale; lia|].
    apply Z.le_trans with (scaled (2 ^ (- j)) j); [|pose proof (scaled_le _ _ j Hk); lia].
    rewrite <- (Z.mul_1_l (2 ^ (- e))), <- (Z.mul_1_l (2 ^ (- j))).
    rewrite <- !scaled_shift by (unfold scale; lia).
    replace (j + - j) with 0 by lia. replace (e + - e) with 0 by lia. lia.
Qed.

(** What is left after the whole part is not negative. *)
Lemma fractional_part_at_least k j x :
  at_least k j x -> whole_part x < 2 ^ 53 ->
  at_least 0 j (f64_sub x (f64_of_int (whole_part x)))
  ∧ (whole_part x = 0 -> f64_sub x (f64_of_int (whole_part x)) = x).
Proof.
  intros Hx Hw. destruct x as [s|s| |s m e]; simpl at_least in Hx; try done.
  - change (whole_part (S754_zero s)) with 0. destruct s; simpl; split; done || lia.
  - subst. by vm_compute in Hw.
  - destruct Hx as (-> & He & Hm & _). rewrite whole_part_finite in * by done.
    set (w := if 0 <=? e then _ else _) in *.
    assert (Hwm : w * 2 ^ (- e) <= Zpos m ∧ e < 0 ∨ 0 <= e ∧ w <= Zpos m * 2 ^ e).
    { unfold w. destruct (Z.leb_spec 0 e); [right; lia|left]. split; [|done].
      rewrite Z.mul_comm. apply Z.mul_div_le. apply Z.pow_pos_nonneg; lia. }
    assert (Hw0 : 0 <= w).
    { unfold w. destruct (Z.leb_spec 0 e).
      - apply Z.min_glb; [unfold u64_max; lia|]. apply Z.mul_nonneg_nonneg; [lia|apply Z.pow_nonneg; lia].
      - apply Z.div_pos; [lia|apply Z.pow_pos_nonneg; lia]. }
    clearbody w. split; [|by intros ->].
    destruct w as [|p|p]; [| |lia].
    + simpl. repeat split; try done. unfold scaled at 1. rewrite Z.mul_0_l.
      apply Z.lt_le_incl, scaled_pos. unfold scale. lia.
    + destruct (f64_of_int_exact p) as (mp & ep & -> & Hep & Hmp); [lia|].
      apply (at_least_zero (-1074)). unfold f64_sub, SFsub. simpl cond_Zopp.
      set (a := fst (shl_align m e (Z.min e ep))). set (b := fst (shl_align mp ep (Z.min e ep))).
      assert (Hab : 0 <= Zpos a - Zpos b).
      { assert (scaled (Zpos b) (Z.min e ep) <= scaled (Zpos a) (Z.min e ep)) as Hs;
          [|apply scaled_le_inv in Hs; unfold scale; lia].
        unfold a, b. rewrite !shl_align_scaled by (unfold scale; lia).
        rewrite Hmp, <- scaled_shift by (unfold scale; lia). replace (ep + - ep) with 0 by lia.
        destruct Hwm as [[Hwm H0]|[H0 Hwm]].
        - replace 0 with (e + - e) at 1 by lia. rewrite scaled_shift by (unfold scale; lia).
          by apply scaled_le.
        - replace e with (0 + e) by lia. rewrite scaled_shift by (unfold scale; lia).
          by apply scaled_le. }
      apply normalize_at_least; [by split|lia|lia|]. unfold scaled. rewrite Z.mul_0_l.
      apply Z.mul_nonneg_nonneg; [lia|apply Z.pow_nonneg; lia].
Qed.

Lemma at_least_shift k j n x : 0 <= n -> - scale <= j -> at_least (k * 2 ^ n) j x <-> at_least k (j + n) x.
Proof.
  intros Hn Hj. assert (0 < 2 ^ n) by (apply Z.pow_pos_nonneg; lia).
  destruct x as [| | |s m e]; simpl; [nia|done|done|]. by rewrite scaled_shift.
Qed.
