(* ===== verification/RateLimit.v ===== *)
(** * The rate limiters ([src/src/initialization/rate_limiter.rs],
      [host_rate_limiter.rs])

    Two token buckets admit input URLs: a global one, filled by a background ticker that
    runs concurrently with the waiting tasks, and one per host, filled by the task that
    asks for a token.  The burst of the global bucket is [rate_burst] of Config.v.  The semaphores are tokio's and a parameter; times are nanoseconds;
    the refill computes in binary64.  Assumed of the semaphore is what its documentation
    says: permits are handed out in the order of the requests, [add_permits] wakes the
    waiting tasks first, and a request that is dropped leaves the queue.  The instant
    between a task being woken and the task running is not modelled. *)

From Stdlib Require Import SpecFloat.
From S2P Require Import Prelude Net Float.

(** ** tokio::sync::Semaphore *)

Class SemaphoreLib (Task : Type) := {
  Sem : Type;
  sem_new : Z -> Sem;
  available_permits : Sem -> Z;
  (** The tasks whose [acquire] is pending, oldest first. *)
  sem_waiting : Sem -> list Task;
  (** [acquire] polled once and the permit forgotten: served now, or queued. *)
  sem_acquire : Task -> Sem -> Sem * bool;
  (** A pending [acquire] is dropped. *)
  sem_drop : Task -> Sem -> Sem;
  (** The tasks that were woken, oldest first. *)
  add_permits : Z -> Sem -> Sem * list Task;
  (** [try_acquire], the permit forgotten. *)
  try_acquire : Sem -> option Sem;
}.

Class SemaphoreLaws {Task} `{EqDecision Task} (L : SemaphoreLib Task) := {
  new_available : ∀ n, 0 <= n -> available_permits (sem_new n) = n;
  new_waiting : ∀ n, sem_waiting (sem_new n) = [];
  acquire_served : ∀ t s, 0 < available_permits s -> ∃ s', sem_acquire t s = (s', true)
    ∧ available_permits s' = available_permits s - 1 ∧ sem_waiting s' = sem_waiting s;
  acquire_queued : ∀ t s, available_permits s <= 0 -> ∃ s', sem_acquire t s = (s', false)
    ∧ available_permits s' = available_permits s ∧ sem_waiting s' = sem_waiting s ++ [t];
  drop_leaves : ∀ t s, available_permits (sem_drop t s) = available_permits s
    ∧ sem_waiting (sem_drop t s) = List.filter (λ u, negb (bool_decide (u = t))) (sem_waiting s);
  add_wakes : ∀ n s, 0 <= n -> ∃ s',
    add_permits n s = (s', firstn (Z.to_nat n) (sem_waiting s))
    ∧ sem_waiting s' = skipn (Z.to_nat n) (sem_waiting s)
    ∧ available_permits s'
      = available_permits s + Z.max 0 (n - Z.of_nat (length (sem_waiting s)));
  try_served : ∀ s, 0 < available_permits s -> ∃ s', try_acquire s = Some s'
    ∧ available_permits s' = available_permits s - 1 ∧ sem_waiting s' = sem_waiting s;
  try_refused : ∀ s, available_permits s <= 0 -> try_acquire s = None;
}.

(** ** The refill *)

(** [Duration::as_secs_f64]; durations are counted in nanoseconds. *)
Definition as_secs_f64 (d : Z) : spec_float :=
  f64_add (f64_of_int (d / 1000000000))
    (f64_div (f64_of_int (d mod 1000000000)) (f64_of_int 1000000000)).

Definition from_millis (ms : Z) : Z := ms * 1000000.

Definition compute_refill_permits (current_rps elapsed available capacity : Z)
    (fractional_permits : spec_float) : Z * spec_float :=
  if (current_rps =? 0) || (capacity <=? available) then (0, S754_zero false)
  else
    let permits_to_add_f64 :=
      f64_add (f64_mul (f64_of_int current_rps) (as_secs_f64 elapsed)) fractional_permits in
    let whole_permits := f64_as_usize (f64_floor permits_to_add_f64) in
    let permits_to_restore := sat_sub capacity available in
    let permits_to_add := Z.min whole_permits permits_to_restore in
    let new_fractional :=
      if permits_to_add =? permits_to_restore then S754_zero false
      else f64_sub permits_to_add_f64 (f64_of_int whole_permits) in
    (permits_to_add, new_fractional).

Lemma refill_bounds rps d avail cap frac :
  avail <= cap ->
  0 <= (compute_refill_permits rps d avail cap frac).1 <= cap - avail.
Proof.
  intros H. unfold compute_refill_permits. destruct (_ || _) eqn:E; simpl; [lia|].
  unfold sat_sub. set (x := f64_floor _). pose proof (as_usize_range x). lia.
Qed.

(** *** Lower bounds on what a refill adds *)

Lemma as_secs_f64_nonneg d : 0 <= d -> at_least 0 0 (as_secs_f64 d).
Proof.
  intros Hd. apply (f64_add_at_least 0 0); [split; lia|lia|lia| |].
  - apply f64_of_int_at_least; [lia|]. by apply Z.div_pos.
  - assert (Hn := f64_of_int_at_least 0 (d mod 1000000000) ltac:(lia)).
    pose proof (Z.mod_pos_bound d 1000000000).
    destruct (d mod 1000000000) as [|p|p] eqn:E; [done| |lia].
    destruct (f64_of_int_exact p) as (m & e & -> & He & Hm); [lia|].
    change (f64_of_int 1000000000) with (S754_finite false 8388608000000000 (-23)).
    apply (at_least_zero (-1074)). apply (at_least_weaken 1); [lia|].
    apply f64_div_at_least; [lia..|]. unfold scaled, scale.
    apply Z.le_trans with (2 ^ 3052); [by vm_compute|].
    apply Z.le_trans with (1 * 2 ^ (e + 4096)); [|apply Z.mul_le_mono_nonneg_r; [by apply Z.pow_nonneg|lia]].
    rewrite Z.mul_1_l. apply Z.pow_le_mono_r; lia.
Qed.

Lemma nanos_at_least j p : -30 <= j <= 0 -> Zpos p < 1000000000 -> 1000000000 <= Zpos p * 2 ^ (- j) ->
  at_least 1 j (f64_div (f64_of_int (Zpos p)) (f64_of_int 1000000000)).
Proof.
  intros Hj Hp Hd. destruct (f64_of_int_exact p) as (m & e & -> & He & Hm); [lia|].
  change (f64_of_int 1000000000) with (S754_finite false (1000000000 * 8388608) (-23)).
  apply f64_div_at_least; [lia..|].
  rewrite Pos2Z.inj_mul. change (Z.pos 8388608) with (2 ^ 23).
  rewrite <- scaled_shift by (unfold scale; lia). replace (-23 + j + 23) with j by lia.
  rewrite Hm, <- scaled_shift by (unfold scale; lia). replace (e + - e) with (j + - j) by lia.
  rewrite scaled_shift by (unfold scale; lia). by apply scaled_le.
Qed.

Lemma as_secs_f64_at_least j d : -30 <= j <= 0 -> 0 <= d -> 1000000000 <= d * 2 ^ (- j) ->
  at_least 1 j (as_secs_f64 d).
Proof.
  intros Hj Hd0 Hd. assert (Hp : 0 < 2 ^ (- j)) by (apply Z.pow_pos_nonneg; lia).
  pose proof (Z.div_mod d 1000000000) as Hdiv. pose proof (Z.mod_pos_bound d 1000000000) as Hmod.
  destruct (Z.eq_dec (d / 1000000000) 0) as [E|E].
  - apply (f64_add_at_least 0 1); [split; lia|lia..| |].
    + rewrite E. simpl. lia.
    + destruct (d mod 1000000000) as [|p|p] eqn:Em; [lia| |lia].
      apply nanos_at_least; [done|lia|]. by replace (Z.pos p) with d by lia.
  - assert (1 <= d / 1000000000) by (pose proof (Z.div_pos d 1000000000); lia).
    assert (at_least (1 * 2 ^ (- j)) j (as_secs_f64 d)); [|by eapply at_least_weaken; [|done]; lia].
    apply at_least_shift; [lia|unfold scale; lia|]. replace (j + - j) with 0 by lia.
    apply (f64_add_at_least 1 0); [split; lia|lia..| |].
    + apply f64_of_int_at_least; lia.
    + destruct (d mod 1000000000) as [|p|p] eqn:Em; [simpl; lia| |lia].
      apply (at_least_zero (-30)). apply (at_least_weaken 1); [lia|].
      apply nanos_at_least; [lia|lia|]. change (- -30) with 30. lia.
Qed.

(** [sum] of the code: the rate times the elapsed seconds, and the remainder of last time. *)
Definition permits_sum (rps d : Z) (frac : spec_float) : spec_float :=
  f64_add (f64_mul (f64_of_int rps) (as_secs_f64 d)) frac.

Lemma permits_sum_at_least rps a j d frac :
  0 < rps -> 0 <= a -> rps + a < 2 ^ 53 -> -30 <= j <= 0 -> 0 <= d ->
  1000000000 <= d * 2 ^ (- j) -> at_least a j frac ->
  at_least (rps + a) j (permits_sum rps d frac).
Proof.
  intros. apply f64_add_at_least; [split; lia|lia..| |done].
  rewrite <- (Z.mul_1_r rps) at 1. rewrite <- (Z.add_0_l j) at 1.
  apply f64_mul_at_least; [split; lia|lia..| |by apply as_secs_f64_at_least].
  apply f64_of_int_at_least; lia.
Qed.

(** A refill that comes early loses nothing. *)
Lemma permits_sum_keeps rps a j d frac :
  0 < rps < 2 ^ 53 -> 0 <= a < 2 ^ 53 -> -1074 <= j -> 0 <= d ->
  at_least a j frac -> at_least a j (permits_sum rps d frac).
Proof.
  intros Hr Ha Hj Hd Hf. apply (f64_add_at_least 0 a); [split; lia|lia..| |done].
  apply (at_least_zero 0). destruct rps as [|p|p]; [lia| |lia].
  destruct (f64_of_int_exact p) as (m & e & -> & He & _); [lia|].
  apply f64_mul_nonneg; [lia|]. by apply as_secs_f64_nonneg.
Qed.

(** *** One refill *)

(** Either tokens are added, or what was collected is kept. *)
Lemma refill_progress rps d avail cap frac a j :
  0 < rps < 2 ^ 53 -> 0 <= avail < cap -> cap <= 2 ^ 53 -> -30 <= j <= 0 ->
  0 <= a -> at_least a j (permits_sum rps d frac) ->
  let (added, frac') := compute_refill_permits rps d avail cap frac in
  1 <= added <= cap - avail ∧ at_least 0 j frac'
  ∨ added = 0 ∧ a < 2 ^ (- j) ∧ at_least a j frac'.
Proof.
  intros Hr Hav Hcap Hj Ha Hsum. unfold compute_refill_permits.
  replace (rps =? 0) with false by (symmetry; apply Z.eqb_neq; lia).
  replace (cap <=? avail) with false by (symmetry; apply Z.leb_gt; lia). simpl orb. cbn iota.
  fold (permits_sum rps d frac). fold (whole_part (permits_sum rps d frac)).
  set (w := whole_part _). assert (Hw : 0 <= w) by apply as_usize_range.
  unfold sat_sub. rewrite Z.max_r by lia. destruct (Z.eqb_spec (Z.min w (cap - avail)) (cap - avail)).
  - left. split; [lia|done].
  - destruct (fractional_part_at_least a j (permits_sum rps d frac)) as [Hf1 Hf2];
      [done|fold w; lia|]. fold w in Hf1, Hf2.
    destruct (Z.eq_dec w 0) as [E|E]; [right|left; split; [lia|done]].
    rewrite (Hf2 E). repeat split; [lia| |done].
    destruct (Z.lt_ge_cases a (2 ^ (- j))) as [|Hge]; [done|].
    pose proof (whole_part_pos a j _ ltac:(lia) Hge Hsum) as Hone. fold w in Hone. lia.
Qed.

(** ** The global limiter *)

Section GlobalLimiter.
Context {Task : Type} `{EqDecision Task} `{L : SemaphoreLib Task}.

(** The limiter and the local state of its background task; [admitted] are the tasks whose
    [acquire] has returned and [refilled] the tokens the ticker has added. *)
Record RateLimiter := MkRateLimiter {
  permits : Sem;
  capacity : Z;
  rps : Z;
  running : bool;
  last_time : Z;
  fractional_permits : spec_float;
  admitted : list Task;
  refilled : Z;
}.

Definition init_rate_limiter (rps burst now : Z) : option RateLimiter :=
  if rps =? 0 then None
  else Some (MkRateLimiter (sem_new burst) burst rps true now (S754_zero false) [] 0).

Inductive LimiterEvent :=
  | Acquire (t : Task)      (** a task calls [acquire] *)
  | DropAcquire (t : Task)  (** the [select!] of a waiting task takes its cancel arm *)
  | Tick (now : Z)          (** the ticker arm of the background task *)
  | Stop.                   (** its shutdown arm *)

Definition step (s : RateLimiter) (e : LimiterEvent) : option RateLimiter :=
  match e with
  | Acquire t =>
      let '(p, served) := sem_acquire t (permits s) in
      Some (MkRateLimiter p (capacity s) (rps s) (running s) (last_time s) (fractional_permits s)
              (admitted s ++ (if served then [t] else [])) (refilled s))
  | DropAcquire t =>
      if bool_decide (t ∈ sem_waiting (permits s)) then
        Some (MkRateLimiter (sem_drop t (permits s)) (capacity s) (rps s) (running s) (last_time s)
                (fractional_permits s) (admitted s) (refilled s))
      else None
  | Tick now =>
      if running s then
        let elapsed := sat_sub now (last_time s) in
        if 0 <? rps s then
          let available := available_permits (permits s) in
          let '(permits_to_add, new_fractional_permits) :=
            compute_refill_permits (rps s) elapsed available (capacity s) (fractional_permits s) in
          let '(p, woken) :=
            if 0 <? permits_to_add then add_permits permits_to_add (permits s)
            else (permits s, []) in
          Some (MkRateLimiter p (capacity s) (rps s) true now new_fractional_permits
                  (admitted s ++ woken) (refilled s + permits_to_add))
        else Some (MkRateLimiter (permits s) (capacity s) (rps s) true now (fractional_permits s)
                     (admitted s) (refilled s))
      else None
  | Stop =>
      if running s then
        Some (MkRateLimiter (permits s) (capacity s) (rps s) false (last_time s)
                (fractional_permits s) (admitted s) (refilled s))
      else None
  end.

Fixpoint run (es : list LimiterEvent) (s : RateLimiter) : option RateLimiter :=
  match es with
  | [] => Some s
  | e :: es => match step s e with Some s' => run es s' | None => None end
  end.

(** Ticks that come at least a sixteenth of a second after the one before. *)
Fixpoint spaced_ticks (last : Z) (es : list LimiterEvent) : Z :=
  match es with
  | [] => 0
  | Tick now :: es =>
      (if 62500000 <=? sat_sub now last then 1 else 0) + spaced_ticks now es
  | _ :: es => spaced_ticks last es
  end.

(** Never more tokens than the bucket holds, no token left while a task waits, and as many
    admissions as the initial burst and the ticker have paid for. *)
Definition limiter_ok (s : RateLimiter) : Prop :=
  0 <= available_permits (permits s) <= capacity s
  ∧ (sem_waiting (permits s) ≠ [] -> available_permits (permits s) = 0)
  ∧ Z.of_nat (length (admitted s)) + available_permits (permits s) = capacity s + refilled s
  ∧ 0 <= refilled s.

Context `{!SemaphoreLaws L}.

Lemma limiter_init_ok r burst now s :
  0 <= burst -> init_rate_limiter r burst now = Some s -> limiter_ok s.
Proof.
  unfold init_rate_limiter. destruct (r =? 0); [done|]. intros Hb [= <-].
  unfold limiter_ok; simpl. rewrite new_available, new_waiting by done. repeat split; lia || done.
Qed.

Lemma add_permits_ok n s :
  limiter_ok s -> 0 <= n <= capacity s - available_permits (permits s) ->
  ∃ p woken, (if 0 <? n then add_permits n (permits s) else (permits s, [])) = (p, woken)
    ∧ woken = firstn (Z.to_nat n) (sem_waiting (permits s))
    ∧ sem_waiting p = skipn (Z.to_nat n) (sem_waiting (permits s))
    ∧ 0 <= available_permits p <= capacity s
    ∧ (sem_waiting p ≠ [] -> available_permits p = 0)
    ∧ Z.of_nat (length woken) + available_permits p = available_permits (permits s) + n.
Proof.
  intros (Hc & Hw & _) Hn. destruct (Z.ltb_spec 0 n).
  - destruct (add_wakes n (permits s)) as (p & E & Ew & Ea); [lia|].
    exists p, (firstn (Z.to_nat n) (sem_waiting (permits s))).
    set (ws := sem_waiting (permits s)) in *.
    assert (Hlen : Z.of_nat (length (firstn (Z.to_nat n) ws)) = Z.min n (Z.of_nat (length ws)))
      by (rewrite length_firstn; lia).
    repeat split; try done; try lia.
    rewrite Ew, Ea. intros Hs.
    assert (Hskip : (length (skipn (Z.to_nat n) ws) <> 0)%nat) by (by destruct (skipn _ ws)).
    rewrite length_skipn in Hskip. rewrite Hw; [lia|]. by intros ->.
  - assert (n = 0) as -> by lia. exists (permits s), []. simpl. repeat split; try done; lia.
Qed.

Lemma step_ok s e s' : limiter_ok s -> step s e = Some s' -> limiter_ok s'.
Proof.
  intros Hok. pose proof Hok as (Hc & Hw & Ha & Hr). destruct e as [t|t|now|]; simpl.
  - destruct (Z.lt_ge_cases 0 (available_permits (permits s))) as [Hp|Hp].
    + destruct (acquire_served t (permits s) Hp) as (p & -> & Ep & Eq). intros [= <-].
      unfold limiter_ok; simpl. rewrite Ep, Eq, length_app; simpl.
      repeat split; try lia. intros Hn. specialize (Hw Hn). lia.
    + destruct (acquire_queued t (permits s) Hp) as (p & -> & Ep & Eq). intros [= <-].
      unfold limiter_ok; simpl. rewrite Ep, app_nil_r. repeat split; lia.
  - destruct (bool_decide _) eqn:E; [|done]. intros [= <-]. apply bool_decide_eq_true in E.
    destruct (drop_leaves t (permits s)) as [Ep Eq]. unfold limiter_ok; simpl. rewrite Ep.
    repeat split; try done; try lia. intros _. apply Hw. intros Hn. rewrite Hn in E. inversion E.
  - destruct (running s); [|done]. destruct (0 <? rps s); [|by intros [= <-]].
    set (d := sat_sub _ _).
    pose proof (refill_bounds (rps s) d (available_permits (permits s)) (capacity s)
                  (fractional_permits s) ltac:(lia)) as Hb.
    destruct (compute_refill_permits _ _ _ _ _) as [n frac']; simpl in Hb.
    destruct (add_permits_ok n s Hok Hb) as (p & woken & -> & Hwk & Hws & Hp & Hpw & Hsum).
    intros [= <-]. unfold limiter_ok; simpl. rewrite length_app. repeat split; try done; lia.
  - destruct (running s); [|done]. by intros [= <-].
Qed.

Lemma run_ok es s s' : limiter_ok s -> run es s = Some s' -> limiter_ok s'.
Proof.
  revert s. induction es as [|e es IH]; intros s Hok; simpl; [by intros [= <-]|].
  destruct (step s e) as [s1|] eqn:E; [|done]. eauto using step_ok.
Qed.

(** *** What a run does to a waiting task *)

Lemma step_capacity s e s' : step s e = Some s' -> capacity s' = capacity s ∧ rps s' = rps s.
Proof.
  destruct e as [t|t|now|]; simpl.
  - destruct (sem_acquire t (permits s)). by intros [= <-].
  - destruct (bool_decide _); [|done]. by intros [= <-].
  - destruct (running s); [|done]. destruct (0 <? rps s); [|by intros [= <-]].
    destruct (compute_refill_permits _ _ _ _ _) as [n f]. destruct (if _ <? _ then _ else _).
    by intros [= <-].
  - destruct (running s); [|done]. by intros [= <-].
Qed.

Lemma step_running s e s' : step s e = Some s' -> running s' = true -> running s = true ∧ e ≠ Stop.
Proof.
  destruct e as [t|t|now|]; simpl.
  - destruct (sem_acquire t (permits s)). by intros [= <-].
  - destruct (bool_decide _); [|done]. by intros [= <-].
  - by destruct (running s).
  - destruct (running s); [|done]. by intros [= <-].
Qed.

Lemma run_running es s s' : run es s = Some s' -> running s' = true -> running s = true.
Proof.
  revert s. induction es as [|e es IH]; intros s; simpl; [by intros [= <-]|].
  destruct (step s e) as [s1|] eqn:E; [|done]. intros H1 H2.
  by destruct (step_running s e s1 E (IH s1 H1 H2)).
Qed.

Lemma step_admitted s e s' t : step s e = Some s' -> t ∈ admitted s -> t ∈ admitted s'.
Proof.
  intros E Ht. assert (∃ new, admitted s' = admitted s ++ new) as [new ->]; [|set_solver].
  revert E. destruct e as [u|u|now|]; simpl.
  - destruct (sem_acquire u (permits s)). intros [= <-]; eauto.
  - destruct (bool_decide _); [|done]. intros [= <-]. exists []. by rewrite app_nil_r.
  - destruct (running s); [|done].
    destruct (0 <? rps s); [|intros [= <-]; exists []; by rewrite app_nil_r].
    destruct (compute_refill_permits _ _ _ _ _) as [n f]. destruct (if _ <? _ then _ else _).
    intros [= <-]; simpl; eauto.
  - destruct (running s); [|done]. intros [= <-]. exists []. by rewrite app_nil_r.
Qed.

Lemma run_admitted es s s' t : run es s = Some s' -> t ∈ admitted s -> t ∈ admitted s'.
Proof.
  revert s. induction es as [|e es IH]; intros s; simpl; [by intros [= <-]|].
  destruct (step s e) as [s1|] eqn:E; [|done]. eauto using step_admitted.
Qed.

(** The task is behind [pre], and [i] refills of at least [rps] sixteenths are collected. *)
Definition waits (t : Task) (pre : list Task) (i : Z) (s : RateLimiter) : Prop :=
  (∃ post, sem_waiting (permits s) = pre ++ t :: post)
  ∧ 0 <= i ∧ rps s * i < 16 ∧ at_least (rps s * i) (-4) (fractional_permits s).

Lemma firstn_middle {A} (n : nat) (pre : list A) t post :
  (length pre < n)%nat -> t ∈ firstn n (pre ++ t :: post).
Proof.
  intros H. rewrite firstn_app. apply elem_of_app. right.
  destruct (n - length pre)%nat eqn:E; [lia|]. simpl. left.
Qed.

(** A tick either serves the task, or moves it up, or adds to the fraction. *)
Lemma tick_progress s s' now t pre i :
  limiter_ok s -> 0 < rps s <= u32_max -> 0 < capacity s <= 2 ^ 53 -> last_time s <= now ->
  waits t pre i s -> step s (Tick now) = Some s' ->
  let i' := if 62500000 <=? sat_sub now (last_time s) then i + 1 else i in
  t ∈ admitted s' ∨ (∃ n, (0 < n)%nat ∧ waits t (skipn n pre) 0 s' ∧ (n <= length pre)%nat)
  ∨ waits t pre i' s'.
Proof.
  intros Hok Hr Hcap Hnow (Hpost & Hi & Hi16 & Hfrac) Hstep. destruct Hpost as [post Hpost]. unfold u32_max in *.
  pose proof Hok as (_ & Hw & _). rewrite Hpost in Hw. specialize (Hw ltac:(by destruct pre)).
  simpl in Hstep. destruct (running s); [|done].
  replace (0 <? rps s) with true in Hstep by (symmetry; apply Z.ltb_lt; lia). rewrite Hw in Hstep.
  set (d := sat_sub now (last_time s)) in *. assert (Hd0 : 0 <= d) by (unfold d, sat_sub; lia).
  set (i' := if 62500000 <=? d then i + 1 else i).
  assert (Hsum : at_least (rps s * i') (-4) (permits_sum (rps s) d (fractional_permits s))).
  { unfold i'. destruct (Z.leb_spec 62500000 d).
    - replace (rps s * (i + 1)) with (rps s + rps s * i) by lia.
      apply permits_sum_at_least; try done; try lia; nia.
    - apply permits_sum_keeps; try done; try lia; nia. }
  assert (Hi' : 0 <= rps s * i' ∧ 0 <= i') by (unfold i'; destruct (_ <=? _); nia).
  pose proof (refill_progress (rps s) d 0 (capacity s) (fractional_permits s) _ (-4)
    ltac:(lia) ltac:(lia) ltac:(lia) ltac:(lia) (proj1 Hi') Hsum) as Hp.
  pose proof (refill_bounds (rps s) d 0 (capacity s) (fractional_permits s) ltac:(lia)) as Hb.
  destruct (compute_refill_permits _ _ _ _ _) as [n frac']. simpl in Hb.
  destruct (add_permits_ok n s Hok ltac:(lia)) as (p & woken & E & Hwk & Hws & _).
  rewrite E in Hstep. injection Hstep as <-. rewrite Hpost in Hwk, Hws.
  destruct Hp as [[Hn Hf]|(-> & H16 & Hf)].
  - destruct (Nat.lt_ge_cases (length pre) (Z.to_nat n)) as [Hlt|Hge].
    + left. simpl. rewrite Hwk. apply elem_of_app. right. by apply firstn_middle.
    + right. left. exists (Z.to_nat n). repeat split; simpl; try lia.
      * exists post. rewrite Hws, skipn_app.
        replace (Z.to_nat n - length pre)%nat with 0%nat by lia. done.
      * rewrite Z.mul_0_r. by apply (at_least_zero (-4)).
  - right. right. repeat split; simpl; try done; try lia. by exists post.
Qed.

Lemma other_progress s s' e t pre i :
  limiter_ok s -> waits t pre i s -> e ≠ DropAcquire t -> t ∉ pre -> (∀ now, e ≠ Tick now) ->
  step s e = Some s' ->
  ∃ pre', ((length pre' <= length pre)%nat) ∧ (t ∉ pre') ∧ waits t pre' i s' ∧ last_time s' = last_time s.
Proof.
  intros Hok (Hpost & Hi) He Hpre Ht. destruct Hpost as [post Hpost].
  pose proof Hok as (_ & Hw & _). rewrite Hpost in Hw. specialize (Hw ltac:(by destruct pre)).
  destruct e as [u|u|now|]; simpl.
  - destruct (acquire_queued u (permits s)) as (p & -> & _ & Eq); [lia|]. intros [= <-].
    exists pre. split; [done|]. split; [done|]. split; [|done]. split; [|done].
    exists (post ++ [u]). simpl. rewrite Eq, Hpost, <- app_assoc. done.
  - destruct (bool_decide (u ∈ _)); [|done]. intros [= <-].
    destruct (drop_leaves u (permits s)) as [_ Eq].
    exists (List.filter (λ v, negb (bool_decide (v = u))) pre).
    split; [apply filter_length_le|]. split.
    { intros Hin. apply Hpre. apply list_elem_of_In in Hin. apply filter_In in Hin.
      apply list_elem_of_In. naive_solver. }
    split; [|done]. split; [|done].
    exists (List.filter (λ v, negb (bool_decide (v = u))) post). simpl.
    rewrite Eq, Hpost, filter_app. simpl. rewrite bool_decide_eq_false_2 by naive_solver. done.
  - by destruct (Ht now).
  - destruct (running s); [|done]. intros [= <-]. exists pre. split; [done|]. split; [done|].
    split; [|done]. split; [by exists post|done].
Qed.

(** Instants do not go backwards. *)
Fixpoint monotone (last : Z) (es : list LimiterEvent) : Prop :=
  match es with
  | [] => True
  | Tick now :: es => last <= now ∧ monotone now es
  | _ :: es => monotone last es
  end.

Lemma tick_last_time s now s' : step s (Tick now) = Some s' -> last_time s' = now.
Proof.
  simpl. destruct (running s); [|done]. destruct (0 <? rps s); [|by intros [= <-]].
  destruct (compute_refill_permits _ _ _ _ _). destruct (if _ <? _ then _ else _).
  by intros [= <-].
Qed.

(** [k] spaced ticks per place in the queue are enough when [k] ticks pay for a token. *)
Lemma waits_admitted k es s s' t pre i :
  limiter_ok s -> 0 < rps s <= u32_max -> 0 < capacity s <= 2 ^ 53 -> 16 <= rps s * k ->
  waits t pre i s -> t ∉ pre -> monotone (last_time s) es ->
  run es s = Some s' -> running s' = true -> DropAcquire t ∉ es ->
  k * Z.of_nat (length pre) + (k - i) <= spaced_ticks (last_time s) es ->
  t ∈ admitted s'.
Proof.
  revert s pre i. induction es as [|e es IH]; intros s pre i Hok Hr Hcap Hk Hwt Hpre Hmon Hrun Hgo
    Hdrop Hticks.
  { simpl in Hticks. destruct Hwt as (_ & Hi & Hi16 & _). nia. }
  simpl in Hrun. destruct (step s e) as [s1|] eqn:E; [|done].
  pose proof (step_ok _ _ _ Hok E) as Hok1. pose proof (step_capacity _ _ _ E) as [Ec Er].
  apply not_elem_of_cons in Hdrop as [Hne Hdrop].
  assert (Hother : (∀ now, e ≠ Tick now) -> monotone (last_time s) es ->
    k * Z.of_nat (length pre) + (k - i) <= spaced_ticks (last_time s) es -> t ∈ admitted s').
  { intros Hnt Hm Ht.
    destruct (other_progress s s1 e t pre i) as (pre' & Hl & Hpre' & Hwt' & El); try done.
    apply (IH s1 pre' i); rewrite ?Er, ?Ec, ?El; try done.
    destruct Hwt as (_ & _ & Hi16 & _). nia. }
  destruct e as [u|u|now|]; [by apply Hother..| |by apply Hother]. clear Hother.
  simpl in Hmon, Hticks. destruct Hmon as [Hnow Hmon].
  pose proof (tick_last_time _ _ _ E) as El.
  destruct (tick_progress s s1 now t pre i) as [Hin|[(n & Hn & Hwt' & Hle)|Hwt']]; try done.
  - eauto using run_admitted.
  - apply (IH s1 (skipn n pre) 0); rewrite ?Er, ?Ec, ?El; try done.
    + intros Hin. apply Hpre. rewrite <- (firstn_skipn n pre). apply elem_of_app. by right.
    + rewrite length_skipn. destruct Hwt as (_ & Hi & Hi16 & _).
      destruct (62500000 <=? _); nia.
  - apply (IH s1 pre _ Hok1) in Hwt'; rewrite ?Er, ?Ec, ?El; try done.
    destruct (62500000 <=? _); lia.
Qed.

Lemma init_fields r burst now s : init_rate_limiter r burst now = Some s ->
  r ≠ 0 ∧ s = MkRateLimiter (sem_new burst) burst r true now (S754_zero false) [] 0.
Proof.
  unfold init_rate_limiter. destruct (Z.eqb_spec r 0); [done|]. by intros [= <-].
Qed.

Lemma run_fields es s s' : run es s = Some s' -> capacity s' = capacity s ∧ rps s' = rps s.
Proof.
  revert s. induction es as [|e es IH]; intros s; simpl; [by intros [= <-]|].
  destruct (step s e) as [s1|] eqn:E; [|done]. intros H.
  destruct (IH s1 H), (step_capacity _ _ _ E). split; congruence.
Qed.

(** Whatever has happened before, the tokens that were not handed out are in the fraction. *)
Lemma run_fraction es s s' :
  limiter_ok s -> 0 < rps s <= u32_max -> 0 < capacity s <= 2 ^ 53 -> monotone (last_time s) es ->
  at_least 0 0 (fractional_permits s) -> run es s = Some s' -> at_least 0 0 (fractional_permits s').
Proof.
  unfold u32_max.
  revert s. induction es as [|e es IH]; intros s Hok Hr Hcap Hmon Hf; simpl; [by intros [= <-]|].
  destruct (step s e) as [s1|] eqn:E; [|done]. pose proof (step_ok _ _ _ Hok E) as Hok1.
  pose proof (step_capacity _ _ _ E) as [Ec Er]. pose proof Hok as (Hav & _).
  assert (Hnext : monotone (last_time s1) es -> at_least 0 0 (fractional_permits s1) ->
    run es s1 = Some s' -> at_least 0 0 (fractional_permits s'))
    by (intros; apply (IH s1); rewrite ?Ec, ?Er; done).
  clear IH. destruct e as [t|t|now|]; simpl in E, Hmon.
  - destruct (sem_acquire t (permits s)). injection E as <-. by apply Hnext.
  - destruct (bool_decide _); [|done]. injection E as <-. by apply Hnext.
  - destruct Hmon as [Hnow Hmon]. destruct (running s); [|done].
    replace (0 <? rps s) with true in E by (symmetry; apply Z.ltb_lt; lia).
    set (d := sat_sub now (last_time s)) in *. assert (Hd0 : 0 <= d) by (unfold d, sat_sub; lia).
    assert (Hsum : at_least 0 0 (permits_sum (rps s) d (fractional_permits s)))
      by (apply permits_sum_keeps; try done; lia).
    assert (Hp : at_least 0 0 (compute_refill_permits (rps s) d (available_permits (permits s))
                                (capacity s) (fractional_permits s)).2).
    { destruct (Z.eq_dec (available_permits (permits s)) (capacity s)) as [Eq|].
      - unfold compute_refill_permits. rewrite Eq, Z.leb_refl, orb_true_r. simpl. lia.
      - pose proof (refill_progress (rps s) d (available_permits (permits s)) (capacity s)
          (fractional_permits s) 0 0 ltac:(lia) ltac:(lia) ltac:(lia) ltac:(lia) ltac:(lia) Hsum) as Hp.
        destruct (compute_refill_permits _ _ _ _ _) as [n0 f]. simpl. naive_solver. }
    destruct (compute_refill_permits _ _ _ _ _) as [n f]. destruct (if _ <? _ then _ else _).
    injection E as <-. by apply Hnext.
  - destruct (running s); [|done]. injection E as <-. by apply Hnext.
Qed.

(** C9: A waiting task is admitted: after any run of a limiter that was created with a rate and
    a burst, a task with [pre] tasks before it in the queue, which does not give up, has its
    token once the ticker has ticked [k] times per place, where [k] ticks of a sixteenth of a
    second are worth a token; other tasks may come and give up in any order, and ticks that
    come early are not counted. *)
Theorem waiting_task_admitted r burst t0 k es1 es2 l s s' t pre post :
  0 < r <= u32_max -> 0 < burst <= 2 ^ 53 -> 16 <= r * k ->
  init_rate_limiter r burst t0 = Some l ->
  run es1 l = Some s -> sem_waiting (permits s) = pre ++ t :: post -> t ∉ pre ->
  run es2 s = Some s' -> running s' = true -> DropAcquire t ∉ es2 ->
  monotone t0 es1 -> monotone (last_time s) es2 ->
  k * Z.of_nat (S (length pre)) <= spaced_ticks (last_time s) es2 ->
  t ∈ admitted s'.
Proof.
  intros Hr Hb Hk Hl Hrun1 Hq Hpre Hrun2 Hgo Hdrop Hm1 Hm2 Ht.
  pose proof (limiter_init_ok r burst t0 l ltac:(lia) Hl) as Hok0.
  apply init_fields in Hl as [_ ->]. destruct (run_fields _ _ _ Hrun1) as [Ec Er]. simpl in Ec, Er.
  apply (waits_admitted k es2 s s' t pre 0); rewrite ?Ec, ?Er; try done; try lia.
  - by apply (run_ok _ _ _ Hok0 Hrun1).
  - split; [by exists post|]. rewrite Z.mul_0_r. repeat split; try lia.
    apply (at_least_zero 0). apply (run_fraction _ _ _ Hok0) in Hrun1; simpl; try done; lia.
Qed.

(** C19: Tokens are neither lost nor invented: in every state a run reaches, the bucket holds
    between 0 and [burst] tokens, none while a task waits, and the tasks admitted so far are
    exactly the burst and the refills, less the tokens still in the bucket. *)
Theorem tokens_conserved r burst now es l s :
  0 <= burst -> init_rate_limiter r burst now = Some l -> run es l = Some s ->
  0 <= available_permits (permits s) <= burst
  ∧ (sem_waiting (permits s) ≠ [] -> available_permits (permits s) = 0)
  ∧ Z.of_nat (length (admitted s)) = burst + refilled s - available_permits (permits s).
Proof.
  intros Hb Hl Hrun. pose proof (limiter_init_ok _ _ _ _ Hb Hl) as Hok0.
  apply init_fields in Hl as [_ ->]. destruct (run_fields _ _ _ Hrun) as [Ec _]. simpl in Ec.
  destruct (run_ok _ _ _ Hok0 Hrun) as (H1 & H2 & H3 & _). rewrite Ec in *.
  repeat split; try done; lia.
Qed.

(** The semaphore is never closed: once the background task has stopped, an empty bucket
    stays empty and whoever waits is never admitted. *)
Theorem stopped_limiter_stalls es s s' :
  running s = false -> available_permits (permits s) <= 0 -> run es s = Some s' ->
  admitted s' = admitted s ∧ available_permits (permits s') <= 0.
Proof.
  revert s. induction es as [|e es IH]; intros s Hr Ha; simpl; [by intros [= <-]|].
  destruct (step s e) as [s1|] eqn:E; [|done]. intros Hrun.
  assert (running s1 = false ∧ available_permits (permits s1) <= 0 ∧ admitted s1 = admitted s)
    as (Hr1 & Ha1 & <-); [|by apply IH]. revert E.
  destruct e as [t|t|now|]; simpl.
  - destruct (acquire_queued t (permits s) Ha) as (p & -> & Ep & _). intros [= <-]. simpl.
    rewrite Ep, app_nil_r. done.
  - destruct (bool_decide _); [|done]. intros [= <-]. simpl.
    by rewrite (proj1 (drop_leaves t (permits s))).
  - by rewrite Hr.
  - by rewrite Hr.
Qed.
End GlobalLimiter.

(** ** The limiter per host *)

Definition PER_HOST_RATE_LIMIT_RPS : Z := 2.
Definition PER_HOST_RATE_LIMIT_BURST : Z := 2.

Definition per_host_retry_delay (rps : Z) : Z :=
  if rps =? 0 then from_millis 100 else from_millis (1000 / Z.max rps 1).

Section HostLimiter.
Context {Task : Type} `{EqDecision Task} `{L : SemaphoreLib Task} `{U : UrlLib}.

Record HostBucket := MkHostBucket {
  hb_permits : Sem;
  hb_capacity : Z;
  hb_rps : Z;
  hb_last_refill : Z;
  hb_fractional : spec_float;
  hb_logged_wait : bool;
}.

Record HostRateLimiter := MkHostRateLimiter {
  hl_rps : Z;
  hl_burst : Z;
  hl_buckets : gmap str HostBucket;
}.

Definition new (rps burst : Z) : HostRateLimiter := MkHostRateLimiter rps (Z.max burst 1) ∅.

Definition init_host_rate_limiter (global_rps : Z) : option HostRateLimiter :=
  if global_rps =? 0 then None
  else Some (new PER_HOST_RATE_LIMIT_RPS PER_HOST_RATE_LIMIT_BURST).

Definition parse_url_for_host (url : str) : option Url :=
  match url_parse url with
  | Some u => Some u
  | None => url_parse (lit "https://" ++ url)
  end.

Definition host_key (url : str) : option str :=
  u ← parse_url_for_host url; option_map to_ascii_lowercase (url_host_str u).

(** [bucket]: the entry of the host, made when it is missing. *)
Definition bucket (host : str) (now : Z) (l : HostRateLimiter) : HostBucket :=
  match hl_buckets l !! host with
  | Some b => b
  | None =>
      MkHostBucket (sem_new (hl_burst l)) (hl_burst l) (hl_rps l) now (S754_zero false) false
  end.

Definition refill (now : Z) (b : HostBucket) : HostBucket :=
  let elapsed := sat_sub now (hb_last_refill b) in
  let available := available_permits (hb_permits b) in
  let '(permits_to_add, new_fractional) :=
    compute_refill_permits (hb_rps b) elapsed available (hb_capacity b) (hb_fractional b) in
  let p := if 0 <? permits_to_add then (add_permits permits_to_add (hb_permits b)).1
           else hb_permits b in
  MkHostBucket p (hb_capacity b) (hb_rps b) now new_fractional (hb_logged_wait b).

Inductive HostAttempt :=
  | Granted
  | SleepFor (delay : Z).   (** [tokio::time::sleep], then the loop goes round *)

(** One round of the loop of [HostBucket::acquire]. *)
Definition bucket_acquire (now : Z) (b : HostBucket) : HostBucket * HostAttempt :=
  let b := refill now b in
  match try_acquire (hb_permits b) with
  | Some p =>
      (MkHostBucket p (hb_capacity b) (hb_rps b) (hb_last_refill b) (hb_fractional b)
         (hb_logged_wait b), Granted)
  | None =>
      (MkHostBucket (hb_permits b) (hb_capacity b) (hb_rps b) (hb_last_refill b)
         (hb_fractional b) true, SleepFor (per_host_retry_delay (hb_rps b)))
  end.

(** A round of [HostRateLimiter::acquire] at time [now]; a URL without a host passes. *)
Definition host_acquire (url : str) (now : Z) (l : HostRateLimiter) : HostRateLimiter * HostAttempt :=
  match host_key url with
  | None => (l, Granted)
  | Some host =>
      let '(b, a) := bucket_acquire now (bucket host now l) in
      (MkHostRateLimiter (hl_rps l) (hl_burst l) (<[host := b]> (hl_buckets l)), a)
  end.

(** Rounds of any tasks, in the order they are scheduled. *)
Fixpoint host_run (calls : list (str * Z)) (l : HostRateLimiter)
    : HostRateLimiter * list (str * Z * HostAttempt) :=
  match calls with
  | [] => (l, [])
  | (url, now) :: calls =>
      let '(l, a) := host_acquire url now l in
      let '(l, log) := host_run calls l in (l, (url, now, a) :: log)
  end.

(** *** Correctness *)

Context `{!SemaphoreLaws L}.

(** The refills start at [hb_last_refill] and never make a host exceed its burst. *)
Definition bucket_ok (l : HostRateLimiter) (b : HostBucket) : Prop :=
  hb_capacity b = hl_burst l ∧ hb_rps b = hl_rps l
  ∧ 0 <= available_permits (hb_permits b) <= hb_capacity b
  ∧ sem_waiting (hb_permits b) = []
  ∧ at_least 0 0 (hb_fractional b).

Definition host_limiter_ok (l : HostRateLimiter) : Prop :=
  1 <= hl_burst l <= 2 ^ 53 ∧ 0 < hl_rps l <= u32_max
  ∧ ∀ host b, hl_buckets l !! host = Some b -> bucket_ok l b.

Lemma bucket_get_ok host now l : host_limiter_ok l -> bucket_ok l (bucket host now l).
Proof.
  intros (Hb & Hr & Hl). unfold bucket. destruct (hl_buckets l !! host) as [b|] eqn:E; [eauto|].
  unfold bucket_ok; simpl. rewrite new_available, new_waiting by lia. repeat split; lia || done.
Qed.

Lemma refill_ok now l b :
  1 <= hl_burst l <= 2 ^ 53 -> 0 < hl_rps l <= u32_max -> bucket_ok l b ->
  bucket_ok l (refill now b)
  ∧ available_permits (hb_permits b) <= available_permits (hb_permits (refill now b)).
Proof.
  unfold u32_max. intros Hb Hr (Ec & Er & Ha & Hw & Hf). unfold refill.
  set (d := sat_sub now (hb_last_refill b)). assert (Hd0 : 0 <= d) by (unfold d, sat_sub; lia).
  pose proof (refill_bounds (hb_rps b) d _ (hb_capacity b) (hb_fractional b) (proj2 Ha)) as Hn.
  assert (Hp : at_least 0 0 (compute_refill_permits (hb_rps b) d
                (available_permits (hb_permits b)) (hb_capacity b) (hb_fractional b)).2).
  { destruct (Z.eq_dec (available_permits (hb_permits b)) (hb_capacity b)) as [Eq|].
    - unfold compute_refill_permits. rewrite Eq, Z.leb_refl, orb_true_r. simpl. lia.
    - pose proof (refill_progress (hb_rps b) d (available_permits (hb_permits b)) (hb_capacity b)
        (hb_fractional b) 0 0 ltac:(lia) ltac:(lia) ltac:(lia) ltac:(lia) ltac:(lia)
        ltac:(apply permits_sum_keeps; done || lia)) as Hp.
      destruct (compute_refill_permits _ _ _ _ _) as [n0 f]. simpl. naive_solver. }
  destruct (compute_refill_permits _ _ _ _ _) as [n f]. simpl in Hn, Hp.
  destruct (Z.ltb_spec 0 n).
  - destruct (add_wakes n (hb_permits b)) as (p & Ep & Ew & Ea); [lia|].
    rewrite Hw in Ew, Ea. simpl length in Ea. unfold bucket_ok. simpl. rewrite Ep. simpl.
    rewrite Ew, Ea. repeat split; try done; try lia. by destruct (Z.to_nat n).
  - unfold bucket_ok. simpl. repeat split; try done; lia.
Qed.

Lemma bucket_acquire_ok now l b :
  1 <= hl_burst l <= 2 ^ 53 -> 0 < hl_rps l <= u32_max -> bucket_ok l b ->
  bucket_ok l (bucket_acquire now b).1.
Proof.
  intros Hb Hr Hok. destruct (refill_ok now l b Hb Hr Hok) as [(Ec & Er & Ha & Hw & Hf) _].
  unfold bucket_acquire. set (b' := refill now b) in *.
  destruct (Z.lt_ge_cases 0 (available_permits (hb_permits b'))) as [Hp|Hp].
  - destruct (try_served _ Hp) as (p & -> & Ea & Ew). unfold bucket_ok; simpl.
    rewrite Ea, Ew. repeat split; done || lia.
  - rewrite (try_refused _ Hp). by unfold bucket_ok; simpl.
Qed.

Lemma host_acquire_ok url now l : host_limiter_ok l -> host_limiter_ok (host_acquire url now l).1.
Proof.
  intros Hok. unfold host_acquire. destruct (host_key url) as [host|]; [|done].
  pose proof Hok as (Hb & Hr & Hl).
  pose proof (bucket_acquire_ok now l _ Hb Hr (bucket_get_ok host now l Hok)) as Hbo.
  destruct (bucket_acquire now (bucket host now l)) as [b a]. simpl in *.
  split; [done|]. split; [done|]. intros host' b'. simpl.
  destruct (decide (host' = host)) as [->|Hne].
  - rewrite lookup_insert_eq. intros [= <-]. exact Hbo.
  - rewrite lookup_insert_ne by done. apply Hl.
Qed.

(** The calls for URLs of one host. *)
Definition for_host (h : str) (url : str) : bool := bool_decide (host_key url = Some h).

(** Two limiters that treat a host alike. *)
Definition agree_on (h : str) (l l' : HostRateLimiter) : Prop :=
  hl_rps l = hl_rps l' ∧ hl_burst l = hl_burst l' ∧ hl_buckets l !! h = hl_buckets l' !! h.

Lemma host_acquire_agree h url now l l' :
  agree_on h l l' -> host_key url = Some h ->
  (host_acquire url now l).2 = (host_acquire url now l').2
  ∧ agree_on h (host_acquire url now l).1 (host_acquire url now l').1.
Proof.
  intros (Er & Eb & El) Hk. unfold host_acquire. rewrite Hk.
  assert (bucket h now l = bucket h now l') as -> by (unfold bucket; by rewrite El, Eb, Er).
  destruct (bucket_acquire now (bucket h now l')) as [b a]. simpl.
  unfold agree_on; simpl. by rewrite !lookup_insert_eq.
Qed.

Lemma host_acquire_other h url now l :
  host_key url ≠ Some h -> agree_on h (host_acquire url now l).1 l.
Proof.
  intros Hk. unfold host_acquire. destruct (host_key url) as [host|]; [|done].
  destruct (bucket_acquire now (bucket host now l)) as [b a]. unfold agree_on; simpl.
  by rewrite lookup_insert_ne by congruence.
Qed.

Lemma host_run_cons url now calls l :
  host_run ((url, now) :: calls) l
  = let r := host_run calls (host_acquire url now l).1 in
    (r.1, (url, now, (host_acquire url now l).2) :: r.2).
Proof. simpl. destruct (host_acquire url now l) as [l1 a]. simpl. by destruct (host_run calls l1). Qed.

Lemma host_run_agree h calls l l' :
  agree_on h l l' ->
  List.filter (λ c, for_host h c.1.1) (host_run calls l).2
  = (host_run (List.filter (λ c, for_host h c.1) calls) l').2
  ∧ agree_on h (host_run calls l).1 (host_run (List.filter (λ c, for_host h c.1) calls) l').1.
Proof.
  revert l l'. induction calls as [|[url now] calls IH]; intros l l' H; [done|].
  rewrite host_run_cons. cbn zeta. cbn [List.filter fst snd].
  destruct (for_host h url) eqn:E; unfold for_host in E.
  - apply bool_decide_eq_true in E. destruct (host_acquire_agree h url now l l' H E) as [Ha Hag].
    rewrite host_run_cons. cbn zeta. cbn [fst snd]. destruct (IH _ _ Hag) as [-> ?].
    by rewrite Ha.
  - apply bool_decide_eq_false in E. apply IH.
    destruct (host_acquire_other h url now l E) as (H1 & H2 & H3), H as (H4 & H5 & H6).
    repeat split; congruence.
Qed.

Lemma host_acquire_fields url now l :
  hl_rps (host_acquire url now l).1 = hl_rps l ∧ hl_burst (host_acquire url now l).1 = hl_burst l.
Proof.
  unfold host_acquire. destruct (host_key url); [|done]. by destruct (bucket_acquire _ _).
Qed.

Lemma host_run_fields calls l :
  hl_rps (host_run calls l).1 = hl_rps l ∧ hl_burst (host_run calls l).1 = hl_burst l.
Proof.
  revert l. induction calls as [|[u t] calls IH]; intros l; [done|].
  rewrite host_run_cons. cbn zeta. cbn [fst].
  destruct (IH (host_acquire u t l).1) as [-> ->]. apply host_acquire_fields.
Qed.

Lemma host_run_ok calls l : host_limiter_ok l -> host_limiter_ok (host_run calls l).1.
Proof.
  revert l. induction calls as [|[url now] calls IH]; intros l Hok; [done|].
  rewrite host_run_cons. cbn zeta. cbn [fst]. by apply IH, host_acquire_ok.
Qed.

(** Hosts do not slow each other down: which attempts for a host are granted, and how long
    the others sleep, is what a limiter used for that host alone would answer. *)
Theorem hosts_are_isolated h calls rps burst :
  List.filter (λ c, for_host h c.1.1) (host_run calls (new rps burst)).2
  = (host_run (List.filter (λ c, for_host h c.1) calls) (new rps burst)).2.
Proof. apply host_run_agree. done. Qed.

Lemma init_host_ok global l : init_host_rate_limiter global = Some l ->
  host_limiter_ok l ∧ hl_rps l = 2.
Proof.
  unfold init_host_rate_limiter. destruct (global =? 0); [done|]. intros [= <-].
  unfold host_limiter_ok, PER_HOST_RATE_LIMIT_BURST, PER_HOST_RATE_LIMIT_RPS, u32_max; simpl.
  repeat split; lia || done.
Qed.

(** A refused attempt leaves the bucket empty and refilled up to now. *)
Lemma refused_bucket now l b d :
  1 <= hl_burst l <= 2 ^ 53 -> 0 < hl_rps l <= u32_max -> bucket_ok l b ->
  (bucket_acquire now b).2 = SleepFor d ->
  let b' := (bucket_acquire now b).1 in
  bucket_ok l b' ∧ available_permits (hb_permits b') = 0 ∧ hb_last_refill b' = now
  ∧ d = per_host_retry_delay (hl_rps l).
Proof.
  intros Hb Hr Hok Hd. pose proof (bucket_acquire_ok now l b Hb Hr Hok) as Hok'.
  destruct (refill_ok now l b Hb Hr Hok) as [(Ec & Er & Ha & _) _]. cbn zeta. split; [done|].
  revert Hd. unfold bucket_acquire. set (b1 := refill now b) in *.
  destruct (Z.lt_ge_cases 0 (available_permits (hb_permits b1))) as [Hp|Hp].
  - by destruct (try_served _ Hp) as (p & -> & _).
  - rewrite (try_refused _ Hp). simpl. intros [= <-]. rewrite Er. repeat split; [lia|].
    unfold b1, refill. by destruct (compute_refill_permits _ _ _ _ _).
Qed.

(** Half a second pays for a token at two per second. *)
Lemma rested_bucket_serves now l b :
  1 <= hl_burst l <= 2 ^ 53 -> hl_rps l = 2 -> bucket_ok l b ->
  available_permits (hb_permits b) = 0 -> from_millis 500 <= now - hb_last_refill b ->
  (bucket_acquire now b).2 = Granted.
Proof.
  unfold from_millis. intros Hb Hr Hok Ha Hd. pose proof Hok as (Ec & Er & _ & Hw & Hf).
  assert (Hp : 0 < available_permits (hb_permits (refill now b))).
  { unfold refill. set (d := sat_sub now (hb_last_refill b)).
    assert (Hd0 : 500000000 <= d) by (unfold d, sat_sub; lia).
    assert (Hs : at_least 2 (-1) (permits_sum (hb_rps b) d (hb_fractional b))).
    { rewrite Er, Hr. apply (permits_sum_at_least 2 0 (-1)); try lia. by apply (at_least_zero 0). }
    pose proof (refill_progress (hb_rps b) d (available_permits (hb_permits b)) (hb_capacity b)
      (hb_fractional b) 2 (-1) ltac:(lia) ltac:(lia) ltac:(lia) ltac:(lia) ltac:(lia) Hs) as Hn.
    destruct (compute_refill_permits _ _ _ _ _) as [n f].
    destruct Hn as [[Hn _]|(_ & Hn & _)]; [|by vm_compute in Hn].
    replace (0 <? n) with true by (symmetry; apply Z.ltb_lt; lia). simpl.
    destruct (add_wakes n (hb_permits b)) as (p & -> & _ & Ea); [lia|]. simpl.
    rewrite Ea, Hw. simpl length. lia. }
  unfold bucket_acquire. by destruct (try_served _ Hp) as (p & -> & _).
Qed.

(** The loop ends: a task that finds the bucket of its host empty sleeps once and is served,
    when until then only tasks of other hosts ask. *)
Theorem host_acquire_served_after_sleep global calls0 calls l0 l1 l2 log url h now d now' :
  init_host_rate_limiter global = Some l0 ->
  l1 = (host_run calls0 l0).1 ->
  host_key url = Some h ->
  (host_acquire url now l1).2 = SleepFor d ->
  Forall (λ c, host_key c.1 ≠ Some h) calls ->
  host_run calls (host_acquire url now l1).1 = (l2, log) ->
  now + d <= now' ->
  d = from_millis 500 ∧ (host_acquire url now' l2).2 = Granted.
Proof.
  intros Hinit -> Hk Hsl Hcalls Hrun Hnow. destruct (init_host_ok _ _ Hinit) as [Hok0 Hr0].
  pose proof (host_run_ok calls0 l0 Hok0) as Hok1.
  destruct (host_run_fields calls0 l0) as [Hr1 _]. rewrite Hr0 in Hr1.
  set (l1 := (host_run calls0 l0).1) in *. pose proof Hok1 as (Hb1 & Hrps1 & _).
  destruct (refused_bucket now l1 (bucket h now l1) d) as (Hbo & Ha & Hlast & Hd);
    [done|done|by apply bucket_get_ok| |].
  { revert Hsl. unfold host_acquire. rewrite Hk. by destruct (bucket_acquire _ _). }
  rewrite Hr1 in Hd. change (per_host_retry_delay 2) with (from_millis 500) in Hd.
  split; [done|].
  destruct (host_run_agree h calls (host_acquire url now l1).1 (host_acquire url now l1).1)
    as [_ Hag]; [done|].
  rewrite Hrun in Hag. cbn [fst] in Hag.
  replace (List.filter (λ c, for_host h c.1) calls) with (@nil (str * Z)) in Hag.
  2: { clear -Hcalls. induction Hcalls as [|c cs Hc _ IH]; [done|]. cbn [List.filter].
       replace (for_host h c.1) with false; [done|]. symmetry. by apply bool_decide_eq_false. }
  destruct (host_acquire_agree h url now' _ _ Hag Hk) as [-> _]. cbn [host_run fst].
  unfold host_acquire. rewrite Hk.
  destruct (bucket_acquire now (bucket h now l1)) as [b a] eqn:Eb. cbn [fst snd] in *.
  unfold bucket at 1. cbn [hl_buckets]. rewrite lookup_insert_eq.
  pose proof (rested_bucket_serves now' l1 b Hb1 Hr1 Hbo Ha ltac:(lia)) as Hg.
  destruct (bucket_acquire now' b). exact Hg.
Qed.
End HostLimiter.

(** ** Examples: a semaphore that keeps a counter and a queue *)

Module DemoLimiter.

Definition acquire (t : nat) (s : Z * list nat) : (Z * list nat) * bool :=
  let '(n, q) := s in if 0 <? n then ((n - 1, q), true) else ((n, q ++ [t]), false).

Definition semaphores : SemaphoreLib nat := {|
  Sem := Z * list nat;
  sem_new := λ n, (n, []);
  available_permits := fst;
  sem_waiting := snd;
  sem_acquire := acquire;
  sem_drop := λ t s, (s.1, List.filter (λ u, negb (bool_decide (u = t))) s.2);
  add_permits := λ n s,
    ((s.1 + Z.max 0 (n - Z.of_nat (length s.2)), skipn (Z.to_nat n) s.2), firstn (Z.to_nat n) s.2);
  try_acquire := λ s, if 0 <? s.1 then Some (s.1 - 1, s.2) else None;
|}.

Lemma semaphore_laws : SemaphoreLaws semaphores.
Proof.
  split; simpl; try done; unfold acquire.
  - intros t [n q] H. simpl in *. rewrite (proj2 (Z.ltb_lt _ _) H). eauto.
  - intros t [n q] H. simpl in *. rewrite (proj2 (Z.ltb_ge _ _) H). eauto.
  - intros n s H. eauto.
  - intros s H. rewrite (proj2 (Z.ltb_lt _ _) H). eauto.
  - intros s H. by rewrite (proj2 (Z.ltb_ge _ _) H).
Qed.

Definition millis (l : list Z) : list (@LimiterEvent nat) :=
  map (λ ms, Tick (from_millis ms)) l.

Definition limiter (r burst : Z) : @RateLimiter nat semaphores :=
  MkRateLimiter (L := semaphores) (sem_new (SemaphoreLib := semaphores) burst) burst r true 0
    (S754_zero false) [] 0.

Definition after (r burst : Z) (es : list (@LimiterEvent nat)) : @RateLimiter nat semaphores :=
  match run es (limiter r burst) with Some s => s | None => limiter r burst end.

(** One token in the bucket, three tasks. *)
Definition arrivals : list (@LimiterEvent nat) := [Acquire 7%nat; Acquire 8%nat; Acquire 9%nat].

(** Ten ticks of 0.1 s at one token per second do not make a token: their sum in binary64 is
    0.9999999999999999. *)
Example eleven_ticks :
  admitted (after 1 1 (arrivals ++ millis [100;200;300;400;500;600;700;800;900;1000])) = [7%nat]
  ∧ admitted (after 1 1 (arrivals ++ millis [100;200;300;400;500;600;700;800;900;1000;1100]))
    = [7%nat; 8%nat].
Proof. split; vm_compute; reflexivity. Qed.

Lemma waiting_task_admitted_witness :
  9%nat ∈ admitted (after 10 1 (arrivals ++ millis [100; 200; 300; 400])).
Proof.
  apply (@waiting_task_admitted nat _ semaphores semaphore_laws 10 1 0 2 arrivals
           (millis [100; 200; 300; 400]) (limiter 10 1) (after 10 1 arrivals) _ 9%nat [8%nat] []).
  1-3: unfold u32_max; lia.
  1-3: vm_compute; reflexivity.
  - intros H. apply list_elem_of_In in H. simpl in H. intuition discriminate.
  - vm_compute. reflexivity.
  - vm_compute. reflexivity.
  - intros H. apply list_elem_of_In in H. simpl in H. intuition discriminate.
  - exact I.
  - vm_compute. intuition discriminate.
  - vm_compute. discriminate.
Defined.

Lemma tokens_conserved_witness :
  Z.of_nat (length (admitted (after 10 2 (arrivals ++ millis [1000])))) = 3.
Proof.
  destruct (@tokens_conserved nat _ semaphores semaphore_laws 10 2 0 (arrivals ++ millis [1000])
              (limiter 10 2) (after 10 2 (arrivals ++ millis [1000]))) as (_ & _ & H).
  - lia.
  - reflexivity.
  - vm_compute. reflexivity.
  - rewrite H. vm_compute. reflexivity.
Defined.

(** The ticker stops, a task waits, and no tick comes any more. *)
Lemma stopped_limiter_stalls_witness :
  admitted (after 10 1 (arrivals ++ [Stop; Acquire 5%nat; DropAcquire 8%nat])) = [7%nat].
Proof.
  destruct (@stopped_limiter_stalls nat _ semaphores semaphore_laws
              [Acquire 5%nat; DropAcquire 8%nat] (after 10 1 (arrivals ++ [Stop]))
              (after 10 1 (arrivals ++ [Stop; Acquire 5%nat; DropAcquire 8%nat]))) as [H _].
  - vm_compute. reflexivity.
  - vm_compute. discriminate.
  - vm_compute. reflexivity.
  - rewrite H. vm_compute. reflexivity.
Defined.

Definition hosts : @HostRateLimiter nat semaphores := new PER_HOST_RATE_LIMIT_RPS PER_HOST_RATE_LIMIT_BURST.

Definition busy : list (str * Z) :=
  [(lit "http://a.example/1", 0); (lit "http://A.example/2", 1); (lit "http://b.example/", 2)].

(** The third attempt on the host waits half a second, whatever other hosts do. *)
Lemma host_acquire_served_after_sleep_witness :
  let l1 := (@host_run nat semaphores Demo.urls busy hosts).1 in
  let r := @host_acquire nat semaphores Demo.urls (lit "http://a.example/3") 3 l1 in
  r.2 = SleepFor (from_millis 500)
  ∧ (@host_acquire nat semaphores Demo.urls (lit "http://a.example/3") (from_millis 500 + 3)
       (@host_run nat semaphores Demo.urls [(lit "http://b.example/", 4)] r.1).1).2 = Granted.
Proof.
  cbn zeta. split; [vm_compute; reflexivity|].
  apply (@host_acquire_served_after_sleep nat _ semaphores Demo.urls semaphore_laws 10 busy
           [(lit "http://b.example/", 4)] hosts
           (@host_run nat semaphores Demo.urls busy hosts).1 _
           (@host_run nat semaphores Demo.urls [(lit "http://b.example/", 4)]
              (@host_acquire nat semaphores Demo.urls (lit "http://a.example/3") 3
                 (@host_run nat semaphores Demo.urls busy hosts).1).1).2
           (lit "http://a.example/3") (lit "a.example") 3 (from_millis 500)).
  - reflexivity.
  - reflexivity.
  - vm_compute. reflexivity.
  - vm_compute. reflexivity.
  - constructor; [|constructor]. intros H. vm_compute in H. discriminate H.
  - apply surjective_pairing.
  - vm_compute. discriminate.
Defined.
End DemoLimiter.
