(* ===== verification/Timing.v ===== *)
(** * Timing statistics ([src/src/utils/timing.rs])

    The metrics of a URL, their sums over a scan and the summary that is logged.  The structs
    [UrlTimingMetrics], [TimingStats] and [DisplayMs] have one [u64] per stage: a function of
    the stage.  Of the log there are the values of its lines, not their layout. *)

From Stdlib Require Import SpecFloat.
From S2P Require Import Prelude Float RateLimit.

Inductive Stage :=
  | HttpRequest | DnsForward | DnsReverse | DnsAdditional | TlsHandshake | HtmlParsing
  | BodyRead | HtmlParse | SecretScan | TechDetection | LateTech | ExternalScriptFetch
  | ExternalScriptAnalysis | SqliteWrite | GeoipLookup | WhoisLookup | Total.

#[export] Instance Stage_eq_dec : EqDecision Stage.
Proof. solve_decision. Defined.

(** In the order of the fields. *)
Definition all_stages : list Stage :=
  [HttpRequest; DnsForward; DnsReverse; DnsAdditional; TlsHandshake; HtmlParsing; BodyRead;
   HtmlParse; SecretScan; TechDetection; LateTech; ExternalScriptFetch; ExternalScriptAnalysis;
   SqliteWrite; GeoipLookup; WhoisLookup; Total].

(** Microseconds per stage. *)
Definition UrlTimingMetrics : Type := Stage -> Z.
Definition default_metrics : UrlTimingMetrics := λ _, 0.

Record TimingStats := MkTiming {
  timing_count : Z;
  sum_us : Stage -> Z;
}.
Definition new_timing : TimingStats := MkTiming 0 (λ _, 0).

(** [record] is a sequence of atomic additions; those of several tasks interleave. *)
Inductive FetchAdd :=
  | AddCount
  | AddSum (stage : Stage) (us : Z).

Definition fetch_add (stats : TimingStats) (a : FetchAdd) : TimingStats :=
  match a with
  | AddCount => MkTiming (wrap_u64 (timing_count stats + 1)) (sum_us stats)
  | AddSum stage us =>
      MkTiming (timing_count stats)
        (λ s, if bool_decide (s = stage) then wrap_u64 (sum_us stats s + us) else sum_us stats s)
  end.

Definition record_adds (metrics : UrlTimingMetrics) : list FetchAdd :=
  AddCount :: map (λ stage, AddSum stage (metrics stage)) all_stages.

Definition record (stats : TimingStats) (metrics : UrlTimingMetrics) : TimingStats :=
  foldl fetch_add stats (record_adds metrics).

Definition averages (stats : TimingStats) : UrlTimingMetrics :=
  if timing_count stats =? 0 then default_metrics
  else λ stage, sum_us stats stage / timing_count stats.

(** The addition wraps in a release build. *)
Definition micros_to_ms (micros : Z) : Z := wrap_u64 (micros + 500) / 1000.

Definition stage_percentage (part_ms total_ms : Z) : spec_float :=
  if total_ms =? 0 then S754_zero false
  else f64_mul (f64_div (f64_of_int part_ms) (f64_of_int total_ms)) (f64_of_int 100).

(** What follows the percentage on a line. *)
Inductive Note :=
  | NoNote
  | BelowOneMs (sum_micros : Z)
  | Disabled.

Record Line := MkLine {
  line_label : str;
  line_ms : Z;
  line_percentage : spec_float;
  line_note : Note;
}.

Definition format_timing_with_micros (sum_micros avg_ms : Z) (name : str) (percentage : spec_float)
  : Line :=
  MkLine name avg_ms percentage
    (if (avg_ms =? 0) && (0 <? sum_micros) then BelowOneMs sum_micros else NoNote).

Definition log_stage (sum_us avg_ms : Z) (label : str) (total_ms : Z) : Line :=
  format_timing_with_micros sum_us avg_ms label (stage_percentage avg_ms total_ms).

Definition log_toggle_stage (sum_us avg_ms : Z) (label : str) (total_ms : Z) (enabled : option bool)
  : Line :=
  match enabled with
  | Some false => MkLine label avg_ms (stage_percentage avg_ms total_ms) Disabled
  | _ => log_stage sum_us avg_ms label total_ms
  end.

(** [DisplayMs]. *)
Definition from_metrics (avg : UrlTimingMetrics) : Stage -> Z := λ stage, micros_to_ms (avg stage).

(** The sum of at most eleven averages below [2^64 / 1000] does not overflow. *)
Definition accounted_stages : list Stage :=
  [HttpRequest; DnsForward; DnsReverse; DnsAdditional; TlsHandshake; HtmlParsing; TechDetection;
   LateTech; SqliteWrite; GeoipLookup; WhoisLookup].
Definition accounted_ms (ms : Stage -> Z) : Z := foldr Z.add 0 (map ms accounted_stages).

Definition fixed_stages : list (Stage * str) :=
  [(HttpRequest, lit "HTTP Request:"); (DnsForward, lit "DNS Forward:");
   (DnsReverse, lit "DNS Reverse:"); (DnsAdditional, lit "DNS Additional:");
   (TlsHandshake, lit "TLS Handshake:"); (HtmlParsing, lit "HTML Parsing:");
   (BodyRead, lit "Body Read:"); (HtmlParse, lit "HTML Parse:"); (SecretScan, lit "Secret Scan:");
   (TechDetection, lit "Tech Detection:"); (LateTech, lit "Late Tech:");
   (ExternalScriptFetch, lit "Script Fetch:"); (ExternalScriptAnalysis, lit "Script Analyze:")].

Definition log_fixed_stages (stats : TimingStats) (ms : Stage -> Z) (total_ms : Z) : list Line :=
  map (λ '(stage, label), log_stage (sum_us stats stage) (ms stage) label total_ms) fixed_stages.

Record Summary := MkSummary {
  urls : Z;
  stage_lines : list Line;
  other_ms : Z;
  other_percentage : spec_float;
  summary_total_ms : Z;
  total_sum_ms : Z;
  total_seconds : spec_float;
}.

(** [None] when no timing was collected. *)
Definition log_summary (stats : TimingStats) (geoip_enabled whois_enabled : option bool)
  : option Summary :=
  if timing_count stats =? 0 then None
  else
    let ms := from_metrics (averages stats) in
    let total_ms := ms Total in
    let other := sat_sub total_ms (accounted_ms ms) in
    Some (MkSummary (timing_count stats)
      (log_fixed_stages stats ms total_ms
       ++ [log_toggle_stage (sum_us stats GeoipLookup) (ms GeoipLookup) (lit "GeoIP Lookup:") total_ms
             geoip_enabled;
           log_toggle_stage (sum_us stats WhoisLookup) (ms WhoisLookup) (lit "WHOIS Lookup:") total_ms
             whois_enabled;
           log_stage (sum_us stats SqliteWrite) (ms SqliteWrite) (lit "SQLite Write:") total_ms])
      other (stage_percentage other total_ms) total_ms (micros_to_ms (sum_us stats Total))
      (f64_div (f64_of_int (sum_us stats Total)) (f64_of_int 1000000))).

(** A [Duration] in nanoseconds; [as u64] keeps the low bits. *)
Definition duration_to_us (duration : Z) : Z := wrap_u64 (duration / 1000).

(** ** Theorems *)

Definition sum_of (stage : Stage) (runs : list UrlTimingMetrics) : Z :=
  foldr Z.add 0 (map (λ m, m stage) runs).

(** What a list of additions adds. *)
Definition counted (ops : list FetchAdd) : Z :=
  foldr Z.add 0 (map (λ a, match a with AddCount => 1 | AddSum _ _ => 0 end) ops).
Definition added (stage : Stage) (ops : list FetchAdd) : Z :=
  foldr Z.add 0 (map (λ a, match a with AddSum s us => if bool_decide (stage = s) then us else 0
                                      | AddCount => 0 end) ops).

Lemma adds_result ops stats :
  wrap_u64 (timing_count (foldl fetch_add stats ops)) = wrap_u64 (timing_count stats + counted ops)
  ∧ ∀ stage, wrap_u64 (sum_us (foldl fetch_add stats ops) stage)
             = wrap_u64 (sum_us stats stage + added stage ops).
Proof.
  revert stats. induction ops as [|a ops IH]; intros stats; cbn [foldl].
  - split; [|intros stage]; f_equal; cbn; lia.
  - destruct (IH (fetch_add stats a)) as [Hc Hs]. split.
    + rewrite Hc. destruct a; cbn [fetch_add timing_count counted map foldr]; rewrite ?wrap_u64_add;
        f_equal; unfold counted; cbn [map foldr]; lia.
    + intros stage. rewrite Hs. destruct a as [|s us]; cbn [fetch_add sum_us].
      * f_equal.
      * change (added stage (AddSum s us :: ops))
          with ((if bool_decide (stage = s) then us else 0) + added stage ops).
        destruct (bool_decide (stage = s)); rewrite ?wrap_u64_add; f_equal; lia.
Qed.

Lemma sum_perm (l l' : list Z) : l ≡ₚ l' -> foldr Z.add 0 l = foldr Z.add 0 l'.
Proof. induction 1; cbn; lia. Qed.

Lemma sum_app (l l' : list Z) : foldr Z.add 0 (l ++ l') = foldr Z.add 0 l + foldr Z.add 0 l'.
Proof. induction l as [|x l IH]; cbn; lia. Qed.

Lemma record_adds_sums metrics :
  counted (record_adds metrics) = 1 ∧ ∀ stage, added stage (record_adds metrics) = metrics stage.
Proof.
  split; [done|]. intros stage. unfold added, record_adds, all_stages. cbn [map foldr].
  destruct stage;
    repeat first [rewrite bool_decide_true by done | rewrite bool_decide_false by done]; lia.
Qed.

Lemma recorded (runs : list UrlTimingMetrics) ops :
  ops ≡ₚ concat (map record_adds runs) ->
  counted ops = Z.of_nat (length runs) ∧ ∀ stage, added stage ops = sum_of stage runs.
Proof.
  intros Hp. unfold counted, added.
  rewrite (sum_perm _ _ (Permutation_map _ Hp)).
  assert (Hs : ∀ stage, foldr Z.add 0 (map (λ a, match a with AddSum s us =>
      if bool_decide (stage = s) then us else 0 | AddCount => 0 end) ops)
      = added stage (concat (map record_adds runs))).
  { intros stage. apply sum_perm, Permutation_map, Hp. }
  split.
  - clear. fold (counted (concat (map record_adds runs))).
    induction runs as [|m runs IH]; [done|]. cbn [map concat length]. unfold counted in *.
    rewrite map_app, sum_app, IH. fold (counted (record_adds m)).
    rewrite (proj1 (record_adds_sums m)). lia.
  - intros stage. rewrite Hs. clear. unfold sum_of.
    induction runs as [|m runs IH]; [done|]. cbn [map concat foldr]. unfold added in *.
    rewrite map_app, sum_app, IH. f_equal. fold (added stage (record_adds m)).
    apply record_adds_sums.
Qed.

Lemma fetch_add_range ops stats :
  0 <= timing_count stats <= u64_max -> (∀ s, 0 <= sum_us stats s <= u64_max) ->
  0 <= timing_count (foldl fetch_add stats ops) <= u64_max
  ∧ ∀ s, 0 <= sum_us (foldl fetch_add stats ops) s <= u64_max.
Proof.
  revert stats. induction ops as [|a ops IH]; intros stats Hc Hs; [done|]. cbn [foldl].
  apply IH; destruct a; cbn [fetch_add timing_count sum_us]; auto using wrap_u64_range.
  intros s. case_match; auto using wrap_u64_range.
Qed.

Lemma sum_of_nonneg stage (runs : list UrlTimingMetrics) :
  Forall (λ m : UrlTimingMetrics, ∀ s, 0 <= m s) runs -> 0 <= sum_of stage runs.
Proof. unfold sum_of. induction 1 as [|m l Hm _ IH]; cbn; [lia|]. specialize (Hm stage). lia. Qed.

Lemma between_average stage (runs : list UrlTimingMetrics) :
  0 < Z.of_nat (length runs) ->
  ∀ lo hi, Forall (λ m : UrlTimingMetrics, lo <= m stage <= hi) runs ->
  lo <= sum_of stage runs / Z.of_nat (length runs) <= hi.
Proof.
  intros Hl lo hi Hf.
  assert (lo * Z.of_nat (length runs) <= sum_of stage runs <= hi * Z.of_nat (length runs)).
  { clear Hl. unfold sum_of. induction Hf as [|m l Hm _ IH]; cbn [map foldr length]; lia. }
  split; [apply Z.div_le_lower_bound|apply Z.div_le_upper_bound]; lia.
Qed.

Lemma micros_rounded micros :
  0 <= micros -> micros <= u64_max - 500 -> - 500 <= 1000 * micros_to_ms micros - micros <= 500.
Proof.
  intros. unfold micros_to_ms. rewrite wrap_u64_small by lia.
  pose proof (Z.mul_div_le (micros + 500) 1000).
  pose proof (Z.mul_succ_div_gt (micros + 500) 1000). lia.
Qed.

(** However the additions of the tasks interleave, the averages are those of the recorded
    metrics rounded down, between the least and the greatest of them, a displayed average is
    within half a millisecond of it, and the summary counts the recorded URLs. *)
Theorem averages_exact runs ops stage geoip whois :
  runs <> [] -> ops ≡ₚ concat (map record_adds runs) ->
  Forall (λ m : UrlTimingMetrics, ∀ s, 0 <= m s) runs ->
  Z.of_nat (length runs) <= u64_max -> (∀ s, sum_of s runs <= u64_max - 500) ->
  let stats := foldl fetch_add new_timing ops in
  let avg := averages stats stage in
  avg = sum_of stage runs / Z.of_nat (length runs)
  ∧ (∀ lo hi, Forall (λ m : UrlTimingMetrics, lo <= m stage <= hi) runs -> lo <= avg <= hi)
  ∧ - 500 <= 1000 * micros_to_ms avg - avg <= 500
  ∧ urls <$> log_summary stats geoip whois = Some (Z.of_nat (length runs)).
Proof.
  intros Hn Hp Hpos Hlen Hmax.
  destruct (recorded runs ops Hp) as [Hc Hs]. destruct (adds_result ops new_timing) as [Ac As].
  destruct (fetch_add_range ops new_timing) as [Rc Rs]; [done|done|].
  set (stats := foldl fetch_add new_timing ops) in *.
  assert (Hcount : timing_count stats = Z.of_nat (length runs)).
  { rewrite !wrap_u64_small in Ac; cbn [timing_count new_timing] in *; lia. }
  assert (Hstage : sum_us stats stage = sum_of stage runs).
  { specialize (As stage). specialize (Hmax stage). pose proof (sum_of_nonneg stage runs Hpos).
    rewrite !wrap_u64_small in As; cbn [sum_us new_timing] in *; rewrite ?Hs in *; try lia. apply Rs. }
  assert (Hl : 0 < Z.of_nat (length runs)) by (destruct runs; [done|cbn; lia]).
  assert (Havg : averages stats stage = sum_of stage runs / Z.of_nat (length runs)).
  { unfold averages. rewrite Hcount, (proj2 (Z.eqb_neq _ 0)), Hstage by lia. done. }
  cbn zeta. rewrite Havg. unfold log_summary. rewrite Hcount, (proj2 (Z.eqb_neq _ 0)) by lia.
  split; [done|]. split; [apply between_average, Hl|]. split; [|done].
  specialize (Hmax stage). pose proof (sum_of_nonneg stage runs Hpos).
  apply micros_rounded; [apply Z.div_pos; lia|apply Z.div_le_upper_bound; nia].
Qed.

(** A duration of less than 584,542 years is recorded to the microsecond. *)
Lemma duration_to_us_exact d :
  0 <= d < 1000 * 2 ^ 64 -> 1000 * duration_to_us d <= d < 1000 * (duration_to_us d + 1).
Proof.
  intros Hd. unfold duration_to_us, wrap_u64.
  pose proof (Z.mul_div_le d 1000). pose proof (Z.mul_succ_div_gt d 1000).
  rewrite Z.mod_small; [lia|]. split; [apply Z.div_pos; lia|apply Z.div_lt_upper_bound; lia].
Qed.

(** ** Three tasks that record at the same time. *)
Module DemoTiming.
Definition first : UrlTimingMetrics := λ s, if bool_decide (s = Total) then 1_800_400 else 300.
Definition second : UrlTimingMetrics := λ s, if bool_decide (s = Total) then 700_000 else 450_000.
Definition third : UrlTimingMetrics := λ _, 0.
Definition runs : list UrlTimingMetrics := [first; second; third].

(** The additions of the three, the last task first and the first two in turns. *)
Definition interleaved : list FetchAdd :=
  record_adds third
  ++ concat (zip_with (λ a b, [a; b]) (record_adds second) (record_adds first)).
Definition stats : TimingStats := foldl fetch_add new_timing interleaved.

Example the_averages :
  map (averages stats) [HttpRequest; Total] = [150100; 833466]
  ∧ from_metrics (averages stats) Total = 833.
Proof. by vm_compute. Qed.

(** Eleven stages of 150 ms exceed the total of 833 ms: no overhead is left. *)
Example the_overhead :
  (λ s, (urls s, other_ms s, summary_total_ms s, total_sum_ms s)) <$> log_summary stats None None
  = Some (3, 0, 833, 2500).
Proof. by vm_compute. Qed.

Example nothing_recorded : log_summary new_timing None None = None.
Proof. done. Qed.

(** Past [2^64] microseconds the low bits remain, not the maximum. *)
Example wrapped_duration : duration_to_us (1000 * (2 ^ 64 + 7)) = 7.
Proof. by vm_compute. Qed.

Lemma averages_exact_witness :
  averages stats HttpRequest = 150100 ∧ micros_to_ms (averages stats HttpRequest) = 150
  ∧ urls <$> log_summary stats None None = Some 3.
Proof.
  assert (Hp : interleaved ≡ₚ concat (map record_adds runs)) by (vm_compute; solve_Permutation).
  assert (Hr : Forall (λ m : UrlTimingMetrics, ∀ s, 0 <= m s) runs)
    by (repeat constructor; intros []; vm_compute; discriminate).
  assert (Hm : ∀ s, sum_of s runs <= u64_max - 500) by (intros []; vm_compute; discriminate).
  destruct (averages_exact runs interleaved HttpRequest None None) as (Ha & _ & _ & Hu);
    [discriminate|exact Hp|exact Hr|vm_compute; discriminate|exact Hm|].
  split; [exact Ha|split; [by vm_compute|exact Hu]].
Defined.
End DemoTiming.
