(* ===== verification/Status.v ===== *)
(** * The status server ([src/src/status_server/], [src/src/app/logging.rs])

    The phase, the throughput window, the progress figures, the answer of [/status], the text
    of [/metrics] and the progress line of the log.  The counters are read while the scan runs:
    a snapshot is made from five loads in their order, each at its own moment.  Parameters are
    the display of a binary64 number and serde_json's pretty printer.  axum's routing, the
    listener and the shutdown of the server are not modelled. *)

From Stdlib Require Import SpecFloat.
From S2P Require Import Prelude Net Errors Retry Scan Float RateLimit Timing.

(** ** types.rs *)

(** [phase as u8]. *)
Definition phase_as_u8 (phase : ScanPhase) : Z :=
  match phase with Scanning => 0 | DrainingPhase => 1 | Finalizing => 2 end.

Definition phase_as_str (phase : ScanPhase) : str :=
  match phase with
  | Scanning => lit "scanning"
  | DrainingPhase => lit "draining"
  | Finalizing => lit "finalizing"
  end.

Definition from_u8 (value : Z) : ScanPhase :=
  if value =? 1 then DrainingPhase else if value =? 2 then Finalizing else Scanning.

(** [AtomicPhase]: the stored byte. *)
Definition AtomicPhase : Type := Z.
Definition phase_set (p : AtomicPhase) (phase : ScanPhase) : AtomicPhase := phase_as_u8 phase.
Definition phase_get (p : AtomicPhase) : ScanPhase := from_u8 p.

Definition f64_zero : spec_float := S754_zero false.
Definition is_positive (x : spec_float) : bool := SFltb f64_zero x.

(** [prev_at] in nanoseconds. *)
Record ThroughputWindowInner := MkWindow {
  prev_at : Z;
  prev_finished : Z;
  window_rate : spec_float;
}.

Definition new_window (now : Z) : ThroughputWindowInner := MkWindow now 0 f64_zero.

(** [None]: the mutex is poisoned. *)
Definition observe (finished now : Z) (w : option ThroughputWindowInner)
  : option ThroughputWindowInner * spec_float :=
  match w with
  | None => (None, f64_zero)
  | Some guard =>
      let dt := as_secs_f64 (sat_sub now (prev_at guard)) in
      let guard' :=
        if SFleb (f64_of_int 1) dt then
          MkWindow now finished (f64_div (f64_of_int (sat_sub finished (prev_finished guard))) dt)
        else if finished <? prev_finished guard then MkWindow now finished f64_zero
        else guard in
      (Some guard', window_rate guard')
  end.

(** ** progress.rs *)

(** What the five loads of [progress_snapshot] returned. *)
Record Loads := MkLoads {
  l_total_urls : Z;
  l_attempted : Z;
  l_successful : Z;
  l_failed : Z;
  l_skipped : Z;
}.

Record ProgressSnapshot := MkSnapshot {
  snap_total_urls : Z;
  snap_attempted : Z;
  snap_successful : Z;
  snap_failed : Z;
  snap_skipped : Z;
  snap_finished : Z;
  snap_active_urls : Z;
  snap_pending_urls : Z;
  percentage_complete : spec_float;
  percentage_dispatched : spec_float;
  rate_per_second : spec_float;
  snap_eta_seconds : option spec_float;
}.

Definition saturating_add (a b : Z) : Z := Z.min u64_max (a + b).

Definition percentage (part total_urls : Z) : spec_float :=
  if 0 <? total_urls then f64_mul (f64_div (f64_of_int part) (f64_of_int total_urls)) (f64_of_int 100)
  else f64_zero.

Definition lifetime_rate (finished : Z) (elapsed : spec_float) : spec_float :=
  if is_positive elapsed then f64_div (f64_of_int finished) elapsed else f64_zero.

Definition lifetime_eta (total_urls finished : Z) (rate : spec_float) : option spec_float :=
  let remaining := sat_sub total_urls finished in
  if (0 <? remaining) && is_positive rate then Some (f64_div (f64_of_int remaining) rate)
  else if (remaining =? 0) && (0 <? total_urls) then Some f64_zero
  else None.

Definition progress_snapshot (l : Loads) (elapsed : spec_float) : ProgressSnapshot :=
  let finished := saturating_add (saturating_add (l_successful l) (l_failed l)) (l_skipped l) in
  let rate := lifetime_rate finished elapsed in
  MkSnapshot (l_total_urls l) (l_attempted l) (l_successful l) (l_failed l) (l_skipped l) finished
    (sat_sub (l_attempted l) finished) (sat_sub (l_total_urls l) (l_attempted l))
    (percentage finished (l_total_urls l)) (percentage (l_attempted l) (l_total_urls l)) rate
    (lifetime_eta (l_total_urls l) finished rate).

(** What a request reads: the values of the atomics when they are loaded, the semaphore's
    free permits, the limit of the rate limiter, the window. *)
Record StatusState := MkStatus {
  loads : Loads;
  st_error_stats : ProcessingStats;
  timing_stats : option TimingStats;
  request_limiter : option Z;
  runtime_metrics : RuntimeMetrics;
  (** The partial failures and the satellite errors of [RuntimeMetrics]. *)
  partial_metrics : Z * Z;
  run_id : option str;
  run_start_time_unix_secs : option spec_float;
  phase : AtomicPhase;
  throughput_window : option ThroughputWindowInner;
  max_concurrency : option Z;
  semaphore : option Z;
}.

Definition phase_label (state : StatusState) : str := phase_as_str (phase_get (phase state)).

Definition concurrency_in_use (state : StatusState) : option Z :=
  max ← max_concurrency state; available ← semaphore state; Some (sat_sub max available).

(** ** handlers/status.rs *)

Definition refine_eta (lifetime_eta : option spec_float) (total_urls finished : Z)
  (windowed_rate : spec_float) : option spec_float :=
  let remaining := sat_sub total_urls finished in
  if (remaining =? 0) && (0 <? total_urls) then Some f64_zero
  else if (0 <? remaining) && is_positive windowed_rate
  then Some (f64_div (f64_of_int remaining) windowed_rate)
  else lifetime_eta.

Record ErrorCounts := MkErrorCounts {
  error_total : Z;
  timeout : Z;
  connection_error : Z;
  http_error : Z;
  dns_error : Z;
  tls_error : Z;
  parse_error : Z;
  other_error : Z;
}.

Definition count_of (s : ProcessingStats) (kinds : list ErrorType) : Z := sum_Z (map (errors s) kinds).

Definition timeout_kinds : list ErrorType := [ProcessUrlTimeout; HttpRequestTimeoutError].
Definition connection_kinds : list ErrorType := [HttpRequestConnectError].
Definition http_kinds : list ErrorType :=
  [HttpRequestStatusError; HttpRequestTooManyRequests; HttpRequestBadRequest;
   HttpRequestUnauthorized; HttpRequestNotFound; HttpRequestInternalServerError;
   HttpRequestBadGateway; HttpRequestServiceUnavailable; HttpRequestGatewayTimeout;
   HttpRequestBotDetectionError].
Definition dns_kinds : list ErrorType :=
  [DnsForwardLookupError; DnsNsLookupError; DnsTxtLookupError; DnsMxLookupError;
   DnsCnameLookupError; DnsAaaaLookupError; DnsCaaLookupError].
Definition tls_kinds : list ErrorType := [TlsCertificateError].
Definition parse_kinds : list ErrorType := [HttpRequestDecodeError].
Definition other_kinds : list ErrorType :=
  [HttpRequestOtherError; HttpRequestBuilderError; HttpRequestRedirectError;
   HttpRequestRequestError; HttpRequestBodyError; TechnologyDetectionError].

Definition error_counts (s : ProcessingStats) : ErrorCounts :=
  MkErrorCounts (total_errors s) (count_of s timeout_kinds) (count_of s connection_kinds)
    (count_of s http_kinds) (count_of s dns_kinds) (count_of s tls_kinds) (count_of s parse_kinds)
    (count_of s other_kinds).

Record WarningCounts := MkWarningCounts {
  warning_total : Z;
  missing_meta_description : Z;
  missing_title : Z;
}.

Record InfoCounts := MkInfoCounts {
  info_total : Z;
  http_redirect : Z;
  https_redirect : Z;
  bot_detection_403 : Z;
  multiple_redirects : Z;
}.

Record TimingSummary := MkTimingSummary {
  summary_count : Z;
  summary_averages : Stage -> Z;
}.

Record StatusResponse := MkResponse {
  r_total_urls : Z;
  r_total_urls_attempted : Z;
  r_successful_urls : Z;
  r_failed_urls : Z;
  r_skipped_urls : Z;
  r_active_urls : Z;
  r_pending_urls : option Z;
  r_percentage_complete : spec_float;
  r_percentage_dispatched : spec_float;
  elapsed_seconds : spec_float;
  r_rate_per_second : spec_float;
  windowed_rate_per_second : spec_float;
  eta_seconds : option spec_float;
  r_phase : str;
  r_current_rps : option Z;
  concurrency_limit : option Z;
  r_concurrency_in_use : option Z;
  r_retried_requests : Z;
  r_non_retriable_failures : Z;
  r_partial_failures : Z;
  r_satellite_insert_errors : Z;
  r_errors : ErrorCounts;
  r_warnings : WarningCounts;
  r_info : InfoCounts;
  timing : option TimingSummary;
}.

Definition timing_summary (timing_stats : TimingStats) : option TimingSummary :=
  let count := timing_count timing_stats in
  if 0 <? count
  then Some (MkTimingSummary count (λ stage, micros_to_ms (averages timing_stats stage)))
  else None.

(** The response and the window after the observation, made at [now]. *)
Definition build_status_response (state : StatusState) (elapsed : spec_float) (now : Z)
  : option ThroughputWindowInner * StatusResponse :=
  let snap := progress_snapshot (loads state) elapsed in
  let '(window, windowed_rate) := observe (snap_finished snap) now (throughput_window state) in
  let stats := st_error_stats state in
  (window,
   MkResponse (snap_total_urls snap) (snap_attempted snap) (snap_successful snap) (snap_failed snap)
     (snap_skipped snap) (snap_active_urls snap) (Some (snap_pending_urls snap))
     (percentage_complete snap) (percentage_dispatched snap) elapsed (rate_per_second snap)
     windowed_rate
     (refine_eta (snap_eta_seconds snap) (snap_total_urls snap) (snap_finished snap) windowed_rate)
     (phase_label state) (request_limiter state) (max_concurrency state) (concurrency_in_use state)
     (retried_requests (runtime_metrics state)) (non_retriable_failures (runtime_metrics state))
     (partial_metrics state).1 (partial_metrics state).2 (error_counts stats)
     (MkWarningCounts (total_warnings stats) (warnings stats MissingMetaDescription)
        (warnings stats MissingTitle))
     (MkInfoCounts (total_info stats) (info stats HttpRedirect) (info stats HttpsRedirect)
        (info stats BotDetection403) (info stats MultipleRedirects))
     (timing_stats state ≫= timing_summary)).

(** An answer: status, content type, body. *)
Definition Answer : Type := Z * str * str.

Definition status_handler (to_string_pretty : StatusResponse -> result str str)
  (state : StatusState) (elapsed : spec_float) (now : Z) : option ThroughputWindowInner * Answer :=
  let '(window, response) := build_status_response state elapsed now in
  (window, match to_string_pretty response with
           | Ok json => (200, lit "application/json", json)
           | Err e => (500, lit "text/plain; charset=utf-8", lit "Failed to serialize status: " ++ e)
           end).

(** ** handlers/metrics.rs *)

(** [format!] of an [f64]. *)
Class ShowFloat := { show_float : spec_float -> str }.

Definition escape_prometheus_label_value (s : str) : str :=
  replace [10] [92; 110] (replace [34] [92; 34] (replace [92] [92; 92] s)).

Inductive SampleValue :=
  | VInt (n : Z)
  | VFloat (x : spec_float).

Definition show_value `{ShowFloat} (v : SampleValue) : str :=
  match v with VInt n => dec n | VFloat x => show_float x end.

(** A series of the text: name, help, kind, label (with its escaped value), value. *)
Record Series := MkSeries {
  series_name : str;
  series_help : str;
  series_kind : str;
  series_label : option (str * str);
  series_value : SampleValue;
}.

Definition show_label (l : option (str * str)) : str :=
  match l with Some (key, value) => [123] ++ key ++ [61; 34] ++ value ++ [34; 125] | None => [] end.

Definition sample_text `{ShowFloat} (s : Series) : str :=
  series_name s ++ show_label (series_label s) ++ [32] ++ show_value (series_value s).

(** The three lines of a series. *)
Definition series_lines `{ShowFloat} (s : Series) : list str :=
  [lit "# HELP " ++ series_name s ++ [32] ++ series_help s;
   lit "# TYPE " ++ series_name s ++ [32] ++ series_kind s;
   sample_text s].

Definition show_series `{ShowFloat} (s : Series) : str :=
  concat (map (λ line, line ++ [10]) (series_lines s)).

Definition series_named (name help kind : string) (v : SampleValue) : Series :=
  MkSeries (lit "domain_status_" ++ lit name) (lit help) (lit kind) None v.
Definition gauge (name help : string) (v : SampleValue) : Series := series_named name help "gauge" v.
Definition counter (name help : string) (v : SampleValue) : Series := series_named name help "counter" v.
Definition labelled (s : Series) (key value : str) : Series :=
  MkSeries (series_name s) (series_help s) (series_kind s) (Some (key, value)) (series_value s).

Definition metrics_eta (snap : ProgressSnapshot) (windowed_rate : spec_float) : spec_float :=
  let remaining := sat_sub (snap_total_urls snap) (snap_finished snap) in
  if (remaining =? 0) && (0 <? snap_total_urls snap) then f64_zero
  else if (0 <? remaining) && is_positive windowed_rate
  then f64_div (f64_of_int remaining) windowed_rate
  else default f64_zero (snap_eta_seconds snap).

Definition phase_num (phase : str) : Z :=
  if streqb phase (lit "draining") then 2 else if streqb phase (lit "finalizing") then 3 else 1.

Definition timing_gauges : list (Stage * string * string) :=
  [(HttpRequest, "http_request", "HTTP request time in milliseconds");
   (DnsForward, "dns_forward", "DNS forward lookup time in milliseconds");
   (DnsReverse, "dns_reverse", "DNS reverse lookup time in milliseconds");
   (DnsAdditional, "dns_additional", "DNS additional records lookup time in milliseconds");
   (TlsHandshake, "tls_handshake", "TLS handshake time in milliseconds");
   (HtmlParsing, "html_parsing", "HTML parsing time in milliseconds");
   (BodyRead, "body_read", "response body read time in milliseconds");
   (HtmlParse, "html_parse", "HTML parse time in milliseconds, excluding the body secret scan");
   (SecretScan, "secret_scan", "HTML body secret-scan time in milliseconds");
   (TechDetection, "tech_detection", "technology detection time in milliseconds");
   (LateTech, "late_tech", "late fingerprint supplement time in milliseconds");
   (ExternalScriptFetch, "external_script_fetch", "external-script fetch time in milliseconds");
   (ExternalScriptAnalysis, "external_script_analysis",
    "external-script analysis time in milliseconds");
   (SqliteWrite, "sqlite_write", "SQLite write time in milliseconds");
   (GeoipLookup, "geoip_lookup", "GeoIP lookup time in milliseconds");
   (WhoisLookup, "whois_lookup", "WHOIS lookup time in milliseconds");
   (Total, "total", "total processing time in milliseconds")]%string.

Definition timing_series (timing_stats : option TimingStats) : list Series :=
  match timing_stats with
  | Some stats =>
      if 0 <? timing_count stats then
        map (λ '(stage, name, help),
          MkSeries (lit "domain_status_timing_" ++ lit name ++ lit "_ms") (lit "Average " ++ lit help)
            (lit "gauge") None (VInt (micros_to_ms (averages stats stage)))) timing_gauges
      else []
  | None => []
  end.

Definition basic_series (state : StatusState) (elapsed : spec_float) (windowed_rate : spec_float)
  : list Series :=
  let snap := progress_snapshot (loads state) elapsed in
  let label := phase_label state in
  [labelled (gauge "run_info" "Run identifier for correlating with database and logs" (VInt 1))
     (lit "run_id") (default [] (escape_prometheus_label_value <$> run_id state));
   gauge "elapsed_seconds" "Seconds since the current run started" (VFloat elapsed);
   gauge "start_time_seconds" "Unix timestamp when the run started"
     (VFloat (default f64_zero (run_start_time_unix_secs state)));
   gauge "total_urls" "Total number of URLs to process" (VInt (snap_total_urls snap));
   gauge "successful_urls" "URLs that produced a persisted url_status row"
     (VInt (snap_successful snap));
   gauge "failed_urls" "Number of URLs that failed to process" (VInt (snap_failed snap));
   gauge "skipped_urls" "URLs skipped (invalid, SSRF-unsafe, or intentional mid-process skip)"
     (VInt (snap_skipped snap));
   gauge "partial_failures"
     "url_partial_failures rows (incomplete success; does not increment failed_urls)"
     (VInt (partial_metrics state).1);
   gauge "satellite_insert_errors" "url_partial_failures rows with error_type Satellite insert error"
     (VInt (partial_metrics state).2);
   gauge "attempted_urls" "Number of URLs that have entered processing or early-skip"
     (VInt (snap_attempted snap));
   gauge "active_urls" "Number of URLs currently in flight" (VInt (snap_active_urls snap));
   gauge "percentage_complete"
     "Percentage of URLs finished (successful+failed+skipped)/total (0-100)"
     (VFloat (percentage_complete snap));
   gauge "percentage_dispatched" "Percentage of URLs dispatched (attempted)/total (0-100)"
     (VFloat (percentage_dispatched snap));
   gauge "rate_per_second" "Lifetime finished URLs per second" (VFloat (rate_per_second snap));
   gauge "windowed_rate_per_second" "Recent finished URLs per second (approx 1s+ window)"
     (VFloat windowed_rate);
   gauge "eta_seconds" "Estimated seconds remaining (0 when unknown or complete)"
     (VFloat (metrics_eta snap windowed_rate));
   labelled (gauge "phase" "Scan lifecycle phase (1=scanning, 2=draining, 3=finalizing)"
     (VInt (phase_num label))) (lit "phase") label;
   gauge "concurrency_limit" "Configured max concurrent URL tasks"
     (VInt (default 0 (max_concurrency state)));
   gauge "concurrency_in_use" "Concurrent URL tasks currently holding a semaphore permit"
     (VInt (default 0 (concurrency_in_use state)));
   counter "errors_total" "Total number of errors encountered"
     (VInt (total_errors (st_error_stats state)));
   counter "warnings_total" "Total number of warnings encountered"
     (VInt (total_warnings (st_error_stats state)));
   counter "info_total" "Total number of info events" (VInt (total_info (st_error_stats state)));
   counter "runtime_retries_total" "Total retry attempts consumed"
     (VInt (retried_requests (runtime_metrics state)));
   counter "runtime_non_retriable_failures_total"
     "Total failures classified as terminal at the retry boundary"
     (VInt (non_retriable_failures (runtime_metrics state)));
   gauge "current_rps" "Configured request-rate limit (not measured throughput)"
     (VInt (default 0 (request_limiter state)))].

Definition metric_series (state : StatusState) (elapsed windowed_rate : spec_float) : list Series :=
  basic_series state elapsed windowed_rate ++ timing_series (timing_stats state).

(** A blank line between two series. *)
Definition show_all `{ShowFloat} (l : list Series) : str :=
  match map show_series l with
  | [] => []
  | block :: blocks => block ++ concat (map (cons 10) blocks)
  end.

Definition render_metrics `{ShowFloat} (state : StatusState) (elapsed : spec_float) (now : Z)
  : option ThroughputWindowInner * str :=
  let snap := progress_snapshot (loads state) elapsed in
  let '(window, windowed_rate) := observe (snap_finished snap) now (throughput_window state) in
  (window, show_all (metric_series state elapsed windowed_rate)).

Definition metrics_handler `{ShowFloat} (state : StatusState) (elapsed : spec_float) (now : Z)
  : option ThroughputWindowInner * Answer :=
  let '(window, body) := render_metrics state elapsed now in
  (window, (200, lit "text/plain; version=0.0.4; charset=utf-8", body)).

(** ** app/logging.rs *)

Definition format_duration (total_secs : Z) : str :=
  if total_secs =? 0 then lit "< 1s"
  else
    let hours := total_secs / 3600 in
    let minutes := (total_secs mod 3600) / 60 in
    let seconds := total_secs mod 60 in
    let h := dec hours ++ lit "h" in
    let m := dec minutes ++ lit "m" in
    let s := dec seconds ++ lit "s" in
    if (hours =? 0) && (minutes =? 0) then s
    else if hours =? 0 then m ++ [32] ++ s
    else if (minutes =? 0) && (seconds =? 0) then h
    else if seconds =? 0 then h ++ [32] ++ m
    else h ++ [32] ++ m ++ [32] ++ s.

(** The figures of the progress line; the three results are loaded, then the total. *)
Record ProgressLine := MkProgressLine {
  pl_finished : Z;
  pl_rate : spec_float;
  pl_total : option (Z * spec_float * spec_float);   (** total, percentage, seconds left *)
}.

Definition log_progress (elapsed : spec_float) (successful failed skipped : Z) (total_urls : option Z)
  : ProgressLine :=
  let finished := successful + failed + skipped in
  let rate := lifetime_rate finished elapsed in
  MkProgressLine finished rate
    (total ← total_urls;
     if 0 <? total then
       let remaining := sat_sub total finished in
       Some (total, f64_mul (f64_div (f64_of_int finished) (f64_of_int total)) (f64_of_int 100),
             if is_positive rate && (0 <? remaining) then f64_div (f64_of_int remaining) rate
             else f64_zero)
     else None).

(** ** Reading the text of [/metrics] *)

(** A quoted label value up to its closing quote, and the rest. *)
Fixpoint read_quoted (s : str) : option (str * str) :=
  match s with
  | [] => None
  | c :: r =>
      if c =? 34 then Some ([], r)
      else if c =? 92 then
        match r with
        | [] => None
        | d :: r' => '(v, rest) ← read_quoted r'; Some ((if d =? 110 then 10 else d) :: v, rest)
        end
      else '(v, rest) ← read_quoted r; Some (c :: v, rest)
  end.

(** Name, label and value of a sample line. *)
Definition read_sample (line : str) : option (str * option (str * str) * str) :=
  '(head, value) ← split_once 32 line;
  match split_once 123 head with
  | None => Some (head, None, value)
  | Some (name, _) =>
      '(_, rest) ← split_once 123 line;
      '(key, quoted) ← split_once 61 rest;
      match quoted with
      | 34 :: quoted =>
          '(label, rest) ← read_quoted quoted;
          match rest with 125 :: 32 :: value => Some (name, Some (key, label), value) | _ => None end
      | _ => None
      end
  end.

Definition is_sample (line : str) : bool :=
  match line with [] => false | c :: _ => negb (c =? 35) end.

Definition read_metrics (text : str) : list (option (str * option (str * str) * str)) :=
  map read_sample (List.filter is_sample (split_char 10 text)).

(** What the reader is to find of a series. *)
Definition unescape (v : str) : str := default [] (fst <$> read_quoted (v ++ [34])).
Definition reading `{ShowFloat} (s : Series) : str * option (str * str) * str :=
  (series_name s, (λ '(k, v), (k, unescape v)) <$> series_label s, show_value (series_value s)).

(** ** Lemmas *)

Lemma phase_round_trip p phase : phase_get (phase_set p phase) = phase.
Proof. by destruct phase. Qed.

Lemma replace_char c to s :
  replace [c] to s = concat (map (λ x, if x =? c then to else [x]) s).
Proof.
  unfold replace. induction s as [|x s IH]; [done|]. cbn [replace_go map concat].
  unfold starts_with. cbn. rewrite Z.eqb_sym. rewrite <- IH. by destruct (x =? c); cbn.
Qed.

Definition escape_char (c : Z) : str :=
  if c =? 92 then [92; 92] else if c =? 34 then [92; 34] else if c =? 10 then [92; 110] else [c].

Lemma escape_chars s : escape_prometheus_label_value s = concat (map escape_char s).
Proof.
  unfold escape_prometheus_label_value. rewrite !replace_char.
  induction s as [|x s IH]; [done|]. cbn [map concat].
  rewrite !map_app, !concat_app, map_app, concat_app, IH.
  f_equal. unfold escape_char.
  destruct (Z.eqb_spec x 92) as [->|]; [done|]. destruct (Z.eqb_spec x 34) as [->|]; [done|].
  destruct (Z.eqb_spec x 10) as [->|]; [done|].
  cbn. rewrite (proj2 (Z.eqb_neq x 34)) by done. cbn. by rewrite (proj2 (Z.eqb_neq x 10)) by done.
Qed.

Lemma read_quoted_escape s rest :
  read_quoted (escape_prometheus_label_value s ++ 34 :: rest) = Some (s, rest).
Proof.
  rewrite escape_chars. induction s as [|x s IH]; [done|]. cbn [map concat]. rewrite <- app_assoc.
  revert IH. generalize (concat (map escape_char s) ++ 34 :: rest). intros tail IH.
  unfold escape_char.
  destruct (Z.eqb_spec x 92) as [->|H1]; [cbn; by rewrite IH|].
  destruct (Z.eqb_spec x 34) as [->|H2]; [cbn; by rewrite IH|].
  destruct (Z.eqb_spec x 10) as [->|H3]; [cbn; by rewrite IH|].
  cbn. apply Z.eqb_neq in H1, H2. by rewrite H2, H1, IH.
Qed.

Lemma label_round_trip s : unescape (escape_prometheus_label_value s) = s.
Proof. unfold unescape. by rewrite read_quoted_escape. Qed.

Lemma unescape_run_id (run_id : option str) :
  unescape (default [] (escape_prometheus_label_value <$> run_id)) = default [] run_id.
Proof. destruct run_id; [apply label_round_trip|done]. Qed.

Lemma escape_one_line s : (10 ∉ escape_prometheus_label_value s).
Proof.
  rewrite escape_chars, list_elem_of_In, in_concat. intros (l & (x & <- & _)%in_map_iff & Hl).
  revert Hl. unfold escape_char.
  destruct (Z.eqb_spec x 92); [cbn; lia|]. destruct (Z.eqb_spec x 34); [cbn; lia|].
  destruct (Z.eqb_spec x 10); cbn; lia.
Qed.

(** ** The lines of the text *)

Lemma split_lines ls :
  Forall (λ l : str, (10 ∉ l)) ls ->
  split_char 10 (concat (map (λ l, l ++ [10]) ls)) = ls ++ [[]].
Proof.
  induction 1 as [|l ls Hl _ IH]; [done|]. cbn [map concat]. rewrite <- app_assoc. cbn [app].
  by rewrite split_char_app_sep, IH.
Qed.

(** The law of [ShowFloat]: the display of a number stays on its line. *)
Class ShowFloatLaws `(F : ShowFloat) := {
  show_float_one_line : ∀ x, (10 ∉ show_float x);
}.

Definition is_name_char (c : Z) : bool := is_ascii_lower c || (c =? 95).

Record well_formed (s : Series) : Prop := {
  wf_name : (λ n, negb (streqb n []) && forallb is_name_char n) (series_name s) = true;
  wf_text : forallb (λ c, negb (c =? 10)) (series_help s ++ series_kind s) = true;
  wf_label : match series_label s with
             | Some (k, v) => forallb is_name_char k = true
                              ∧ ∃ raw, v = escape_prometheus_label_value raw
             | None => True
             end;
}.

Lemma dec_one_line n : (10 ∉ dec n).
Proof.
  unfold dec. generalize (S (Z.to_nat (Z.log2 n))). intros fuel. revert n.
  assert (H : ∀ fuel n acc, (10 ∉ acc) -> (10 ∉ dec_go fuel n acc)).
  { clear fuel. induction fuel as [|f IH]; intros n acc Ha; [done|]. cbn [dec_go].
    assert (Hd : (10 ∉ (48 + n mod 10) :: acc)).
    { apply not_elem_of_cons. split; [|done]. pose proof (Z.mod_pos_bound n 10). lia. }
    destruct (n <? 10); auto. }
  intros n. apply H, not_elem_of_nil.
Qed.

Lemma forallb_free (P : Z -> bool) (c : Z) s : forallb P s = true -> P c = false -> (c ∉ s).
Proof.
  intros H Hc Hin. rewrite forallb_forall in H.
  rewrite (H c) in Hc; [done|]. by apply list_elem_of_In.
Qed.

Section Text.
Context `{F : ShowFloat} `{!ShowFloatLaws F}.

Lemma value_one_line v : (10 ∉ show_value v).
Proof. destruct v; [apply dec_one_line|apply show_float_one_line]. Qed.

Lemma label_one_line s : well_formed s -> (10 ∉ show_label (series_label s)).
Proof.
  intros [_ _ Hl]. unfold show_label. destruct (series_label s) as [[k v]|]; [|apply not_elem_of_nil].
  destruct Hl as (Hk & raw & ->). pose proof (escape_one_line raw).
  pose proof (forallb_free _ 10 _ Hk eq_refl). set_solver by lia.
Qed.

Lemma sample_one_line s : well_formed s -> (10 ∉ sample_text s) ∧ is_sample (sample_text s) = true.
Proof.
  intros Hs. pose proof (label_one_line s Hs) as Hl. destruct Hs as [Hn _ _].
  apply andb_true_iff in Hn as [Hne Hn]. pose proof (value_one_line (series_value s)).
  pose proof (forallb_free _ 10 _ Hn eq_refl). pose proof (forallb_free _ 35 _ Hn eq_refl) as H35.
  unfold sample_text. split; [set_solver by lia|].
  destruct (series_name s) as [|c n]; [done|]. cbn. apply not_elem_of_cons in H35 as [? _].
  by rewrite (proj2 (Z.eqb_neq c 35)) by congruence.
Qed.

Lemma series_lines_plain s : well_formed s -> Forall (λ l : str, (10 ∉ l)) (series_lines s).
Proof.
  intros Hs. pose proof (proj1 (sample_one_line s Hs)) as Hv. destruct Hs as [Hn Ht _].
  apply andb_true_iff in Hn as [_ Hn]. rewrite forallb_app in Ht. apply andb_true_iff in Ht as [Hh Hk].
  pose proof (forallb_free _ 10 _ Hn eq_refl). pose proof (forallb_free _ 10 _ Hh eq_refl).
  pose proof (forallb_free _ 10 _ Hk eq_refl).
  repeat constructor; [| |done]; rewrite !not_elem_of_app; split_and!; try done;
    apply (bool_decide_unpack _); by vm_compute.
Qed.

(** The comment lines and the blank lines are no samples. *)
Lemma samples_of_series s : well_formed s -> List.filter is_sample (series_lines s) = [sample_text s].
Proof. intros Hs. unfold series_lines. cbn. by rewrite (proj2 (sample_one_line s Hs)). Qed.

Definition all_lines (l : list Series) : list str :=
  match l with
  | [] => []
  | s :: rest => series_lines s ++ concat (map (λ s, [] :: series_lines s) rest)
  end.

Lemma show_all_lines l : show_all l = concat (map (λ line, line ++ [10]) (all_lines l)).
Proof.
  destruct l as [|s l]; [done|]. cbn [show_all map all_lines].
  rewrite map_app, concat_app. f_equal. induction l as [|t l IH]; [done|].
  cbn [map concat]. rewrite map_app, concat_app, IH. cbn. by rewrite ?app_assoc.
Qed.

Lemma samples_of_all l : Forall well_formed l ->
  List.filter is_sample (split_char 10 (show_all l)) = map sample_text l.
Proof.
  intros Hl. rewrite show_all_lines, split_lines.
  - rewrite List.filter_app. cbn [List.filter is_sample]. rewrite app_nil_r.
    destruct Hl as [|s l Hs Hl]; [done|]. cbn [all_lines map].
    rewrite List.filter_app, samples_of_series by done.
    cbn. f_equal. induction Hl as [|t l Ht _ IH]; [done|]. cbn [map concat].
    change (([] :: series_lines t) ++ ?x) with ([] :: (series_lines t ++ x)).
    cbn [List.filter is_sample]. by rewrite List.filter_app, samples_of_series, IH.
  - destruct Hl as [|s l Hs Hl]; [constructor|]. cbn [all_lines]. apply Forall_app. split.
    + by apply series_lines_plain.
    + induction Hl as [|t l Ht _ IH]; [constructor|]. cbn [map concat app]. constructor; [set_solver|].
      apply Forall_app. split; [by apply series_lines_plain|done].
Qed.

Lemma split_once_prefix c a s : (c ∉ a) ->
  split_once c (a ++ s) = prod_map (app a) id <$> split_once c s.
Proof.
  induction a as [|x a IH]; intros Hc; cbn.
  - by destruct (split_once c s) as [[]|].
  - apply not_elem_of_cons in Hc as [Hx Hc]. rewrite (proj2 (Z.eqb_neq x c)), IH by congruence.
    by destruct (split_once c s) as [[]|].
Qed.

Lemma split_once_found c a s : ∃ x y, split_once c (a ++ c :: s) = Some (x, y).
Proof.
  induction a as [|z a IH]; cbn; [rewrite Z.eqb_refl; by eauto|].
  destruct (z =? c); [by eauto|]. destruct IH as (x & y & ->). by eauto.
Qed.

Lemma read_sample_reading s : well_formed s -> read_sample (sample_text s) = Some (reading s).
Proof.
  intros [Hn _ Hl]. apply andb_true_iff in Hn as [_ Hn].
  pose proof (forallb_free _ 32 _ Hn eq_refl) as H32.
  pose proof (forallb_free _ 123 _ Hn eq_refl) as H123.
  unfold read_sample, reading, sample_text, show_label.
  destruct (series_label s) as [[k v]|]; cbn [fmap option_fmap option_map].
  - destruct Hl as (Hk & raw & ->). rewrite label_round_trip.
    pose proof (forallb_free _ 61 _ Hk eq_refl) as H61. set (value := show_value (series_value s)).
    set (name := series_name s) in *. set (esc := escape_prometheus_label_value raw).
    replace (name ++ _ ++ _)
      with ((name ++ [123]) ++ (k ++ [61; 34] ++ esc ++ [34; 125]) ++ 32 :: value)
      by (rewrite <- ?app_assoc; done).
    rewrite (split_once_prefix 32).
    2: { rewrite not_elem_of_app, list_elem_of_singleton. split; [exact H32|done]. }
    destruct (split_once_found 32 (k ++ [61; 34] ++ esc ++ [34; 125]) value) as (x & y & ->).
    cbn [fmap option_fmap option_map prod_map mbind option_bind fst snd].
    rewrite <- !app_assoc. cbn [app]. rewrite !split_once_app by done.
    cbn [mbind option_bind]. rewrite split_once_app by done.
    cbn [mbind option_bind]. unfold esc. rewrite read_quoted_escape. done.
  - cbn [app]. rewrite split_once_app by done. cbn [mbind option_bind].
    by rewrite (proj2 (split_once_None 123 _)).
Qed.

Lemma read_metrics_all l : Forall well_formed l ->
  read_metrics (show_all l) = map (λ s, Some (reading s)) l.
Proof.
  intros Hl. unfold read_metrics. rewrite samples_of_all, map_map by done.
  apply map_ext_in. intros s Hs. apply read_sample_reading.
  exact (proj1 (List.Forall_forall _ _) Hl s Hs).
Qed.
End Text.

(** ** The series of a state *)

Definition named_ok (name help kind : string) : bool :=
  negb (streqb (lit "domain_status_" ++ lit name) [])
  && forallb is_name_char (lit "domain_status_" ++ lit name)
  && forallb (λ c, negb (c =? 10)) (lit help ++ lit kind).

Lemma named_well_formed name help kind v :
  named_ok name help kind = true -> well_formed (series_named name help kind v).
Proof. intros [Hn Ht]%andb_true_iff. by split. Qed.

Lemma labelled_well_formed s key raw : well_formed s -> forallb is_name_char key = true ->
  well_formed (labelled s key (escape_prometheus_label_value raw)).
Proof. intros [Hn Ht _] Hk. split; [done..|]. split; [done|]. by exists raw. Qed.

Lemma phase_label_plain state :
  phase_label state = escape_prometheus_label_value (phase_label state).
Proof. unfold phase_label. by destruct (phase_get (phase state)). Qed.

Lemma basic_well_formed state elapsed rate : Forall well_formed (basic_series state elapsed rate).
Proof.
  unfold basic_series, gauge, counter. rewrite (phase_label_plain state).
  assert (Hid : ∃ raw, default [] (escape_prometheus_label_value <$> run_id state)
                       = escape_prometheus_label_value raw).
  { destruct (run_id state) as [id|]; [by exists id|by exists []]. }
  destruct Hid as [raw ->].
  repeat apply List.Forall_cons; try apply List.Forall_nil;
    try (apply labelled_well_formed; [|by vm_compute]); apply named_well_formed; by vm_compute.
Qed.

Lemma timing_well_formed stats : Forall well_formed (timing_series stats).
Proof.
  destruct stats as [stats|]; [|constructor]. unfold timing_series.
  destruct (0 <? timing_count stats); [|constructor].
  apply Forall_map, List.Forall_forall. intros [[stage name] help] Hin.
  assert (Hok : forallb (λ '(stage, name, help), forallb is_name_char (lit name)
            && forallb (λ c, negb (c =? 10)) (lit help)) timing_gauges = true) by (by vm_compute).
  rewrite forallb_forall in Hok. apply Hok in Hin.
  apply andb_true_iff in Hin as [Hn Hh].
  split; cbn [series_name series_help series_kind series_label];
    [|rewrite !forallb_app, Hh; by vm_compute|done].
  rewrite !forallb_app, Hn. by vm_compute.
Qed.

Lemma metrics_well_formed state elapsed rate : Forall well_formed (metric_series state elapsed rate).
Proof. apply Forall_app. split; [apply basic_well_formed|apply timing_well_formed]. Qed.

(** The value of the first sample with a name. *)
Definition metric (name : str) (text : str) : option str :=
  snd <$> List.find (λ r, streqb name r.1.1) (omap id (read_metrics text)).

(** The series of [/metrics] and the fields of [/status] they repeat, in the order of the
    text; the identifier and the start of the run are not in the JSON. *)
Definition status_values (state : StatusState) (r : StatusResponse) : list (str * SampleValue) :=
  map (λ '(name, v), (lit "domain_status_" ++ lit name, v))
    [("run_info"%string, VInt 1);
     ("elapsed_seconds"%string, VFloat (elapsed_seconds r));
     ("start_time_seconds"%string, VFloat (default f64_zero (run_start_time_unix_secs state)));
     ("total_urls"%string, VInt (r_total_urls r));
     ("successful_urls"%string, VInt (r_successful_urls r));
     ("failed_urls"%string, VInt (r_failed_urls r));
     ("skipped_urls"%string, VInt (r_skipped_urls r));
     ("partial_failures"%string, VInt (r_partial_failures r));
     ("satellite_insert_errors"%string, VInt (r_satellite_insert_errors r));
     ("attempted_urls"%string, VInt (r_total_urls_attempted r));
     ("active_urls"%string, VInt (r_active_urls r));
     ("percentage_complete"%string, VFloat (r_percentage_complete r));
     ("percentage_dispatched"%string, VFloat (r_percentage_dispatched r));
     ("rate_per_second"%string, VFloat (r_rate_per_second r));
     ("windowed_rate_per_second"%string, VFloat (windowed_rate_per_second r));
     ("eta_seconds"%string, VFloat (default f64_zero (eta_seconds r)));
     ("phase"%string, VInt (phase_num (r_phase r)));
     ("concurrency_limit"%string, VInt (default 0 (concurrency_limit r)));
     ("concurrency_in_use"%string, VInt (default 0 (r_concurrency_in_use r)));
     ("errors_total"%string, VInt (error_total (r_errors r)));
     ("warnings_total"%string, VInt (warning_total (r_warnings r)));
     ("info_total"%string, VInt (info_total (r_info r)));
     ("runtime_retries_total"%string, VInt (r_retried_requests r));
     ("runtime_non_retriable_failures_total"%string, VInt (r_non_retriable_failures r));
     ("current_rps"%string, VInt (default 0 (r_current_rps r)))]
  ++ match timing r with
     | Some t => map (λ '(stage, name, _), (lit "domain_status_timing_" ++ lit name ++ lit "_ms",
                                            VInt (summary_averages t stage))) timing_gauges
     | None => []
     end.

Lemma metrics_eta_refined snap rate :
  metrics_eta snap rate
  = default f64_zero (refine_eta (snap_eta_seconds snap) (snap_total_urls snap)
      (snap_finished snap) rate).
Proof. unfold metrics_eta, refine_eta. repeat case_match; done. Qed.

Lemma series_values state elapsed now :
  let '(_, r) := build_status_response state elapsed now in
  map (λ s, (series_name s, series_value s)) (metric_series state elapsed (windowed_rate_per_second r))
  = status_values state r.
Proof.
  unfold build_status_response. destruct (observe _ _ _) as [window rate] eqn:Hobs.
  unfold metric_series, status_values. rewrite map_app.
  cbn [windowed_rate_per_second]. f_equal.
  - unfold basic_series. rewrite metrics_eta_refined. reflexivity.
  - cbn [timing]. destruct (timing_stats state) as [stats|]; [|done]. cbn.
    unfold timing_summary. by destruct (0 <? timing_count stats).
Qed.

Lemma status_values_distinct state r : NoDup (map fst (status_values state r)).
Proof.
  unfold status_values. rewrite map_app, map_map.
  destruct (timing r); cbn [map fst timing_gauges app];
    apply (bool_decide_unpack _); by vm_compute.
Qed.

Lemma find_distinct {A} (key : A -> str) (l : list A) x :
  NoDup (map key l) -> x ∈ l -> List.find (λ y, streqb (key x) (key y)) l = Some x.
Proof.
  induction l as [|y l IH]; cbn; intros Hn Hin; [by apply not_elem_of_nil in Hin|].
  apply list.NoDup_cons in Hn as [Hy Hn]. apply elem_of_cons in Hin as [->|Hin].
  - unfold streqb. by rewrite bool_decide_true.
  - unfold streqb. rewrite bool_decide_false; [by apply IH|]. intros Hk. apply Hy.
    rewrite <- Hk. apply list_elem_of_In, in_map, list_elem_of_In, Hin.
Qed.

Section Agreement.
Context `{F : ShowFloat} `{!ShowFloatLaws F}.

(** A Prometheus reader of [/metrics] finds every series once, whatever the run is called: the
    identifier is read back as it is, and each value is the one [/status] reports at the same
    moment for the same state; both leave the window in the same state. *)
Theorem metrics_agree_with_status state elapsed now :
  let '(window, text) := render_metrics state elapsed now in
  let '(window', r) := build_status_response state elapsed now in
  window = window'
  ∧ map (λ s, (λ '(name, _, value), (name, value)) <$> s) (read_metrics text)
    = map (λ '(name, v), Some (name, show_value v)) (status_values state r)
  ∧ Forall (λ '(name, v), metric name text = Some (show_value v)) (status_values state r)
  ∧ head (read_metrics text)
    = Some (Some (lit "domain_status_run_info",
                  Some (lit "run_id", default [] (run_id state)), lit "1")).
Proof.
  pose proof (series_values state elapsed now) as Hv. unfold render_metrics.
  destruct (build_status_response state elapsed now) as [window' r] eqn:Hb.
  pose proof (status_values_distinct state r) as Hd. revert Hb. unfold build_status_response.
  destruct (observe _ _ _) as [window rate]. intros [= <- Hr].
  assert (Hrate : rate = windowed_rate_per_second r) by (by rewrite <- Hr). clear Hr. subst rate.
  set (series := metric_series state elapsed (windowed_rate_per_second r)) in *.
  assert (Hread : read_metrics (show_all series) = map (λ s, Some (reading s)) series)
    by apply read_metrics_all, metrics_well_formed.
  rewrite Hread, <- Hv in *. rewrite !map_map. split; [done|]. split; [done|]. split.
  - unfold metric. rewrite Hread.
    assert (Ho : omap id (map (λ s, Some (reading s)) series) = map reading series).
    { clear. induction series as [|s l IH]; [done|]. cbn. by rewrite IH. }
    rewrite Ho. apply Forall_map, List.Forall_forall. intros s Hs.
    rewrite map_map in Hd. cbn [fst] in Hd.
    pose proof (find_distinct (λ y : str * option (str * str) * str, y.1.1) (map reading series)
                  (reading s)) as Hf.
    transitivity (snd <$> List.find (λ y : str * option (str * str) * str,
                            streqb (reading s).1.1 y.1.1) (map reading series)); [done|].
    rewrite Hf; [done| |].
    + by rewrite map_map.
    + by apply list_elem_of_In, in_map.
  - unfold series, metric_series, basic_series. cbn [app map head]. unfold reading, labelled.
    cbn [series_name series_label series_value fmap option_fmap option_map].
    by rewrite unescape_run_id.
Qed.
End Agreement.

(** ** The snapshot of a running scan *)

Definition counters_le (c c' : Counters) : Prop :=
  (total_urls_attempted c <= total_urls_attempted c')%nat
  ∧ (successful_urls c <= successful_urls c')%nat
  ∧ (failed_urls c <= failed_urls c')%nat ∧ (skipped_urls c <= skipped_urls c')%nat.

#[export] Instance counters_le_preorder : PreOrder counters_le.
Proof. split; unfold counters_le; [intros ?|intros ? ? ?]; lia. Qed.

(** No outcome of the task has been counted. *)
Definition uncounted (t : Task) : nat := match increments t with O => 1 | _ => 0 end.

Section Snapshot.
Context `{L : Lowercase} `{U : UrlLib} `{Hi : HashIter}.
Context (warn allow : bool) (limit : nat).

Lemma step_task_counters i t e s s' :
  step_task i t e s = Some s' -> counters_le (counters s) (counters s').
Proof.
  unfold step_task, goto_counted, goto, release_permit, record_stat, insert_failure_row,
    count_outcome, counters_le. intros H.
  repeat case_match; simplify_eq; cbn; lia.
Qed.

Lemma step_counters e s s' :
  Scan.step warn allow e s = Some s' -> counters_le (counters s) (counters s').
Proof.
  intros H.
  assert (Hm : step_main warn allow e s = Some s' -> counters_le (counters s) (counters s')).
  { clear H. unfold step_main, read_line, reap, skip_url, leave_loop, drop_join_set, insert_failure_row,
      goto, counters_le. intros H. repeat case_match; simplify_eq; cbn; lia. }
  destruct e; cbn in H; auto; [by simplify_eq|].
  destruct (tasks s !! i) as [t|]; [|done]. by eapply step_task_counters.
Qed.

Lemma run_counters es s s' :
  Scan.run warn allow es s = Some s' -> counters_le (counters s) (counters s').
Proof.
  revert s. induction es as [|e es IH]; cbn; intros s H; [by simplify_eq|].
  destruct (Scan.step warn allow e s) as [s1|] eqn:E; [|done].
  etrans; [by eapply step_counters|by apply IH].
Qed.

Lemma counted_or_not (l : list Task) :
  (length l <= total increments l + total uncounted l)%nat
  ∧ (Forall (λ t, increments t <= 1)%nat l ->
     length l = (total increments l + total uncounted l)%nat).
Proof.
  unfold total. induction l as [|t l [IH1 IH2]]; [done|]. cbn [foldr length]. split.
  - unfold uncounted at 1. destruct (increments t); lia.
  - intros Hf. inversion Hf as [|t' l' Ht Hl]; subst. rewrite (IH2 Hl).
    assert (1 = increments t + uncounted t)%nat by (unfold uncounted; destruct (increments t); lia).
    lia.
Qed.

(** C35: A snapshot taken while the scan goes on: the attempts, successes, failures and skips are
    those of four moments, in this order.  The finished URLs lie between those of the first and
    the last moment, no more URLs are shown as active than tasks had no counted outcome at the
    first, and exactly these when nothing moved meanwhile, no URL was counted twice and none was
    given up; the permits in use are those the tasks hold, at most the configured number. *)
Theorem progress_consistent es1 es2 es3 s1 s2 s3 s4 total_urls elapsed :
  reachable warn allow limit s1 ->
  Scan.run warn allow es1 s1 = Some s2 -> Scan.run warn allow es2 s2 = Some s3 ->
  Scan.run warn allow es3 s3 = Some s4 ->
  Z.of_nat (results (counters s4)) <= u64_max ->
  let snap := progress_snapshot
    (MkLoads total_urls (Z.of_nat (total_urls_attempted (counters s1)))
       (Z.of_nat (successful_urls (counters s2))) (Z.of_nat (failed_urls (counters s3)))
       (Z.of_nat (skipped_urls (counters s4)))) elapsed in
  Z.of_nat (results (counters s1)) <= snap_finished snap <= Z.of_nat (results (counters s4))
  ∧ snap_active_urls snap <= Z.of_nat (total uncounted (tasks s1))
  ∧ (s4 = s1 -> Forall (λ t, increments t <= 1)%nat (tasks s1) -> abandoned_counted (main s1) = O ->
     snap_active_urls snap = Z.of_nat (total uncounted (tasks s1)))
  ∧ sat_sub (Z.of_nat limit) (Z.of_nat (Scan.permits s1)) = Z.of_nat (total holds (tasks s1))
  ∧ Z.of_nat (total holds (tasks s1)) <= Z.of_nat limit.
Proof.
  intros Hr H1 H2 H3 Hmax. cbn zeta.
  destruct (run_counters _ _ _ H1) as (A1 & B1 & C1 & D1).
  destruct (run_counters _ _ _ H2) as (A2 & B2 & C2 & D2).
  destruct (run_counters _ _ _ H3) as (A3 & B3 & C3 & D3).
  pose proof (reachable_invariant _ _ _ _ Hr) as [_ I2 I3 _ _ _].
  destruct (counted_or_not (tasks s1)) as [Hle Heq].
  unfold progress_snapshot, saturating_add, sat_sub, results in *.
  cbn [snap_finished snap_active_urls l_attempted l_successful l_failed l_skipped].
  split_and!; try lia. intros -> Hone Hab. specialize (Heq Hone). lia.
Qed.
End Snapshot.

(** ** Further facts *)

(** The categories of [/status] leave out cancelled scans and failed satellite writes. *)
Lemma error_categories s :
  let c := error_counts s in
  error_total c = timeout c + connection_error c + http_error c + dns_error c + tls_error c
                  + parse_error c + other_error c + errors s ScanCancelled
                  + errors s SatelliteInsertError.
Proof.
  cbn zeta. unfold error_counts, count_of, total_errors, sum_Z.
  cbn [error_total timeout connection_error http_error dns_error tls_error parse_error other_error
       map foldr all_error_types timeout_kinds connection_kinds http_kinds dns_kinds tls_kinds
       parse_kinds other_kinds]. lia.
Qed.

(** Requests within a second of the last sample see its rate and leave it, unless the count
    has gone back. *)
Lemma observe_between finished now guard :
  SFleb (f64_of_int 1) (as_secs_f64 (sat_sub now (prev_at guard))) = false ->
  prev_finished guard <= finished ->
  observe finished now (Some guard) = (Some guard, window_rate guard).
Proof.
  intros Hdt Hf. unfold observe. rewrite Hdt.
  rewrite (proj2 (Z.ltb_ge finished (prev_finished guard))) by done. done.
Qed.

(** A sample is taken once a second has passed: the URLs finished since over the time since. *)
Lemma observe_sample finished now guard :
  SFleb (f64_of_int 1) (as_secs_f64 (sat_sub now (prev_at guard))) = true ->
  let rate := f64_div (f64_of_int (sat_sub finished (prev_finished guard)))
                (as_secs_f64 (sat_sub now (prev_at guard))) in
  observe finished now (Some guard) = (Some (MkWindow now finished rate), rate).
Proof. intros Hdt. unfold observe. by rewrite Hdt. Qed.

(** The line of the log shows the figures of a snapshot of the same counters. *)
Lemma progress_line_agrees l elapsed :
  0 < l_total_urls l -> l_successful l + l_failed l + l_skipped l <= u64_max ->
  0 <= l_successful l -> 0 <= l_failed l -> 0 <= l_skipped l ->
  let snap := progress_snapshot l elapsed in
  log_progress elapsed (l_successful l) (l_failed l) (l_skipped l) (Some (l_total_urls l))
  = MkProgressLine (snap_finished snap) (rate_per_second snap)
      (Some (l_total_urls l, percentage_complete snap, default f64_zero (snap_eta_seconds snap))).
Proof.
  intros Ht Hmax H1 H2 H3. cbn zeta. unfold log_progress, progress_snapshot, saturating_add.
  cbn [snap_finished rate_per_second percentage_complete snap_eta_seconds mbind option_bind].
  rewrite (Z.min_r u64_max (l_successful l + l_failed l)), Z.min_r by lia.
  unfold percentage, lifetime_eta. rewrite (proj2 (Z.ltb_lt 0 _)) by done.
  f_equal. f_equal. f_equal.
  set (remaining := sat_sub _ _). destruct (is_positive _), (Z.ltb_spec 0 remaining);
    cbn; try done; by rewrite andb_true_r; case_match.
Qed.

Module DemoStatus.
(** An integral number in decimal, any other one as mantissa and exponent. *)
#[export] Instance show : ShowFloat := {|
  show_float x :=
    match x with
    | S754_zero _ => dec 0
    | S754_finite _ m e =>
        if (0 <=? e) || (Z.pos m mod 2 ^ (- e) =? 0)
        then dec (if 0 <=? e then Z.pos m * 2 ^ e else Z.pos m / 2 ^ (- e))
        else dec (Z.pos m) ++ lit "p-" ++ dec (- e)
    | S754_infinity _ => lit "inf"
    | S754_nan => lit "NaN"
    end |}.

#[export] Instance show_laws : ShowFloatLaws show.
Proof.
  split. intros x. destruct x as [s|[]| |s m e]; cbn [show_float show]; try apply dec_one_line.
  1-3: apply (bool_decide_unpack _); by vm_compute.
  destruct (_ || _); [apply dec_one_line|]. rewrite !not_elem_of_app.
  split_and!; try apply dec_one_line. apply (bool_decide_unpack _); by vm_compute.
Defined.

(** The state of the test of the handlers: 60 of 100 URLs after five seconds. *)
Definition counted : ProcessingStats :=
  increment_error (increment_error (increment_error new_stats ProcessUrlTimeout)
    HttpRequestTimeoutError) ScanCancelled.
Definition recorded_timing : TimingStats :=
  Timing.record new_timing (λ s, match s with HttpRequest => 1500 | Total => 2000 | _ => 0 end).
Definition state : StatusState :=
  MkStatus (MkLoads 100 80 50 10 0) counted (Some recorded_timing) (Some 10) (MkMetrics 1 1) (4, 2)
    (Some ([34; 10] ++ lit "run 7")) None (phase_as_u8 DrainingPhase) (Some (new_window 0))
    (Some 30) (Some 10).
Definition five : spec_float := f64_of_int 5.
Definition response : StatusResponse := (build_status_response state five 2000000000).2.
Definition text : str := (render_metrics state five 2000000000).2.

Example the_response :
  (r_active_urls response, r_pending_urls response, show_float (r_percentage_complete response),
   show_float (r_rate_per_second response), show_float (windowed_rate_per_second response))
  = (20, Some 20, lit "60", lit "12", lit "30")
  ∧ (error_total (r_errors response), timeout (r_errors response), r_concurrency_in_use response)
    = (3, 2, Some 20).
Proof. by vm_compute. Qed.

Example the_metrics :
  metric (lit "domain_status_timing_http_request_ms") text = Some (lit "2")
  ∧ metric (lit "domain_status_phase") text = Some (lit "2")
  ∧ head (split_char 10 text)
    = Some (lit "# HELP domain_status_run_info "
            ++ lit "Run identifier for correlating with database and logs").
Proof. by vm_compute. Qed.

Example durations :
  map format_duration [0; 59; 60; 3600; 3605; 3660; 8130]
  = map lit ["< 1s"; "59s"; "1m 0s"; "1h"; "1h 0m 5s"; "1h 1m"; "2h 15m 30s"]%string.
Proof. by vm_compute. Qed.

Lemma metrics_agree_with_status_witness :
  metric (lit "domain_status_active_urls") text = Some (lit "20")
  ∧ head (read_metrics text)
    = Some (Some (lit "domain_status_run_info",
                  Some (lit "run_id", [34; 10] ++ lit "run 7"), lit "1")).
Proof.
  pose proof (metrics_agree_with_status state five 2000000000) as H. split; [by vm_compute|].
  unfold text. destruct (render_metrics state five 2000000000) as [window text].
  destruct (build_status_response state five 2000000000) as [window' r].
  destruct H as (_ & _ & _ & H). exact H.
Defined.

(** Two URLs in flight; while the snapshot is taken one is stored and the other fails. *)
Definition busy : list Event :=
  DemoScan.spawned DemoScan.line ++ DemoScan.spawned DemoScan.other
  ++ DemoScan.started 0 ++ DemoScan.started 1.
Definition s1 : Scan := DemoScan.after busy.
Abbreviation exec es s := (@Scan.run Demo.ascii_lowercase Demo.urls listing true false es s).
Definition s2 : Scan := default s1 (exec (DemoScan.stored 0) s1).
Definition s3 : Scan := default s2 (exec [ETask 1 (TFail DemoScan.failure)] s2).

Lemma progress_consistent_witness :
  total uncounted (tasks s1) = 2%nat
  ∧ let snap := progress_snapshot (MkLoads 5 2 1 1 0) five in
    0 <= snap_finished snap <= 2 ∧ snap_active_urls snap <= 2.
Proof.
  split; [by vm_compute|].
  assert (Hr : @reachable Demo.ascii_lowercase Demo.urls listing true false 2 s1)
    by (apply DemoScan.after_reachable; vm_compute; eexists; reflexivity).
  assert (Hruns : exec (DemoScan.stored 0) s1 = Some s2
                  ∧ exec [ETask 1 (TFail DemoScan.failure)] s2 = Some s3)
    by (vm_compute; by split).
  assert (Hc : counters s1 = MkCounters 2 0 0 0 ∧ successful_urls (counters s2) = 1%nat
    ∧ counters s3 = MkCounters 2 1 1 0 ∧ total uncounted (tasks s1) = 2%nat)
    by (vm_compute; by split_and!).
  destruct Hruns as [H1 H2], Hc as (C1 & C2 & C3 & C4).
  assert (Hmax : Z.of_nat (results (counters s3)) <= u64_max)
    by (rewrite C3; vm_compute; discriminate).
  pose proof (@progress_consistent Demo.ascii_lowercase Demo.urls listing true false 2
    (DemoScan.stored 0) [ETask 1 (TFail DemoScan.failure)] [] s1 s2 s3 s3 5 five
    Hr H1 H2 eq_refl Hmax)
    as (Hf & Ha & _).
  revert Hf Ha. rewrite C1, C2, C3, C4. intros Hf Ha. split; [exact Hf|exact Ha].
Defined.
End DemoStatus.
