(* ===== verification/Config.v ===== *)
(** * Configuration ([src/src/config/types.rs], [config/merge.rs], [src/src/cli.rs],
      [src/cli/src/lib.rs])

    The layers of the configuration (defaults, TOML file, command line and environment),
    their merging, the validation, and the exit code of a finished scan.  Paths are
    strings; of the callback and the test overrides only their presence is modelled. *)

From Stdlib Require Import SpecFloat.
From S2P Require Import Prelude Sanitize Net Security Input Scan Float.

(** ** cli/src/lib.rs, config/types.rs: data *)

Inductive FailOn := Never | AnyFailure | PctGreaterThan.
Inductive LogLevel := LogError | LogWarn | LogInfo | LogDebug | LogTrace.
Inductive LogFormat := Plain | Json.
(** [log::LevelFilter]. *)
Inductive LevelFilter := FOff | FError | FWarn | FInfo | FDebug | FTrace.

#[export] Instance LevelFilter_eq_dec : EqDecision LevelFilter.
Proof. solve_decision. Defined.

Definition log_level_filter (level : LogLevel) : LevelFilter :=
  match level with
  | LogError => FError | LogWarn => FWarn | LogInfo => FInfo
  | LogDebug => FDebug | LogTrace => FTrace
  end.

Record Config := MkConfig {
  file : str;
  log_level : LogLevel;
  log_level_filter_override : option LevelFilter;
  log_format : LogFormat;
  db_path : str;
  max_concurrency : Z;
  timeout_seconds : Z;
  user_agent : str;
  rate_limit_rps : Z;
  fingerprints : option str;
  geoip : option str;
  status_port : option Z;
  enable_whois : bool;
  cache_dir : option str;
  scan_external_scripts : bool;
  fail_on : FailOn;
  fail_on_pct_threshold : Z;
  log_file : option str;
  progress_callback : bool;
  dependency_overrides : bool;
  allow_localhost_for_tests : bool;
  drain_timeout_secs : Z;
  allow_degraded_fingerprints : bool;
}.

Definition DEFAULT_USER_AGENT : str :=
  lit "Mozilla/5.0 (Windows NT 10.0; Win64; x64) AppleWebKit/537.36 (KHTML, like Gecko) Chrome/131.0.0.0 Safari/537.36".

Definition default_config : Config := {|
  file := lit "urls.txt";
  log_level := LogInfo;
  log_level_filter_override := None;
  log_format := Plain;
  db_path := lit "./domain_status.db";
  max_concurrency := 30;
  timeout_seconds := 10;
  user_agent := DEFAULT_USER_AGENT;
  rate_limit_rps := 15;
  fingerprints := None;
  geoip := None;
  status_port := None;
  enable_whois := true;
  cache_dir := None;
  scan_external_scripts := false;
  fail_on := Never;
  fail_on_pct_threshold := 10;
  log_file := None;
  progress_callback := false;
  dependency_overrides := false;
  allow_localhost_for_tests := false;
  drain_timeout_secs := 10;
  allow_degraded_fingerprints := false;
|}.

(** *** Validation *)

Definition MAX_CONCURRENCY : Z := 500.
Definition MAX_RATE_LIMIT_RPS : Z := 100.

Record ConfigValidationError := MkInvalid { field : str; message : str }.

Definition validate (c : Config) : result unit ConfigValidationError :=
  if max_concurrency c =? 0 then
    Err (MkInvalid (lit "max_concurrency") (lit "must be greater than 0"))
  else if MAX_CONCURRENCY <? max_concurrency c then
    Err (MkInvalid (lit "max_concurrency")
           (lit "must be <= " ++ dec MAX_CONCURRENCY ++ lit " to prevent resource exhaustion"))
  else if MAX_RATE_LIMIT_RPS <? rate_limit_rps c then
    Err (MkInvalid (lit "rate_limit_rps")
           (lit "must be <= " ++ dec MAX_RATE_LIMIT_RPS ++ lit " to prevent overwhelming targets"))
  else if timeout_seconds c =? 0 then
    Err (MkInvalid (lit "timeout_seconds") (lit "must be greater than 0"))
  else if 100 <? fail_on_pct_threshold c then
    Err (MkInvalid (lit "fail_on_pct_threshold") (lit "must be between 0 and 100"))
  else if bool_decide (trim (user_agent c) = []) then
    Err (MkInvalid (lit "user_agent") (lit "cannot be empty"))
  else Ok tt.

(** run/init.rs: the capacity of the global token bucket. *)
Definition rate_burst (c : Config) : Z :=
  if 0 <? rate_limit_rps c
  then Z.min (max_concurrency c) (Z.min u32_max (rate_limit_rps c * 2))
  else max_concurrency c.

(** ** config/merge.rs *)

Record FileConfig := MkFile {
  fc_file : option str;
  fc_log_level : option LogLevel;
  fc_log_format : option LogFormat;
  fc_db_path : option str;
  fc_max_concurrency : option Z;
  fc_timeout_seconds : option Z;
  fc_user_agent : option str;
  fc_rate_limit_rps : option Z;
  fc_fingerprints : option str;
  fc_geoip : option str;
  fc_status_port : option Z;
  fc_enable_whois : option bool;
  fc_cache_dir : option str;
  fc_scan_external_scripts : option bool;
  fc_fail_on : option FailOn;
  fc_fail_on_pct_threshold : option Z;
  fc_log_file : option str;
  fc_drain_timeout_secs : option Z;
}.

Section Parsers.
Context `{L : Lowercase}.

Definition parse_log_level (s : str) : option LogLevel :=
  let s := to_lowercase s in
  if streqb s (lit "error") then Some LogError
  else if streqb s (lit "warn") then Some LogWarn
  else if streqb s (lit "info") then Some LogInfo
  else if streqb s (lit "debug") then Some LogDebug
  else if streqb s (lit "trace") then Some LogTrace
  else None.

Definition parse_log_format (s : str) : option LogFormat :=
  let s := to_lowercase s in
  if streqb s (lit "plain") then Some Plain
  else if streqb s (lit "json") then Some Json
  else None.

Definition parse_fail_on (s : str) : option FailOn :=
  let s := to_lowercase s in
  if streqb s (lit "never") then Some Never
  else if streqb s (lit "any-failure") || streqb s (lit "any_failure")
          || streqb s (lit "anyfailure") then Some AnyFailure
  else if streqb s (lit "pct>") then Some PctGreaterThan
  else None.

Definition parse_bool (s : str) : option bool :=
  let s := to_lowercase (trim s) in
  if streqb s (lit "true") || streqb s (lit "1") || streqb s (lit "yes") || streqb s (lit "on")
  then Some true
  else if streqb s (lit "false") || streqb s (lit "0") || streqb s (lit "no")
          || streqb s (lit "off") then Some false
  else None.

(** What the deserializer offers to a visitor; [VOther] stands for the kinds of values
    the visitors do not accept. *)
Inductive Value :=
  | VBool (b : bool)
  | VStr (s : str)
  | VInt (n : Z)
  | VUnit
  | VSome (v : Value)
  | VOther.

Fixpoint deserialize_option_bool (v : Value) : result (option bool) str :=
  match v with
  | VBool b => Ok (Some b)
  | VStr s => match parse_bool s with
              | Some b => Ok (Some b)
              | None => Err (lit "invalid boolean value")
              end
  | VInt n => if n =? 0 then Ok (Some false)
              else if n =? 1 then Ok (Some true)
              else Err (lit "invalid boolean integer: ")
  | VUnit => Ok None
  | VSome v => deserialize_option_bool v
  | VOther => Err (lit "invalid type")
  end.

(** The three visitors of enumerations. *)
Fixpoint deserialize_option_enum {A} (parse : str -> option A) (v : Value)
  : result (option A) str :=
  match v with
  | VStr s => match parse s with Some a => Ok (Some a) | None => Err (lit "invalid value") end
  | VUnit => Ok None
  | VSome v => deserialize_option_enum parse v
  | _ => Err (lit "invalid type")
  end.
End Parsers.

(** [if let Some(v) = file.f { config.f = v }] for every field. *)
Definition apply_file_config (config : Config) (f : FileConfig) : Config := {|
  file := default (file config) (fc_file f);
  log_level := default (log_level config) (fc_log_level f);
  log_level_filter_override := log_level_filter_override config;
  log_format := default (log_format config) (fc_log_format f);
  db_path := default (db_path config) (fc_db_path f);
  max_concurrency := default (max_concurrency config) (fc_max_concurrency f);
  timeout_seconds := default (timeout_seconds config) (fc_timeout_seconds f);
  user_agent := default (user_agent config) (fc_user_agent f);
  rate_limit_rps := default (rate_limit_rps config) (fc_rate_limit_rps f);
  fingerprints := match fc_fingerprints f with Some x => Some x | None => fingerprints config end;
  geoip := match fc_geoip f with Some x => Some x | None => geoip config end;
  status_port := match fc_status_port f with Some x => Some x | None => status_port config end;
  enable_whois := default (enable_whois config) (fc_enable_whois f);
  cache_dir := match fc_cache_dir f with Some x => Some x | None => cache_dir config end;
  scan_external_scripts := default (scan_external_scripts config) (fc_scan_external_scripts f);
  fail_on := default (fail_on config) (fc_fail_on f);
  fail_on_pct_threshold := default (fail_on_pct_threshold config) (fc_fail_on_pct_threshold f);
  log_file := match fc_log_file f with Some x => Some x | None => log_file config end;
  progress_callback := progress_callback config;
  dependency_overrides := dependency_overrides config;
  allow_localhost_for_tests := allow_localhost_for_tests config;
  drain_timeout_secs := default (drain_timeout_secs config) (fc_drain_timeout_secs f);
  allow_degraded_fingerprints := allow_degraded_fingerprints config;
|}.

Definition overwrite (cli_explicit : option (list str)) (key : str) : bool :=
  match cli_explicit with None => true | Some keys => bool_decide (key ∈ keys) end.

Definition merge_file_and_cli (f : option FileConfig) (cli_config : Config)
    (cli_explicit : option (list str)) : Config :=
  let ow := overwrite cli_explicit in
  let config := match f with
                | Some f => apply_file_config default_config f
                | None => default_config
                end in
  let pick {A} (key : str) (get : Config -> A) : A := get (if ow key then cli_config else config) in
  {| file := pick (lit "file") file;
     log_level := pick (lit "log_level") log_level;
     log_level_filter_override :=
       pick (lit "log_level_filter_override") log_level_filter_override;
     log_format := pick (lit "log_format") log_format;
     db_path := pick (lit "db_path") db_path;
     max_concurrency := pick (lit "max_concurrency") max_concurrency;
     timeout_seconds := pick (lit "timeout_seconds") timeout_seconds;
     user_agent := pick (lit "user_agent") user_agent;
     rate_limit_rps := pick (lit "rate_limit_rps") rate_limit_rps;
     fingerprints := pick (lit "fingerprints") fingerprints;
     geoip := pick (lit "geoip") geoip;
     status_port := pick (lit "status_port") status_port;
     enable_whois :=
       if ow (lit "no_whois") then false else pick (lit "enable_whois") enable_whois;
     cache_dir := pick (lit "cache_dir") cache_dir;
     scan_external_scripts := pick (lit "scan_external_scripts") scan_external_scripts;
     fail_on := pick (lit "fail_on") fail_on;
     fail_on_pct_threshold := pick (lit "fail_on_pct_threshold") fail_on_pct_threshold;
     log_file := pick (lit "log_file") log_file;
     progress_callback := false;
     dependency_overrides := false;
     allow_localhost_for_tests := false;
     drain_timeout_secs := pick (lit "drain_timeout_secs") drain_timeout_secs;
     allow_degraded_fingerprints := allow_degraded_fingerprints config |}.

(** ** cli.rs *)

(** The parsed arguments; [verbosity] is the filter the verbosity flags stand for. *)
Record ScanCommand := MkScanCommand {
  cmd_file : str;
  cmd_db_path : str;
  cmd_timeout_seconds : Z;
  cmd_max_concurrency : Z;
  cmd_rate_limit_rps : Z;
  cmd_no_whois : bool;
  cmd_geoip : option str;
  cmd_scan_external_scripts : bool;
  cmd_fail_on : FailOn;
  cmd_verbosity : LevelFilter;
  cmd_log_level : LogLevel;
  cmd_log_format : LogFormat;
  cmd_log_file : str;
  cmd_no_progress : bool;
  cmd_fail_on_pct_threshold : Z;
  cmd_user_agent : str;
  cmd_fingerprints : option str;
  cmd_allow_degraded_fingerprints : bool;
  cmd_status_port : option Z;
  cmd_cache_dir : option str;
  cmd_drain_timeout_secs : Z;
  cmd_enable_whois : bool;
}.

Definition config_from_scan_command (cli : ScanCommand) : Config := {|
  file := cmd_file cli;
  log_level := cmd_log_level cli;
  log_level_filter_override :=
    if bool_decide (cmd_verbosity cli = FInfo) then None else Some (cmd_verbosity cli);
  log_format := cmd_log_format cli;
  db_path := cmd_db_path cli;
  max_concurrency := cmd_max_concurrency cli;
  timeout_seconds := cmd_timeout_seconds cli;
  user_agent := cmd_user_agent cli;
  rate_limit_rps := cmd_rate_limit_rps cli;
  fingerprints := cmd_fingerprints cli;
  geoip := cmd_geoip cli;
  status_port := cmd_status_port cli;
  enable_whois := if cmd_no_whois cli then false else cmd_enable_whois cli;
  cache_dir := cmd_cache_dir cli;
  scan_external_scripts := cmd_scan_external_scripts cli;
  fail_on := cmd_fail_on cli;
  fail_on_pct_threshold := cmd_fail_on_pct_threshold cli;
  log_file := Some (cmd_log_file cli);
  progress_callback := false;
  dependency_overrides := false;
  allow_localhost_for_tests := false;
  drain_timeout_secs := cmd_drain_timeout_secs cli;
  allow_degraded_fingerprints := cmd_allow_degraded_fingerprints cli;
|}.

Definition SCAN_CONFIG_ARG_IDS : list str :=
  [lit "file"; lit "log_level"; lit "log_format"; lit "db_path"; lit "max_concurrency";
   lit "timeout_seconds"; lit "user_agent"; lit "rate_limit_rps"; lit "fingerprints";
   lit "geoip"; lit "status_port"; lit "enable_whois"; lit "no_whois"; lit "cache_dir";
   lit "scan_external_scripts"; lit "fail_on"; lit "fail_on_pct_threshold"; lit "log_file";
   lit "drain_timeout_secs"].

(** Where clap found the value of an argument. *)
Inductive ValueSource := CommandLine | EnvVariable | DefaultValue.

Definition is_explicit (src : option ValueSource) : bool :=
  match src with Some CommandLine | Some EnvVariable => true | _ => false end.

Definition get_explicit_config_keys (value_source : str -> option ValueSource) : list str :=
  List.filter (λ id, is_explicit (value_source id)) SCAN_CONFIG_ARG_IDS
  ++ (if is_explicit (value_source (lit "verbose")) || is_explicit (value_source (lit "quiet"))
      then [lit "log_level_filter_override"] else []).

(** The file was loaded before; [scan_arg_matches] is absent when the command was built by
    a program. *)
Definition build_config_from_scan_command (f : option FileConfig) (scan_cmd : ScanCommand)
    (scan_arg_matches : option (str -> option ValueSource)) : Config :=
  merge_file_and_cli f (config_from_scan_command scan_cmd)
    (option_map get_explicit_config_keys scan_arg_matches).

(** *** The exit code *)

Definition EXIT_SUCCESS : Z := 0.
Definition EXIT_POLICY_FAILURE : Z := 2.
Definition EXIT_NO_URLS_PCT : Z := 3.

Definition evaluate_exit_code (policy : FailOn) (pct_threshold : Z) (report : ScanReport) : Z :=
  match policy with
  | Never => EXIT_SUCCESS
  | AnyFailure => if 0 <? report_failed report then EXIT_POLICY_FAILURE else EXIT_SUCCESS
  | PctGreaterThan =>
      if report_total report =? 0 then EXIT_NO_URLS_PCT
      else
        let failure_pct := f64_mul (f64_div (f64_of_int (report_failed report))
                                      (f64_of_int (report_total report))) (f64_of_int 100) in
        if f64_gt failure_pct (f64_of_int pct_threshold)
        then EXIT_POLICY_FAILURE else EXIT_SUCCESS
  end.

(** ** The layers, field by field *)

(** The fields that a file, the command line and the environment can set, with the type
    of their value and the name of their key. *)
Inductive Field : Type -> Type :=
  | F_file : Field str
  | F_log_level : Field LogLevel
  | F_log_format : Field LogFormat
  | F_db_path : Field str
  | F_max_concurrency : Field Z
  | F_timeout_seconds : Field Z
  | F_user_agent : Field str
  | F_rate_limit_rps : Field Z
  | F_fingerprints : Field (option str)
  | F_geoip : Field (option str)
  | F_status_port : Field (option Z)
  | F_enable_whois : Field bool
  | F_cache_dir : Field (option str)
  | F_scan_external_scripts : Field bool
  | F_fail_on : Field FailOn
  | F_fail_on_pct_threshold : Field Z
  | F_log_file : Field (option str)
  | F_drain_timeout_secs : Field Z.

Definition get {T} (f : Field T) (c : Config) : T :=
  match f in Field T return T with
  | F_file => file c | F_log_level => log_level c | F_log_format => log_format c
  | F_db_path => db_path c | F_max_concurrency => max_concurrency c
  | F_timeout_seconds => timeout_seconds c | F_user_agent => user_agent c
  | F_rate_limit_rps => rate_limit_rps c | F_fingerprints => fingerprints c
  | F_geoip => geoip c | F_status_port => status_port c | F_enable_whois => enable_whois c
  | F_cache_dir => cache_dir c | F_scan_external_scripts => scan_external_scripts c
  | F_fail_on => fail_on c | F_fail_on_pct_threshold => fail_on_pct_threshold c
  | F_log_file => log_file c | F_drain_timeout_secs => drain_timeout_secs c
  end.

Definition get_file {T} (f : Field T) (c : FileConfig) : option T :=
  match f in Field T return option T with
  | F_file => fc_file c | F_log_level => fc_log_level c | F_log_format => fc_log_format c
  | F_db_path => fc_db_path c | F_max_concurrency => fc_max_concurrency c
  | F_timeout_seconds => fc_timeout_seconds c | F_user_agent => fc_user_agent c
  | F_rate_limit_rps => fc_rate_limit_rps c
  | F_fingerprints => option_map Some (fc_fingerprints c)
  | F_geoip => option_map Some (fc_geoip c)
  | F_status_port => option_map Some (fc_status_port c)
  | F_enable_whois => fc_enable_whois c
  | F_cache_dir => option_map Some (fc_cache_dir c)
  | F_scan_external_scripts => fc_scan_external_scripts c
  | F_fail_on => fc_fail_on c | F_fail_on_pct_threshold => fc_fail_on_pct_threshold c
  | F_log_file => option_map Some (fc_log_file c)
  | F_drain_timeout_secs => fc_drain_timeout_secs c
  end.

Definition key {T} (f : Field T) : str :=
  match f with
  | F_file => lit "file" | F_log_level => lit "log_level" | F_log_format => lit "log_format"
  | F_db_path => lit "db_path" | F_max_concurrency => lit "max_concurrency"
  | F_timeout_seconds => lit "timeout_seconds" | F_user_agent => lit "user_agent"
  | F_rate_limit_rps => lit "rate_limit_rps" | F_fingerprints => lit "fingerprints"
  | F_geoip => lit "geoip" | F_status_port => lit "status_port"
  | F_enable_whois => lit "enable_whois" | F_cache_dir => lit "cache_dir"
  | F_scan_external_scripts => lit "scan_external_scripts" | F_fail_on => lit "fail_on"
  | F_fail_on_pct_threshold => lit "fail_on_pct_threshold" | F_log_file => lit "log_file"
  | F_drain_timeout_secs => lit "drain_timeout_secs"
  end.

(** The highest layer that sets a field. *)
Definition layered {T} (f : Field T) (overlay : option FileConfig) (cli : Config)
    (value_source : str -> option ValueSource) : T :=
  if is_explicit (value_source (key f)) then get f cli
  else match overlay with
       | Some fc => default (get f default_config) (get_file f fc)
       | None => get f default_config
       end.

(** ** Lemmas *)

(** Every field has its argument id: the inventory the source checks at compile time. *)
Lemma key_in_arg_ids {T} (f : Field T) : key f ∈ SCAN_CONFIG_ARG_IDS.
Proof. destruct f; apply list_elem_of_In; cbv [SCAN_CONFIG_ARG_IDS key In]; tauto. Qed.

Lemma elem_of_explicit value_source id :
  id <> lit "log_level_filter_override" -> id ∈ SCAN_CONFIG_ARG_IDS ->
  bool_decide (id ∈ get_explicit_config_keys value_source) = is_explicit (value_source id).
Proof.
  intros Hne Hin. unfold get_explicit_config_keys. apply eq_true_iff_eq.
  rewrite bool_decide_eq_true, elem_of_app, !list_elem_of_In, filter_In.
  rewrite list_elem_of_In in Hin. split.
  - intros [[_ ?]|H]; [done|]. destruct (_ || _); [|done]. by destruct H as [H|[]].
  - by left.
Qed.

Lemma overwrite_field {T} (f : Field T) value_source :
  overwrite (Some (get_explicit_config_keys value_source)) (key f)
  = is_explicit (value_source (key f)).
Proof. apply elem_of_explicit; [by destruct f|apply key_in_arg_ids]. Qed.

Lemma overwrite_no_whois value_source :
  overwrite (Some (get_explicit_config_keys value_source)) (lit "no_whois")
  = is_explicit (value_source (lit "no_whois")).
Proof.
  apply elem_of_explicit; [done|].
  apply list_elem_of_In. cbv [SCAN_CONFIG_ARG_IDS In]. tauto.
Qed.

Lemma get_apply_file {T} (f : Field T) c fc :
  get f (apply_file_config c fc) = default (get f c) (get_file f fc).
Proof. destruct f; cbn; try done; by destruct fc as [? ? ? ? ? ? ? ? [] [] [] ? [] ? ? ? [] ?]. Qed.

Lemma get_merge {T} (f : Field T) overlay cli explicit :
  get f (merge_file_and_cli overlay cli explicit)
  = (match f in Field T return T -> T with
     | F_enable_whois => λ b, if overwrite explicit (lit "no_whois") then false else b
     | _ => λ v, v
     end)
    (if overwrite explicit (key f) then get f cli
     else get f (match overlay with Some fc => apply_file_config default_config fc
                 | None => default_config end)).
Proof.
  destruct f; cbn -[overwrite lit default_config apply_file_config];
    try by destruct (overwrite _ _).
  destruct (overwrite explicit (lit "no_whois")); [done|]. by destruct (overwrite _ _).
Qed.

(** *** Floating-point comparison *)

Definition in_range (n : nat) : list Z := map Z.of_nat (seq 0 n).

Lemma elem_of_in_range n z : 0 <= z < Z.of_nat n -> In z (in_range n).
Proof.
  intros Hz. apply in_map_iff. exists (Z.to_nat z). split; [lia|]. apply in_seq. lia.
Qed.

Lemma not_above_zero : forallb (λ pct, negb (f64_gt (S754_zero false) (f64_of_int pct))
  && negb (f64_gt (S754_zero true) (f64_of_int pct))) (in_range 101) = true.
Proof. vm_compute. reflexivity. Qed.

Lemma zero_pct_not_above total pct : 0 <= pct <= 100 ->
  f64_gt (f64_mul (f64_div (f64_of_int 0) (f64_of_int total)) (f64_of_int 100)) (f64_of_int pct)
  = false.
Proof.
  intros Hp. pose proof not_above_zero as H. rewrite forallb_forall in H.
  specialize (H pct (elem_of_in_range 101 pct ltac:(lia))).
  apply andb_true_iff in H as [H1%negb_true_iff H2%negb_true_iff].
  change (f64_of_int 0) with (S754_zero false).
  destruct (f64_of_int total) as [sg|sg| |sg m e]; [done| |done|];
    cbn [f64_div SFdiv]; change (f64_of_int 100) with (S754_finite false 7036874417766400 (-46));
    cbn [f64_mul SFmul]; by destruct sg.
Qed.

(** The test of the policy, with the percentage computed once. *)
Definition failure_pct (total failed : Z) : spec_float :=
  f64_mul (f64_div (f64_of_int failed) (f64_of_int total)) (f64_of_int 100).

Definition pct_ok (total failed pct : Z) (above : bool) : bool :=
  if pct * total <? 100 * failed then above
  else if 100 * failed <? pct * total then negb above else true.

Definition thresholds : list (Z * spec_float) := map (λ p, (p, f64_of_int p)) (in_range 101).

Lemma pct_decisions : (let ts := thresholds in forallb (λ total, forallb (λ failed,
  if (0 <? total) && (failed <=? total) then
    let v := failure_pct total failed in
    forallb (λ t, pct_ok total failed (fst t) (f64_gt v (snd t))) ts
  else true) (in_range 31)) (in_range 31)) = true.
Proof. vm_compute. reflexivity. Qed.

Lemma pct_small total failed pct : 0 < total <= 30 -> 0 <= failed <= total -> 0 <= pct <= 100 ->
  pct_ok total failed pct (f64_gt (failure_pct total failed) (f64_of_int pct)) = true.
Proof.
  intros Ht Hf Hp. pose proof pct_decisions as H. cbn zeta in H. rewrite forallb_forall in H.
  specialize (H total (elem_of_in_range 31 total ltac:(lia))). rewrite forallb_forall in H.
  specialize (H failed (elem_of_in_range 31 failed ltac:(lia))). cbn beta in H.
  rewrite (proj2 (Z.ltb_lt 0 total)), (proj2 (Z.leb_le failed total)) in H by lia.
  cbn [andb] in H. rewrite forallb_forall in H.
  apply (H (pct, f64_of_int pct)), in_map_iff. exists pct. split; [done|].
  apply elem_of_in_range. lia.
Qed.

(** ** Properties *)

(** The layers take precedence as documented: for every setting the command line
    or the environment wins, then the file, then the default.  [no_whois] on the command
    line wins over everything for [enable_whois]. *)
Theorem config_layers {T} (f : Field T) overlay cmd value_source :
  get f (build_config_from_scan_command overlay cmd (Some value_source))
  = match f in Field T return T -> T with
    | F_enable_whois => λ b, if is_explicit (value_source (lit "no_whois")) then false else b
    | _ => λ v, v
    end (layered f overlay (config_from_scan_command cmd) value_source).
Proof.
  unfold build_config_from_scan_command. cbn [option_map].
  rewrite get_merge, overwrite_field, overwrite_no_whois. unfold layered.
  destruct (is_explicit (value_source (key f))); [done|].
  destruct overlay as [fc|]; [|done]. by rewrite get_apply_file.
Qed.

(** The [--allow-degraded-fingerprints] flag has no effect: whatever the command
    line says, the merged configuration does not allow a degraded catalog; and a
    configuration built without argument sources never enables WHOIS, whatever the
    command and the file say. *)
Theorem merge_loses_settings overlay cmd matches :
  allow_degraded_fingerprints (build_config_from_scan_command overlay cmd matches) = false
  ∧ enable_whois (build_config_from_scan_command overlay cmd None) = false.
Proof. split; [by destruct overlay|done]. Qed.

(** A rejected configuration: the limits are violated. *)
Ltac refused := split; [intros; split; [done|intros (? & ? & ? & ? & ?); lia]|done].

(** Validation accepts exactly the configurations within the limits, and then the
    semaphore and the token bucket of the scan have between one and 500 permits. *)
Theorem validate_limits c :
  (0 <= max_concurrency c -> 0 <= rate_limit_rps c -> 0 <= timeout_seconds c ->
   (validate c = Ok tt <->
    1 <= max_concurrency c <= 500 ∧ rate_limit_rps c <= 100 ∧ 1 <= timeout_seconds c
    ∧ fail_on_pct_threshold c <= 100 ∧ trim (user_agent c) <> []))
  ∧ (0 <= max_concurrency c -> validate c = Ok tt -> 1 <= rate_burst c <= 500).
Proof.
  unfold validate, MAX_CONCURRENCY, MAX_RATE_LIMIT_RPS, rate_burst, u32_max.
  destruct (Z.eqb_spec (max_concurrency c) 0); [refused|].
  destruct (Z.ltb_spec 500 (max_concurrency c)); [refused|].
  destruct (Z.ltb_spec 100 (rate_limit_rps c)); [refused|].
  destruct (Z.eqb_spec (timeout_seconds c) 0); [refused|].
  destruct (Z.ltb_spec 100 (fail_on_pct_threshold c)); [refused|].
  case_bool_decide as Hua.
  - split; [|done]. intros. split; [done|]. by intros (_ & _ & _ & _ & ?).
  - split; [intros; split; [|done]; intros _; split_and!; lia || done|].
    intros Hm _. destruct (Z.ltb_spec 0 (rate_limit_rps c)); lia.
Qed.

(** C11: A scan started from the command line never processes a URL that the SSRF
    check refuses: no layer of the configuration can enable the test mode that skips it. *)
Theorem cli_scan_safe `{L : Lowercase} `{U : UrlLib} `{Hi : HashIter} warn overlay cmd matches s :
  let config := build_config_from_scan_command overlay cmd matches in
  reachable warn (allow_localhost_for_tests config) (Z.to_nat (max_concurrency config)) s ->
  Forall (λ t, validate_url_safe (t_url t) = Ok tt) (tasks s).
Proof.
  intros config Hr. pose proof (reachable_invariant _ _ _ _ Hr) as [_ _ _ _ I5 _].
  eapply Forall_impl; [|exact I5]. intros t (_ & _ & Hs). by apply Hs.
Qed.

(** The exit code: never a failure for [never], a failure for [any-failure] exactly
    when a URL failed, and for a percentage threshold a code of its own when there were no
    URLs; a scan without failed URLs is never a policy failure. *)
Theorem exit_code_table policy pct report :
  0 <= pct <= 100 ->
  evaluate_exit_code Never pct report = EXIT_SUCCESS
  ∧ (evaluate_exit_code AnyFailure pct report = EXIT_POLICY_FAILURE <-> 0 < report_failed report)
  ∧ (evaluate_exit_code PctGreaterThan pct report = EXIT_NO_URLS_PCT <-> report_total report = 0)
  ∧ (report_failed report = 0 -> evaluate_exit_code policy pct report <> EXIT_POLICY_FAILURE).
Proof.
  intros Hp. split_and!; [done| | |].
  - cbn. destruct (Z.ltb_spec 0 (report_failed report)); split; intros; try done; lia.
  - unfold evaluate_exit_code. destruct (Z.eqb_spec (report_total report) 0); [done|].
    split; [|done]. cbn zeta. by destruct (f64_gt _ _).
  - intros H0. unfold evaluate_exit_code. rewrite H0. destruct policy; [done|done|].
    destruct (report_total report =? 0); [done|]. cbn zeta. by rewrite zero_pct_not_above.
Qed.

(** The percentage is computed in binary64, so a scan exactly at the threshold
    can be a policy failure: 7 failures of 100 URLs exceed a threshold of 7 per cent, while
    1 of 10 does not exceed 10.  The rounding matters at the threshold only: up to 30 URLs
    a rate above the threshold always fails and a rate below never does. *)
Theorem pct_threshold_rounding :
  evaluate_exit_code PctGreaterThan 7 (MkReport 100 93 7 0) = EXIT_POLICY_FAILURE
  ∧ evaluate_exit_code PctGreaterThan 10 (MkReport 10 9 1 0) = EXIT_SUCCESS
  ∧ ∀ total failed pct, 0 < total <= 30 -> 0 <= failed <= total -> 0 <= pct <= 100 ->
      let code := evaluate_exit_code PctGreaterThan pct (MkReport total (total - failed) failed 0) in
      (pct * total < 100 * failed -> code = EXIT_POLICY_FAILURE)
      ∧ (100 * failed < pct * total -> code = EXIT_SUCCESS).
Proof.
  split_and!; [vm_compute; reflexivity..|].
  intros total failed pct Ht Hf Hp code.
  pose proof (pct_small total failed pct Ht Hf Hp) as H. unfold pct_ok in H.
  assert (Hcode : code = if f64_gt (failure_pct total failed) (f64_of_int pct)
                         then EXIT_POLICY_FAILURE else EXIT_SUCCESS).
  { subst code. unfold evaluate_exit_code. cbn [report_total report_failed].
    by destruct (Z.eqb_spec total 0); [lia|]. }
  rewrite Hcode. split; intros Hc.
  - apply Z.ltb_lt in Hc. rewrite Hc in H. by rewrite H.
  - assert (E : (pct * total <? 100 * failed) = false) by lia. rewrite E in H.
    apply Z.ltb_lt in Hc. rewrite Hc in H. by apply negb_true_iff in H as ->.
Qed.

(** ** Concrete configurations *)

Module DemoConfig.
(** [domain-status scan urls.txt --max-concurrency 2 --allow-degraded-fingerprints]. *)
Definition command : ScanCommand := {|
  cmd_file := lit "urls.txt"; cmd_db_path := lit "./domain_status.db";
  cmd_timeout_seconds := 10; cmd_max_concurrency := 2; cmd_rate_limit_rps := 15;
  cmd_no_whois := false; cmd_geoip := None; cmd_scan_external_scripts := false;
  cmd_fail_on := Never; cmd_verbosity := FInfo; cmd_log_level := LogInfo;
  cmd_log_format := Plain; cmd_log_file := lit "domain_status.log"; cmd_no_progress := false;
  cmd_fail_on_pct_threshold := 10; cmd_user_agent := DEFAULT_USER_AGENT;
  cmd_fingerprints := None; cmd_allow_degraded_fingerprints := true; cmd_status_port := None;
  cmd_cache_dir := None; cmd_drain_timeout_secs := 10; cmd_enable_whois := true |}.

Definition sources (id : str) : option ValueSource :=
  if streqb id (lit "file") || streqb id (lit "max_concurrency") then Some CommandLine
  else Some DefaultValue.
End DemoConfig.

Lemma cli_scan_safe_witness :
  map t_url (tasks (DemoScan.after DemoScan.two_urls))
  = [lit "https://a.example"; lit "https://b.example"]
  ∧ Forall (λ t, @validate_url_safe Demo.urls Demo.ascii_lowercase (t_url t) = Ok tt)
      (tasks (DemoScan.after DemoScan.two_urls)).
Proof.
  split; [vm_compute; reflexivity|].
  apply (@cli_scan_safe Demo.ascii_lowercase Demo.urls listing true None DemoConfig.command
           (Some DemoConfig.sources)).
  apply DemoScan.after_reachable. vm_compute. eexists. reflexivity.
Defined.

Lemma exit_code_table_witness :
  evaluate_exit_code AnyFailure 10 (MkReport 10 8 2 0) = EXIT_POLICY_FAILURE.
Proof. apply (exit_code_table AnyFailure 10 (MkReport 10 8 2 0)); reflexivity || lia. Defined.
