(* ===== verification/Patterns.v ===== *)
(** * Wappalyzer patterns ([src/src/fingerprint/patterns/])

    [mod.rs]: the pattern syntax, the cached string matcher, the meta-tag routing;
    [version.rs]: version templates; [compiled.rs]: patterns compiled at load time.
    The [regex] crate is the class [RegexLib], its documented behaviour [RegexLaws]. *)

From S2P Require Import Prelude Net.

(** ** The regex crate *)

(** The groups of a match: group 0 is the whole match, absent groups did not take part. *)
Definition Captures : Type := list (option str).

Class RegexLib := {
  Regex : Type;
  regex_new : str -> option Regex;
  regex_escape : str -> str;
  is_match : Regex -> str -> bool;
  captures : Regex -> str -> option Captures;
  (** The characters matched by the class [\d]. *)
  re_digit : Z -> bool;
}.

Class RegexLaws (R : RegexLib) := {
  is_match_captures : ∀ re text,
    is_match re text = match captures re text with Some _ => true | None => false end;
}.

(** [Captures::get]. *)
Definition cap_get (caps : Captures) (i : nat) : option str := mjoin (caps !! i).

(** ** Pattern syntax *)

Definition MIN_PATTERN_CONFIDENCE : Z := 50.

Record PatternMatchResult := MkMatch { matched : bool; version : option str }.
Definition no_match : PatternMatchResult := MkMatch false None.

Record ParsedPattern := MkParsed {
  pattern_for_match : str;
  version_template : option str;
  confidence : Z;
}.

(** One metadata part: the first [version] wins, the last valid [confidence] wins. *)
Definition parse_part (acc : option str * Z) (part : str) : option str * Z :=
  let (version_template, confidence) := acc in
  match split_once 58 part with
  | Some (key, value) =>
      if streqb key (lit "version") && bool_decide (version_template = None)
      then (Some value, confidence)
      else if streqb key (lit "confidence") then
        match parse_uint u32_max (trim value) with
        | Some n => (version_template, n)
        | None => acc
        end
      else acc
  | None => acc
  end.

Definition metadata_separator : str := lit "\;".

Definition parse_pattern (pattern : str) : ParsedPattern :=
  match split_str metadata_separator pattern with
  | [] => MkParsed [] None 100
  | first :: parts =>
      let (version_template, confidence) := foldl parse_part (None, 100) parts in
      MkParsed (trim first) version_template confidence
  end.

Definition parse_technology_reference (raw : str) : str * option str :=
  let parsed := parse_pattern raw in (pattern_for_match parsed, version_template parsed).

Definition is_regex_pattern (pattern : str) : bool :=
  starts_with [94] pattern || contains_char 36 pattern || contains_char 92 pattern
  || contains_char 91 pattern || contains_char 40 pattern || contains_char 42 pattern
  || contains_char 43 pattern || contains_char 63 pattern.

Definition handle_empty_pattern (version_template : option str) : PatternMatchResult :=
  MkMatch true
    match version_template with
    | Some template =>
        let template := trim template in
        if negb (nonempty template) then None
        else if negb (contains_char 92 template) || negb (existsb is_ascii_digit template)
        then Some template else None
    | None => None
    end.

(** ** version.rs *)

Section Version.
Context `{R : RegexLib}.

Definition placeholder_single (i : nat) : str := 92 :: dec (Z.of_nat i).
Definition placeholder_double (i : nat) : str := 92 :: 92 :: dec (Z.of_nat i).

(** Replacing all matches of the regex of placeholders, a backslash and digits, by
    nothing; [in_run] tells whether the digits of a placeholder are being dropped. *)
Fixpoint remove_placeholders_go (in_run : bool) (s : str) : str :=
  match s with
  | [] => []
  | c :: s' =>
      if in_run && re_digit c then remove_placeholders_go true s'
      else match c, s' with
           | 92, d :: _ =>
               if re_digit d then remove_placeholders_go true s'
               else c :: remove_placeholders_go false s'
           | _, _ => c :: remove_placeholders_go false s'
           end
  end.
Definition remove_placeholders (s : str) : str := remove_placeholders_go false s.

(** The groups [len-1, ..., 1], highest first. *)
Definition group_numbers (caps : Captures) : list nat := reverse (seq 1 (length caps - 1)).

Definition substitute (i : nat) (caps : Captures) (s : str) : str :=
  match cap_get caps i with
  | Some v => replace (placeholder_single i) v (replace (placeholder_double i) v s)
  | None => s
  end.

Definition replace_placeholders (template : str) (caps : Captures) : str :=
  foldl (λ s i, substitute i caps s) template (group_numbers caps).

Definition parse_ternary_expression (expression : str) : option (str * str) :=
  match split_once 63 expression with
  | Some (_, after_question) => split_once 58 after_question
  | None => None
  end.

Definition evaluate_version_ternary (expression : str) (caps : Captures) : str :=
  match parse_ternary_expression expression with
  | None => expression
  | Some (true_part, false_part) =>
      let has_capture_groups := (1 <? length caps)%nat in
      if negb (nonempty true_part) then
        if negb (nonempty false_part) then []
        else replace_placeholders false_part caps
      else if has_capture_groups then replace_placeholders true_part caps
      else replace_placeholders false_part caps
  end.

Definition in_template (version_expr : str) (i : nat) : bool :=
  contains (placeholder_double i) version_expr
  || contains (placeholder_single i) version_expr.

Definition placeholders_in_template (version_expr : str) : list nat :=
  filter (λ i, in_template version_expr i = true) (seq 1 99).

(** The final clean-up: what a semicolon in the result means. *)
Definition finish_version (placeholders : list nat) (result : str) : option str :=
  if negb (nonempty result) then None
  else
    let trimmed := trim result in
    if contains_char 59 trimmed && negb (1 <? length placeholders)%nat then
      let first_part := trim (match split_char 59 trimmed with h :: _ => h | [] => trimmed end) in
      if nonempty first_part then Some first_part else Some trimmed
    else Some trimmed.

Definition extract_version_from_template (template : str) (caps : Captures) : option str :=
  match strip_prefix (lit "version:") template with
  | None => None
  | Some rest =>
      let version_expr := trim rest in
      if negb (nonempty version_expr) then None
      else
        let placeholders := placeholders_in_template version_expr in
        let result :=
          if contains_char 63 version_expr then evaluate_version_ternary version_expr caps
          else remove_placeholders
                 (foldl (λ s i, if bool_decide (i ∈ placeholders) then substitute i caps s
                                else s) version_expr (group_numbers caps)) in
        finish_version placeholders (remove_placeholders result)
  end.
End Version.

(** ** Matching a string pattern, through the regex cache *)

Section Matching.
Context `{R : RegexLib}.

Definition Cache : Type := gmap str Regex.

Definition case_insensitive (source : str) : str := lit "(?i)" ++ source.

(** [get_or_compile_regex]: the cache is a hit, or the regex is compiled and stored. *)
Definition get_or_compile_regex (pattern cache_key : str) (cache : Cache)
  : Cache * option Regex :=
  match cache !! cache_key with
  | Some cached => (cache, Some cached)
  | None =>
      match regex_new (case_insensitive pattern) with
      | Some re => (<[cache_key := re]> cache, Some re)
      | None => (cache, None)
      end
  end.

Definition matches_pattern (pattern text : str) (cache : Cache) : Cache * PatternMatchResult :=
  let parsed := parse_pattern pattern in
  if confidence parsed <? MIN_PATTERN_CONFIDENCE then (cache, no_match)
  else if negb (nonempty (pattern_for_match parsed)) then
    (cache, handle_empty_pattern (version_template parsed))
  else if is_regex_pattern (pattern_for_match parsed) then
    match get_or_compile_regex (pattern_for_match parsed) (pattern_for_match parsed) cache with
    | (cache, None) => (cache, no_match)
    | (cache, Some re) =>
        (cache,
         match captures re text with
         | Some caps =>
             MkMatch true
               match version_template parsed with
               | Some template => extract_version_from_template (lit "version:" ++ template) caps
               | None => None
               end
         | None => no_match
         end)
    end
  else
    match get_or_compile_regex (regex_escape (pattern_for_match parsed))
            (pattern_for_match parsed) cache with
    | (cache, None) => (cache, no_match)
    | (cache, Some re) => (cache, MkMatch (is_match re text) None)
    end.

(** ** compiled.rs *)

Inductive CompiledPattern :=
  | Any (version_template : option str) (presence_only : bool)
  | RegexPattern (regex : Regex) (version_template : option str).

Definition presence_only (p : CompiledPattern) : bool :=
  match p with Any _ true => true | _ => false end.

Definition evaluate_regex (regex : Regex) (version_template : option str) (text : str)
  : PatternMatchResult :=
  match version_template with
  | None => MkMatch (is_match regex text) None
  | Some template =>
      match captures regex text with
      | Some caps =>
          MkMatch true (extract_version_from_template (lit "version:" ++ template) caps)
      | None => no_match
      end
  end.

Definition evaluate (p : CompiledPattern) (text : str) : PatternMatchResult :=
  match p with
  | Any version_template _ => handle_empty_pattern version_template
  | RegexPattern regex version_template => evaluate_regex regex version_template text
  end.

Definition compile_pattern (pattern : str) : option CompiledPattern :=
  if negb (nonempty pattern) then Some (Any None true)
  else
    let parsed := parse_pattern pattern in
    if confidence parsed <? MIN_PATTERN_CONFIDENCE then None
    else if negb (nonempty (pattern_for_match parsed)) then
      Some (Any (version_template parsed) false)
    else
      let (source, version_template) :=
        if is_regex_pattern (pattern_for_match parsed)
        then (pattern_for_match parsed, version_template parsed)
        else (regex_escape (pattern_for_match parsed), None) in
      match regex_new (case_insensitive source) with
      | Some regex => Some (RegexPattern regex version_template)
      | None => None
      end.

Definition compile_list (patterns : list str) : list CompiledPattern :=
  omap compile_pattern patterns.

(** ** Meta tags *)

(** [absorb_meta_hit]: the new flags, and whether to stop. *)
Definition absorb_meta_hit (result : PatternMatchResult) (st : bool * option str)
  : bool * option str * bool :=
  let (has_match, matched_version) := st in
  if matched result then
    let matched_version :=
      match matched_version with None => version result | Some _ => matched_version end in
    (true, matched_version, bool_decide (is_Some matched_version))
  else (has_match, matched_version, false).

(** The inner loop over the patterns, for one value. *)
Fixpoint meta_patterns (patterns : list CompiledPattern) (meta_value : str)
    (st : bool * option str) : bool * option str * bool :=
  match patterns with
  | [] => (st, false)
  | pattern :: patterns =>
      match absorb_meta_hit (evaluate pattern meta_value) st with
      | (st, true) => (st, true)
      | (st, false) => meta_patterns patterns meta_value st
      end
  end.

Fixpoint meta_values_loop (patterns : list CompiledPattern) (meta_values : list str)
    (st : bool * option str) : PatternMatchResult :=
  match meta_values with
  | [] => MkMatch st.1 st.2
  | meta_value :: meta_values =>
      match meta_patterns patterns meta_value st with
      | (st, true) => MkMatch true st.2
      | (st, false) => meta_values_loop patterns meta_values st
      end
  end.

Definition compiled_meta_values (patterns : list CompiledPattern) (meta_values : list str)
  : PatternMatchResult := meta_values_loop patterns meta_values (false, None).

Context `{L : Lowercase}.

(** One lookup of [route_meta_key]: a result only if it matched. *)
Definition try_key (check_patterns : list str -> PatternMatchResult)
    (meta_tags : gmap str (list str)) (key : str) : option PatternMatchResult :=
  match meta_tags !! key with
  | Some meta_value =>
      let result := check_patterns meta_value in
      if matched result then Some result else None
  | None => None
  end.

Definition route_meta_key (meta_key : str) (meta_tags : gmap str (list str))
    (check_patterns : list str -> PatternMatchResult) : PatternMatchResult :=
  let meta_key_lower := to_lowercase meta_key in
  let try := try_key check_patterns meta_tags in
  let found :=
    match strip_prefix (lit "property:") meta_key_lower with
    | Some key_without_prefix => try (lit "property:" ++ key_without_prefix)
    | None =>
        match strip_prefix (lit "http-equiv:") meta_key_lower with
        | Some key_without_prefix => try (lit "http-equiv:" ++ key_without_prefix)
        | None =>
            match try (lit "name:" ++ meta_key_lower) with
            | Some r => Some r
            | None => match try (lit "property:" ++ meta_key_lower) with
                      | Some r => Some r
                      | None => try (lit "http-equiv:" ++ meta_key_lower)
                      end
            end
        end
    end in
  match found with Some r => r | None => no_match end.

Definition check_compiled_meta_patterns (meta_key : str) (patterns : list CompiledPattern)
    (meta_tags : gmap str (list str)) : PatternMatchResult :=
  route_meta_key meta_key meta_tags (compiled_meta_values patterns).
End Matching.

(** ** Lemmas *)

(** Splitting at a separator of two different characters. *)
Lemma split_str_go_app a b rest acc x :
  b ∉ x -> a <> b ->
  split_str_go [a; b] 0 acc (x ++ a :: b :: rest) = (reverse acc ++ x) :: split_str [a; b] rest.
Proof.
  intros Hx Hab. revert acc. induction x as [|c x IH]; intros acc.
  - simpl. unfold starts_with. simpl. rewrite !Z.eqb_refl. by rewrite app_nil_r.
  - apply not_elem_of_cons in Hx as [Hc Hx].
    assert (E : starts_with [a; b] ((c :: x) ++ a :: b :: rest) = false).
    { unfold starts_with. simpl. destruct (Z.eqb_spec a c); [|done].
      destruct x as [|d x]; simpl.
      - destruct (Z.eqb_spec b a); [congruence|done].
      - apply not_elem_of_cons in Hx as [Hd _]. by destruct (Z.eqb_spec b d). }
    cbn [app split_str_go]. cbn [app] in E. rewrite E, IH by done.
    by rewrite reverse_cons, <- app_assoc.
Qed.

Lemma split_str_app a b x rest :
  b ∉ x -> a <> b -> split_str [a; b] (x ++ [a; b] ++ rest) = x :: split_str [a; b] rest.
Proof.
  intros. unfold split_str at 1. change ([a; b] ++ rest) with (a :: b :: rest).
  by rewrite split_str_go_app.
Qed.

Lemma split_str_go_none a b acc x : b ∉ x -> split_str_go [a; b] 0 acc x = [reverse acc ++ x].
Proof.
  revert acc. induction x as [|c x IH]; intros acc Hx; [simpl; by rewrite app_nil_r|].
  apply not_elem_of_cons in Hx as [Hc Hx].
  assert (E : starts_with [a; b] (c :: x) = false).
  { unfold starts_with. simpl. destruct (a =? c); [|done]. destruct x as [|d x]; [done|].
    apply not_elem_of_cons in Hx as [Hd _]. by destruct (Z.eqb_spec b d). }
  cbn [split_str_go]. rewrite E, IH by done. by rewrite reverse_cons, <- app_assoc.
Qed.

Lemma split_str_none a b x : b ∉ x -> split_str [a; b] x = [x].
Proof. intros. unfold split_str. by rewrite split_str_go_none. Qed.

(** What the metadata parts say, declaratively. *)
Definition part_version (part : str) : option str :=
  match split_once 58 part with
  | Some (key, value) => if streqb key (lit "version") then Some value else None
  | None => None
  end.
Definition part_confidence (part : str) : option Z :=
  match split_once 58 part with
  | Some (key, value) =>
      if streqb key (lit "confidence") then parse_uint u32_max (trim value) else None
  | None => None
  end.

Lemma foldl_parse_part parts v n :
  foldl parse_part (v, n) parts
  = (match v with Some _ => v | None => head (omap part_version parts) end,
     match list.last (omap part_confidence parts) with Some m => m | None => n end).
Proof.
  revert v n. induction parts as [|p parts IH]; intros v n; [by destruct v|].
  change (omap part_version (p :: parts)) with
    (match part_version p with Some x => x :: omap part_version parts
     | None => omap part_version parts end).
  change (omap part_confidence (p :: parts)) with
    (match part_confidence p with Some x => x :: omap part_confidence parts
     | None => omap part_confidence parts end).
  cbn [foldl parse_part]. unfold part_version at 1, part_confidence at 1.
  destruct (split_once 58 p) as [[key value]|]; [|by rewrite IH].
  destruct (streqb key (lit "version")) eqn:Ek.
  - apply streqb_eq in Ek as ->.
    replace (streqb (lit "version") (lit "confidence")) with false by reflexivity.
    destruct v as [v|]; cbn [andb]; [rewrite bool_decide_eq_false_2 by done; by rewrite IH|].
    rewrite bool_decide_eq_true_2 by done. by rewrite IH.
  - cbn [andb]. destruct (streqb key (lit "confidence")); [|by rewrite IH].
    destruct (parse_uint u32_max (trim value)) as [m|]; [|by rewrite IH].
    rewrite IH. f_equal.
    destruct (omap part_confidence parts) as [|y l] eqn:El; [done|].
    destruct (list.last (y :: l)) eqn:Hl; [|by apply last_None in Hl].
    cbn. cbn in Hl. by rewrite Hl.
Qed.

(** No backslash is followed by a digit. *)
Section NoPlaceholder.
Context `{R : RegexLib}.

Fixpoint no_placeholder (s : str) : Prop :=
  match s with
  | c :: (d :: _) as s' => (c = 92 -> re_digit d = false) ∧ no_placeholder s'
  | _ => True
  end.

Lemma no_placeholder_tail c s : no_placeholder (c :: s) -> no_placeholder s.
Proof. destruct s; simpl; [done|]. tauto. Qed.

Lemma no_placeholder_app a b : no_placeholder (a ++ b) -> no_placeholder a ∧ no_placeholder b.
Proof.
  induction a as [|c a IH]; simpl app; [by split|]. intros H.
  destruct (IH (no_placeholder_tail _ _ H)) as [Ha Hb]. split; [|done].
  destruct a as [|d a]; [done|]. split; [by apply H|done].
Qed.

Definition not_digit_head (s : str) : Prop :=
  match s with [] => True | c :: _ => re_digit c = false end.

Lemma remove_placeholders_go_ok s :
  re_digit 92 = false ->
  (no_placeholder (remove_placeholders_go true s)
   ∧ not_digit_head (remove_placeholders_go true s))
  ∧ no_placeholder (remove_placeholders_go false s)
  ∧ (not_digit_head s -> not_digit_head (remove_placeholders_go false s)).
Proof.
  intros H92. induction s as [|c s [[IH1 IH2] [IH3 IH4]]]; [done|].
  assert (Hkeep : ∀ t, t = remove_placeholders_go false s -> (c = 92 -> not_digit_head s) ->
            no_placeholder (c :: t)).
  { intros t -> Hc. destruct (remove_placeholders_go false s) as [|d t] eqn:Et; [done|].
    split; [|done]. intros Hc'. apply (IH4 (Hc Hc')). }
  assert (Hplace : ∀ t, t = match c, s with
      | 92, d :: _ => if re_digit d then remove_placeholders_go true s
                      else c :: remove_placeholders_go false s
      | _, _ => c :: remove_placeholders_go false s end ->
      no_placeholder t ∧ (re_digit c = false -> not_digit_head t)).
  { intros t ->. destruct (decide (c = 92)) as [->|Hc].
    - destruct s as [|d s]; [done|]. destruct (re_digit d) eqn:Ed; [by split|].
      split; [|done]. apply Hkeep; [done|]. intros _. exact Ed.
    - assert (E : match c, s with
        | 92, d :: _ => if re_digit d then remove_placeholders_go true s
                        else c :: remove_placeholders_go false s
        | _, _ => c :: remove_placeholders_go false s end
        = c :: remove_placeholders_go false s).
      { destruct c as [|p|p]; try done. do 7 (destruct p as [p|p|]; try done). }
      rewrite E. split; [by apply Hkeep|done]. }
  cbn [remove_placeholders_go andb].
  destruct (Hplace _ eq_refl) as [Hp1 Hp2].
  destruct (re_digit c) eqn:Ed; repeat split; auto.
  intros Hh. simpl in Hh. congruence.
Qed.
End NoPlaceholder.

(** ** Properties *)

(** In the metadata of a pattern the first [version] wins and the last readable
    [confidence] wins, defaulting to 100; the rest is the text before the first separator,
    trimmed. *)
Theorem parse_pattern_metadata pattern text parts :
  split_str metadata_separator pattern = text :: parts ->
  parse_pattern pattern
  = MkParsed (trim text) (head (omap part_version parts))
      (match list.last (omap part_confidence parts) with Some n => n | None => 100 end).
Proof.
  intros E. unfold parse_pattern. rewrite E, foldl_parse_part. done.
Qed.

Definition annotated : str := lit "jquery\;version:1\;confidence:40\;version:2\;confidence:x".
Lemma parse_pattern_metadata_witness :
  parse_pattern annotated = MkParsed (lit "jquery") (Some (lit "1")) 40.
Proof.
  rewrite (parse_pattern_metadata annotated (lit "jquery")
             [lit "version:1"; lit "confidence:40"; lit "version:2"; lit "confidence:x"]);
    vm_compute; reflexivity.
Defined.

(** An annotated pattern parses back to its text, version and confidence. *)
Theorem parse_pattern_roundtrip text v n :
  trim text = text -> 59 ∉ text -> 59 ∉ v -> 0 <= n <= u32_max ->
  parse_pattern (text ++ metadata_separator ++ (lit "version:" ++ v)
                 ++ metadata_separator ++ (lit "confidence:" ++ dec n))
  = MkParsed text (Some v) n.
Proof.
  intros Ht H1 H2 Hn.
  assert (Hd : Forall (λ c, 48 <= c <= 57) (dec n)) by (apply dec_digits; lia).
  assert (H3 : 59 ∉ lit "confidence:" ++ dec n).
  { rewrite elem_of_app. intros [H|H].
    - apply contains_char_iff in H. vm_compute in H. discriminate.
    - rewrite Forall_forall in Hd. apply list_elem_of_In, Hd in H. lia. }
  assert (H4 : 59 ∉ lit "version:" ++ v).
  { rewrite elem_of_app. intros [H|H]; [|done].
    apply contains_char_iff in H. vm_compute in H. discriminate. }
  rewrite (parse_pattern_metadata _ text [lit "version:" ++ v; lit "confidence:" ++ dec n]).
  - rewrite Ht.
    assert (Ev : part_version (lit "version:" ++ v) = Some v).
    { unfold part_version. change (lit "version:" ++ v) with (lit "version" ++ 58 :: v).
      rewrite split_once_app by (apply contains_char_false; reflexivity). done. }
    assert (Ec : part_confidence (lit "confidence:" ++ dec n) = Some n).
    { unfold part_confidence.
      change (lit "confidence:" ++ dec n) with (lit "confidence" ++ 58 :: dec n).
      rewrite split_once_app by (apply contains_char_false; reflexivity).
      change (streqb (lit "confidence") (lit "confidence")) with true. cbv iota.
      unfold trim. rewrite trim_by_none; [by apply parse_uint_dec|].
      eapply Forall_impl; [|exact Hd]. intros c Hc. cbv beta in *. unfold is_whitespace. lia. }
    assert (Ev' : part_confidence (lit "version:" ++ v) = None).
    { unfold part_confidence. change (lit "version:" ++ v) with (lit "version" ++ 58 :: v).
      by rewrite split_once_app by (apply contains_char_false; reflexivity). }
    change (omap part_version [lit "version:" ++ v; lit "confidence:" ++ dec n]) with
      (match part_version (lit "version:" ++ v) with
       | Some x => x :: omap part_version [lit "confidence:" ++ dec n]
       | None => omap part_version [lit "confidence:" ++ dec n] end).
    change (omap part_confidence [lit "version:" ++ v; lit "confidence:" ++ dec n]) with
      (match part_confidence (lit "version:" ++ v) with
       | Some x => x :: omap part_confidence [lit "confidence:" ++ dec n]
       | None => match part_confidence (lit "confidence:" ++ dec n) with
                 | Some x => [x] | None => [] end end).
    by rewrite Ev, Ev', Ec.
  - unfold metadata_separator. change (lit "\;") with [92; 59].
    rewrite split_str_app by done. rewrite split_str_app by done.
    by rewrite split_str_none.
Qed.

Lemma parse_pattern_roundtrip_witness :
  parse_pattern (lit "nginx/(\d+)" ++ metadata_separator ++ (lit "version:" ++ lit "\1")
                 ++ metadata_separator ++ (lit "confidence:" ++ dec 75))
  = MkParsed (lit "nginx/(\d+)") (Some (lit "\1")) 75.
Proof.
  apply parse_pattern_roundtrip.
  - reflexivity.
  - apply contains_char_false. reflexivity.
  - apply contains_char_false. reflexivity.
  - unfold u32_max. lia.
Defined.

Section PatternProperties.
Context `{R : RegexLib}.

(** The source a pattern text is compiled from; cookie wildcards have keys of their own. *)
Definition pattern_source (text : str) : str :=
  if is_regex_pattern text then text else regex_escape text.

Definition cookie_key (k : str) : bool := starts_with (lit "cookie:") k.

(** Every entry of the cache is the compilation of its key. *)
Definition cache_ok (cache : Cache) : Prop :=
  ∀ k re, cache !! k = Some re -> cookie_key k = false ->
    regex_new (case_insensitive (pattern_source k)) = Some re.

Lemma get_or_compile_ok text cache :
  cache_ok cache -> cookie_key text = false ->
  ∃ cache', get_or_compile_regex (pattern_source text) text cache
            = (cache', regex_new (case_insensitive (pattern_source text)))
    ∧ cache_ok cache'.
Proof.
  intros Hc Hk. unfold get_or_compile_regex.
  destruct (cache !! text) as [re|] eqn:E.
  { exists cache. by rewrite (Hc _ _ E Hk). }
  destruct (regex_new _) as [re|] eqn:Er; [|by exists cache].
  exists (<[text := re]> cache). split; [done|]. intros k re' Hl Hk'. unfold Cache in *.
  destruct (decide (k = text)) as [->|Hne].
  - rewrite lookup_insert_eq in Hl. by injection Hl as <-.
  - rewrite lookup_insert_ne in Hl by done. by apply Hc.
Qed.

(** Patterns compiled at load time give the same result as the cached string
    matcher on every text: low confidence, empty patterns, invalid regexes and version
    capture included.  The matcher keeps the cache consistent, so its answers do not
    depend on what was matched before. *)
Theorem matches_pattern_compiled `{!RegexLaws R} pattern text cache :
  cache_ok cache -> cookie_key (pattern_for_match (parse_pattern pattern)) = false ->
  ∃ cache', cache_ok cache' ∧
    matches_pattern pattern text cache
    = (cache', match compile_pattern pattern with
               | Some compiled => evaluate compiled text
               | None => no_match
               end).
Proof.
  intros Hc Hk. unfold matches_pattern, compile_pattern.
  destruct (nonempty pattern) eqn:Ep; cbn [negb].
  2: { destruct pattern; [|done]. exists cache. by split. }
  destruct (confidence (parse_pattern pattern) <? MIN_PATTERN_CONFIDENCE); [by exists cache|].
  destruct (nonempty (pattern_for_match (parse_pattern pattern))); cbn [negb];
    [|by exists cache].
  destruct (get_or_compile_ok _ cache Hc Hk) as (cache' & E & Hc').
  exists cache'. split; [done|]. unfold pattern_source in E.
  destruct (is_regex_pattern (pattern_for_match (parse_pattern pattern)));
    rewrite E; destruct (regex_new _) as [re|]; try done.
  unfold evaluate, evaluate_regex. f_equal.
  destruct (version_template (parse_pattern pattern)) as [t|]; [done|].
  rewrite is_match_captures. by destruct (captures re text).
Qed.

Definition several_placeholders (template : str) : bool :=
  match strip_prefix (lit "version:") template with
  | Some rest => (1 <? length (placeholders_in_template (trim rest)))%nat
  | None => false
  end.

Definition before_semicolon (v : str) : str :=
  match split_char 59 v with h :: _ => h | [] => v end.

(** A reported version is trimmed, holds no unexpanded placeholder, and holds a
    semicolon only if its template used several placeholders or nothing precedes it. *)
Theorem extracted_version_clean template caps v :
  re_digit 92 = false -> extract_version_from_template template caps = Some v ->
  no_placeholder v ∧ trim v = v
  ∧ (59 ∈ v -> several_placeholders template = true \/ trim (before_semicolon v) = []).
Proof.
  intros H92. unfold extract_version_from_template, several_placeholders.
  destruct (strip_prefix (lit "version:") template) as [rest|]; [|done]. destruct (negb _); [done|].
  set (raw := if contains_char 63 (trim rest) then _ else _).
  pose proof (proj2 (remove_placeholders_go_ok raw H92)) as [Hraw _].
  fold (remove_placeholders raw) in Hraw. revert Hraw.
  generalize (remove_placeholders raw) as result. clear raw. intros result Hraw.
  unfold finish_version. destruct (negb (nonempty result)); [done|].
  assert (Htrim : ∀ s, no_placeholder s -> no_placeholder (trim s)).
  { intros s Hs. destruct (trim_sub is_whitespace s) as (a & b & E). rewrite E in Hs.
    by apply no_placeholder_app in Hs as [_ [? _]%no_placeholder_app]. }
  destruct (contains_char 59 (trim result)
            && negb (1 <? length (placeholders_in_template (trim rest)))%nat) eqn:Es.
  - destruct (nonempty (trim (match split_char 59 (trim result) with h :: _ => h
                              | [] => trim result end))) eqn:En; intros [= <-].
    + apply andb_true_iff in Es as [Hs _]. apply contains_char_iff in Hs.
      destruct (split_once 59 (trim result)) as [[a b]|] eqn:Eo.
      2: { by apply split_once_None in Eo. }
      apply split_once_Some in Eo as [Eo Ha].
      pose proof (Htrim _ Hraw) as Hr. rewrite Eo in *.
      rewrite split_char_app_sep by done. split; [|split].
      * apply Htrim. by apply no_placeholder_app in Hr as [? _].
      * apply trim_trim.
      * intros Hin. exfalso. apply Ha.
        destruct (trim_sub is_whitespace a) as (x & y & ->). rewrite !elem_of_app; auto.
    + split; [by apply Htrim|]. split; [apply trim_trim|]. intros _. right.
      unfold before_semicolon. by destruct (trim (match split_char 59 (trim result) with
        h :: _ => h | [] => trim result end)).
  - intros [= <-]. split; [by apply Htrim|]. split; [apply trim_trim|].
    intros Hin%contains_char_iff. rewrite Hin in Es. cbn [andb] in Es.
    left. by apply negb_false_iff in Es.
Qed.
End PatternProperties.

(** ** Meta-tag loops, declaratively *)

Section MetaProperties.
Context `{R : RegexLib}.

Definition meta_results (patterns : list CompiledPattern) (meta_values : list str)
  : list PatternMatchResult :=
  meta_values ≫= λ v, map (λ p, evaluate p v) patterns.

Definition hits (results : list PatternMatchResult) : list PatternMatchResult :=
  filter (λ r, matched r = true) results.

Lemma hits_cons r rs : hits (r :: rs) = if matched r then r :: hits rs else hits rs.
Proof. unfold hits. rewrite filter_cons. by destruct (matched r). Qed.

(** The state [(has_match, version)] that a list of results leads to. *)
Definition summarise (results : list PatternMatchResult) (st : bool * option str)
  : bool * option str :=
  (st.1 || existsb matched results,
   match st.2 with Some v => Some v | None => head (omap version (hits results)) end).

Lemma summarise_app a b st : summarise (a ++ b) st = summarise b (summarise a st).
Proof.
  unfold summarise, hits. cbn [fst snd]. f_equal.
  - by rewrite existsb_app, orb_assoc.
  - destruct st.2; [done|]. rewrite list.filter_app, omap_app.
    by destruct (omap version _).
Qed.

Lemma meta_patterns_spec patterns v st :
  st.2 = None ->
  let r := summarise (map (λ p, evaluate p v) patterns) st in
  let '(st', stop) := meta_patterns patterns v st in
  st'.2 = r.2 ∧ (stop = true -> r.1 = true ∧ is_Some r.2)
  ∧ (stop = false -> st' = r ∧ r.2 = None).
Proof.
  revert st. induction patterns as [|p patterns IH]; intros [h ov] Hst; simpl in Hst; subst.
  { unfold summarise. simpl. by rewrite orb_false_r. }
  cbn [meta_patterns map]. unfold absorb_meta_hit.
  change (map (λ p0, evaluate p0 v) (p :: patterns)) with
    (evaluate p v :: map (λ p0, evaluate p0 v) patterns).
  assert (Hc : summarise (evaluate p v :: map (λ p0, evaluate p0 v) patterns) (h, None)
    = summarise (map (λ p0, evaluate p0 v) patterns) (summarise [evaluate p v] (h, None))).
  { apply (summarise_app [evaluate p v]). }
  assert (E1 : summarise [evaluate p v] (h, None)
    = (h || matched (evaluate p v),
       if matched (evaluate p v) then version (evaluate p v) else None)).
  { unfold summarise. cbn [fst snd existsb]. rewrite hits_cons, orb_false_r. f_equal.
    destruct (matched (evaluate p v)); [|done]. simpl. by destruct (version _). }
  rewrite Hc, E1. clear Hc E1.
  destruct (matched (evaluate p v)) eqn:Em.
  - destruct (version (evaluate p v)) as [w|] eqn:Ev.
    + rewrite bool_decide_eq_true_2 by done. unfold summarise. cbn [fst snd].
      rewrite orb_true_r. split_and!; done.
    + rewrite bool_decide_eq_false_2 by (by intros []). rewrite orb_true_r.
      by apply (IH (true, None)).
  - rewrite orb_false_r. by apply (IH (h, None)).
Qed.

(** The nested loops over the meta values and the patterns of a technology
    report a match exactly when some pattern matches some value, and the first version
    captured in that order, although they stop early. *)
Theorem compiled_meta_values_spec patterns meta_values :
  compiled_meta_values patterns meta_values
  = let results := meta_results patterns meta_values in
    MkMatch (existsb matched results) (head (omap version (hits results))).
Proof.
  unfold compiled_meta_values, meta_results.
  assert (G : ∀ st, st.2 = None -> meta_values_loop patterns meta_values st
    = MkMatch (summarise (meta_values ≫= λ v, map (λ p, evaluate p v) patterns) st).1
        (summarise (meta_values ≫= λ v, map (λ p, evaluate p v) patterns) st).2);
    [|by rewrite G].
  induction meta_values as [|v vs IH]; intros [h ov] Hst; simpl in Hst; subst.
  { unfold summarise. simpl. by rewrite orb_false_r. }
  cbn [meta_values_loop mbind list_bind]. rewrite summarise_app.
  pose proof (meta_patterns_spec patterns v (h, None) eq_refl) as H. cbn zeta in H.
  destruct (meta_patterns patterns v (h, None)) as [st' [|]].
  - destruct H as (H1 & H2 & _). destruct (H2 eq_refl) as [Ha [w Hw]].
    rewrite H1, Hw. unfold summarise at 1 3. rewrite Ha, Hw. done.
  - destruct H as (_ & _ & H3). destruct (H3 eq_refl) as [-> Hn]. by apply IH.
Qed.
End MetaProperties.

(** ** A concrete engine

    Case-insensitive literals, optionally followed by one group of digits: the fragment
    used to evaluate the model. *)

Module DemoRegex.
Definition digits_group : str := lit "(\d+)".

Record regex := MkRegex { needle : str; group : bool }.

Definition new (s : str) : option regex :=
  match strip_prefix (lit "(?i)") s with
  | Some src =>
      match strip_prefix (reverse digits_group) (reverse src) with
      | Some r => Some (MkRegex (to_ascii_lowercase (reverse r)) true)
      | None => if contains_char 91 src then None
                else Some (MkRegex (to_ascii_lowercase src) false)
      end
  | None => None
  end.

Fixpoint leading_digits (s : str) : str :=
  match s with c :: s' => if is_ascii_digit c then c :: leading_digits s' else [] | [] => [] end.

Fixpoint search (re : regex) (s : str) : option Captures :=
  let here :=
    match strip_prefix (needle re) (to_ascii_lowercase s) with
    | Some rest =>
        if group re then
          if nonempty (leading_digits rest)
          then Some [Some (needle re ++ leading_digits rest); Some (leading_digits rest)]
          else None
        else Some [Some (needle re)]
    | None => None
    end in
  match here, s with
  | Some caps, _ => Some caps
  | None, _ :: s' => search re s'
  | None, [] => None
  end.

Definition lib : RegexLib := {|
  Regex := regex;
  regex_new := new;
  regex_escape := λ s, s;
  is_match := λ re text, match search re text with Some _ => true | None => false end;
  captures := search;
  re_digit := is_ascii_digit;
|}.

Lemma regex_lib_laws : RegexLaws lib.
Proof. by split. Defined.
End DemoRegex.

Definition nginx_pattern : str := lit "nginx/(\d+)\;version:v\1".
Definition nginx_text : str := lit "Server: NGINX/118".

Lemma matches_pattern_compiled_witness :
  ∃ cache', cache_ok (R := DemoRegex.lib) cache' ∧
    @matches_pattern DemoRegex.lib nginx_pattern nginx_text ∅
    = (cache', MkMatch true (Some (lit "v118"))).
Proof.
  destruct (@matches_pattern_compiled DemoRegex.lib DemoRegex.regex_lib_laws nginx_pattern nginx_text ∅)
    as (cache' & Hc & E).
  - intros k re H. exfalso. exact (eq_ind None (λ o, match o with None => True | Some _ => False end)
      I (Some re) (eq_trans (eq_sym (lookup_empty k)) H)).
  - vm_compute. reflexivity.
  - exists cache'. split; [exact Hc|]. rewrite E. vm_compute. reflexivity.
Defined.

Definition version_template_text : str := lit "version:v\1".
Definition sample_captures : Captures := [Some (lit "nginx/118;9"); Some (lit "118;9")].
Lemma extracted_version_clean_witness :
  trim (lit "v118") = lit "v118".
Proof.
  apply (@extracted_version_clean DemoRegex.lib version_template_text sample_captures
           (lit "v118")); [reflexivity|vm_compute; reflexivity].
Defined.
