(* ===== verification/Literals.v ===== *)
(** * The ruleset and its literal index
    ([src/src/fingerprint/models.rs], [src/src/fingerprint/patterns/literals.rs])

    Patterns that are plain text are looked up in one scan per haystack.  The automaton of
    the [aho_corasick] crate is the class [AhoCorasick]; [AhoCorasickLaws] states what its
    documentation says of [find_iter] with [MatchKind::Standard] and ASCII case folding. *)

From S2P Require Import Prelude Net Patterns.

(** ** models.rs *)

Record Technology := MkTechnology {
  cats : list Z;
  website : str;
  headers : gmap str str;
  cookies : gmap str str;
  meta : gmap str (list str);
  script : list str;
  scripts : list str;
  html : list str;
  url : list str;
  dns : gmap str (list str);
  cert_issuer : list str;
  js : gmap str str;
  implies : list str;
  excludes : list str;
  requires : list str;
  requires_category : list Z;
}.

Definition empty_technology : Technology :=
  MkTechnology [] [] ∅ ∅ ∅ [] [] [] [] ∅ [] ∅ [] [] [] [].

(** [last_updated] in nanoseconds since the epoch. *)
Record FingerprintMetadata := MkMetadata {
  md_source : str;
  md_version : str;
  md_last_updated : Z;
}.

Record FingerprintRuleset := MkRuleset {
  technologies : gmap str Technology;
  categories : gmap Z str;
  metadata : FingerprintMetadata;
}.

Definition no_metadata : FingerprintMetadata := MkMetadata [] [] 0.

(** ** The automaton *)

(** A match: the pattern's index and its span in the text. *)
Definition AcMatch : Type := nat * nat * nat.

Class AhoCorasick := { find_iter : list str -> str -> list AcMatch }.

(** [p] occurs in [s] up to ASCII case. *)
Definition occurs (p s : str) : Prop :=
  ∃ a w b, s = a ++ w ++ b ∧ to_ascii_lowercase w = to_ascii_lowercase p.

Definition ac_match_at (needles : list str) (text : str) (m : AcMatch) : Prop :=
  let '(id, s, e) := m in
  ∃ needle, needles !! id = Some needle ∧ (s <= e)%nat ∧ (e <= length text)%nat
    ∧ to_ascii_lowercase (take (e - s) (drop s text)) = to_ascii_lowercase needle.

Class AhoCorasickLaws (Ac : AhoCorasick) := {
  find_iter_sound : ∀ needles text, Forall (ac_match_at needles text) (find_iter needles text);
  find_iter_disjoint : ∀ needles text i j a s e b s' e', (i < j)%nat ->
    find_iter needles text !! i = Some (a, s, e) ->
    find_iter needles text !! j = Some (b, s', e') -> (e <= s')%nat;
  find_iter_none : ∀ needles text needle,
    find_iter needles text = [] -> needle ∈ needles -> ¬ occurs needle text;
}.

(** ** Hit sets: words of 64 bits *)

Abbreviation HitSet := (list Z) (only parsing).

Definition hit_contains (bits : HitSet) (id : nat) : bool :=
  match bits !! (id / 64)%nat with
  | Some slot => Z.testbit slot (Z.of_nat (id mod 64))
  | None => false
  end.

Definition set_bit (bits : HitSet) (id : nat) : HitSet :=
  match bits !! (id / 64)%nat with
  | Some slot => <[(id / 64)%nat := Z.lor slot (Z.shiftl 1 (Z.of_nat (id mod 64)))]> bits
  | None => bits
  end.

(** ** Needles *)

Record Interner := MkInterner { to_id : gmap str nat; needles : list str }.
Definition empty_interner : Interner := MkInterner ∅ [].

(** Ids are [u32]. *)
Definition intern (i : Interner) (needle : str) : Interner * option nat :=
  match to_id i !! needle with
  | Some id => (i, Some id)
  | None =>
      if Z.of_nat (length (needles i)) <=? u32_max then
        (MkInterner (<[needle := length (needles i)]> (to_id i)) (needles i ++ [needle]),
         Some (length (needles i)))
      else (i, None)
  end.

Definition metachars : str := lit "^$[]()*+?{}|.".

(** [unescape_escaped_literal]. *)
Fixpoint unescape_escaped_literal (pat : str) : option str :=
  match pat with
  | [] => Some []
  | 92 :: pat' =>
      match pat' with
      | [] => None
      | escaped :: pat'' =>
          if negb (is_ascii escaped) || is_ascii_alphanumeric escaped then None
          else option_map (cons escaped) (unescape_escaped_literal pat'')
      end
  | ch :: pat' =>
      if contains_char ch metachars then None
      else option_map (cons ch) (unescape_escaped_literal pat')
  end.

Definition ascii_literal_needle (pat : str) : option str :=
  if negb (forallb is_ascii pat) then None
  else if is_regex_pattern pat then
    option_map to_ascii_lowercase (unescape_escaped_literal pat)
  else Some (to_ascii_lowercase pat).

Definition MIN_PREFIX_LEN : nat := 4.

(** The loop of [mandatory_prefix]: [None] when it returns early, otherwise what was
    pushed to [out]. *)
Fixpoint prefix_loop (out : str) (pat : str) : option str :=
  match pat with
  | [] => Some out
  | 92 :: pat' =>
      match pat' with
      | [] => None
      | escaped :: pat'' =>
          if negb (is_ascii escaped) || is_ascii_alphanumeric escaped then Some out
          else prefix_loop (out ++ [escaped]) pat''
      end
  | ch :: pat' =>
      if ch =? 124 then None
      else if contains_char ch (lit "([.^$") then Some out
      else if contains_char ch (lit "*?+{") then
        let optional :=
          if (ch =? 42) || (ch =? 63) then true
          else if ch =? 123 then bool_decide (head pat' = Some 48)
          else false in
        Some (if optional then take (length out - 1) out else out)
      else if negb (is_ascii ch) then Some out
      else prefix_loop (out ++ [ch]) pat'
  end.

Definition mandatory_prefix (pat : str) : option str :=
  match prefix_loop [] pat with
  | Some out => if (MIN_PREFIX_LEN <=? length out)%nat then Some (to_ascii_lowercase out) else None
  | None => None
  end.

(** A channel: the automaton is built from the needles when there are any. *)
Abbreviation Channel := (list (list Z)) (only parsing).

(** The mutable [matched] and [version] of the matching loops. *)
Abbreviation Flags := (bool * option (list Z))%type (only parsing).

(** ** Body steps *)

Section Index.
Context `{R : RegexLib}.

Inductive BodyStep :=
  | StepAny (version_template : option str)
  | StepLiteral (needle_id : nat)
  | StepRegex (pattern : CompiledPattern) (prefix_id : option nat).

Definition regex_step (raw : str) (prefix_id : option nat) : option BodyStep :=
  match compile_pattern raw with
  | None => None
  | Some (Any version_template _) => Some (StepAny version_template)
  | Some pattern => Some (StepRegex pattern prefix_id)
  end.

Definition prefix_id (prefix : str) (i : Interner) : Interner * option nat :=
  intern i (to_ascii_lowercase prefix).

Definition compile_step (raw : str) (i : Interner) : Interner * option BodyStep :=
  if negb (nonempty raw) then (i, Some (StepAny None))
  else
    let parsed := parse_pattern raw in
    if confidence parsed <? MIN_PATTERN_CONFIDENCE then (i, None)
    else if negb (nonempty (pattern_for_match parsed)) then
      (i, Some (StepAny (version_template parsed)))
    else
      let pat := pattern_for_match parsed in
      match ascii_literal_needle pat with
      | Some needle =>
          if is_regex_pattern pat && bool_decide (is_Some (version_template parsed)) then
            let (i, pid) := prefix_id needle i in (i, regex_step raw pid)
          else
            match intern i needle with
            | (i, Some needle_id) => (i, Some (StepLiteral needle_id))
            | (i, None) => (i, None)
            end
      | None =>
          let (i, pid) :=
            match mandatory_prefix pat with
            | Some prefix => prefix_id prefix i
            | None => (i, None)
            end in
          (i, regex_step raw pid)
      end.

Fixpoint compile_steps (patterns : list str) (i : Interner) : Interner * list BodyStep :=
  match patterns with
  | [] => (i, [])
  | p :: ps =>
      let (i, step) := compile_step p i in
      let (i, steps) := compile_steps ps i in
      (i, match step with Some s => s :: steps | None => steps end)
  end.

Record TechBodyPlan := MkPlan {
  plan_html : list BodyStep;
  plan_script : list BodyStep;
  plan_scripts : list BodyStep;
  plan_url : list BodyStep;
}.

(** The [expect] on the construction of the automaton, which fails only past the size limits of
    the crate, is left out. *)
Definition finish (i : Interner) : Channel := needles i.

Record LiteralIndex := MkIndex {
  ix_html : Channel;
  ix_script : Channel;
  ix_scripts : Channel;
  ix_url : Channel;
  plans : gmap str TechBodyPlan;
}.

(** The state of the loop of [build]. *)
Record Building := MkBuilding {
  b_html : Interner; b_script : Interner; b_scripts : Interner; b_url : Interner;
  b_plans : gmap str TechBodyPlan;
}.

Definition build_step (b : Building) (entry : str * Technology) : Building :=
  let (name, tech) := entry in
  let (h, html) := compile_steps (html tech) (b_html b) in
  let (s, script) := compile_steps (script tech) (b_script b) in
  let (ss, scripts) := compile_steps (scripts tech) (b_scripts b) in
  let (u, url) := compile_steps (url tech) (b_url b) in
  MkBuilding h s ss u (<[name := MkPlan html script scripts url]> (b_plans b)).

Definition build `{H : HashIter} (technologies : gmap str Technology) : LiteralIndex :=
  let b := foldl build_step
             (MkBuilding empty_interner empty_interner empty_interner empty_interner ∅)
             (hash_iter technologies) in
  MkIndex (finish (b_html b)) (finish (b_script b)) (finish (b_scripts b)) (finish (b_url b))
    (b_plans b).

Context `{Ac : AhoCorasick}.

Definition scan_channel (channel : Channel) (text : str) : HitSet :=
  match channel with
  | [] => []
  | _ =>
      let words := Z.to_nat ((Z.of_nat (length channel) + 63) / 64) in
      foldl (λ bits m, set_bit bits m.1.1) (replicate words 0) (find_iter channel text)
  end.

Definition apply_step (step : BodyStep) (hits : HitSet) (text : str) (st : Flags)
  : Flags * bool :=
  let absorb (result : PatternMatchResult) : Flags * bool :=
    if matched result then
      let version := match st.2 with None => version result | Some _ => st.2 end in
      ((true, version), bool_decide (is_Some version))
    else (st, false) in
  match step with
  | StepLiteral needle_id =>
      if hit_contains hits needle_id then absorb (MkMatch true None) else (st, false)
  | StepRegex pattern prefix_id =>
      match prefix_id with
      | Some id => if hit_contains hits id then absorb (evaluate pattern text) else (st, false)
      | None => absorb (evaluate pattern text)
      end
  | StepAny version_template => absorb (handle_empty_pattern version_template)
  end.

Fixpoint apply_steps (steps : list BodyStep) (hits : HitSet) (text : str) (st : Flags)
  : Flags * bool :=
  match steps with
  | [] => (st, false)
  | step :: steps =>
      match apply_step step hits text st with
      | (st, true) => (st, true)
      | (st, false) => apply_steps steps hits text st
      end
  end.

Inductive ChannelKind := Html | Script | Scripts | UrlChannel.

Definition plan_of (kind : ChannelKind) (plan : TechBodyPlan) : list BodyStep :=
  match kind with
  | Html => plan_html plan
  | Script => plan_script plan
  | Scripts => plan_scripts plan
  | UrlChannel => plan_url plan
  end.

Definition channel_of (kind : ChannelKind) (ix : LiteralIndex) : Channel :=
  match kind with
  | Html => ix_html ix
  | Script => ix_script ix
  | Scripts => ix_scripts ix
  | UrlChannel => ix_url ix
  end.

(** [scan_html], [scan_script], [scan_scripts], [scan_url]. *)
Definition scan (kind : ChannelKind) (ix : LiteralIndex) (text : str) : HitSet :=
  scan_channel (channel_of kind ix) text.

Definition match_channel (ix : LiteralIndex) (tech : str) (kind : ChannelKind)
    (hits : HitSet) (text : str) (st : Flags) : Flags * bool :=
  match plans ix !! tech with
  | Some plan => apply_steps (plan_of kind plan) hits text st
  | None => (st, false)
  end.
End Index.

(** ** Lemmas: hit sets *)

Lemma testbit_or_shift slot j k :
  0 <= j -> 0 <= k -> Z.testbit (Z.lor slot (Z.shiftl 1 k)) j = Z.testbit slot j || (j =? k).
Proof.
  intros Hj Hk. rewrite Z.lor_spec, Z.shiftl_spec by done. f_equal.
  destruct (Z.eqb_spec j k) as [->|Hne]; [by rewrite Z.sub_diag|].
  destruct (Z.lt_ge_cases j k); [by apply Z.testbit_neg_r; lia|].
  apply Z.bits_above_log2; [lia|]. simpl. lia.
Qed.

Lemma hit_contains_set_bit bits id j :
  (id < 64 * length bits)%nat ->
  hit_contains (set_bit bits id) j = hit_contains bits j || (j =? id)%nat.
Proof.
  intros Hid. unfold hit_contains, set_bit.
  assert (Hlt : (id / 64 < length bits)%nat) by (apply Nat.Div0.div_lt_upper_bound; lia).
  destruct (lookup_lt_is_Some_2 bits (id / 64) Hlt) as [slot Hs]. rewrite Hs.
  destruct (decide (j / 64 = id / 64)%nat) as [Ej|Ej].
  - rewrite Ej, list_lookup_insert_eq by done. rewrite Hs.
    rewrite testbit_or_shift by lia. f_equal. apply Bool.eq_iff_eq_true.
    rewrite Z.eqb_eq, Nat.eqb_eq. pose proof (Nat.div_mod_eq j 64).
    pose proof (Nat.div_mod_eq id 64). lia.
  - rewrite list_lookup_insert_ne by done.
    rewrite (proj2 (Nat.eqb_neq j id)) by (by intros ->). by rewrite orb_false_r.
Qed.

Lemma length_set_bit bits id : length (set_bit bits id) = length bits.
Proof. unfold set_bit. destruct (bits !! _); [|done]. apply length_insert. Qed.

Lemma hit_contains_zero words j : hit_contains (replicate words 0) j = false.
Proof.
  unfold hit_contains. destruct (replicate words 0 !! _) as [s|] eqn:E; [|done].
  apply lookup_replicate in E as [-> _]. apply Z.bits_0.
Qed.

Lemma foldl_set_bit (l : list AcMatch) bits j :
  Forall (λ m, (m.1.1 < 64 * length bits)%nat) l ->
  hit_contains (foldl (λ bits m, set_bit bits m.1.1) bits l) j
  = hit_contains bits j || existsb (λ m, (j =? m.1.1)%nat) l.
Proof.
  revert bits. induction l as [|m l IH]; intros bits Hl; cbn [foldl existsb].
  { by rewrite orb_false_r. }
  apply Forall_cons_1 in Hl as [Hm Hl]. rewrite IH.
  - by rewrite hit_contains_set_bit, orb_assoc.
  - by rewrite length_set_bit.
Qed.

Section Hits.
Context `{Ac : AhoCorasick} `{!AhoCorasickLaws Ac}.

Lemma scan_channel_hits channel text j :
  hit_contains (scan_channel channel text) j = true <->
  channel <> [] ∧ ∃ s e, (j, s, e) ∈ find_iter channel text.
Proof.
  destruct channel as [|n ns].
  { split; [done|]. by intros [? _]. }
  cbn [scan_channel]. rewrite foldl_set_bit.
  - rewrite hit_contains_zero, orb_false_l, existsb_exists. split.
    + intros ([[id s] e] & Hin%list_elem_of_In & Hj). apply Nat.eqb_eq in Hj. simpl in Hj.
      subst. split; [done|]. eauto.
    + intros [_ (s & e & Hin)]. exists (j, s, e).
      split; [by apply list_elem_of_In|]. apply Nat.eqb_refl.
  - pose proof (find_iter_sound (n :: ns) text) as Hs.
    eapply Forall_impl; [|exact Hs]. intros [[id s] e] (needle & Hl & _). cbn [fst].
    apply lookup_lt_Some in Hl. rewrite length_replicate.
    assert (Z.of_nat (length (n :: ns)) <= 64 * ((Z.of_nat (length (n :: ns)) + 63) / 64)).
    { Z.to_euclidean_division_equations. lia. }
    lia.
Qed.

Lemma match_occurs ns text id s e :
  (id, s, e) ∈ find_iter ns text -> ∃ needle, ns !! id = Some needle ∧ occurs needle text.
Proof.
  intros Hin. pose proof (find_iter_sound ns text) as Hs. rewrite Forall_forall in Hs.
  destruct (Hs _ (proj1 (list_elem_of_In _ _) Hin)) as (needle & Hl & Hse & He & Heq).
  exists needle. split; [done|]. exists (take s text), (take (e - s) (drop s text)), (drop e text).
  split; [|done]. rewrite <- (take_drop s text) at 1. f_equal.
  rewrite <- (take_drop (e - s) (drop s text)) at 1. f_equal.
  rewrite drop_drop. f_equal. lia.
Qed.

Lemma hit_occurs channel text j :
  hit_contains (scan_channel channel text) j = true ->
  ∃ needle, channel !! j = Some needle ∧ occurs needle text.
Proof. intros [_ (s & e & Hin)]%scan_channel_hits. by eapply match_occurs. Qed.
End Hits.

(** ** Lemmas: needles and steps *)

(** What the regex documentation says of plain text: an escaped text, or a text whose only
    metacharacters are backslash-escaped punctuation (other than the word boundaries
    [\<] and [\>]), compiles and matches wherever the text occurs, up to case. *)
Class RegexLiteralLaws (R : RegexLib) := {
  regex_escaped : ∀ p, forallb is_ascii p = true ->
    ∃ re, regex_new (case_insensitive (regex_escape p)) = Some re
      ∧ ∀ text, occurs p text -> is_match re text = true;
  regex_unescaped : ∀ p n, forallb is_ascii p = true ->
    unescape_escaped_literal p = Some n ->
    contains (lit "\<") p = false -> contains (lit "\>") p = false ->
    ∃ re, regex_new (case_insensitive p) = Some re
      ∧ ∀ text, occurs n text -> is_match re text = true;
}.

Definition no_word_boundary (raw : str) : Prop :=
  contains (lit "\<") (pattern_for_match (parse_pattern raw)) = false
  ∧ contains (lit "\>") (pattern_for_match (parse_pattern raw)) = false.

Definition interner_ok (i : Interner) : Prop :=
  ∀ n id, to_id i !! n = Some id -> needles i !! id = Some n.

Lemma intern_ok i n :
  interner_ok i ->
  interner_ok (intern i n).1 ∧ needles i `prefix_of` needles (intern i n).1
  ∧ (∀ id, (intern i n).2 = Some id -> needles (intern i n).1 !! id = Some n).
Proof.
  intros Hi. unfold intern. destruct (to_id i !! n) as [id|] eqn:E; simpl.
  { split_and!; [done|done|]. intros ? [= <-]. by apply Hi. }
  destruct (_ <=? _); simpl; [|done]. split_and!.
  - intros m id'. simpl. destruct (decide (m = n)) as [->|Hne].
    + rewrite lookup_insert_eq. intros [= <-]. by apply list_lookup_middle.
    + rewrite lookup_insert_ne by done. intros Hm%Hi. by apply lookup_app_l_Some.
  - by apply prefix_app_r.
  - intros ? [= <-]. by apply list_lookup_middle.
Qed.

Lemma occurs_lower p s : occurs (to_ascii_lowercase p) s <-> occurs p s.
Proof. unfold occurs. by setoid_rewrite to_ascii_lowercase_idemp. Qed.

Section Steps.
Context `{R : RegexLib} `{!RegexLaws R} `{!RegexLiteralLaws R}.

(** A step stands for the compiled form of a raw pattern. *)
Definition step_ok (ns : list str) (raw : str) (step : BodyStep) : Prop :=
  ∃ c, compile_pattern raw = Some c ∧
    match step with
    | StepAny vt => ∃ b, c = Any vt b
    | StepRegex p _ => c = p
    | StepLiteral id => ∃ needle, ns !! id = Some needle ∧
        ∀ text, occurs needle text -> matched (evaluate c text) = true
    end.

Lemma step_ok_mono ns ns' raw step :
  ns `prefix_of` ns' -> step_ok ns raw step -> step_ok ns' raw step.
Proof.
  intros [k ->] (c & Hc & H). exists c. split; [done|]. destruct step; try done.
  destruct H as (needle & Hn & H). exists needle. split; [|done]. by apply lookup_app_l_Some.
Qed.

(** The compiled form of a literal pattern matches wherever the needle occurs. *)
Lemma literal_compiled raw needle :
  no_word_boundary raw -> raw <> [] ->
  (confidence (parse_pattern raw) <? MIN_PATTERN_CONFIDENCE) = false ->
  nonempty (pattern_for_match (parse_pattern raw)) = true ->
  ascii_literal_needle (pattern_for_match (parse_pattern raw)) = Some needle ->
  is_regex_pattern (pattern_for_match (parse_pattern raw))
    && bool_decide (is_Some (version_template (parse_pattern raw))) = false ->
  ∃ c, compile_pattern raw = Some c ∧
    ∀ text, occurs needle text -> matched (evaluate c text) = true.
Proof.
  intros [Hw1 Hw2] Hne Hconf Hnon Hlit Hver. unfold compile_pattern.
  destruct raw as [|x raw']; [done|]. set (raw := x :: raw') in *. cbn [nonempty negb].
  rewrite Hconf, Hnon. cbn [negb]. unfold ascii_literal_needle in Hlit.
  set (pat := pattern_for_match (parse_pattern raw)) in *.
  destruct (forallb is_ascii pat) eqn:Ha; [|done]. cbn [negb] in Hlit.
  destruct (is_regex_pattern pat).
  - destruct (unescape_escaped_literal pat) as [n|] eqn:Eu; [|done]. injection Hlit as <-.
    destruct (regex_unescaped pat n Ha Eu Hw1 Hw2) as (re & -> & Hre).
    eexists. split; [done|]. intros text Ho. simpl.
    destruct (version_template (parse_pattern raw)) as [t|].
    { rewrite bool_decide_eq_true_2 in Hver; [done|by eexists]. }
    simpl. by apply Hre, (proj1 (occurs_lower n text)).
  - injection Hlit as <-.
    destruct (regex_escaped pat Ha) as (re & -> & Hre).
    eexists. split; [done|]. intros text Ho. simpl. by apply Hre, (proj1 (occurs_lower pat text)).
Qed.

Lemma regex_step_ok ns raw pid step :
  regex_step raw pid = Some step -> step_ok ns raw step.
Proof.
  unfold regex_step, step_ok. destruct (compile_pattern raw) as [[vt b|re vt]|]; [| |done];
    intros [= <-]; eauto.
Qed.

Lemma compile_step_ok i raw i' o :
  interner_ok i -> no_word_boundary raw -> compile_step raw i = (i', o) ->
  interner_ok i' ∧ needles i `prefix_of` needles i'
  ∧ ∀ step, o = Some step -> step_ok (needles i') raw step.
Proof.
  intros Hi Hw. unfold compile_step.
  assert (Hsame : ∀ o', (∀ step, o' = Some step -> step_ok (needles i) raw step) ->
    (i, o') = (i', o) -> interner_ok i' ∧ needles i `prefix_of` needles i'
    ∧ ∀ step, o = Some step -> step_ok (needles i') raw step).
  { intros o' Ho [= <- <-]. by split_and!. }
  destruct (nonempty raw) eqn:En; cbn [negb].
  2: { apply Hsame. intros ? [= <-]. destruct raw; [|done]. exists (Any None true).
       split; [done|by exists true]. }
  assert (Hc : compile_pattern raw = compile_pattern raw) by done.
  unfold compile_pattern in Hc at 2. rewrite En in Hc. cbn [negb] in Hc.
  destruct (confidence (parse_pattern raw) <? MIN_PATTERN_CONFIDENCE) eqn:Econf;
    [by apply Hsame|].
  destruct (nonempty (pattern_for_match (parse_pattern raw))) eqn:Enon; cbn [negb] in *.
  2: { apply Hsame. intros ? [= <-]. eexists. split; [exact Hc|]. eauto. }
  assert (Hreg : ∀ j pid, interner_ok j -> needles i `prefix_of` needles j ->
    (j, regex_step raw pid) = (i', o) -> interner_ok i' ∧ needles i `prefix_of` needles i'
    ∧ ∀ step, o = Some step -> step_ok (needles i') raw step).
  { intros j pid Hj Hp [= <- <-]. split_and!; [done..|]. intros step. apply regex_step_ok. }
  destruct (ascii_literal_needle _) as [needle|] eqn:El.
  - destruct (is_regex_pattern _ && _) eqn:Ev.
    + unfold prefix_id. destruct (intern_ok i (to_ascii_lowercase needle) Hi) as (H1 & H2 & _).
      destruct (intern i _) as [j pid]. by apply Hreg.
    + destruct (intern_ok i needle Hi) as (H1 & H2 & H3).
      destruct (intern i needle) as [j [id|]]; simpl in *; intros [= <- <-];
        split_and!; try done.
      intros ? [= <-]. destruct (literal_compiled raw needle) as (c & Hcc & Hm); try done.
      { by destruct raw. }
      exists c. split; [done|]. exists needle. split; [by apply H3|done].
  - destruct (mandatory_prefix _) as [p|]; [|by apply Hreg].
    unfold prefix_id. destruct (intern_ok i (to_ascii_lowercase p) Hi) as (H1 & H2 & _).
    destruct (intern i _) as [j pid]. by apply Hreg.
Qed.

Definition steps_ok (ns : list str) (raws : list str) (steps : list BodyStep) : Prop :=
  Forall (λ s, ∃ raw, raw ∈ raws ∧ step_ok ns raw s) steps.

Lemma steps_ok_mono ns ns' raws raws' steps :
  ns `prefix_of` ns' -> raws ⊆ raws' -> steps_ok ns raws steps -> steps_ok ns' raws' steps.
Proof.
  intros Hp Hr. apply Forall_impl. intros s (raw & Hin & Hs).
  exists raw. split; [by apply Hr|by eapply step_ok_mono].
Qed.

Lemma compile_steps_ok raws i i' steps :
  interner_ok i -> Forall no_word_boundary raws -> compile_steps raws i = (i', steps) ->
  interner_ok i' ∧ needles i `prefix_of` needles i' ∧ steps_ok (needles i') raws steps.
Proof.
  revert i i' steps. induction raws as [|raw raws IH]; intros i i' steps Hi Hw; simpl.
  { intros [= <- <-]. split_and!; [done..|constructor]. }
  apply Forall_cons_1 in Hw as [Hw Hws].
  destruct (compile_step raw i) as [j o] eqn:Ec.
  destruct (compile_step_ok _ _ _ _ Hi Hw Ec) as (Hj & Hp & Ho).
  destruct (compile_steps raws j) as [k ss] eqn:Es. intros [= <- <-].
  destruct (IH _ _ _ Hj Hws Es) as (Hk & Hp' & Hss).
  split_and!; [done|by etrans|].
  assert (Hss' : steps_ok (needles k) (raw :: raws) ss)
    by (apply (steps_ok_mono (needles k) _ raws); [done|by intros ??; right|done]).
  destruct o as [step|]; [|done]. constructor; [|done].
  exists raw. split; [by left|]. eapply step_ok_mono; [done|]. by apply Ho.
Qed.
End Steps.

(** ** Lemmas: the index *)

Section Build.
Context `{R : RegexLib} `{!RegexLaws R} `{!RegexLiteralLaws R}.
Context `{Hi : HashIter} `{!HashIterLaws Hi}.
Context `{Ac : AhoCorasick} `{!AhoCorasickLaws Ac}.

(** The patterns a channel of a technology is made from. *)
Definition field_of (kind : ChannelKind) (tech : Technology) : list str :=
  match kind with
  | Html => html tech
  | Script => script tech
  | Scripts => scripts tech
  | UrlChannel => url tech
  end.

Definition interner_of (kind : ChannelKind) (b : Building) : Interner :=
  match kind with
  | Html => b_html b
  | Script => b_script b
  | Scripts => b_scripts b
  | UrlChannel => b_url b
  end.

Definition technology_plain (tech : Technology) : Prop :=
  ∀ kind, Forall no_word_boundary (field_of kind tech).

Definition building_ok (techs : gmap str Technology) (b : Building) : Prop :=
  (∀ kind, interner_ok (interner_of kind b)) ∧
  ∀ name plan, b_plans b !! name = Some plan ->
    ∃ tech, techs !! name = Some tech ∧
      ∀ kind, steps_ok (needles (interner_of kind b)) (field_of kind tech) (plan_of kind plan).

Lemma build_step_ok techs b name tech :
  techs !! name = Some tech -> technology_plain tech ->
  building_ok techs b -> building_ok techs (build_step b (name, tech)).
Proof.
  intros Ht Hp [Hint Hplans]. unfold build_step.
  destruct (compile_steps (html tech) _) as [h sh] eqn:E1.
  destruct (compile_steps (script tech) _) as [s ss] eqn:E2.
  destruct (compile_steps (scripts tech) _) as [x sx] eqn:E3.
  destruct (compile_steps (url tech) _) as [u su] eqn:E4.
  apply compile_steps_ok in E1 as (H1 & P1 & S1); [|apply (Hint Html)|apply (Hp Html)].
  apply compile_steps_ok in E2 as (H2 & P2 & S2); [|apply (Hint Script)|apply (Hp Script)].
  apply compile_steps_ok in E3 as (H3 & P3 & S3); [|apply (Hint Scripts)|apply (Hp Scripts)].
  apply compile_steps_ok in E4 as (H4 & P4 & S4);
    [|apply (Hint UrlChannel)|apply (Hp UrlChannel)].
  split; [by intros []|]. cbn [b_plans]. intros n plan.
  destruct (decide (n = name)) as [->|Hne].
  - rewrite lookup_insert_eq. intros [= <-]. exists tech. split; [done|]. by intros [].
  - rewrite lookup_insert_ne by done. intros (t & Htn & Hs)%Hplans. exists t. split; [done|].
    intros kind. eapply steps_ok_mono; [|done|apply Hs]. by destruct kind.
Qed.

Lemma build_ok techs :
  map_Forall (λ _ tech, technology_plain tech) techs ->
  ∀ name plan, plans (build techs) !! name = Some plan ->
    ∃ tech, techs !! name = Some tech ∧
      ∀ kind, steps_ok (channel_of kind (build techs)) (field_of kind tech)
                (plan_of kind plan).
Proof.
  intros Hplain. unfold build.
  set (b0 := MkBuilding _ _ _ _ _).
  assert (Hl : ∀ l b, (∀ e, e ∈ l -> techs !! e.1 = Some e.2) -> building_ok techs b ->
               building_ok techs (foldl build_step b l)).
  { induction l as [|[n t] l IH]; intros b Hin Hb; [done|]. cbn [foldl].
    apply IH; [intros e He; apply Hin; by right|].
    assert (Ht : techs !! n = Some t) by (apply (Hin (n, t)); by left).
    apply build_step_ok; [done|by apply (Hplain n)|done]. }
  destruct (Hl (hash_iter techs) b0) as [_ H].
  - intros [n t] Hin. by apply elem_of_hash_iter.
  - split; [|done]. intros [] n id; simpl; by rewrite lookup_empty.
  - intros name plan (tech & Ht & Hs)%H. exists tech. split; [done|].
    intros kind. specialize (Hs kind). by destruct kind.
Qed.

(** What steps add to the flags is what some pattern of the list evaluates to. *)
Definition explained (raws : list str) (text : str) (st r : Flags) : Prop :=
  (r.1 = true -> st.1 = true \/
    ∃ raw c, raw ∈ raws ∧ compile_pattern raw = Some c ∧ matched (evaluate c text) = true)
  ∧ (∀ v, r.2 = Some v -> st.2 = Some v \/
      ∃ raw c, raw ∈ raws ∧ compile_pattern raw = Some c ∧ matched (evaluate c text) = true
        ∧ version (evaluate c text) = Some v).

Lemma explained_refl raws text st : explained raws text st st.
Proof. split; by left. Qed.

Lemma explained_trans raws text a b c :
  explained raws text a b -> explained raws text b c -> explained raws text a c.
Proof.
  intros [H1 H2] [H3 H4]. split.
  - intros [?|?]%H3; [by apply H1|by right].
  - intros v [?|?]%H4; [by apply H2|by right].
Qed.

Lemma explained_hit raws text raw c m ov v' :
  raw ∈ raws -> compile_pattern raw = Some c -> matched (evaluate c text) = true ->
  (∀ v, v' = Some v -> ov = Some v \/ version (evaluate c text) = Some v) ->
  explained raws text (m, ov) (true, v').
Proof.
  intros Hin Hc Hm Hv. split; cbn [fst snd]; [right; eauto|].
  intros v [?|?]%Hv; [by left|right; eauto 6].
Qed.

Lemma apply_step_sound ns raws text step st :
  (∃ raw, raw ∈ raws ∧ step_ok ns raw step) ->
  explained raws text st (apply_step step (scan_channel ns text) text st).1.
Proof.
  intros (raw & Hin & c & Hc & Hstep). destruct st as [m ov].
  assert (Heval : explained raws text (m, ov)
    (if matched (evaluate c text)
     then ((true, match ov with None => version (evaluate c text) | Some _ => ov end),
           bool_decide (is_Some (match ov with None => version (evaluate c text)
                                 | Some _ => ov end)))
     else ((m, ov), false)).1).
  { destruct (matched (evaluate c text)) eqn:Em; [|apply explained_refl].
    eapply explained_hit; [done..|]. intros v. destruct ov; [by left|by right]. }
  destruct step as [vt|id|p [id|]]; unfold apply_step; cbn [fst snd].
  - destruct Hstep as [b ->]. exact Heval.
  - destruct Hstep as (needle & Hn & Hocc).
    destruct (hit_contains _ id) eqn:Eh; [|apply explained_refl].
    apply hit_occurs in Eh as (needle' & Hn' & Ho). simplify_eq.
    cbn [matched version fst].
    apply (explained_hit raws text raw c); [done|done|exact (Hocc _ Ho)|]. intros v. destruct ov; [by left|done].
  - subst c. destruct (hit_contains _ id); [exact Heval|apply explained_refl].
  - subst c. exact Heval.
Qed.

Lemma apply_steps_sound ns raws text steps st :
  steps_ok ns raws steps ->
  explained raws text st (apply_steps steps (scan_channel ns text) text st).1.
Proof.
  intros Hs. revert st. induction Hs as [|step steps Hstep Hs IH]; intros st;
    cbn [apply_steps]; [apply explained_refl|].
  pose proof (apply_step_sound ns raws text step st Hstep) as H.
  destruct (apply_step step _ text st) as [st' [|]]; [done|].
  by eapply explained_trans.
Qed.
End Build.

(** ** A concrete automaton: leftmost scan, earliest pattern first *)

Module DemoAc.
Fixpoint first_at (id : nat) (ns : list str) (text : str) : option (nat * nat) :=
  match ns with
  | [] => None
  | n :: ns =>
      if starts_with (to_ascii_lowercase n) (to_ascii_lowercase text)
      then Some (id, length n) else first_at (S id) ns text
  end.

(** [skip] characters still belong to the last match. *)
Fixpoint go (ns : list str) (pos skip : nat) (text : str) : list AcMatch :=
  match (if (skip =? 0)%nat then first_at 0 ns text else None) with
  | Some (id, len) =>
      (id, pos, pos + len)%nat ::
      match text with [] => [] | _ :: t => go ns (S pos) (len - 1) t end
  | None => match text with [] => [] | _ :: t => go ns (S pos) (skip - 1) t end
  end.

Definition lib : AhoCorasick := {| find_iter := λ ns text, go ns 0 0 text |}.

Lemma first_at_some id ns text j len :
  first_at id ns text = Some (j, len) ->
  ∃ n, (id <= j)%nat ∧ ns !! (j - id)%nat = Some n ∧ len = length n
    ∧ starts_with (to_ascii_lowercase n) (to_ascii_lowercase text) = true.
Proof.
  revert id. induction ns as [|n ns IH]; intros id; simpl; [done|].
  destruct (starts_with _ _) eqn:E.
  - intros [= <- <-]. exists n. rewrite Nat.sub_diag. by split_and!.
  - intros (m & Hle & Hl & -> & Hs)%IH. exists m.
    replace (j - id)%nat with (S (j - S id)) by lia. split_and!; [lia|done..].
Qed.

Lemma first_at_none id ns text n :
  first_at id ns text = None -> n ∈ ns ->
  starts_with (to_ascii_lowercase n) (to_ascii_lowercase text) = false.
Proof.
  revert id. induction ns as [|m ns IH]; intros id H; [by intros ?%not_elem_of_nil|].
  simpl in H. destruct (starts_with (to_ascii_lowercase m) _) eqn:E; [done|].
  intros [->|Hin]%elem_of_cons; [done|by eapply IH].
Qed.

Lemma starts_with_take n text :
  starts_with (to_ascii_lowercase n) (to_ascii_lowercase text) = true ->
  (length n <= length text)%nat
  ∧ to_ascii_lowercase (take (length n) text) = to_ascii_lowercase n.
Proof.
  intros [r Hr]%starts_with_iff.
  assert (Hlen : length (to_ascii_lowercase text)
                 = (length (to_ascii_lowercase n) + length r)%nat)
    by (rewrite Hr; apply length_app).
  rewrite !length_to_ascii_lowercase in Hlen. split; [lia|].
  rewrite <- (length_to_ascii_lowercase n).
  assert (E : to_ascii_lowercase (take (length (to_ascii_lowercase n)) text)
              = take (length (to_ascii_lowercase n)) (to_ascii_lowercase text)).
  { unfold to_ascii_lowercase. symmetry. apply firstn_map. }
  rewrite E, Hr. apply take_app_length.
Qed.

Lemma go_sound ns full pre skip text :
  full = pre ++ text ->
  Forall (ac_match_at ns full) (go ns (length pre) skip text).
Proof.
  revert pre skip. induction text as [|c text IH]; intros pre skip Hf; cbn [go].
  all: destruct (if (skip =? 0)%nat then _ else None) as [[id len]|] eqn:E.
  all: try (destruct (skip =? 0)%nat; [|done]).
  all: try (apply first_at_some in E as (n & _ & Hl & -> & Hs);
            rewrite Nat.sub_0_r in Hl; pose proof (starts_with_take _ _ Hs) as [Hlen Ht]).
  all: repeat constructor.
  all: try (exists n; split_and!; [done|lia|rewrite Hf, length_app; simpl in *; lia|];
            rewrite Hf, drop_app_length; by replace (length pre + length n - length pre)%nat
              with (length n) by lia).
  all: replace (S (length pre)) with (length (pre ++ [c])) by (rewrite length_app; simpl; lia);
       apply IH; by rewrite <- app_assoc.
Qed.

Lemma go_starts ns pos skip text :
  Forall (λ m, (pos + skip <= m.1.2)%nat) (go ns pos skip text).
Proof.
  revert pos skip. induction text as [|c text IH]; intros pos skip; cbn [go].
  all: destruct (Nat.eqb_spec skip 0) as [->|Hs].
  all: try destruct (first_at 0 ns _) as [[id len]|].
  all: repeat constructor; cbn [fst snd]; try lia.
  all: (eapply Forall_impl; [|apply IH]); intros m Hm; cbv beta in *; lia.
Qed.

Lemma go_sorted ns pos skip text i j a s e b s' e' :
  (i < j)%nat -> go ns pos skip text !! i = Some (a, s, e) ->
  go ns pos skip text !! j = Some (b, s', e') -> (e <= s')%nat.
Proof.
  revert pos skip i j. induction text as [|c text IH]; intros pos skip i j Hij; cbn [go].
  - destruct (if (skip =? 0)%nat then _ else None) as [[id len]|]; [|done].
    destruct i, j; try done. lia.
  - destruct (if (skip =? 0)%nat then _ else None) as [[id len]|]; [|by apply IH].
    destruct j as [|j]; [lia|]. destruct i as [|i].
    + simpl. intros [= <- <- <-] Hj. pose proof (go_starts ns (S pos) (len - 1) text) as H.
      rewrite Forall_lookup in H. apply H in Hj. simpl in Hj. lia.
    + simpl. apply IH. lia.
Qed.

Lemma go_none ns pos text n :
  go ns pos 0 text = [] -> n ∈ ns -> ¬ occurs n text.
Proof.
  revert pos. induction text as [|c text IH]; intros pos; cbn [go Nat.eqb];
    destruct (first_at 0 ns _) as [[id len]|] eqn:E; try done; intros Hgo Hn.
  all: pose proof (first_at_none _ _ _ _ E Hn) as Hf.
  - intros (a & w & b & Hs & Hw). destruct a; [|done]. simpl in Hs.
    assert (starts_with (to_ascii_lowercase n) (to_ascii_lowercase []) = true); [|congruence].
    rewrite Hs, to_ascii_lowercase_app, Hw. apply starts_with_app.
  - intros (a & w & b & Hs & Hw). destruct a as [|x a].
    + assert (starts_with (to_ascii_lowercase n) (to_ascii_lowercase (c :: text)) = true);
        [|congruence].
      rewrite Hs, app_nil_l, to_ascii_lowercase_app, Hw. apply starts_with_app.
    + injection Hs as -> Hs. apply (IH (S pos)); [done|done|]. by exists a, w, b.
Qed.

Lemma ac_lib_laws : AhoCorasickLaws lib.
Proof.
  split.
  - intros ns text. by apply (go_sound ns text []).
  - intros ns text i j a s e b s' e'. apply go_sorted.
  - intros ns text n. apply go_none.
Defined.
End DemoAc.

(** ** A concrete engine for the literal laws *)

Module DemoEngine.
Definition escape_char (c : Z) : str :=
  if contains_char c metachars || (c =? 92) then [92; c] else [c].
Definition escape (s : str) : str := concat (map escape_char s).

Definition new (s : str) : option DemoRegex.regex :=
  match strip_prefix (lit "(?i)") s with
  | None => None
  | Some src =>
      match unescape_escaped_literal src with
      | Some n => Some (DemoRegex.MkRegex (to_ascii_lowercase n) false)
      | None =>
          match strip_prefix (reverse DemoRegex.digits_group) (reverse src) with
          | Some r => option_map (λ n, DemoRegex.MkRegex (to_ascii_lowercase n) true)
                        (unescape_escaped_literal (reverse r))
          | None => None
          end
      end
  end.

Definition lib : RegexLib := {|
  Regex := DemoRegex.regex;
  regex_new := new;
  regex_escape := escape;
  is_match := λ re text, match DemoRegex.search re text with Some _ => true | None => false end;
  captures := DemoRegex.search;
  re_digit := is_ascii_digit;
|}.

Lemma engine_lib_laws : RegexLaws lib.
Proof. by split. Defined.

Lemma metachar_punctuation c :
  contains_char c metachars = true -> is_ascii c = true ∧ is_ascii_alphanumeric c = false.
Proof.
  unfold contains_char. rewrite existsb_exists. intros (x & Hx & ->%Z.eqb_eq).
  assert (H : forallb (λ x, is_ascii x && negb (is_ascii_alphanumeric x)) metachars = true)
    by reflexivity.
  rewrite forallb_forall in H. specialize (H x Hx).
  apply andb_true_iff in H as [? ?%negb_true_iff]. done.
Qed.

Lemma unescape_plain c s :
  contains_char c metachars = false -> (c =? 92) = false ->
  unescape_escaped_literal (c :: s) = option_map (cons c) (unescape_escaped_literal s).
Proof.
  intros Hm Hc.
  assert (E : unescape_escaped_literal (c :: s)
    = if contains_char c metachars then None
      else option_map (cons c) (unescape_escaped_literal s)); [|by rewrite E, Hm].
  destruct c as [|p|p]; try done. do 7 (destruct p as [p|p|]; try done).
Qed.

Lemma unescape_escape s : unescape_escaped_literal (escape s) = Some s.
Proof.
  induction s as [|c s IH]; [done|]. unfold escape. cbn [map concat].
  fold (escape s). unfold escape_char. destruct (contains_char c metachars || (c =? 92)) eqn:E.
  - assert (Hp : is_ascii c = true ∧ is_ascii_alphanumeric c = false).
    { apply orb_true_iff in E as [E|E]; [by apply metachar_punctuation|].
      apply Z.eqb_eq in E as ->. done. }
    destruct Hp as [Ha Hn]. cbn [app unescape_escaped_literal]. by rewrite Ha, Hn, IH.
  - apply orb_false_iff in E as [E1 E2]. cbn [app].
    by rewrite unescape_plain, IH.
Qed.

Lemma search_occurs p text :
  occurs p text ->
  DemoRegex.search (DemoRegex.MkRegex (to_ascii_lowercase p) false) text <> None.
Proof.
  intros (a & w & b & -> & Hw). induction a as [|x a IH].
  - assert (E : strip_prefix (to_ascii_lowercase p) (to_ascii_lowercase ([] ++ w ++ b))
                = Some (to_ascii_lowercase b)).
    { rewrite app_nil_l, to_ascii_lowercase_app, Hw. apply strip_prefix_app. }
    destruct ([] ++ w ++ b); cbn [DemoRegex.search DemoRegex.needle DemoRegex.group];
      by rewrite E.
  - cbn [app DemoRegex.search DemoRegex.needle DemoRegex.group].
    by destruct (strip_prefix _ _).
Qed.

Lemma literal_laws : RegexLiteralLaws lib.
Proof.
  assert (H : ∀ p n, unescape_escaped_literal p = Some n ->
    ∃ re, new (case_insensitive p) = Some re ∧
      ∀ text, occurs n text ->
        match DemoRegex.search re text with Some _ => true | None => false end = true).
  { intros p n Hn. exists (DemoRegex.MkRegex (to_ascii_lowercase n) false).
    unfold new, case_insensitive. rewrite strip_prefix_app, Hn. split; [done|].
    intros text Ho%search_occurs. by destruct (DemoRegex.search _ text). }
  split; [intros p _; apply H, unescape_escape|intros p n _ Hn _ _; by apply H].
Defined.
End DemoEngine.

(** ** Properties *)

(** A bit of a hit set is set only if its needle occurs in the scanned text, up to
    ASCII case; and if no bit is set, no needle of the channel occurs. *)
Theorem scan_channel_spec `{Ac : AhoCorasick} `{!AhoCorasickLaws Ac} channel text :
  (∀ id, hit_contains (scan_channel channel text) id = true ->
     ∃ needle, channel !! id = Some needle ∧ occurs needle text)
  ∧ ((∀ id, hit_contains (scan_channel channel text) id = false) ->
     ∀ needle, needle ∈ channel -> ¬ occurs needle text).
Proof.
  split; [intros id; apply hit_occurs|]. intros Hnone needle Hn. apply (find_iter_none channel); [|done].
  destruct (find_iter channel text) as [|[[id s] e] l] eqn:E; [done|].
  assert (Hh : hit_contains (scan_channel channel text) id = true).
  { apply scan_channel_hits. split; [by destruct channel; [apply not_elem_of_nil in Hn|]|].
    exists s, e. rewrite E. by left. }
  by rewrite Hnone in Hh.
Qed.

Definition overlapping : list str := [lit "jquery"; lit "jquery-ui"].

(** The scan reports non-overlapping occurrences, so needles that overlap shadow
    each other: of [jquery] and [jquery-ui] at most one is ever reported for the text
    [jquery-ui], whatever the automaton, although both occur. *)
Theorem overlapping_needles_lost `{Ac : AhoCorasick} `{!AhoCorasickLaws Ac} :
  occurs (lit "jquery") (lit "jquery-ui") ∧ occurs (lit "jquery-ui") (lit "jquery-ui")
  ∧ ¬ (hit_contains (scan_channel overlapping (lit "jquery-ui")) 0 = true
       ∧ hit_contains (scan_channel overlapping (lit "jquery-ui")) 1 = true).
Proof.
  split_and!.
  - by exists [], (lit "jquery"), (lit "-ui").
  - by exists [], (lit "jquery-ui"), [].
  - intros [[_ (s & e & H0)]%scan_channel_hits [_ (s' & e' & H1)]%scan_channel_hits].
    pose proof (find_iter_sound overlapping (lit "jquery-ui")) as Hs.
    rewrite Forall_forall in Hs.
    destruct (Hs _ (proj1 (list_elem_of_In _ _) H0)) as (n & [= <-] & ? & He & Hn).
    destruct (Hs _ (proj1 (list_elem_of_In _ _) H1)) as (n' & [= <-] & ? & He' & Hn').
    assert (L0 : (e - s = 6)%nat).
    { apply (f_equal length) in Hn. rewrite !length_to_ascii_lowercase, length_take,
        length_drop in Hn. simpl in *. lia. }
    assert (L1 : (e' - s' = 9)%nat).
    { apply (f_equal length) in Hn'. rewrite !length_to_ascii_lowercase, length_take,
        length_drop in Hn'. simpl in *. lia. }
    simpl in He, He'.
    apply list_elem_of_lookup in H0 as [i Hi]. apply list_elem_of_lookup in H1 as [j Hj].
    destruct (Nat.lt_trichotomy i j) as [Hij|[->|Hij]].
    + pose proof (find_iter_disjoint _ _ _ _ _ _ _ _ _ _ Hij Hi Hj). lia.
    + congruence.
    + pose proof (find_iter_disjoint _ _ _ _ _ _ _ _ _ _ Hij Hj Hi). lia.
Qed.

(** The prefix filter is not sound for alternations behind another
    metacharacter: the pattern [foobar.*|bazqux] gets the mandatory prefix [foobar], and
    without that needle the step is skipped although the compiled pattern matches. *)
Theorem mandatory_prefix_skips_alternative `{R : RegexLib} compiled text hits id :
  mandatory_prefix (lit "foobar.*|bazqux") = Some (lit "foobar")
  ∧ (matched (evaluate compiled text) = true -> hit_contains hits id = false ->
     apply_step (StepRegex compiled (Some id)) hits text (false, None) = ((false, None), false)).
Proof.
  split; [vm_compute; reflexivity|]. intros _ Hh. unfold apply_step. by rewrite Hh.
Qed.

Lemma mandatory_prefix_skips_alternative_witness :
  @apply_step DemoEngine.lib (StepRegex (Any None true) (Some 0%nat)) [] (lit "bazqux") (false, None)
  = ((false, None), false).
Proof.
  apply (@mandatory_prefix_skips_alternative DemoEngine.lib (Any None true) (lit "bazqux") [] 0%nat);
    reflexivity.
Defined.

(** C14: With rules none of whose patterns contains [\<] or [\>], the literal index never reports
    more than the patterns do: if matching a technology's channel through the index reports a
    match, some pattern of that channel compiles and matches the text, and a reported version
    is the version of such a match.  This holds for the four channels and every iteration order
    of the ruleset.  With one of the two it fails: the index takes them for an escaped [<] or
    [>], the regex crate for the boundary of a word ([word_boundary_taken_for_literal]). *)
Theorem literal_index_sound `{R : RegexLib} `{!RegexLaws R} `{!RegexLiteralLaws R}
    `{Hi : HashIter} `{!HashIterLaws Hi} `{Ac : AhoCorasick} `{!AhoCorasickLaws Ac}
    techs name tech kind text :
  map_Forall (λ _ tech, technology_plain tech) techs -> techs !! name = Some tech ->
  let ix := build techs in
  let st := (match_channel ix name kind (scan kind ix text) text (false, None)).1 in
  (st.1 = true ->
   ∃ raw c, raw ∈ field_of kind tech ∧ compile_pattern raw = Some c
     ∧ matched (evaluate c text) = true)
  ∧ (∀ v, st.2 = Some v ->
     ∃ raw c, raw ∈ field_of kind tech ∧ compile_pattern raw = Some c
       ∧ matched (evaluate c text) = true ∧ version (evaluate c text) = Some v).
Proof.
  intros Hplain Ht ix st. subst st. unfold match_channel, scan.
  destruct (plans ix !! name) as [plan|] eqn:Ep; [|by split].
  destruct (build_ok techs Hplain name plan Ep) as (tech' & Ht' & Hs). simplify_eq.
  destruct (apply_steps_sound _ _ text _ (false, None) (Hs kind)) as [H1 H2]. split.
  - intros [?|?]%H1; done.
  - intros v [?|?]%H2; done.
Qed.

(** The pattern [end\>] asks for the text [end] before the end of a word; its step is a look-up
    of the needle [end>]. *)
Example word_boundary_taken_for_literal :
  let '(i, step) := @compile_step DemoEngine.lib (lit "end\>") empty_interner in
  needles i = [lit "end>"] ∧ step = Some (StepLiteral 0).
Proof. vm_compute. split; reflexivity. Qed.

Definition demo_tech : Technology :=
  MkTechnology [] [] ∅ ∅ ∅ [lit "jquery-(\d+)\;version:\1"; lit "jquery\.min\.js"] [] [] [] ∅ [] ∅
    [] [] [] [].
Definition demo_techs : gmap str Technology := {[ lit "jQuery" := demo_tech ]}.
Definition script_url : str := lit "/js/jQuery-3/jquery.min.js".

Lemma literal_index_sound_witness :
  (@match_channel DemoEngine.lib (@build DemoEngine.lib listing demo_techs) (lit "jQuery") Script
     (@scan DemoEngine.lib DemoAc.lib Script (@build DemoEngine.lib listing demo_techs) script_url)
     script_url (false, None)).1 = (true, Some (lit "3"))
  ∧ ∃ raw c, raw ∈ field_of Script demo_tech ∧ @compile_pattern DemoEngine.lib raw = Some c
      ∧ matched (@evaluate DemoEngine.lib c script_url) = true.
Proof.
  split; [vm_compute; reflexivity|].
  apply (@literal_index_sound DemoEngine.lib DemoEngine.engine_lib_laws DemoEngine.literal_laws listing
           listing_laws DemoAc.lib DemoAc.ac_lib_laws demo_techs (lit "jQuery") demo_tech Script
           script_url).
  - apply map_Forall_singleton. intros []; repeat constructor; vm_compute; reflexivity.
  - apply lookup_singleton_eq.
  - vm_compute. reflexivity.
Defined.

Lemma overlapping_needles_lost_witness :
  @scan_channel DemoAc.lib overlapping (lit "jquery-ui") = [1]
  ∧ ¬ (hit_contains (@scan_channel DemoAc.lib overlapping (lit "jquery-ui")) 0 = true
       ∧ hit_contains (@scan_channel DemoAc.lib overlapping (lit "jquery-ui")) 1 = true).
Proof.
  split; [vm_compute; reflexivity|].
  apply (@overlapping_needles_lost DemoAc.lib DemoAc.ac_lib_laws).
Defined.
