(* ===== verification/Detection.v ===== *)
(** * Technology detection ([src/src/fingerprint/detection/])

    The matchers of the signals (headers, cookies, body, DNS and certificate), the merging
    of their results, the expansion of [implies], the exclusions and the requirements, and
    the two supplementary passes.  Hash maps are iterated in the unspecified order
    [hash_iter]. *)

From S2P Require Import Prelude Net Cookies Patterns Literals.

(** ** source.rs *)

Inductive DetectionSource :=
  | SHeader | SCookie | SHtml | SScriptSrc | SScripts | SUrl | SJs | SNs | SCname | SCert
  | SImplied.

#[export] Instance DetectionSource_eq_dec : EqDecision DetectionSource.
Proof. solve_decision. Defined.

Definition source_as_str (s : DetectionSource) : str :=
  match s with
  | SHeader => lit "header" | SCookie => lit "cookie" | SHtml => lit "html"
  | SScriptSrc => lit "scriptSrc" | SScripts => lit "scripts" | SUrl => lit "url"
  | SJs => lit "js" | SNs => lit "ns" | SCname => lit "cname" | SCert => lit "cert"
  | SImplied => lit "implied"
  end.

Definition parse_detection_source (raw : str) : option DetectionSource :=
  if streqb raw (lit "header") then Some SHeader
  else if streqb raw (lit "cookie") then Some SCookie
  else if streqb raw (lit "html") then Some SHtml
  else if streqb raw (lit "scriptSrc") then Some SScriptSrc
  else if streqb raw (lit "scripts") then Some SScripts
  else if streqb raw (lit "url") then Some SUrl
  else if streqb raw (lit "js") then Some SJs
  else if streqb raw (lit "ns") then Some SNs
  else if streqb raw (lit "cname") then Some SCname
  else if streqb raw (lit "cert") then Some SCert
  else if streqb raw (lit "implied") then Some SImplied
  else None.

(** ** mod.rs: detected technologies *)

Record DetectedTechnology := MkDetected {
  dt_name : str;
  dt_version : option str;
  category : option str;
  dt_is_implied : bool;
  detection_source : option str;
}.

Record TechInfo := MkInfo {
  ti_version : option str;
  is_implied : bool;
  ti_source : DetectionSource;
}.

Record SignalMatch := MkSignal {
  tech_name : str;
  sm_version : option str;
  sm_source : DetectionSource;
}.

Definition sanitize_technology_version (version : option str) : option str :=
  match version with
  | None => None
  | Some v =>
      let trimmed := trim v in
      if negb (nonempty trimmed) then None
      else if (7 <=? length trimmed)%nat && forallb is_ascii_hexdigit trimmed then None
      else Some v
  end.

Definition merge_observed (detected : gmap str TechInfo) (name : str) (version : option str)
    (source : DetectionSource) : gmap str TechInfo :=
  let version := sanitize_technology_version version in
  match detected !! name with
  | Some existing =>
      <[name := MkInfo (match ti_version existing with None => version | Some v => Some v end)
                  false (if is_implied existing then source else ti_source existing)]> detected
  | None => <[name := MkInfo version false source]> detected
  end.

Definition merge_all (detected : gmap str TechInfo) (results : list SignalMatch)
  : gmap str TechInfo :=
  foldl (λ d r, merge_observed d (tech_name r) (sm_version r) (sm_source r)) detected results.

Section Detection.
Context `{R : RegexLib} `{L : Lowercase} `{U : UrlLib} `{Hi : HashIter} `{Ac : AhoCorasick}.
Context (ruleset : FingerprintRuleset).

(** ** implies *)

Definition implied_references (detected : gmap str TechInfo) : list (str * option str) :=
  (hash_iter detected).*1 ≫= λ tech_name,
    match technologies ruleset !! tech_name with
    | Some tech => map parse_technology_reference (implies tech)
    | None => []
    end.

(** One implied reference: the detections and [added_any]. *)
Definition add_implied (st : gmap str TechInfo * bool) (reference : str * option str)
  : gmap str TechInfo * bool :=
  let (detected, added_any) := st in
  let (implied_name, version) := reference in
  match technologies ruleset !! implied_name with
  | None => st
  | Some _ =>
      let version := sanitize_technology_version version in
      match detected !! implied_name with
      | Some existing =>
          (if bool_decide (ti_version existing = None) && bool_decide (is_Some version)
           then <[implied_name := MkInfo version (is_implied existing) (ti_source existing)]>
                  detected
           else detected, added_any)
      | None => (<[implied_name := MkInfo version true SImplied]> detected, true)
      end
  end.

Definition implies_round (detected : gmap str TechInfo) : gmap str TechInfo * bool :=
  foldl add_implied (detected, false) (implied_references detected).

Definition MAX_IMPLIES_DEPTH : nat := 10.

Fixpoint implies_loop (depth : nat) (detected : gmap str TechInfo) : gmap str TechInfo :=
  match depth with
  | O => detected
  | S depth => match implies_round detected with
               | (detected, true) => implies_loop depth detected
               | (detected, false) => detected
               end
  end.

Definition expand_implies (detected : gmap str TechInfo) : gmap str TechInfo :=
  implies_loop MAX_IMPLIES_DEPTH detected.

(** ** matching.rs *)

Definition excludes_name (other_tech : Technology) (name : str) : bool :=
  existsb (λ excluded, streqb (parse_technology_reference excluded).1 name)
    (excludes other_tech).

Definition is_excluded (detected : gset str) (name : str) : bool :=
  existsb (λ other,
    negb (streqb other name) &&
    match technologies ruleset !! other with
    | Some other_tech => excludes_name other_tech name
    | None => false
    end) (elements detected).

Definition apply_technology_exclusions (detected : gset str) : gset str :=
  filter (λ name, is_excluded detected name = false) detected.

Definition technology_requires_satisfied (name : str) (detected : gset str) : bool :=
  match technologies ruleset !! name with
  | None => true
  | Some tech =>
      forallb (λ req, bool_decide ((parse_technology_reference req).1 ∈ detected))
        (requires tech)
      && (negb (nonempty (requires_category tech))
          || existsb (λ other,
               negb (streqb other name) &&
               match technologies ruleset !! other with
               | Some other_tech =>
                   existsb (λ cat, bool_decide (cat ∈ requires_category tech)) (cats other_tech)
               | None => false
               end) (elements detected))
  end.

Definition MAX_REQUIRES_DEPTH : nat := 10.

Definition requires_round (remaining : gset str) : gset str :=
  filter (λ name, technology_requires_satisfied name remaining = true) remaining.

Fixpoint requires_loop (depth : nat) (remaining : gset str) : gset str :=
  match depth with
  | O => remaining
  | S depth =>
      let next := requires_round remaining in
      let dropped_any :=
        existsb (λ name, negb (technology_requires_satisfied name remaining))
          (elements remaining) in
      if dropped_any then requires_loop depth next else next
  end.

Definition apply_technology_requires (detected : gset str) : gset str :=
  requires_loop MAX_REQUIRES_DEPTH detected.

(** ** Finalising *)

Definition technology_in_category (name cat : str) : bool :=
  match technologies ruleset !! name with
  | None => false
  | Some tech =>
      existsb (λ id, match categories ruleset !! id with
                     | Some c => eq_ignore_ascii_case c cat
                     | None => false
                     end) (cats tech)
  end.

Definition is_denylisted_technology (name : str) : bool :=
  if eq_ignore_ascii_case name (lit "HTTP/2") || eq_ignore_ascii_case name (lit "HTTP/3")
     || eq_ignore_ascii_case name (lit "HSTS")
  then true
  else technology_in_category name (lit "SSL/TLS certificate authorities").

Definition get_technology_category (name : str) : option str :=
  tech ← technologies ruleset !! name;
  first_cat_id ← head (cats tech);
  categories ruleset !! first_cat_id.

Definition finalize_detections (detected : gmap str TechInfo) : list DetectedTechnology :=
  let detected_names := dom detected in
  let after_exclusions := apply_technology_exclusions detected_names in
  let kept_names := apply_technology_requires after_exclusions in
  omap (λ entry : str * TechInfo,
    let (name, info) := entry in
    if bool_decide (name ∈ kept_names) then
      if is_denylisted_technology name then None
      else Some (MkDetected name (ti_version info) (get_technology_category name)
                   (is_implied info) (Some (source_as_str (ti_source info))))
    else None) (hash_iter detected).

Definition detected_to_map (techs : list DetectedTechnology) : gmap str TechInfo :=
  foldl (λ d tech,
    let source :=
      match detection_source tech ≫= parse_detection_source with
      | Some s => s
      | None => if dt_is_implied tech then SImplied else SHtml
      end in
    <[dt_name tech := MkInfo (dt_version tech) (dt_is_implied tech) source]> d) ∅ techs.
End Detection.

Section Matchers.
Context `{R : RegexLib} `{L : Lowercase} `{U : UrlLib} `{Hi : HashIter} `{Ac : AhoCorasick}.
Context (ruleset : FingerprintRuleset).

(** [PreparedSignals::from_technology]: [compile_map], [compile_list_map]. *)
Definition compile_map (patterns : gmap str str) : gmap str CompiledPattern :=
  omap compile_pattern patterns.
Definition compile_list_map (patterns : gmap str (list str)) : gmap str (list CompiledPattern) :=
  compile_list <$> patterns.

(** ** headers.rs and signal_match.rs *)

Definition is_csp_allowlist_header (name : str) : bool :=
  streqb name (lit "content-security-policy")
  || streqb name (lit "content-security-policy-report-only").

(** One pattern key of one technology. *)
Definition match_key (values : gmap str str) (compiled_map : gmap str CompiledPattern)
    (skip_key : str -> bool) (key : str) (st : Flags) : Flags * bool :=
  if skip_key key then (st, false)
  else
    match values !! key, compiled_map !! key with
    | Some value, Some compiled =>
        if presence_only compiled then ((true, st.2), true)
        else
          let result := evaluate compiled value in
          if matched result then
            let version := match st.2 with None => version result | Some _ => st.2 end in
            ((true, version), bool_decide (is_Some version))
          else (st, false)
    | _, _ => (st, false)
    end.

Definition match_string_map_signal (values : gmap str str) (skip_key : str -> bool)
    (source : DetectionSource) : list SignalMatch :=
  omap (λ entry : str * Technology,
    let (name, tech) := entry in
    let st := for_each (match_key values (compile_map (headers tech)) skip_key)
                (hash_iter (headers tech)).*1 (false, None) in
    if st.1 then Some (MkSignal name st.2 source) else None)
    (hash_iter (technologies ruleset)).

Definition check_headers (headers : gmap str str) : list SignalMatch :=
  match_string_map_signal headers is_csp_allowlist_header SHeader.

(** ** cookies.rs *)

Definition join_with (sep : str) (parts : list str) : str :=
  match parts with
  | [] => []
  | p :: ps => p ++ concat (map (λ q, sep ++ q) ps)
  end.

Definition wildcard_source (cookie_name : str) : str :=
  lit "^" ++ join_with (lit ".*") (map regex_escape (split_char 42 cookie_name)) ++ lit "$".

Definition wildcard_cookie_regex (cookie_name : str) (cache : Cache) : Cache * option Regex :=
  get_or_compile_regex (wildcard_source cookie_name) (lit "cookie:" ++ cookie_name) cache.

Definition consider_cookie (compiled : CompiledPattern) (cookie_value : str) (st : Flags)
  : Flags * bool :=
  if presence_only compiled then ((true, st.2), true)
  else
    let result := evaluate compiled cookie_value in
    if matched result then
      let version := match st.2 with None => version result | Some _ => st.2 end in
      ((true, version), bool_decide (is_Some version))
    else (st, false).

Definition match_cookie_key (cookies : gmap str str)
    (compiled_map : gmap str CompiledPattern) (cookie_name : str) (st : Cache * Flags)
  : Cache * Flags * bool :=
  let (cache, flags) := st in
  let finished (flags : Flags) := flags.1 && bool_decide (is_Some flags.2) in
  if contains_char 42 cookie_name then
    match wildcard_cookie_regex cookie_name cache with
    | (cache, None) => ((cache, flags), false)
    | (cache, Some cookie_regex) =>
        let flags :=
          for_each (λ cookie flags,
            if is_match cookie_regex cookie.1 then
              match compiled_map !! cookie_name with
              | Some compiled => consider_cookie compiled cookie.2 flags
              | None => (flags, false)
              end
            else (flags, false)) (hash_iter cookies) flags in
        ((cache, flags), finished flags)
    end
  else
    match cookies !! cookie_name with
    | Some cookie_value =>
        match compiled_map !! cookie_name with
        | Some compiled =>
            let (flags, stop) := consider_cookie compiled cookie_value flags in
            ((cache, flags), stop || finished flags)
        | None => ((cache, flags), false)
        end
    | None => ((cache, flags), finished flags)
    end.

Definition match_cookies_tech (cookies : gmap str str) (entry : str * Technology)
    (cache : Cache) : Cache * option SignalMatch :=
  let (name, tech) := entry in
  let '(cache, flags) :=
    for_each (match_cookie_key cookies (compile_map (Literals.cookies tech)))
      (hash_iter (Literals.cookies tech)).*1 (cache, (false, None)) in
  (cache, if flags.1 then Some (MkSignal name flags.2 SCookie) else None).

Definition check_cookies (cookies : gmap str str) (cache : Cache) : Cache * list SignalMatch :=
  foldl (λ st entry,
    let (cache, m) := match_cookies_tech cookies entry st.1 in
    (cache, match m with Some m => st.2 ++ [m] | None => st.2 end))
    (cache, []) (hash_iter (technologies ruleset)).

(** ** dns_cert.rs *)

Definition is_serving_stack_dns_type (record_type : str) : bool :=
  eq_ignore_ascii_case record_type (lit "NS") || eq_ignore_ascii_case record_type (lit "CNAME").

(** The flags with the source of the first match. *)
Definition SourcedFlags : Type := Flags * option DetectionSource.

Definition match_sourced (source : DetectionSource) (haystack : str)
    (pattern : CompiledPattern) (st : SourcedFlags) : SourcedFlags * bool :=
  let result := evaluate pattern haystack in
  if matched result then
    let version := match st.1.2 with None => version result | Some _ => st.1.2 end in
    (((true, version), match st.2 with None => Some source | Some _ => st.2 end),
     bool_decide (is_Some version))
  else (st, false).

(** Only NS and CNAME keys get past the guard, so upper-casing is ASCII. *)
Definition match_dns_key (dns_records : gmap str str)
    (compiled_map : gmap str (list CompiledPattern)) (record_type : str) (st : SourcedFlags)
  : SourcedFlags * bool :=
  if negb (is_serving_stack_dns_type record_type) then (st, false)
  else
    match dns_records !! to_ascii_uppercase record_type, compiled_map !! record_type with
    | Some haystack, Some patterns =>
        let source := if eq_ignore_ascii_case record_type (lit "CNAME") then SCname else SNs in
        let st := for_each (match_sourced source haystack) patterns st in
        (st, bool_decide (is_Some st.1.2))
    | _, _ => (st, false)
    end.

Definition check_dns_and_cert (dns_records : gmap str str) (cert_issuer : option str)
  : list SignalMatch :=
  let cert_issuer_lower := option_map to_lowercase cert_issuer in
  omap (λ entry : str * Technology,
    let (name, tech) := entry in
    if bool_decide (dns tech = ∅) && negb (nonempty (Literals.cert_issuer tech)) then None
    else
      let st := for_each (match_dns_key dns_records (compile_list_map (dns tech)))
                  (hash_iter (dns tech)).*1 ((false, None), None) in
      let st := match cert_issuer_lower with
                | Some issuer =>
                    for_each (match_sourced SCert issuer)
                      (compile_list (Literals.cert_issuer tech)) st
                | None => st
                end in
      if st.1.1 then
        Some (MkSignal name st.1.2 (match st.2 with Some s => s | None => SNs end))
      else None) (hash_iter (technologies ruleset)).

(** ** body.rs *)

Definition match_meta (tech_meta : gmap str (list CompiledPattern))
    (meta_tags : gmap str (list str)) (st : Flags) : Flags :=
  for_each (λ entry st,
    let result := check_compiled_meta_patterns entry.1 entry.2 meta_tags in
    if matched result then
      let version := match st.2 with None => version result | Some _ => st.2 end in
      ((true, version), bool_decide (is_Some version))
    else (st, false)) (hash_iter tech_meta) st.

(** The source is set when a stage turns [matched] on. *)
Definition note_source (source : DetectionSource) (before after : Flags)
    (current : option DetectionSource) : option DetectionSource :=
  if after.1 && negb before.1 && bool_decide (current = None) then Some source else current.

Definition body_stage (source : DetectionSource) (run : Flags -> Flags) (st : SourcedFlags)
  : SourcedFlags :=
  if bool_decide (st.1.2 = None) then
    let after := run st.1 in (after, note_source source st.1 after st.2)
  else st.

(** One script source; the version stops the loop, which also sets a missing source. *)
Definition match_script_source (ix : LiteralIndex) (name : str) (script_src : str)
    (st : SourcedFlags) : SourcedFlags * bool :=
  match match_channel ix name Script (scan Script ix script_src) script_src st.1 with
  | (after, true) =>
      ((after, match st.2 with None => Some SScriptSrc | Some _ => st.2 end), true)
  | (after, false) => ((after, note_source SScriptSrc st.1 after st.2), false)
  end.

Definition match_body (ix : LiteralIndex) (html_body : str) (script_sources : list str)
    (meta_tags : gmap str (list str)) (page_url inline_script_text : str)
    (entry : str * Technology) : option SignalMatch :=
  let (name, tech) := entry in
  if negb (nonempty (html tech)) && negb (nonempty (script tech))
     && negb (nonempty (scripts tech)) && bool_decide (meta tech = ∅)
     && negb (nonempty (url tech))
  then None
  else
    let channel kind text st := (match_channel ix name kind (scan kind ix text) text st).1 in
    let st := ((false, None), None) in
    let st := body_stage SHtml (channel Html html_body) st in
    let st := if bool_decide (st.1.2 = None)
              then for_each (match_script_source ix name) script_sources st else st in
    let st := if nonempty inline_script_text
              then body_stage SScripts (channel Scripts inline_script_text) st else st in
    let st := body_stage SHtml (match_meta (compile_list_map (meta tech)) meta_tags) st in
    let st := body_stage SUrl (channel UrlChannel page_url) st in
    if st.1.1 then
      Some (MkSignal name st.1.2 (match st.2 with Some s => s | None => SHtml end))
    else None.

Definition check_body (html_body : str) (script_sources : list str)
    (meta_tags : gmap str (list str)) (page_url inline_script_text : str) : list SignalMatch :=
  omap (match_body (build (technologies ruleset)) html_body script_sources meta_tags page_url
          inline_script_text) (hash_iter (technologies ruleset)).

Definition check_scripts (script_text : str) : list SignalMatch :=
  if negb (nonempty script_text) then []
  else
    let ix := build (technologies ruleset) in
    omap (λ entry : str * Technology,
      let (name, tech) := entry in
      if negb (nonempty (scripts tech)) then None
      else
        let st := (match_channel ix name Scripts (scan Scripts ix script_text) script_text
                     (false, None)).1 in
        if st.1 then Some (MkSignal name st.2 SScripts) else None)
      (hash_iter (technologies ruleset)).
End Matchers.

(** ** utils.rs and interstitial.rs *)

(** Header lines in order; a value that is not visible ASCII is [None]. *)
Definition normalize_headers_to_map `{L : Lowercase} (headers : list (str * option str))
  : gmap str str :=
  foldl (λ m h,
    match h.2 with
    | None => m
    | Some header_value =>
        let header_name := to_lowercase h.1 in
        let lower := to_lowercase header_value in
        match m !! header_name with
        | Some existing => <[header_name := existing ++ lit ", " ++ lower]> m
        | None => <[header_name := lower]> m
        end
    end) ∅ headers.

Definition challenge_title (title : str) : bool :=
  let t := to_ascii_lowercase (trim title) in
  starts_with (lit "just a moment") t || contains (lit "attention required") t
  || contains (lit "checking your browser") t || contains (lit "pardon our interruption") t
  || contains (lit "please wait while we verify") t.

Definition challenge_body (body : str) : bool :=
  let b := to_ascii_lowercase body in
  contains (lit "cf-browser-verification") b || contains (lit "cdn-cgi/challenge") b
  || contains (lit "_cf_chl") b || contains (lit "checking your browser before accessing") b
  || (contains (lit "akamai") b && contains (lit "interruption") b)
  || (contains (lit "cloudflare") b && contains (lit "enable javascript") b).

(** [body_len] is the length of the body in bytes. *)
Definition is_challenge_interstitial (status : Z) (title body : str) (body_len : Z) : bool :=
  if challenge_title title then true
  else (status =? 403) && (body_len <? 4096) && challenge_body body.

(** ** mod.rs: the passes *)

(** The signals of a page. *)
Record PageSignals := MkSignals {
  p_headers : list (str * option str);
  p_cookies : CookieHeaders;
  meta_tags : gmap str (list str);
  script_sources : list str;
  html_body : str;
  page_url : str;
  script_tag_ids : gset str;
  inline_script_text : str;
}.

Section Passes.
Context `{R : RegexLib} `{L : Lowercase} `{U : UrlLib} `{Hi : HashIter} `{Ac : AhoCorasick}.
Context (ruleset : FingerprintRuleset).

Definition is_github_dot_com_host (page_url : str) : bool :=
  match url_parse page_url with
  | None => false
  | Some parsed =>
      match url_host_str parsed with
      | Some host =>
          let host := to_ascii_lowercase (trim_end_by (Z.eqb 46) host) in
          streqb host (lit "github.com") || streqb host (lit "www.github.com")
      | None => false
      end
  end.

Definition drop_github_pages_on_github_dot_com (techs : list DetectedTechnology)
    (page_url : str) : list DetectedTechnology :=
  if is_github_dot_com_host page_url
  then List.filter (λ tech, negb (streqb (dt_name tech) (lit "GitHub Pages"))) techs
  else techs.

(** Static script ids against the [js] keys. *)
Definition check_script_ids (ids : gset str) : list SignalMatch :=
  omap (λ entry : str * Technology,
    let (name, tech) := entry in
    if existsb (λ js_key, bool_decide (js_key ∈ ids)) (hash_iter (js tech)).*1
    then Some (MkSignal name None SJs) else None)
    (hash_iter (technologies ruleset)).

Definition detect_technologies_blocking (p : PageSignals) (cache : Cache)
  : Cache * list DetectedTechnology :=
  let cookies := extract_cookies_name_value_map (p_cookies p) in
  let header_map := normalize_headers_to_map (p_headers p) in
  let detected := merge_all ∅ (check_headers ruleset header_map) in
  let (cache, detected) :=
    if bool_decide (cookies = ∅) then (cache, detected)
    else let (cache, results) := check_cookies ruleset cookies cache in
         (cache, merge_all detected results) in
  let detected :=
    merge_all detected
      (check_body ruleset (html_body p) (script_sources p) (meta_tags p) (page_url p)
         (inline_script_text p)) in
  let detected :=
    if bool_decide (script_tag_ids p = ∅) then detected
    else merge_all detected (check_script_ids (script_tag_ids p)) in
  let detected := expand_implies ruleset detected in
  (cache,
   drop_github_pages_on_github_dot_com (finalize_detections ruleset detected) (page_url p)).

Definition supplement_technologies_with_dns_cert
    (already_detected : list DetectedTechnology) (dns_records : gmap str str)
    (cert_issuer : option str) : list DetectedTechnology :=
  if bool_decide (dns_records = ∅) && bool_decide (cert_issuer = None) then already_detected
  else
    match check_dns_and_cert ruleset dns_records cert_issuer with
    | [] => already_detected
    | supplemental =>
        finalize_detections ruleset
          (expand_implies ruleset (merge_all (detected_to_map already_detected) supplemental))
    end.

Definition supplement_technologies_with_script_text
    (already_detected : list DetectedTechnology) (script_text : str)
  : list DetectedTechnology :=
  if negb (nonempty script_text) then already_detected
  else
    match check_scripts ruleset script_text with
    | [] => already_detected
    | supplemental =>
        finalize_detections ruleset
          (expand_implies ruleset (merge_all (detected_to_map already_detected) supplemental))
    end.

Definition dns_records_haystack (nameservers cname_chain : option str) : gmap str str :=
  let push (key : str) (value : option str) (m : gmap str str) :=
    match value with
    | Some v => if nonempty v then <[key := to_lowercase v]> m else m
    | None => m
    end in
  push (lit "CNAME") cname_chain (push (lit "NS") nameservers ∅).
End Passes.

(** ** Lemmas: implies *)

Section ImpliesLemmas.
Context `{Hi : HashIter} `{!HashIterLaws Hi}.
Context (ruleset : FingerprintRuleset).

(** [a] lists [b] in its [implies], and the ruleset knows both. *)
Definition implies_edge (a b : str) : Prop :=
  ∃ tech, technologies ruleset !! a = Some tech
    ∧ b ∈ (map parse_technology_reference (implies tech)).*1
    ∧ is_Some (technologies ruleset !! b).

(** Reachable in at most [n] steps. *)
Fixpoint implied_within (n : nat) (a b : str) : Prop :=
  match n with
  | O => a = b
  | S n => a = b \/ ∃ c, implies_edge a c ∧ implied_within n c b
  end.

Lemma elem_of_references d b v :
  (b, v) ∈ implied_references ruleset d <->
  ∃ a tech, is_Some (d !! a) ∧ technologies ruleset !! a = Some tech
    ∧ (b, v) ∈ map parse_technology_reference (implies tech).
Proof.
  unfold implied_references. rewrite list_elem_of_bind. split.
  - intros (a & Hin & Ha). apply list_elem_of_fmap in Ha as ([a' i] & -> & Ha).
    apply elem_of_hash_iter in Ha. simpl in *.
    destruct (technologies ruleset !! a') as [tech|] eqn:Et; [|by apply not_elem_of_nil in Hin].
    exists a', tech. by split_and!; [exists i| |].
  - intros (a & tech & [i Hd] & Ht & Hin). exists a. rewrite Ht. split; [done|].
    apply list_elem_of_fmap. exists (a, i). split; [done|]. by apply elem_of_hash_iter.
Qed.

(** The entries a round keeps, and those it may add. *)
Definition extends (d d' : gmap str TechInfo) : Prop :=
  (∀ k i, d !! k = Some i -> ∃ i', d' !! k = Some i' ∧ is_implied i' = is_implied i
     ∧ ti_source i' = ti_source i ∧ (∀ v, ti_version i = Some v -> ti_version i' = Some v))
  ∧ (∀ k i', d !! k = None -> d' !! k = Some i' -> is_implied i' = true ∧ ti_source i' = SImplied).

Lemma extends_refl d : extends d d.
Proof. split; [intros k i H; by exists i|congruence]. Qed.

Lemma extends_trans a b c : extends a b -> extends b c -> extends a c.
Proof.
  intros [H1 H2] [H3 H4]. split.
  - intros k i (i1 & E1 & A1 & B1 & C1)%H1. destruct (H3 _ _ E1) as (i2 & E2 & A2 & B2 & C2).
    exists i2. split_and!; [done|congruence|congruence|auto].
  - intros k i Hn Hc. destruct (b !! k) as [j|] eqn:Eb.
    + destruct (H2 _ _ Hn Eb) as [A B]. destruct (H3 _ _ Eb) as (i' & E & A' & B' & _).
      simplify_eq. by rewrite A', B'.
    + by apply (H4 k).
Qed.

Lemma add_implied_spec d flag r :
  let '(d', flag') := add_implied ruleset (d, flag) r in
  extends d d'
  ∧ (dom d' = dom d ∪ (if bool_decide (is_Some (technologies ruleset !! r.1))
                      then {[r.1]} else ∅))
  ∧ flag' = flag || bool_decide (is_Some (technologies ruleset !! r.1))
                    && bool_decide (d !! r.1 = None).
Proof.
  destruct r as [name v]. unfold add_implied. cbn [fst].
  destruct (technologies ruleset !! name) as [t|] eqn:Et.
  2: { rewrite bool_decide_eq_false_2 by (by intros []). cbn [andb].
       split_and!; [apply extends_refl|set_solver|by rewrite orb_false_r]. }
  rewrite (bool_decide_eq_true_2 (is_Some (Some t))) by (by eexists). cbn [andb].
  destruct (d !! name) as [i|] eqn:Ed.
  - rewrite (bool_decide_eq_false_2 (Some i = None)) by done. rewrite orb_false_r.
    assert (Hdom : name ∈ dom d) by (by apply elem_of_dom_2 in Ed).
    destruct (_ && _) eqn:Ev.
    + apply andb_true_iff in Ev as [Ev%bool_decide_eq_true _].
      split_and!; [|rewrite dom_insert_L; set_solver|done].
      split.
      * intros k j Hk. destruct (decide (k = name)) as [->|Hne].
        -- rewrite lookup_insert_eq. eexists. split; [done|]. simplify_eq.
           split_and!; [done|done|]. congruence.
        -- rewrite lookup_insert_ne by done. by exists j.
      * intros k j Hk. destruct (decide (k = name)) as [->|Hne]; [congruence|].
        rewrite lookup_insert_ne by done. congruence.
    + split_and!; [apply extends_refl|set_solver|done].
  - rewrite (bool_decide_eq_true_2 (None = None)) by done. rewrite orb_true_r.
    split_and!; [|rewrite dom_insert_L; set_solver|done].
    split.
    + intros k j Hk. destruct (decide (k = name)) as [->|Hne]; [congruence|].
      rewrite lookup_insert_ne by done. by exists j.
    + intros k j Hk. destruct (decide (k = name)) as [->|Hne].
      * rewrite lookup_insert_eq. by intros [= <-].
      * rewrite lookup_insert_ne by done. congruence.
Qed.

Lemma foldl_add_implied refs d flag :
  let '(d', flag') := foldl (add_implied ruleset) (d, flag) refs in
  extends d d'
  ∧ (∀ b, b ∈ dom d' <-> b ∈ dom d \/ (b ∈ refs.*1 ∧ is_Some (technologies ruleset !! b)))
  ∧ (flag' = false -> flag = false ∧ dom d' = dom d).
Proof.
  revert d flag. induction refs as [|r refs IH]; intros d flag; cbn [foldl].
  { split_and!; [apply extends_refl| |done]. intros b. rewrite elem_of_nil. tauto. }
  pose proof (add_implied_spec d flag r) as Hr.
  destruct (add_implied ruleset (d, flag) r) as [d1 flag1]. destruct Hr as (He & Hd & Hf).
  specialize (IH d1 flag1). destruct (foldl _ (d1, flag1) refs) as [d2 flag2].
  destruct IH as (He' & Hd' & Hf').
  split_and!; [by eapply extends_trans| |].
  - intros b. rewrite Hd', Hd, elem_of_union, fmap_cons, elem_of_cons.
    case_bool_decide as Hs; [rewrite elem_of_singleton|rewrite elem_of_empty]; naive_solver.
  - intros Hfalse. destruct (Hf' Hfalse) as [Hf1 ->].
    rewrite Hf in Hf1. apply orb_false_iff in Hf1 as [-> Hf1]. split; [done|]. rewrite Hd.
    case_bool_decide as Hs; [|set_solver]. cbn [andb] in Hf1.
    apply bool_decide_eq_false in Hf1. assert (r.1 ∈ dom d) by (by apply elem_of_dom, not_eq_None_Some).
    set_solver.
Qed.

Lemma implies_round_spec d :
  let '(d', added) := implies_round ruleset d in
  extends d d'
  ∧ (∀ b, b ∈ dom d' <-> b ∈ dom d \/ ∃ a, a ∈ dom d ∧ implies_edge a b)
  ∧ (added = false -> dom d' = dom d).
Proof.
  unfold implies_round. pose proof (foldl_add_implied (implied_references ruleset d) d false) as H.
  destruct (foldl _ _ _) as [d' added]. destruct H as (He & Hd & Hf).
  split_and!; [done| |by intros [_ ?]%Hf].
  intros b. rewrite Hd. apply or_iff_compat_l. split.
  - intros [([b' v] & -> & Hin)%list_elem_of_fmap Hk]. cbn [fst] in *.
    apply elem_of_references in Hin as (a & tech & Ha & Ht & Hin).
    exists a. split; [by apply elem_of_dom|]. exists tech. split_and!; [done| |done].
    apply list_elem_of_fmap. by exists (b', v).
  - intros (a & Ha & tech & Ht & ([b' v] & -> & Hin)%list_elem_of_fmap & Hk). split; [|done].
    apply list_elem_of_fmap. exists (b', v). split; [done|].
    apply elem_of_references. exists a, tech. split_and!; [by apply elem_of_dom|done|done].
Qed.

Lemma implied_within_refl n a : implied_within n a a.
Proof. destruct n; simpl; auto. Qed.

Lemma implied_within_mono n a b : implied_within n a b -> implied_within (S n) a b.
Proof.
  revert a. induction n as [|n IH]; intros a; [by left|].
  intros [->|(c & Hc & Hn)]; [by left|right]. exists c. auto.
Qed.

(** Nothing new is reachable once a set is closed. *)
Lemma implied_within_closed (X : gset str) n a b :
  (∀ a b, a ∈ X -> implies_edge a b -> b ∈ X) -> a ∈ X -> implied_within n a b -> b ∈ X.
Proof.
  intros Hc. revert a. induction n as [|n IH]; intros a Ha; [by intros <-|].
  intros [<-|(c & He & Hn)]; [done|]. by eapply IH, Hn; eauto.
Qed.

Lemma implies_loop_spec depth d :
  let d' := implies_loop ruleset depth d in
  extends d d' ∧
  (∀ b, b ∈ dom d' <-> ∃ a, a ∈ dom d ∧ implied_within depth a b).
Proof.
  revert d. induction depth as [|depth IH]; intros d; cbn [implies_loop].
  { split; [apply extends_refl|]. intros b. split; [by exists b|by intros (a & ? & <-)]. }
  pose proof (implies_round_spec d) as H. destruct (implies_round ruleset d) as [d1 [|]];
    destruct H as (He & Hd & Hf).
  - destruct (IH d1) as [He' Hd']. split; [by eapply extends_trans|]. intros b.
    rewrite Hd'. split.
    + intros (a & [Ha|(a0 & Ha & Hedge)]%Hd & Hn).
      * exists a. split; [done|]. by apply implied_within_mono.
      * exists a0. split; [done|]. right. by exists a.
    + intros (a & Ha & [->|(c & Hc & Hn)]).
      * exists b. split; [apply Hd; by left|apply implied_within_refl].
      * exists c. split; [|done]. apply Hd. right. by exists a.
  - split; [done|]. intros b. rewrite (Hf eq_refl). split.
    + intros Hb. exists b. split; [done|apply implied_within_refl].
    + intros (a & Ha & Hn). eapply (implied_within_closed (dom d)); [|done|done].
      intros x y Hx Hxy. rewrite <- (Hf eq_refl). apply Hd. right. by exists x.
Qed.
End ImpliesLemmas.

(** ** Lemmas: exclusions and requirements *)

Section SetLemmas.
Context (ruleset : FingerprintRuleset).

(** [a] lists [b] in its [excludes]. *)
Definition excludes_edge (a b : str) : Prop :=
  ∃ tech, technologies ruleset !! a = Some tech
    ∧ b ∈ (map parse_technology_reference (excludes tech)).*1.

Lemma is_excluded_spec detected name :
  is_excluded ruleset detected name = true <->
  ∃ other, other ∈ detected ∧ other <> name ∧ excludes_edge other name.
Proof.
  unfold is_excluded. rewrite existsb_exists. split.
  - intros (other & Hin%list_elem_of_In%elem_of_elements & [Hne H]%andb_true_iff).
    apply negb_true_iff, streqb_neq in Hne. exists other. split_and!; [done|done|].
    destruct (technologies ruleset !! other) as [tech|] eqn:Et; [|done].
    exists tech. split; [done|]. unfold excludes_name in H.
    apply existsb_exists in H as (e & He & <-%streqb_eq).
    apply list_elem_of_fmap. exists (parse_technology_reference e). split; [done|].
    apply list_elem_of_In, in_map, He.
  - intros (other & Hin & Hne & tech & Et & (p & -> & Hp)%list_elem_of_fmap).
    exists other. split; [by apply list_elem_of_In, elem_of_elements|].
    rewrite andb_true_iff, negb_true_iff, streqb_neq, Et. split; [done|].
    unfold excludes_name. apply existsb_exists.
    apply list_elem_of_In, in_map_iff in Hp as (e & <- & He). exists e.
    by rewrite streqb_eq.
Qed.

Lemma elem_of_exclusions detected name :
  name ∈ apply_technology_exclusions ruleset detected <->
  name ∈ detected ∧ ¬ ∃ other, other ∈ detected ∧ other <> name ∧ excludes_edge other name.
Proof.
  unfold apply_technology_exclusions. rewrite elem_of_filter, <- is_excluded_spec.
  destruct (is_excluded ruleset detected name); naive_solver.
Qed.

(** What a technology needs in a set: the technologies it requires, and, when it requires
    categories, another technology of one of them. *)
Definition satisfied (X : gset str) (name : str) : Prop :=
  ∀ tech, technologies ruleset !! name = Some tech ->
    (∀ req, req ∈ requires tech -> (parse_technology_reference req).1 ∈ X)
    ∧ (requires_category tech = []
       \/ ∃ other other_tech cat, other ∈ X ∧ other <> name
            ∧ technologies ruleset !! other = Some other_tech
            ∧ cat ∈ cats other_tech ∧ cat ∈ requires_category tech).

Lemma satisfied_spec X name :
  technology_requires_satisfied ruleset name X = true <-> satisfied X name.
Proof.
  unfold satisfied, technology_requires_satisfied.
  destruct (technologies ruleset !! name) as [tech|]; [|naive_solver].
  rewrite andb_true_iff, orb_true_iff, negb_true_iff, forallb_forall, existsb_exists.
  assert (Hr : (∀ r, In r (requires tech) ->
            bool_decide ((parse_technology_reference r).1 ∈ X) = true)
          <-> (∀ r, r ∈ requires tech -> (parse_technology_reference r).1 ∈ X)).
  { setoid_rewrite bool_decide_eq_true. by setoid_rewrite list_elem_of_In. }
  rewrite Hr. clear Hr.
  assert (Hn : nonempty (requires_category tech) = false <-> requires_category tech = []).
  { by destruct (requires_category tech). }
  rewrite Hn. clear Hn. split.
  - intros [Hr Hc] tech' [= <-]. split; [done|]. destruct Hc as [?|(o & Ho & H)]; [by left|right].
    apply list_elem_of_In, elem_of_elements in Ho. apply andb_true_iff in H as [Hne H].
    apply negb_true_iff, streqb_neq in Hne.
    destruct (technologies ruleset !! o) as [ot|] eqn:Eo; [|done].
    apply existsb_exists in H as (cat & Hcat & Hreq). apply bool_decide_eq_true in Hreq.
    exists o, ot, cat. split_and!; try done. by apply list_elem_of_In.
  - intros H. destruct (H tech eq_refl) as [Hr Hc]. split; [done|].
    destruct Hc as [?|(o & ot & cat & Ho & Hne & Eo & Hcat & Hreq)]; [by left|right].
    exists o. split; [by apply list_elem_of_In, elem_of_elements|].
    rewrite (proj2 (streqb_neq o name) Hne), Eo. apply existsb_exists. exists cat.
    split; [by apply list_elem_of_In|by apply bool_decide_eq_true].
Qed.

Lemma satisfied_mono X Y name : X ⊆ Y -> satisfied X name -> satisfied Y name.
Proof. unfold satisfied. intros Hsub H tech Ht. destruct (H tech Ht). naive_solver. Qed.

Definition supported (X : gset str) : Prop := ∀ name, name ∈ X -> satisfied X name.

Lemma requires_round_subset X : requires_round ruleset X ⊆ X.
Proof. unfold requires_round. set_solver. Qed.

Lemma requires_loop_subset depth X : requires_loop ruleset depth X ⊆ X.
Proof.
  revert X. induction depth as [|depth IH]; intros X; [done|]. cbn [requires_loop].
  pose proof (requires_round_subset X).
  destruct (existsb _ _); [|done]. specialize (IH (requires_round ruleset X)). set_solver.
Qed.

Lemma requires_loop_supported_subset depth X S :
  S ⊆ X -> supported S -> S ⊆ requires_loop ruleset depth X.
Proof.
  revert X. induction depth as [|depth IH]; intros X Hsub Hs; [done|]. cbn [requires_loop].
  assert (Hr : S ⊆ requires_round ruleset X).
  { intros name Hn. apply elem_of_filter. split; [|by apply Hsub].
    by apply satisfied_spec, (satisfied_mono S), Hs. }
  destruct (existsb _ _); [by apply IH|done].
Qed.

Lemma requires_no_drop X :
  existsb (λ name, negb (technology_requires_satisfied ruleset name X)) (elements X) = false ->
  supported X ∧ requires_round ruleset X = X.
Proof.
  intros H. assert (Hs : supported X).
  { intros name Hn. apply satisfied_spec.
    destruct (technology_requires_satisfied ruleset name X) eqn:E; [done|].
    assert (existsb (λ name, negb (technology_requires_satisfied ruleset name X)) (elements X)
            = true); [|congruence].
    apply existsb_exists. exists name. split; [by apply list_elem_of_In, elem_of_elements|].
    by rewrite E. }
  split; [done|]. apply set_eq. intros name. unfold requires_round. rewrite elem_of_filter.
  split; [tauto|]. intros Hn. split; [by apply satisfied_spec, Hs|done].
Qed.

(** Each round that does not reach the fixpoint drops something. *)
Lemma requires_loop_supported depth X :
  (size X <= depth)%nat -> supported (requires_loop ruleset depth X).
Proof.
  revert X. induction depth as [|depth IH]; intros X Hsz.
  { apply Nat.le_0_r, size_empty_inv in Hsz. intros name Hn. simpl in Hn. set_solver. }
  cbn [requires_loop]. destruct (existsb _ (elements X)) eqn:E.
  - apply IH. apply existsb_exists in E as (name & Hin & Hd).
    apply list_elem_of_In, elem_of_elements in Hin.
    assert (size (requires_round ruleset X) < size X)%nat; [|lia].
    apply subset_size. split; [apply requires_round_subset|]. intros Hsub.
    apply Hsub, elem_of_filter in Hin as [Hs _]. by rewrite Hs in Hd.
  - apply requires_no_drop in E as [Hs ->]. done.
Qed.
End SetLemmas.

(** ** Lemmas: finalising *)

Section FinalLemmas.
Context `{Hi : HashIter} `{!HashIterLaws Hi}.
Context (ruleset : FingerprintRuleset).

Definition kept (detected : gmap str TechInfo) : gset str :=
  apply_technology_requires ruleset (apply_technology_exclusions ruleset (dom detected)).

Lemma elem_of_finalize detected t :
  t ∈ finalize_detections ruleset detected <->
  ∃ info, detected !! dt_name t = Some info ∧ dt_name t ∈ kept detected
    ∧ is_denylisted_technology ruleset (dt_name t) = false
    ∧ t = MkDetected (dt_name t) (ti_version info)
            (get_technology_category ruleset (dt_name t))
            (is_implied info) (Some (source_as_str (ti_source info))).
Proof.
  unfold finalize_detections. fold (kept detected). rewrite list_elem_of_omap. split.
  - intros ([name info] & Hin%elem_of_hash_iter & H).
    case_bool_decide as Hk; [|done].
    destruct (is_denylisted_technology ruleset name) eqn:Ed; [done|]. injection H as <-.
    exists info. done.
  - intros (info & Hd & Hk & Hden & Ht). exists (dt_name t, info).
    split; [by apply elem_of_hash_iter|]. rewrite bool_decide_eq_true_2, Hden by done.
    by rewrite <- Ht.
Qed.

Lemma finalize_names_nodup detected :
  NoDup (map dt_name (finalize_detections ruleset detected)).
Proof.
  unfold finalize_detections.
  assert (Hnd : NoDup (hash_iter detected).*1).
  { rewrite hash_iter_perm. apply NoDup_fst_map_to_list. }
  induction (hash_iter detected) as [|[name info] l IH]; [constructor|].
  rewrite fmap_cons in Hnd. inversion_clear Hnd as [|? ? Hn Hnd']. specialize (IH Hnd').
  simpl. case_bool_decide; [|done].
  destruct (is_denylisted_technology ruleset name); [done|]. simpl.
  constructor; [|done]. intros Hin. apply Hn.
  apply list_elem_of_In, in_map_iff in Hin as (t & Ht & Hin).
  apply list_elem_of_In, list_elem_of_omap in Hin as ([n i] & Hin & Heq).
  case_bool_decide; [|done]. destruct (is_denylisted_technology ruleset n); [done|].
  injection Heq as <-. simpl in Ht. subst. apply list_elem_of_fmap. by exists (name, i).
Qed.
End FinalLemmas.

Lemma for_each_ext {A S} (f g : A -> S -> S * bool) l s :
  (∀ x s, x ∈ l -> f x s = g x s) -> for_each f l s = for_each g l s.
Proof.
  revert s. induction l as [|x l IH]; intros s H; [done|]. cbn [for_each].
  rewrite H by (by left). destruct (g x s) as [s' [|]]; [done|].
  apply IH. intros y s'' Hy. apply H. by right.
Qed.

Lemma omap_ext_in {A B} (f g : A -> option B) (l : list A) :
  (∀ x, x ∈ l -> f x = g x) -> omap f l = omap g l.
Proof.
  induction l as [|x l IH]; intros H; [done|]. rewrite !omap_cons, H by (by left).
  rewrite IH; [done|]. intros y Hy. apply H. by right.
Qed.

(** The sanitised versions a list of matches gives for a technology, and its first source. *)
Definition versions_of (name : str) (results : list SignalMatch) : list str :=
  omap (λ r, if bool_decide (tech_name r = name) then sanitize_technology_version (sm_version r)
             else None) results.
Definition sources_of (name : str) (results : list SignalMatch) : list DetectionSource :=
  omap (λ r, if bool_decide (tech_name r = name) then Some (sm_source r) else None) results.

Lemma merge_observed_lookup d name v src k :
  merge_observed d name v src !! k
  = if bool_decide (name = k) then
      Some (match d !! k with
            | Some i => MkInfo (match ti_version i with
                                | None => sanitize_technology_version v | Some w => Some w end)
                          false (if is_implied i then src else ti_source i)
            | None => MkInfo (sanitize_technology_version v) false src
            end)
    else d !! k.
Proof.
  unfold merge_observed. case_bool_decide as Hk.
  - subst. destruct (d !! k); by rewrite lookup_insert_eq.
  - destruct (d !! name); by rewrite lookup_insert_ne.
Qed.

(** ** Properties *)

Section DetectionProperties.
Context `{R : RegexLib} `{L : Lowercase} `{U : UrlLib}.
Context `{Hi : HashIter} `{!HashIterLaws Hi} `{Ac : AhoCorasick}.
Context (ruleset : FingerprintRuleset).

(** C10: Expanding [implies] adds exactly the technologies of the ruleset that are
    reachable in at most ten implication steps, whatever the iteration order; what was
    there keeps its flag, its source and its version, what is added is marked implied.  The
    deny list plays no part here: a technology on it is added, leads on to what it implies, and
    is taken out only when the detections are finalised. *)
Theorem expand_implies_exact detected :
  let expanded := expand_implies ruleset detected in
  (∀ b, b ∈ dom expanded <-> ∃ a, a ∈ dom detected ∧ implied_within ruleset 10 a b)
  ∧ extends detected expanded.
Proof.
  destruct (implies_loop_spec ruleset MAX_IMPLIES_DEPTH detected) as [He Hd].
  split; [exact Hd|exact He].
Qed.

(** Dropping the technologies whose requirements are unmet keeps every subset
    that supports itself, so nothing is dropped without need; and the result supports
    itself whenever at most ten technologies were detected (the loop is capped). *)
Theorem apply_requires_greatest detected :
  apply_technology_requires ruleset detected ⊆ detected
  ∧ (∀ S, S ⊆ detected -> supported ruleset S ->
      S ⊆ apply_technology_requires ruleset detected)
  ∧ ((size detected <= 10)%nat -> supported ruleset (apply_technology_requires ruleset detected)).
Proof.
  unfold apply_technology_requires. split_and!.
  - apply requires_loop_subset.
  - intros S. apply requires_loop_supported_subset.
  - apply requires_loop_supported.
Qed.

(** Merging signal matches: a technology keeps its version, else it gets the first
    sane version in the order of the matches; it is no longer implied; it keeps its
    source, unless it was only implied or absent, in which case the first match gives it. *)
Theorem merge_all_lookup detected results k :
  merge_all detected results !! k
  = match detected !! k, sources_of k results with
    | Some i, [] => Some i
    | Some i, s :: _ =>
        Some (MkInfo (match ti_version i with
                      | Some v => Some v | None => head (versions_of k results) end)
                false (if is_implied i then s else ti_source i))
    | None, [] => None
    | None, s :: _ => Some (MkInfo (head (versions_of k results)) false s)
    end.
Proof.
  unfold merge_all. revert detected. induction results as [|r rs IH]; intros d.
  { simpl. by destruct (d !! k). }
  cbn [foldl]. rewrite IH, merge_observed_lookup.
  change (sources_of k (r :: rs)) with
    (match (if bool_decide (tech_name r = k) then Some (sm_source r) else None) with
     | Some x => x :: sources_of k rs | None => sources_of k rs end).
  change (versions_of k (r :: rs)) with
    (match (if bool_decide (tech_name r = k)
            then sanitize_technology_version (sm_version r) else None) with
     | Some x => x :: versions_of k rs | None => versions_of k rs end).
  case_bool_decide as Hk; [|done].
  destruct (sources_of k rs) as [|s l] eqn:Es.
  - assert (Hv : versions_of k rs = []).
    { clear -Es. induction rs as [|x rs IH]; [done|].
      unfold sources_of, versions_of in *. simpl in *.
      case_bool_decide; [done|]. auto. }
    rewrite Hv. destruct (d !! k) as [i|]; by destruct (sanitize_technology_version _).
  - destruct (d !! k) as [i|]; cbn [ti_version is_implied ti_source].
    + destruct (ti_version i); [done|]. by destruct (sanitize_technology_version _).
    + by destruct (sanitize_technology_version _).
Qed.

(** Content-security-policy headers never contribute a detection: the header matches
    do not depend on their values. *)
Theorem csp_headers_ignored headers name value :
  is_csp_allowlist_header name = true ->
  check_headers ruleset (<[name := value]> headers) = check_headers ruleset headers.
Proof.
  intros Hcsp. unfold check_headers, match_string_map_signal. apply omap_ext_in.
  intros [n tech] _. erewrite for_each_ext; [done|]. intros key st _. unfold match_key.
  destruct (is_csp_allowlist_header key) eqn:E; [done|].
  rewrite lookup_insert_ne; [done|]. congruence.
Qed.

(** Only the NS and CNAME records are evidence: two record sets that agree on
    them give the same matches, whatever their TXT, MX or other records. *)
Theorem only_serving_stack_records records records' issuer :
  records !! lit "NS" = records' !! lit "NS" ->
  records !! lit "CNAME" = records' !! lit "CNAME" ->
  check_dns_and_cert ruleset records issuer = check_dns_and_cert ruleset records' issuer.
Proof.
  intros Hns Hcn. unfold check_dns_and_cert. apply omap_ext_in. intros [n tech] _.
  destruct (_ && _); [done|].
  assert (E : ∀ st, for_each (match_dns_key records (compile_list_map (dns tech)))
                      (hash_iter (dns tech)).*1 st
              = for_each (match_dns_key records' (compile_list_map (dns tech)))
                  (hash_iter (dns tech)).*1 st); [|by rewrite E].
  intros st. apply for_each_ext. intros key st' _. unfold match_dns_key.
  destruct (is_serving_stack_dns_type key) eqn:Ek; [|done]. cbn [negb]. unfold to_ascii_uppercase.
  assert (Hu : map ascii_upper key = lit "NS" \/ map ascii_upper key = lit "CNAME").
  { assert (Hl : ∀ c, ascii_upper (ascii_lower c) = ascii_upper c).
    { intros c. unfold ascii_upper, ascii_lower, is_ascii_lower, is_ascii_upper.
      destruct ((65 <=? c) && (c <=? 90)) eqn:E1;
        destruct ((97 <=? c) && (c <=? 122)) eqn:E2;
        repeat match goal with |- context [if ?b then _ else _] => destruct b eqn:? end; lia. }
    assert (Hmap : ∀ s, map ascii_upper (to_ascii_lowercase s) = map ascii_upper s).
    { intros s. unfold to_ascii_lowercase. rewrite map_map. apply map_ext, Hl. }
    unfold is_serving_stack_dns_type in Ek. apply orb_true_iff in Ek.
    rewrite !eq_ignore_ascii_case_iff in Ek.
    destruct Ek as [Ek|Ek]; apply (f_equal (map ascii_upper)) in Ek;
      rewrite !Hmap in Ek; [left|right]; exact Ek. }
  destruct Hu as [-> | ->]; [by rewrite Hns|by rewrite Hcn].
Qed.

(** The result of a detection pass is consistent: every technology is listed
    once, none is on the deny list, no listed technology excludes another, and what is
    flagged implied was reached by implications from what was observed. *)
Theorem finalized_consistent observed :
  let detected := expand_implies ruleset observed in
  let result := finalize_detections ruleset detected in
  NoDup (map dt_name result)
  ∧ (∀ t, t ∈ result -> is_denylisted_technology ruleset (dt_name t) = false)
  ∧ (∀ t t', t ∈ result -> t' ∈ result -> dt_name t <> dt_name t' ->
      ¬ excludes_edge ruleset (dt_name t) (dt_name t'))
  ∧ (∀ t, t ∈ result -> ∃ a, a ∈ dom observed ∧ implied_within ruleset 10 a (dt_name t))
  ∧ (∀ t i, t ∈ result -> observed !! dt_name t = Some i -> dt_is_implied t = is_implied i).
Proof.
  intros detected result.
  destruct (implies_loop_spec ruleset MAX_IMPLIES_DEPTH observed) as [[Hold _] Hdom].
  fold (expand_implies ruleset observed) in Hdom, Hold. fold detected in Hdom, Hold.
  assert (Hel : ∀ t, t ∈ result -> ∃ info, detected !! dt_name t = Some info
    ∧ dt_name t ∈ apply_technology_exclusions ruleset (dom detected)
    ∧ is_denylisted_technology ruleset (dt_name t) = false
    ∧ dt_is_implied t = is_implied info).
  { intros t (info & Hd & Hk & Hden & Ht)%elem_of_finalize. exists info.
    split_and!; [done| |done|by rewrite Ht].
    unfold kept, apply_technology_requires in Hk. by apply requires_loop_subset in Hk. }
  split_and!.
  - apply finalize_names_nodup.
  - intros t Ht. destruct (Hel t Ht) as (? & _ & _ & H & _). done.
  - intros t t' Ht Ht' Hne He. destruct (Hel t Ht) as (i & Hi1 & _).
    destruct (Hel t' Ht') as (_ & _ & Hx & _). apply elem_of_exclusions in Hx as [_ Hx].
    apply Hx. exists (dt_name t). split_and!; [by apply elem_of_dom_2 in Hi1|done|done].
  - intros t Ht. destruct (Hel t Ht) as (i & Hi1 & _). apply Hdom.
    by apply elem_of_dom_2 in Hi1.
  - intros t i Ht Hobs. destruct (Hel t Ht) as (i' & Hi1 & _ & _ & ->).
    destruct (Hold _ _ Hobs) as (i'' & Hi2 & Himp & _). by simplify_eq.
Qed.
End DetectionProperties.

(** ** Concrete rulesets *)

Module DemoRules.
Definition tech (implies excludes requires : list str) : Technology :=
  MkTechnology [] [] ∅ ∅ ∅ [] [] [] [] ∅ [] ∅ implies excludes requires [].

(** A chain of implications: technology [n] implies [n + 1]. *)
Definition chain (n : nat) : FingerprintRuleset :=
  MkRuleset (list_to_map (map (λ i, (dec (Z.of_nat i), tech [dec (Z.of_nat (S i))] [] []))
                            (seq 0 n))) ∅ no_metadata.

Definition observed (name : str) : gmap str TechInfo := {[ name := MkInfo None false SHtml ]}.

Definition site_headers : gmap str str := {[ lit "server" := lit "nginx/118" ]}.
Definition header_tech : Technology :=
  MkTechnology [] [] {[ lit "server" := lit "nginx/(\d+)\;version:\1" ]} ∅ ∅ [] [] [] []
    {[ lit "NS" := [lit "awsdns"] ]} [] ∅ [] [] [] [].
Definition rules : FingerprintRuleset := MkRuleset {[ lit "Nginx" := header_tech ]} ∅ no_metadata.
End DemoRules.

(** The cap is visible: the eleventh technology of a chain is added, the twelfth is not,
    although it is implied by one that was added. *)
Theorem expand_implies_not_closed :
  let expanded := @expand_implies listing (DemoRules.chain 13) (DemoRules.observed (dec 0)) in
  is_Some (expanded !! dec 10) ∧ expanded !! dec 11 = None
  ∧ implies_edge (DemoRules.chain 13) (dec 10) (dec 11).
Proof.
  cbn zeta. split_and!.
  - vm_compute. by eexists.
  - vm_compute. done.
  - exists (DemoRules.tech [dec 11] [] []). split_and!.
    + vm_compute. done.
    + by left.
    + vm_compute. by eexists.
Qed.

Lemma csp_headers_ignored_witness :
  @check_headers DemoEngine.lib listing DemoRules.rules DemoRules.site_headers
  = [MkSignal (lit "Nginx") (Some (lit "118")) SHeader]
  ∧ @check_headers DemoEngine.lib listing DemoRules.rules
      (<[lit "content-security-policy" := lit "nginx.example"]> DemoRules.site_headers)
    = @check_headers DemoEngine.lib listing DemoRules.rules DemoRules.site_headers.
Proof.
  split; [vm_compute; reflexivity|].
  apply (@csp_headers_ignored DemoEngine.lib listing DemoRules.rules). reflexivity.
Defined.

Definition ns_records : gmap str str := {[ lit "NS" := lit "ns1.awsdns.com" ]}.
Definition ns_txt_records : gmap str str := <[lit "TXT" := lit "awsdns"]> ns_records.
Lemma only_serving_stack_records_witness :
  @check_dns_and_cert DemoEngine.lib Demo.ascii_lowercase listing DemoRules.rules ns_records None
  = [MkSignal (lit "Nginx") None SNs]
  ∧ @check_dns_and_cert DemoEngine.lib Demo.ascii_lowercase listing DemoRules.rules ns_records None
    = @check_dns_and_cert DemoEngine.lib Demo.ascii_lowercase listing DemoRules.rules
        ns_txt_records None.
Proof.
  split; [vm_compute; reflexivity|].
  apply (@only_serving_stack_records DemoEngine.lib Demo.ascii_lowercase listing DemoRules.rules);
    vm_compute; reflexivity.
Defined.

Lemma expand_implies_exact_witness :
  @expand_implies listing (DemoRules.chain 3) (DemoRules.observed (dec 0)) !! dec 2
    = Some (MkInfo None true SImplied)
  ∧ ∃ a, a ∈ dom (DemoRules.observed (dec 0)) ∧ implied_within (DemoRules.chain 3) 10 a (dec 2).
Proof.
  split; [vm_compute; reflexivity|].
  apply (@expand_implies_exact listing listing_laws (DemoRules.chain 3) (DemoRules.observed (dec 0))).
  vm_compute. by eexists.
Defined.

(** A plugin that requires a platform, beside one whose platform is missing. *)
Definition plugin_rules : FingerprintRuleset :=
  MkRuleset {[ lit "WordPress" := DemoRules.tech [] [lit "Drupal"] [];
               lit "Yoast" := DemoRules.tech [lit "WordPress"] [] [lit "WordPress"];
               lit "Drupal" := DemoRules.tech [] [] [] ]} ∅ no_metadata.
Definition plugin_seen : gmap str TechInfo :=
  {[ lit "Yoast" := MkInfo (Some (lit "20.1")) false SHtml; lit "Drupal" := MkInfo None false SHtml ]}.

Lemma finalized_consistent_witness :
  let result := @finalize_detections listing plugin_rules
                  (@expand_implies listing plugin_rules plugin_seen) in
  map dt_name result = [lit "Yoast"; lit "WordPress"] ∧ NoDup (map dt_name result).
Proof.
  split; [vm_compute; reflexivity|].
  apply (@finalized_consistent listing listing_laws plugin_rules plugin_seen).
Defined.
