(* ===== verification/ExportRow.v ===== *)
(** * Export rows ([src/src/export/row.rs], [export/queries.rs])

    The data of one exported URL and its assembly from the answers of the database.  The
    queries are the parameters [ExportQueries], one per SELECT statement; what is modelled
    is everything computed from their answers.  [f64] is binary64; the text of a float
    ([FloatFmt]) and of a date ([Chrono]) are parameters. *)

From Stdlib Require Import SpecFloat.
From stdpp Require Import sorting.
From S2P Require Import Prelude.

(** ** Text *)

(** [Vec<&str>::join]. *)
Fixpoint join (sep : str) (l : list str) : str :=
  match l with
  | [] => []
  | [s] => s
  | s :: r => s ++ sep ++ join sep r
  end.

(** [i64::to_string]. *)
Definition dec_z (z : Z) : str := if z <? 0 then lit "-" ++ dec (- z) else dec z.

(** [bool::to_string]. *)
Definition bool_text (b : bool) : str := if b then lit "true" else lit "false".

(** [Option<String>::unwrap_or_default], [Option<&str>::unwrap_or("")]. *)
Definition or_empty (o : option str) : str := default [] o.

(** The order of [str]: lexicographic in the scalar values, as in their UTF-8 bytes. *)
Fixpoint str_leb (a b : str) : bool :=
  match a, b with
  | [], _ => true
  | _ :: _, [] => false
  | x :: a', y :: b' => (x <? y) || ((x =? y) && str_leb a' b')
  end.
Definition str_le (a b : str) : Prop := str_leb a b = true.
#[export] Instance str_le_dec a b : Decision (str_le a b) := decide (str_leb a b = true).

(** [Vec::dedup]: consecutive repetitions are dropped. *)
Fixpoint dedup (l : list str) : list str :=
  match l with
  | x :: (y :: _) as r => if streqb x y then dedup r else x :: dedup r
  | _ => l
  end.

Definition vec_len {A} (l : list A) : Z := Z.of_nat (length l).

(** [Display] of [f64]: shortest round-trip text, and with two decimals ([{:.2}]). *)
Class FloatFmt := {
  f64_to_string : spec_float -> str;
  f64_to_string_2 : spec_float -> str;
}.

(** [chrono]: [DateTime::from_timestamp(secs, 0)] formatted as [%Y-%m-%d]. *)
Class Chrono := { format_ymd : Z -> option str }.

(** ** row.rs: records *)

Record NameserverRecord := MkNs { ns_nameserver : str }.
Record TxtRecord := MkTxt { txt_record_type : str; txt_record_value : str }.
Record MxRecord := MkMx { mx_priority : Z; mx_mail_exchange : str }.
Record StructuredDataEntry := MkStructured {
  sd_data_type : str; sd_property_name : str; sd_property_value : str }.
Record SocialMediaLink := MkSocial {
  sm_platform : str; sm_profile_url : str; sm_identifier : option str }.
Record ContactLinkRecord := MkContact { cl_contact_type : str; cl_contact_value : str }.
Record ExposedSecretRecord := MkSecret {
  es_secret_type : str;
  es_matched_value : str;
  es_severity : str;
  es_location : str;
  es_context : option str;
  es_jwt_algorithm : option str;
  es_jwt_issuer : option str;
  es_jwt_subject : option str;
  es_jwt_audience : option str;
  es_jwt_expiration_ms : option Z;
  es_jwt_issued_at_ms : option Z;
  es_jwt_header_json : option str;
  es_jwt_payload_json : option str;
}.
Record PartialFailure := MkPartial { pf_error_type : str; pf_error_message : str }.
Record HttpHeader := MkHeader { hh_name : str; hh_value : str }.

Record MainRowData := MkMain {
  m_id : Z;
  m_initial_domain : str;
  m_final_domain : str;
  m_initial_url : option str;
  m_final_url : option str;
  m_ip_address : str;
  m_reverse_dns : option str;
  m_status : Z;
  m_status_desc : str;
  m_response_time : spec_float;
  m_title : str;
  m_description : option str;
  m_meta_robots : option str;
  m_tls_version : option str;
  m_ssl_cert_subject : option str;
  m_ssl_cert_issuer : option str;
  m_ssl_cert_valid_to_ms : option Z;
  m_cipher_suite : option str;
  m_key_algorithm : option str;
  m_spf_record : option str;
  m_dmarc_record : option str;
  m_mta_sts_record : option str;
  m_tls_rpt_record : option str;
  m_bimi_record : option str;
  m_hsts_max_age : option Z;
  m_hsts_include_subdomains : option bool;
  m_hsts_preload : option bool;
  m_cdn_provider : option str;
  m_timestamp : Z;
  m_run_id : option str;
  m_body_sha256 : option str;
  m_content_length : option Z;
  m_http_version : option str;
  m_content_type : option str;
  m_canonical_url : option str;
  m_cert_fingerprint_sha256 : option str;
  m_body_truncated : bool;
}.

Record RedirectEntry := MkRedirect {
  rd_redirect_url : str; rd_sequence_order : Z; rd_http_status : option Z }.
Record GeoIpData := MkGeo {
  geo_country_code : option str;
  geo_country_name : option str;
  geo_region : option str;
  geo_city : option str;
  geo_latitude : option spec_float;
  geo_longitude : option spec_float;
  geo_asn : option Z;
  geo_asn_org : option str;
}.
Record WhoisData := MkWhois {
  who_registrar : option str;
  who_creation_date_ms : option Z;
  who_expiration_date_ms : option Z;
  who_registrant_country : option str;
}.
Record TechnologyRecord := MkTech {
  te_name : str;
  te_version : option str;
  te_category : option str;
  te_is_implied : bool;
  te_detection_source : option str;
}.
Record AnalyticsIdRecord := MkAnalytics { an_provider : str; an_tracking_id : str }.
Record ScriptHostRecord := MkScriptHost {
  sh_host : str; sh_registrable_domain : option str; sh_is_first_party : bool }.
Record CaaRecord := MkCaa { caa_flag : Z; caa_tag : str; caa_value : str }.

Record ExportRow := MkRow {
  main : MainRowData;
  redirects : list RedirectEntry;
  redirect_count : Z;
  final_redirect_url : str;
  technologies_str : str;
  technology_categories_str : str;
  technology_count : Z;
  technologies : list TechnologyRecord;
  certificate_sans_str : str;
  certificate_san_count : Z;
  oids_str : str;
  oid_count : Z;
  nameserver_count : Z;
  txt_count : Z;
  mx_count : Z;
  nameservers : list NameserverRecord;
  txt_records : list TxtRecord;
  mx_records : list MxRecord;
  analytics_ids_str : str;
  analytics_count : Z;
  analytics_ids : list AnalyticsIdRecord;
  script_hosts : list ScriptHostRecord;
  script_hosts_str : str;
  social_media_links_str : str;
  social_media_count : Z;
  social_media_links : list SocialMediaLink;
  structured_data_types_str : str;
  structured_data_count : Z;
  structured_data_entries : list StructuredDataEntry;
  http_headers_str : str;
  http_header_count : Z;
  security_headers_str : str;
  security_header_count : Z;
  all_http_headers : list HttpHeader;
  all_security_headers : list HttpHeader;
  partial_failures : list PartialFailure;
  geoip : GeoIpData;
  whois : WhoisData;
  favicon_hash : option Z;
  favicon_url : option str;
  contact_links : list ContactLinkRecord;
  contact_link_count : Z;
  exposed_secrets : list ExposedSecretRecord;
  exposed_secret_count : Z;
  cname_records : list str;
  cname_count : Z;
  ipv6_addresses : list str;
  ipv6_count : Z;
  caa_records : list CaaRecord;
  caa_count : Z;
}.

Definition HTTP_KEY_HEADERS : list str :=
  [ lit "Content-Type"; lit "Server"; lit "X-Powered-By"; lit "X-Frame-Options";
    lit "X-Content-Type-Options"; lit "Strict-Transport-Security";
    lit "Content-Security-Policy" ].

Definition SECURITY_KEY_HEADERS : list str :=
  [ lit "Content-Security-Policy"; lit "X-Frame-Options"; lit "X-Content-Type-Options";
    lit "Strict-Transport-Security"; lit "Referrer-Policy"; lit "Permissions-Policy" ].

Definition GeoIpData_default : GeoIpData := MkGeo None None None None None None None None.
Definition WhoisData_default : WhoisData := MkWhois None None None None.

Definition MAX_EXPORT_RELATED_RECORDS : Z := 500.

(** CSV flattening: an empty value leaves a trailing colon. *)
Definition join_colon_pairs (pairs : list (str * str)) : str :=
  join (lit ",") (map (λ '(k, v), k ++ lit ":" ++ v) pairs).

Definition parse_string_list (list_str : str) : list str :=
  if nonempty list_str then split_char 44 list_str else [].

Definition build_url (final_domain : str) : str :=
  if starts_with (lit "http://") final_domain || starts_with (lit "https://") final_domain
  then final_domain
  else lit "https://" ++ final_domain.

(** ** The queries *)

Inductive HttpHeadersTable := Standard | SecurityTable.

Definition as_sql_ident (t : HttpHeadersTable) : str :=
  match t with
  | Standard => lit "url_http_headers"
  | SecurityTable => lit "url_security_headers"
  end.

(** The answers of the database for one [url_status.id]: one operation per SELECT, in the
    statement's ORDER BY, of at most [MAX_EXPORT_RELATED_RECORDS] rows where it has that
    LIMIT. *)
Class ExportQueries (E : Type) := {
  q_redirects : Z -> result (list RedirectEntry) E;
  q_technologies : bool -> Z -> result (list TechnologyRecord) E;
  q_certificate_sans : Z -> result (list str) E;
  q_oids : Z -> result (list str) E;
  q_nameservers : Z -> result (list NameserverRecord) E;
  q_txt_records : Z -> result (list TxtRecord) E;
  q_mx_records : Z -> result (list MxRecord) E;
  q_cname_records : Z -> result (list str) E;
  q_ipv6_addresses : Z -> result (list str) E;
  q_caa_records : Z -> result (list CaaRecord) E;
  q_analytics_ids : Z -> result (list AnalyticsIdRecord) E;
  q_script_hosts : Z -> result (list ScriptHostRecord) E;
  q_social_media_links : Z -> result (list SocialMediaLink) E;
  q_structured_data : Z -> result (list StructuredDataEntry) E;
  q_headers_in : str -> list str -> Z -> result (list HttpHeader) E;
  q_headers_count : str -> Z -> result Z E;
  q_headers : str -> Z -> result (list HttpHeader) E;
  q_partial_failures : Z -> result (list PartialFailure) E;
  q_geoip : Z -> result (option GeoIpData) E;
  q_whois : Z -> result (option WhoisData) E;
  q_favicon : Z -> result (option (Z * str)) E;
  q_contact_links : Z -> result (list ContactLinkRecord) E;
  q_exposed_secrets : Z -> result (list ExposedSecretRecord) E;
}.

(** What the statements promise: the LIMIT, the filter on [is_implied], counts that are
    not negative. *)
Class ExportQueriesLaws {E} (Q : ExportQueries E) := {
  redirects_limit : ∀ id l, q_redirects id = Ok l -> vec_len l <= MAX_EXPORT_RELATED_RECORDS;
  technologies_limit : ∀ i id l,
    q_technologies i id = Ok l -> vec_len l <= MAX_EXPORT_RELATED_RECORDS;
  technologies_filter : ∀ id l,
    q_technologies false id = Ok l -> Forall (λ t, te_is_implied t = false) l;
  contact_links_limit : ∀ id l,
    q_contact_links id = Ok l -> vec_len l <= MAX_EXPORT_RELATED_RECORDS;
  exposed_secrets_limit : ∀ id l,
    q_exposed_secrets id = Ok l -> vec_len l <= MAX_EXPORT_RELATED_RECORDS;
  headers_count_range : ∀ t id n, q_headers_count t id = Ok n -> 0 <= n <= 2 ^ 63 - 1;
}.

Section Build.
Context {E : Type} `{Q : ExportQueries E}.

(** The two pairs of the string-list helper: joined text and number of rows. *)
Definition fetch_string_list (query : Z -> result (list str) E) (url_status_id : Z)
  : result (str * Z) E :=
  rows ←? query url_status_id; Ok (join (lit ",") rows, vec_len rows).

(** The text lists the allowed headers only; the count is that of the table. *)
Definition fetch_filtered_http_headers (table : HttpHeadersTable) (url_status_id : Z)
  (allowed_headers : list str) : result (str * Z) E :=
  let table := as_sql_ident table in
  rows ←? q_headers_in table allowed_headers url_status_id;
  total_count ←? q_headers_count table url_status_id;
  Ok (join (lit ";") (map (λ r, hh_name r ++ lit ":" ++ hh_value r) rows), total_count).

Definition fetch_dns_records (url_status_id : Z)
  : result (list NameserverRecord * list TxtRecord * list MxRecord) E :=
  nameservers ←? q_nameservers url_status_id;
  txt_records ←? q_txt_records url_status_id;
  mx_records ←? q_mx_records url_status_id;
  Ok (nameservers, txt_records, mx_records).

Definition fetch_headers_and_failures (url_status_id : Z)
  : result (list HttpHeader * list HttpHeader * list PartialFailure) E :=
  all_http_headers ←? q_headers (as_sql_ident Standard) url_status_id;
  all_security_headers ←? q_headers (as_sql_ident SecurityTable) url_status_id;
  partial_failures ←? q_partial_failures url_status_id;
  Ok (all_http_headers, all_security_headers, partial_failures).

Definition fetch_social_and_structured (url_status_id : Z)
  : result (list SocialMediaLink * list StructuredDataEntry) E :=
  social_media_links ←? q_social_media_links url_status_id;
  structured_data_entries ←? q_structured_data url_status_id;
  Ok (social_media_links, structured_data_entries).

(** The texts derived from the lists. *)
Definition last_redirect_url (redirects : list RedirectEntry) : str :=
  or_empty (option_map rd_redirect_url (list.last redirects)).
Definition technologies_text (l : list TechnologyRecord) : str :=
  join_colon_pairs (map (λ t, (te_name t, or_empty (te_version t))) l).
Definition technology_categories_text (l : list TechnologyRecord) : str :=
  join (lit ", ") (omap te_category l).
Definition script_hosts_text (l : list ScriptHostRecord) : str :=
  join (lit "; ")
    (map (λ h, if sh_is_first_party h then sh_host h ++ lit " (1p)" else sh_host h) l).
Definition structured_data_types (l : list StructuredDataEntry) : list str :=
  dedup (merge_sort str_le (map sd_data_type l)).

(** [len() as i64], later [as usize]. *)
Definition as_usize (n : Z) : Z := wrap_u64 n.

Definition build_export_row (m : MainRowData) (include_implied_tech : bool)
  : result ExportRow E :=
  let url_status_id := m_id m in
  redirects ←? q_redirects url_status_id;
  technologies ←? q_technologies include_implied_tech url_status_id;
  '(sans_str, san_count) ←? fetch_string_list q_certificate_sans url_status_id;
  '(oids_str, oid_count) ←? fetch_string_list q_oids url_status_id;
  '(nameservers, txt_records, mx_records) ←? fetch_dns_records url_status_id;
  cname_records ←? q_cname_records url_status_id;
  ipv6_addresses ←? q_ipv6_addresses url_status_id;
  caa_records ←? q_caa_records url_status_id;
  analytics_ids ←? q_analytics_ids url_status_id;
  script_hosts ←? q_script_hosts (m_id m);
  '(social_media_links, entries) ←? fetch_social_and_structured url_status_id;
  '(http_str, http_count) ←?
    fetch_filtered_http_headers Standard url_status_id HTTP_KEY_HEADERS;
  '(security_str, security_count) ←?
    fetch_filtered_http_headers SecurityTable url_status_id SECURITY_KEY_HEADERS;
  '(all_http_headers, all_security_headers, partial_failures) ←?
    fetch_headers_and_failures url_status_id;
  geoip_row ←? q_geoip url_status_id;
  whois_row ←? q_whois url_status_id;
  favicon_row ←? q_favicon url_status_id;
  contact_links ←? q_contact_links url_status_id;
  exposed_secrets ←? q_exposed_secrets url_status_id;
  Ok {|
    main := m;
    redirects := redirects;
    redirect_count := vec_len redirects;
    final_redirect_url := last_redirect_url redirects;
    technologies_str := technologies_text technologies;
    technology_categories_str := technology_categories_text technologies;
    technology_count := vec_len technologies;
    technologies := technologies;
    certificate_sans_str := sans_str;
    certificate_san_count := san_count;
    oids_str := oids_str;
    oid_count := oid_count;
    nameserver_count := as_usize (vec_len nameservers);
    txt_count := as_usize (vec_len txt_records);
    mx_count := as_usize (vec_len mx_records);
    nameservers := nameservers;
    txt_records := txt_records;
    mx_records := mx_records;
    analytics_ids_str :=
      join_colon_pairs (map (λ a, (an_provider a, an_tracking_id a)) analytics_ids);
    analytics_count := vec_len analytics_ids;
    analytics_ids := analytics_ids;
    script_hosts := script_hosts;
    script_hosts_str := script_hosts_text script_hosts;
    social_media_links_str :=
      join_colon_pairs (map (λ s, (sm_platform s, sm_profile_url s)) social_media_links);
    social_media_count := vec_len social_media_links;
    social_media_links := social_media_links;
    structured_data_types_str := join (lit ",") (structured_data_types entries);
    structured_data_count := vec_len entries;
    structured_data_entries := entries;
    http_headers_str := http_str;
    http_header_count := as_usize http_count;
    security_headers_str := security_str;
    security_header_count := as_usize security_count;
    all_http_headers := all_http_headers;
    all_security_headers := all_security_headers;
    partial_failures := partial_failures;
    geoip := default GeoIpData_default geoip_row;
    whois := default WhoisData_default whois_row;
    favicon_hash := option_map fst favicon_row;
    favicon_url := option_map snd favicon_row;
    contact_links := contact_links;
    contact_link_count := vec_len contact_links;
    exposed_secrets := exposed_secrets;
    exposed_secret_count := vec_len exposed_secrets;
    cname_records := cname_records;
    cname_count := vec_len cname_records;
    ipv6_addresses := ipv6_addresses;
    ipv6_count := vec_len ipv6_addresses;
    caa_records := caa_records;
    caa_count := vec_len caa_records;
  |}.
End Build.

(** ** Lemmas: text *)

Lemma join_cons sep s l : l <> [] -> join sep (s :: l) = s ++ sep ++ join sep l.
Proof. by destruct l. Qed.

Lemma split_char_cons_neq c x s h r :
  x <> c -> split_char c s = h :: r -> split_char c (x :: s) = (x :: h) :: r.
Proof. intros Hx E. cbn. destruct (Z.eqb_spec x c); [done|]. by rewrite E. Qed.

Lemma split_char_sep c s : split_char c (c :: s) = [] :: split_char c s.
Proof. cbn. by rewrite Z.eqb_refl. Qed.

Lemma split_char_cons_split c a b :
  c ∉ a -> split_char c (a ++ c :: b) = a :: split_char c b.
Proof.
  induction a as [|x a IH]; cbn [app]; intros Ha; [apply split_char_sep|].
  apply not_elem_of_cons in Ha as [Hx Ha]. apply split_char_cons_neq; [done|]. by apply IH.
Qed.

(** Splitting undoes joining when no item holds the separator. *)
Lemma split_join c l :
  l <> [] -> Forall (λ s, c ∉ s) l -> split_char c (join [c] l) = l.
Proof.
  induction l as [|s l IH]; [done|]. intros _ [Hs Hl]%Forall_cons_iff.
  destruct l as [|t l]; [by apply split_char_none|].
  rewrite join_cons by done. cbn [app]. rewrite split_char_cons_split by done.
  by rewrite IH.
Qed.

Lemma nonempty_join l : nonempty (join (lit ",") l) = negb (bool_decide (l = [] \/ l = [[]])).
Proof.
  destruct l as [|s [|t l]]; [done| |].
  - cbn. destruct s; [done|]. rewrite bool_decide_eq_false_2; [done|]. naive_solver.
  - rewrite join_cons by done. rewrite bool_decide_eq_false_2 by naive_solver.
    by destruct s.
Qed.

(** ** Properties *)

(** The lists that pass through a comma-joined text come back exactly when no item has a
    comma, and the list is not the one empty item. *)
Lemma string_list_roundtrip l :
  parse_string_list (join (lit ",") l) = l <-> l <> [[]] ∧ Forall (λ s, 44 ∉ s) l.
Proof.
  unfold parse_string_list. rewrite nonempty_join. split.
  - case_bool_decide as E; cbn [negb].
    + intros <-. split; [done|constructor].
    + intros H. split; [naive_solver|]. rewrite <- H. apply split_char_pieces.
  - intros [Hne Hc]. case_bool_decide as E; cbn [negb]; [naive_solver|].
    apply split_join; [naive_solver|done].
Qed.

(** What the numbers and texts of a row have to do with its lists. *)
Record wf_row (r : ExportRow) : Prop := {
  wf_redirects : redirect_count r = vec_len (redirects r)
    ∧ final_redirect_url r = last_redirect_url (redirects r)
    ∧ redirect_count r <= MAX_EXPORT_RELATED_RECORDS;
  wf_technologies : technology_count r = vec_len (technologies r)
    ∧ technologies_str r = technologies_text (technologies r)
    ∧ technology_count r <= MAX_EXPORT_RELATED_RECORDS;
  wf_sans : ∃ sans, certificate_sans_str r = join (lit ",") sans
    ∧ certificate_san_count r = vec_len sans;
  wf_oids : ∃ oids, oids_str r = join (lit ",") oids ∧ oid_count r = vec_len oids;
  wf_contacts : contact_link_count r = vec_len (contact_links r)
    ∧ contact_link_count r <= MAX_EXPORT_RELATED_RECORDS;
  wf_secrets : exposed_secret_count r = vec_len (exposed_secrets r)
    ∧ exposed_secret_count r <= MAX_EXPORT_RELATED_RECORDS;
  wf_dns : cname_count r = vec_len (cname_records r)
    ∧ ipv6_count r = vec_len (ipv6_addresses r) ∧ caa_count r = vec_len (caa_records r);
  wf_counts : analytics_count r = vec_len (analytics_ids r)
    ∧ social_media_count r = vec_len (social_media_links r)
    ∧ structured_data_count r = vec_len (structured_data_entries r);
  wf_header_counts : 0 <= http_header_count r ∧ 0 <= security_header_count r;
  wf_favicon : is_Some (favicon_hash r) <-> is_Some (favicon_url r);
}.

Ltac destruct_queries :=
  repeat match goal with
  | H : and_then _ _ = Ok _ |- _ => apply and_then_Ok in H as (? & ? & H)
  | p : _ * _ |- _ => destruct p
  end.

(** A row is built from the answers of all queries, or the first error is returned. *)
Theorem build_export_row_wf {E} `{Q : ExportQueries E} `{!ExportQueriesLaws Q} m implied r :
  build_export_row m implied = Ok r ->
  wf_row r ∧ main r = m
  ∧ (implied = false -> Forall (λ t, te_is_implied t = false) (technologies r)).
Proof.
  unfold build_export_row, fetch_string_list, fetch_filtered_http_headers,
    fetch_dns_records, fetch_headers_and_failures, fetch_social_and_structured.
  intros H. cbn zeta in H. destruct_queries. simplify_eq/=.
  repeat match goal with H : Ok _ = Ok _ |- _ => injection H as <- end.
  split; [|split; [done|]].
  - split; cbn; eauto using redirects_limit, technologies_limit, contact_links_limit,
      exposed_secrets_limit.
    + unfold as_usize. pose proof (wrap_u64_range). split; apply wrap_u64_range.
    + match goal with |- is_Some (option_map fst ?o) <-> _ => destruct o end; cbn;
        split; intros [? ?]; by eauto.
  - intros ->. eauto using technologies_filter.
Qed.
