(* ===== verification/Json.v ===== *)
(** * JSON values ([serde_json])

    The data type of [serde_json::Value] and the building of objects with [json!] and
    [Map::insert].  Without the feature [preserve_order] a map is a [BTreeMap], kept here as
    the list of its entries in ascending order of the keys.  Parsing and printing of JSON
    text stay with the library. *)

From Stdlib Require Import SpecFloat.
From S2P Require Import Prelude ExportRow.

#[local] Set Warnings "-register-all".

Inductive Number :=
  | Int (z : Z)
  | Float (f : spec_float).

Inductive Value :=
  | Null
  | Bool (b : bool)
  | Num (n : Number)
  | Str (s : str)
  | Arr (l : list Value)
  | Object (m : list (str * Value)).

Abbreviation Map := (list (str * Value)).

(** [Map::insert]: replaces the value of an existing key. *)
Fixpoint map_insert (k : str) (v : Value) (m : Map) : Map :=
  match m with
  | [] => [(k, v)]
  | (k', v') :: r =>
      if streqb k k' then (k, v) :: r
      else if str_leb k k' then (k, v) :: m
      else (k', v') :: map_insert k v r
  end.

(** [Map::get]. *)
Fixpoint map_get (k : str) (m : Map) : option Value :=
  match m with
  | [] => None
  | (k', v) :: r => if streqb k k' then Some v else map_get k r
  end.

Definition insert_all (m : Map) (l : Map) : Map := foldl (λ m '(k, v), map_insert k v m) m l.

(** [json!({ "k": v, ... })]. *)
Definition json_object (l : Map) : Value := Object (insert_all [] l).

(** [json!(expr)] by the type of the expression; a float that is not finite is [null]. *)
Definition of_str (s : str) : Value := Str s.
Definition of_bool (b : bool) : Value := Bool b.
Definition of_int (z : Z) : Value := Num (Int z).
Definition of_f64 (f : spec_float) : Value :=
  match f with S754_infinity _ | S754_nan => Null | _ => Num (Float f) end.
Definition of_option {A} (f : A -> Value) (o : option A) : Value :=
  match o with Some a => f a | None => Null end.
Definition of_vec {A} (f : A -> Value) (l : list A) : Value := Arr (map f l).

(** [Value::get] with a key, [Value::as_str], [Value::as_i64]. *)
Definition get (v : Value) (k : str) : option Value :=
  match v with Object m => map_get k m | _ => None end.
(** Nested keys. *)
Fixpoint get_path (v : Value) (ks : list str) : option Value :=
  match ks with
  | [] => Some v
  | k :: r => match get v k with Some w => get_path w r | None => None end
  end.
Definition as_str (v : Value) : option str := match v with Str s => Some s | _ => None end.

(** ** Lemmas *)

Lemma map_get_insert k v m k' :
  map_get k' (map_insert k v m) = if streqb k' k then Some v else map_get k' m.
Proof.
  induction m as [|[k1 v1] m IH]; cbn [map_insert map_get].
  - by destruct (streqb k' k).
  - destruct (streqb k k1) eqn:E1.
    + apply streqb_eq in E1 as <-. cbn. by destruct (streqb k' k).
    + destruct (str_leb k k1) eqn:E2; cbn [map_get]; [done|].
      rewrite IH. destruct (streqb k' k1) eqn:E3; [|done].
      apply streqb_eq in E3 as ->. destruct (streqb k1 k) eqn:E4; [|done].
      apply streqb_eq in E4 as ->. by rewrite streqb_refl in E1.
Qed.

(** *** Objects are sorted by key *)

Lemma str_leb_refl a : str_leb a a = true.
Proof. induction a as [|x a IH]; [done|]. cbn. rewrite Z.eqb_refl, IH. by rewrite orb_true_r. Qed.

Lemma str_leb_antisym a b : str_leb a b = true -> str_leb b a = true -> a = b.
Proof.
  revert b. induction a as [|x a IH]; intros [|y b]; cbn; try done.
  intros H1 H2. assert (x = y) as -> by lia.
  rewrite Z.ltb_irrefl, Z.eqb_refl in H1, H2. cbn in *. by rewrite (IH b).
Qed.

Lemma str_leb_trans a b c : str_leb a b = true -> str_leb b c = true -> str_leb a c = true.
Proof.
  revert b c. induction a as [|x a IH]; intros [|y b] [|z c]; cbn; try done.
  intros H1 H2. apply orb_true_iff in H1, H2. apply orb_true_iff.
  destruct H1 as [H1|[H1 H1']%andb_true_iff], H2 as [H2|[H2 H2']%andb_true_iff];
    rewrite ?Z.ltb_lt, ?Z.eqb_eq in *; try (left; lia).
  right. apply andb_true_iff. split; [lia|eauto].
Qed.

Lemma str_leb_total a b : str_leb a b = false -> str_leb b a = true.
Proof.
  revert b. induction a as [|x a IH]; intros [|y b]; cbn; try done.
  rewrite orb_false_iff, andb_false_iff. intros [H1 H2]. apply orb_true_iff.
  destruct (Z.ltb_spec y x); [by left|]. right. apply andb_true_iff.
  destruct H2 as [H2|H2]; [lia|]. split; [lia|auto].
Qed.

(** Every key is above [k]. *)
Definition above (k : str) (m : Map) : Prop :=
  Forall (λ e, str_leb k e.1 = true ∧ k <> e.1) m.

Fixpoint sorted (m : Map) : Prop :=
  match m with [] => True | (k, v) :: r => above k r ∧ sorted r end.

Lemma above_trans k k' m : str_leb k k' = true -> above k' m -> above k m.
Proof.
  intros Hk. apply Forall_impl. intros e [H1 H2]. split; [by eapply str_leb_trans|].
  intros ->. apply H2. by apply str_leb_antisym.
Qed.

Lemma above_insert k k' v m :
  str_leb k k' = true -> k <> k' -> above k m -> above k (map_insert k' v m).
Proof.
  intros H1 H2 H. induction H as [|[k1 v1] m H3 H4 IH]; cbn [map_insert].
  - constructor; [done|constructor].
  - destruct (streqb k' k1); [|destruct (str_leb k' k1)].
    + by constructor.
    + constructor; [done|]. by constructor.
    + by constructor.
Qed.

Lemma sorted_insert k v m : sorted m -> sorted (map_insert k v m).
Proof.
  induction m as [|[k1 v1] m IH]; cbn [map_insert].
  - intros _. split; [constructor|done].
  - intros [Ha Hs]. destruct (streqb k k1) eqn:E1; [apply streqb_eq in E1 as ->; by split|].
    apply streqb_neq in E1. destruct (str_leb k k1) eqn:E2.
    + split; [|by split]. constructor; [by split|]. by apply (above_trans k k1).
    + split; [|by apply IH]. apply above_insert; [by apply str_leb_total|congruence|done].
Qed.

Lemma sorted_insert_all m l : sorted m -> sorted (insert_all m l).
Proof.
  unfold insert_all. revert m. induction l as [|[k v] l IH]; intros m Hm; [done|].
  apply IH. by apply sorted_insert.
Qed.

(** Inserting what is there changes nothing. *)
Lemma map_insert_same k v m : sorted m -> map_get k m = Some v -> map_insert k v m = m.
Proof.
  induction m as [|[k1 v1] m IH]; cbn [map_insert map_get]; [done|]. intros [Ha Hs].
  destruct (streqb k k1) eqn:E1; [by apply streqb_eq in E1 as -> ; intros [= ->]|].
  intros Hg. destruct (str_leb k k1) eqn:E2; [|by rewrite IH].
  exfalso. assert (Hk : above k m) by (by apply (above_trans k k1)).
  clear -Hg Hk. induction Hk as [|[k2 v2] m [_ H2] _ IH]; cbn in *; [done|].
  destruct (streqb k k2) eqn:E; [by apply streqb_eq in E|auto].
Qed.

(** An object holds the last value given for each key. *)
Lemma map_get_insert_all k m l :
  map_get k (insert_all m l)
  = match map_get k (reverse l) with Some v => Some v | None => map_get k m end.
Proof.
  unfold insert_all. revert m. induction l as [|[k1 v1] l IH] using rev_ind; intros m; [done|].
  rewrite foldl_app, reverse_app. cbn. rewrite map_get_insert.
  destruct (streqb k k1); [done|]. apply IH.
Qed.

(** ** Text *)

(** [serde_json::from_str] and [to_string]; [None] is their error. *)
Class Serde := {
  from_str : str -> option Value;
  to_json_string : Value -> option str;
}.

Fixpoint ascending (keys : list str) : bool :=
  match keys with
  | a :: (b :: _) as r => str_leb a b && negb (streqb a b) && ascending r
  | _ => true
  end.

(** Values that survive printing and parsing: no float, integers of 64 bits, objects in
    the order of a [BTreeMap]. *)
Fixpoint plain_value (v : Value) : bool :=
  match v with
  | Null | Bool _ | Str _ => true
  | Num (Int z) => (-9223372036854775808 <=? z) && (z <=? u64_max)
  | Num (Float _) => false
  | Arr l => forallb plain_value l
  | Object m => forallb (λ '(_, v), plain_value v) m && ascending (map fst m)
  end.

(** The same for a document: its objects have their entries in the order of the text, where
    a key may appear again. *)
Fixpoint plain_doc (v : Value) : bool :=
  match v with
  | Null | Bool _ | Str _ => true
  | Num (Int z) => (-9223372036854775808 <=? z) && (z <=? u64_max)
  | Num (Float _) => false
  | Arr l => forallb plain_doc l
  | Object m => forallb (λ '(_, v), plain_doc v) m
  end.

Class SerdeLaws (S : Serde) := {
  json_empty : from_str [] = None;
  json_print_total : ∀ v, plain_value v = true -> ∃ s, to_json_string v = Some s;
  json_reparse : ∀ v s, plain_value v = true -> to_json_string v = Some s -> from_str s = Some v;
}.

Lemma plain_value_doc v : plain_value v = true -> plain_doc v = true.
Proof.
  revert v. fix IH 1. intros [|b|[z|f]|s|l|m]; cbn; try done.
  - rewrite !forallb_forall. intros H x Hx. revert x Hx H. induction l as [|y l IHl]; [done|].
    intros x [<-|Hx] H; [apply IH, H; by left|]. apply IHl; [done|]. intros z Hz. apply H. by right.
  - intros [H _]%andb_true_iff. revert H. induction m as [|[k v] m IHm]; [done|]. cbn.
    rewrite !andb_true_iff. intros [Hv Hm]. split; [by apply IH|by apply IHm].
Qed.

(** [from_str::<Vec<String>>], [from_str::<Vec<Value>>]. *)
Definition vec_of_value (v : Value) : option (list Value) :=
  match v with Arr l => Some l | _ => None end.
Definition vec_of_strings (v : Value) : option (list str) := l ← vec_of_value v; mapM as_str l.

(** [Value::as_i64], [Value::as_u64] and the index operator [value["key"]]. *)
Definition as_i64 (v : Value) : option Z :=
  match v with
  | Num (Int z) => if z <=? 9223372036854775807 then Some z else None
  | _ => None
  end.
Definition as_u64 (v : Value) : option Z :=
  match v with Num (Int z) => if 0 <=? z then Some z else None | _ => None end.
Definition index (v : Value) (k : str) : Value := default Null (get v k).

(** ** A concrete [Serde]

    Not JSON text: a value is written as its depth and its tokens in prefix order, which
    parses back by the laws. *)

Module DemoSerde.

Fixpoint depth (v : Value) : nat :=
  match v with
  | Arr l => S (foldr (λ v n, Nat.max (depth v) n) O l)
  | Object m => S (foldr (λ '(_, v) n, Nat.max (depth v) n) O m)
  | _ => O
  end.

Definition text_tokens (s : str) : list Z := vec_len s :: s.

Fixpoint tokens (v : Value) : list Z :=
  match v with
  | Null => [0]
  | Bool b => [1; if b then 1 else 0]
  | Num (Int z) => [2; z]
  | Num (Float _) => [0]
  | Str s => 3 :: text_tokens s
  | Arr l => 4 :: vec_len l :: concat (map tokens l)
  | Object m => 5 :: vec_len m :: concat (map (λ '(k, v), text_tokens k ++ tokens v) m)
  end.

Definition read_text (ts : list Z) : option (str * list Z) :=
  match ts with
  | n :: r => Some (take (Z.to_nat n) r, drop (Z.to_nat n) r)
  | [] => None
  end.

Fixpoint many {A} (d : list Z -> option (A * list Z)) (n : nat) (ts : list Z)
  : option (list A * list Z) :=
  match n with
  | O => Some ([], ts)
  | S n =>
      match d ts with
      | Some (x, ts) =>
          match many d n ts with Some (l, ts) => Some (x :: l, ts) | None => None end
      | None => None
      end
  end.

Fixpoint read (fuel : nat) (ts : list Z) : option (Value * list Z) :=
  match fuel with
  | O => None
  | S fuel =>
      match ts with
      | 0 :: r => Some (Null, r)
      | 1 :: b :: r => Some (Bool (b =? 1), r)
      | 2 :: z :: r => Some (Num (Int z), r)
      | 3 :: r => match read_text r with Some (s, r) => Some (Str s, r) | None => None end
      | 4 :: n :: r =>
          match many (read fuel) (Z.to_nat n) r with
          | Some (l, r) => Some (Arr l, r)
          | None => None
          end
      | 5 :: n :: r =>
          match many (λ ts, match read_text ts with
                            | Some (k, ts) =>
                                match read fuel ts with
                                | Some (v, ts) => Some ((k, v), ts)
                                | None => None
                                end
                            | None => None
                            end) (Z.to_nat n) r with
          | Some (m, r) => Some (Object m, r)
          | None => None
          end
      | _ => None
      end
  end.

#[export] Instance serde : Serde := {|
  from_str := λ s, match s with
                   | d :: ts => match read (S (Z.to_nat d)) ts with
                                | Some (v, []) => Some v
                                | _ => None
                                end
                   | [] => None
                   end;
  to_json_string := λ v, Some (Z.of_nat (depth v) :: tokens v);
|}.

Lemma read_text_app s r : read_text (text_tokens s ++ r) = Some (s, r).
Proof.
  unfold read_text, text_tokens, vec_len. cbn. by rewrite Nat2Z.id, take_app_length, drop_app_length.
Qed.

Lemma many_app {A} (d : list Z -> option (A * list Z)) (f : A -> list Z) l r :
  Forall (λ x, ∀ r, d (f x ++ r) = Some (x, r)) l ->
  many d (length l) (concat (map f l) ++ r) = Some (l, r).
Proof.
  induction 1 as [|x l Hx _ IH]; [done|]. cbn. by rewrite <- app_assoc, Hx, IH.
Qed.

Lemma max_depth {A} (f : A -> nat) x l :
  In x l -> (f x <= foldr (λ v n, Nat.max (f v) n) O l)%nat.
Proof. induction l as [|y l IH]; [done|]. intros [->|Hx%IH]; cbn; lia. Qed.

Lemma read_tokens fuel v r :
  plain_doc v = true -> (depth v < fuel)%nat -> read fuel (tokens v ++ r) = Some (v, r).
Proof.
  revert v r. induction fuel as [|fuel IH]; intros v r Hp Hd; [lia|].
  destruct v as [|b|[z|f]|s|l|m]; cbn [tokens app read]; try done.
  - by destruct b.
  - by rewrite read_text_app.
  - unfold vec_len. rewrite Nat2Z.id, (many_app _ tokens); [done|].
    cbn in Hp, Hd. rewrite forallb_forall in Hp. apply List.Forall_forall. intros x Hx r'.
    apply IH; [auto|]. pose proof (max_depth depth x l Hx). lia.
  - unfold vec_len. rewrite Nat2Z.id, (many_app _ (λ '(k, v), text_tokens k ++ tokens v)); [done|].
    cbn in Hp, Hd. rewrite forallb_forall in Hp.
    apply List.Forall_forall. intros [k v] Hx r'. rewrite <- app_assoc, read_text_app.
    rewrite IH; [done|exact (Hp _ Hx)|].
    pose proof (max_depth (λ '(_, v), depth v) (k, v) m Hx) as Hm. cbn in Hm.
    enough (E : foldr (λ x n, Nat.max (let '(_, v) := x in depth v) n) O m
                = foldr (λ '(_, v) n, Nat.max (depth v) n) O m) by lia.
    clear. induction m as [|[k v] m IHm]; [done|]. cbn. by rewrite IHm.
Qed.

Lemma from_tokens v : plain_doc v = true -> from_str (Z.of_nat (depth v) :: tokens v) = Some v.
Proof.
  intros Hp. cbn -[read]. rewrite Nat2Z.id.
  rewrite <- (app_nil_r (tokens v)), read_tokens by (done || lia). done.
Qed.

#[export] Instance serde_laws : SerdeLaws serde.
Proof.
  split; [done|by eexists|]. intros v s Hp [= <-]. by apply from_tokens, plain_value_doc.
Qed.
End DemoSerde.
