(* ===== verification/Models.v ===== *)
(** * Reading and writing technologies as JSON
    ([src/src/fingerprint/models.rs], [src/assets/fingerprints/])

    The deserializers that the Wappalyzer schema needs (a string or an array of strings, a
    category id or an array of them, a map to either) and the code that [serde] derives for
    [Technology] and [Category], on a document: a [Value] whose objects have the entries of
    the text, in its order, possibly repeated.  [None] is an error of [serde]; its text is
    only logged.  The two directories of rules that are compiled in are given as documents. *)

From S2P Require Import Prelude Patterns Literals ExportRow Json.

(** ** Deserializers *)

(** [u32::try_from]. *)
Definition u32_try_from (z : Z) : option Z :=
  if (0 <=? z) && (z <=? u32_max) then Some z else None.

Definition de_string (v : Value) : option str := as_str v.
Definition de_u32 (v : Value) : option Z :=
  match v with Num (Int z) => u32_try_from z | _ => None end.
Definition de_vec {A} (de : Value -> option A) (v : Value) : option (list A) :=
  match v with Arr l => mapM de l | _ => None end.
(** A [HashMap]: a repeated key keeps its last value. *)
Definition de_map {A} (de : Value -> option A) (v : Value) : option (gmap str A) :=
  match v with
  | Object m => foldl (λ r e, r ← r; a ← de e.2; Some (<[e.1 := a]> r)) (Some ∅) m
  | _ => None
  end.

Definition deserialize_string_or_array (v : Value) : option (list str) :=
  match v with
  | Str value => Some [value]
  | Arr seq => mapM de_string seq
  | _ => None
  end.

Definition category_id (elem : Value) : option Z :=
  match elem with
  | Num _ => as_u64 elem ≫= u32_try_from
  | Str s => parse_uint u32_max s
  | _ => None
  end.

Definition deserialize_u32_or_array (v : Value) : option (list Z) :=
  match v with
  | Num (Int value) => (λ n, [n]) <$> u32_try_from value
  | Str value => (λ n, [n]) <$> parse_uint u32_max value
  | Arr seq => mapM category_id seq
  | _ => None
  end.

Definition meta_value_patterns (value : Value) : option (list str) :=
  match value with
  | Str s => Some [s]
  | Arr arr => Some (omap as_str arr)
  | _ => None
  end.

Definition deserialize_meta_map (v : Value) : option (gmap str (list str)) := de_map meta_value_patterns v.

(** ** The derived code

    A field is read by name, one of its aliases included, or by position, since [serde_json]
    also takes an array for a struct.  An unknown name is skipped, a field given twice is an
    error, a field that is left out has its default. *)

Definition Fields : Type := ∀ A : Type, nat -> list string -> (Value -> option A) -> option A -> option A.

Definition by_name (m : list (str * Value)) : Fields := λ A _ names de dflt,
  match List.filter (λ e, existsb (λ n, streqb e.1 (lit n)) names) m with
  | [] => dflt
  | [(_, v)] => de v
  | _ => None
  end.

Definition by_position (seq : list Value) : Fields := λ A i _ de dflt,
  match seq !! i with Some v => de v | None => dflt end.

Definition de_struct {A} (fields : nat) (build : Fields -> option A) (v : Value) : option A :=
  match v with
  | Object m => build (by_name m)
  | Arr seq => if (length seq <=? fields)%nat then build (by_position seq) else None
  | _ => None
  end.

Definition de_technology_fields (field : Fields) : option Technology :=
  cats ← field _ 0%nat ["cats"%string] (de_vec de_u32) (Some []);
  website ← field _ 1%nat ["website"%string] de_string (Some []);
  headers ← field _ 2%nat ["headers"%string] (de_map de_string) (Some ∅);
  cookies ← field _ 3%nat ["cookies"%string] (de_map de_string) (Some ∅);
  meta ← field _ 4%nat ["meta"%string] deserialize_meta_map (Some ∅);
  script ← field _ 5%nat ["script"; "scriptSrc"]%string deserialize_string_or_array (Some []);
  scripts ← field _ 6%nat ["scripts"%string] deserialize_string_or_array (Some []);
  html ← field _ 7%nat ["html"%string] deserialize_string_or_array (Some []);
  url ← field _ 8%nat ["url"%string] deserialize_string_or_array (Some []);
  dns ← field _ 9%nat ["dns"%string] deserialize_meta_map (Some ∅);
  cert_issuer ← field _ 10%nat ["cert_issuer"; "certIssuer"]%string
                  deserialize_string_or_array (Some []);
  js ← field _ 11%nat ["js"%string] (de_map de_string) (Some ∅);
  implies ← field _ 12%nat ["implies"%string] deserialize_string_or_array (Some []);
  excludes ← field _ 13%nat ["excludes"%string] deserialize_string_or_array (Some []);
  requires ← field _ 14%nat ["requires"%string] deserialize_string_or_array (Some []);
  requires_category ← field _ 15%nat ["requires_category"; "requiresCategory"]%string
                        deserialize_u32_or_array (Some []);
  Some (MkTechnology cats website headers cookies meta script scripts html url dns cert_issuer js
          implies excludes requires requires_category).

Definition de_technology (v : Value) : option Technology := de_struct 16 de_technology_fields v.

Record Category := MkCategory { c_name : str; c_description : str; c_priority : Z }.

(** [name] has no default. *)
Definition de_category_fields (field : Fields) : option Category :=
  name ← field _ 0%nat ["name"%string] de_string None;
  description ← field _ 1%nat ["description"%string] de_string (Some []);
  priority ← field _ 2%nat ["priority"%string] de_u32 (Some 0);
  Some (MkCategory name description priority).

Definition de_category (v : Value) : option Category := de_struct 3 de_category_fields v.

(** [from_str::<HashMap<String, Technology>>] and [from_str::<HashMap<String, Category>>]. *)
Definition de_technologies (doc : Value) : option (gmap str Technology) := de_map de_technology doc.
Definition de_categories (doc : Value) : option (gmap str Category) := de_map de_category doc.

(** The key of a [HashMap<u32, String>]: a JSON integer in quotes. *)
Definition u32_key (key : str) : option Z :=
  match parse_uint u32_max key with
  | Some n => if streqb (dec n) key then Some n else None
  | None => None
  end.

Definition de_names (doc : Value) : option (gmap Z str) :=
  match doc with
  | Object m =>
      foldl (λ r e, r ← r; k ← u32_key e.1; a ← de_string e.2; Some (<[k := a]> r)) (Some ∅) m
  | _ => None
  end.

(** ** The derived serializers *)

Section Serialize.
Context `{I : HashIter}.

Definition ser_strings (l : list str) : Value := of_vec of_str l.
Definition ser_map {A} (ser : A -> Value) (m : gmap str A) : Value :=
  Object (map (λ e, (e.1, ser e.2)) (hash_iter m)).

Definition ser_technology (t : Technology) : Value :=
  Object [
    (lit "cats", of_vec of_int (cats t)); (lit "website", of_str (website t));
    (lit "headers", ser_map of_str (headers t)); (lit "cookies", ser_map of_str (cookies t));
    (lit "meta", ser_map ser_strings (meta t)); (lit "script", ser_strings (script t));
    (lit "scripts", ser_strings (scripts t)); (lit "html", ser_strings (html t));
    (lit "url", ser_strings (url t)); (lit "dns", ser_map ser_strings (dns t));
    (lit "cert_issuer", ser_strings (cert_issuer t)); (lit "js", ser_map of_str (js t));
    (lit "implies", ser_strings (implies t)); (lit "excludes", ser_strings (excludes t));
    (lit "requires", ser_strings (requires t));
    (lit "requires_category", of_vec of_int (requires_category t)) ].

Definition ser_technologies (techs : gmap str Technology) : Value := ser_map ser_technology techs.

(** A [HashMap<u32, String>]; its order is that of any map with these entries. *)
Definition ser_names (names : gmap Z str) : Value := ser_map of_str (kmap dec names).
End Serialize.

(** ** The rules that are compiled in *)

Definition OVERLAY_JSON : Value :=
  Object [
    (lit "Payload", Object [
      (lit "cats", Arr [Num (Int 1)]);
      (lit "headers", Object [
        (lit "x-powered-by", Str (lit "Payload"))]);
      (lit "website", Str (lit "https://payloadcms.com"))]);
    (lit "Amazon S3", Object [
      (lit "cats", Arr [Num (Int 31)]);
      (lit "headers", Object [
        (lit "server", Str (lit "^AmazonS3$"));
        (lit "x-amz-server-side-encryption", Str (lit ""))]);
      (lit "implies", Arr [Str (lit "Amazon Web Services")]);
      (lit "website", Str (lit "https://aws.amazon.com/s3/"))])].

Definition VENDORED_TECHNOLOGIES_JSON : Value :=
  Object [
    (lit "Nginx", Object [
      (lit "cats", Arr [Num (Int 6)]);
      (lit "website", Str (lit "https://nginx.org"));
      (lit "headers", Object [
        (lit "Server", Str (lit "nginx(?:/([\d.]+))?\;version:\1"))])]);
    (lit "Apache HTTP Server", Object [
      (lit "cats", Arr [Num (Int 6)]);
      (lit "website", Str (lit "https://httpd.apache.org"));
      (lit "headers", Object [
        (lit "Server", Str (lit "Apache(?:/([\d.]+))?\;version:\1"))])]);
    (lit "Cloudflare", Object [
      (lit "cats", Arr [Num (Int 31)]);
      (lit "website", Str (lit "https://www.cloudflare.com"));
      (lit "headers", Object [
        (lit "Server", Str (lit "cloudflare"));
        (lit "cf-ray", Str (lit ""))])]);
    (lit "jQuery", Object [
      (lit "cats", Arr [Num (Int 59)]);
      (lit "website", Str (lit "https://jquery.com"));
      (lit "scriptSrc", Arr [Str (lit "jquery[.-]([\d.]*\d)[^/]*\.js\;version:\1");
          Str (lit "/jquery(?:-?\d\.(?:\d|x)(?:\.\d)?)*\.(?:min\.)?js")]);
      (lit "html", Arr [Str (lit "<(?:link|script)[^>]+jquery")])]);
    (lit "React", Object [
      (lit "cats", Arr [Num (Int 5)]);
      (lit "website", Str (lit "https://reactjs.org"));
      (lit "html", Arr [Str (lit "<[^>]+data-react(?:root|id|checksum)");
          Str (lit "<script[^>]*>[^<]*__NEXT_DATA__")]);
      (lit "js", Object [
        (lit "React", Str (lit ""));
        (lit "ReactDOM", Str (lit ""))]);
      (lit "implies", Arr [Str (lit "Node.js")])]);
    (lit "Next.js", Object [
      (lit "cats", Arr [Num (Int 18)]);
      (lit "website", Str (lit "https://nextjs.org"));
      (lit "html", Arr [Str (lit "<(?:div|script)[^>]+id=[" ++ [34] ++ lit "']__next[" ++ [34] ++ lit "']");
          Str (lit "<script[^>]*>[^<]*__NEXT_DATA__")]);
      (lit "js", Object [
        (lit "__NEXT_DATA__", Str (lit ""))]);
      (lit "headers", Object [
        (lit "x-powered-by", Str (lit "Next\.js"))]);
      (lit "implies", Arr [Str (lit "React"); Str (lit "Node.js"); Str (lit "Webpack")])]);
    (lit "WordPress", Object [
      (lit "cats", Arr [Num (Int 1)]);
      (lit "website", Str (lit "https://wordpress.org"));
      (lit "meta", Object [
        (lit "generator", Str (lit "WordPress(?:\s([\d.]+))?\;version:\1"))]);
      (lit "html", Arr [Str (lit "<link[^>]+wp-(?:content|includes)");
          Str (lit "<(?:link|script)[^>]+/wp-content/")]);
      (lit "implies", Arr [Str (lit "PHP"); Str (lit "MySQL")])]);
    (lit "PHP", Object [
      (lit "cats", Arr [Num (Int 12)]);
      (lit "website", Str (lit "https://php.net"));
      (lit "headers", Object [
        (lit "X-Powered-By", Str (lit "PHP(?:/([\d.]+))?\;version:\1"));
        (lit "Server", Str (lit "php/?([\d.]+)?\;version:\1"))]);
      (lit "cookies", Object [
        (lit "PHPSESSID", Str (lit ""))])]);
    (lit "MySQL", Object [
      (lit "cats", Arr [Num (Int 47)]);
      (lit "website", Str (lit "https://www.mysql.com"))]);
    (lit "Node.js", Object [
      (lit "cats", Arr [Num (Int 12)]);
      (lit "website", Str (lit "https://nodejs.org"));
      (lit "headers", Object [
        (lit "X-Powered-By", Str (lit "Express"))])]);
    (lit "Webpack", Object [
      (lit "cats", Arr [Num (Int 47)]);
      (lit "website", Str (lit "https://webpack.js.org"));
      (lit "html", Arr [Str (lit "(?:<script[^>]+src=[" ++ [34] ++ lit "'][^" ++ [34] ++ lit "']*bundles?/|/static/js/)[^" ++ [34] ++ lit "']+\.[a-f0-9]+\.chunk\.js")])]);
    (lit "Google Tag Manager", Object [
      (lit "cats", Arr [Num (Int 62)]);
      (lit "website", Str (lit "https://tagmanager.google.com"));
      (lit "html", Arr [Str (lit "googletagmanager\.com/gtm\.js");
          Str (lit "googletagmanager\.com/ns\.html[^>]+></iframe>")]);
      (lit "js", Object [
        (lit "google_tag_manager", Str (lit ""));
        (lit "googletag", Str (lit ""))])]);
    (lit "Google Analytics", Object [
      (lit "cats", Arr [Num (Int 36)]);
      (lit "website", Str (lit "https://google.com/analytics"));
      (lit "html", Arr [Str (lit "google-analytics\.com/(?:ga|urchin|analytics)\.js");
          Str (lit "googletagmanager\.com/gtag/js")]);
      (lit "js", Object [
        (lit "GoogleAnalyticsObject", Str (lit ""));
        (lit "ga", Str (lit ""));
        (lit "gtag", Str (lit ""))])]);
    (lit "Bootstrap", Object [
      (lit "cats", Arr [Num (Int 59)]);
      (lit "website", Str (lit "https://getbootstrap.com"));
      (lit "html", Arr [Str (lit "<link[^>]+href=[" ++ [34] ++ lit "'][^" ++ [34] ++ lit "']*bootstrap(?:\.min)?\.css");
          Str (lit "<script[^>]+src=[" ++ [34] ++ lit "'][^" ++ [34] ++ lit "']*bootstrap(?:\.min)?\.js")])]);
    (lit "Amazon Web Services", Object [
      (lit "cats", Arr [Num (Int 83)]);
      (lit "website", Str (lit "https://aws.amazon.com"));
      (lit "headers", Object [
        (lit "Server", Str (lit "AmazonS3|EC2WS|aws"));
        (lit "x-amz-id-2", Str (lit ""));
        (lit "x-amz-request-id", Str (lit ""))])])].

Definition VENDORED_CATEGORIES_JSON : Value :=
  Object [
    (lit "1", Object [
      (lit "name", Str (lit "CMS"));
      (lit "priority", Num (Int 1))]);
    (lit "5", Object [
      (lit "name", Str (lit "JavaScript frameworks"));
      (lit "priority", Num (Int 2))]);
    (lit "6", Object [
      (lit "name", Str (lit "Web servers"));
      (lit "priority", Num (Int 3))]);
    (lit "11", Object [
      (lit "name", Str (lit "CDN"));
      (lit "priority", Num (Int 4))]);
    (lit "12", Object [
      (lit "name", Str (lit "Programming languages"));
      (lit "priority", Num (Int 5))]);
    (lit "18", Object [
      (lit "name", Str (lit "Web frameworks"));
      (lit "priority", Num (Int 6))]);
    (lit "22", Object [
      (lit "name", Str (lit "Webmail"));
      (lit "priority", Num (Int 7))]);
    (lit "27", Object [
      (lit "name", Str (lit "Font scripts"));
      (lit "priority", Num (Int 8))]);
    (lit "31", Object [
      (lit "name", Str (lit "CDN"));
      (lit "priority", Num (Int 4))]);
    (lit "36", Object [
      (lit "name", Str (lit "Advertising"));
      (lit "priority", Num (Int 9))]);
    (lit "41", Object [
      (lit "name", Str (lit "Payment processors"));
      (lit "priority", Num (Int 10))]);
    (lit "47", Object [
      (lit "name", Str (lit "Miscellaneous"));
      (lit "priority", Num (Int 11))]);
    (lit "59", Object [
      (lit "name", Str (lit "JavaScript libraries"));
      (lit "priority", Num (Int 12))]);
    (lit "62", Object [
      (lit "name", Str (lit "Tag managers"));
      (lit "priority", Num (Int 13))]);
    (lit "83", Object [
      (lit "name", Str (lit "IaaS"));
      (lit "priority", Num (Int 14))])].


(** ** Lemmas *)

(** A technology whose category ids are of their width. *)
Definition is_u32 (z : Z) : Prop := 0 <= z <= u32_max.
Definition wf_technology (t : Technology) : Prop :=
  Forall is_u32 (cats t) ∧ Forall is_u32 (requires_category t).

Lemma u32_try_from_Some z n : u32_try_from z = Some n <-> n = z ∧ is_u32 z.
Proof.
  unfold u32_try_from, is_u32.
  destruct (0 <=? z) eqn:E1, (z <=? u32_max) eqn:E2; cbn; (split; [|intros [-> H]; first [done|lia]]);
    intros H; simplify_eq; split; (done || lia).
Qed.

Lemma mapM_map_id {A} (de : Value -> option A) (ser : A -> Value) l :
  Forall (λ x, de (ser x) = Some x) l -> mapM de (map ser l) = Some l.
Proof. induction 1 as [|x l Hx _ IH]; [done|]. cbn. by rewrite Hx, IH. Qed.

Lemma de_map_go {A} (de : Value -> option A) (ser : A -> Value) (l : list (str * A)) (m0 : gmap str A) :
  Forall (λ e, de (ser e.2) = Some e.2) l -> NoDup l.*1 ->
  (∀ k, k ∈ l.*1 -> m0 !! k = None) ->
  foldl (λ r e, r ← r; a ← de e.2; Some (<[e.1 := a]> r)) (Some m0) (map (λ e, (e.1, ser e.2)) l)
  = Some (list_to_map l ∪ m0).
Proof.
  intros Hl. revert m0. induction Hl as [|[k a] l Ha Hl IH]; intros m0 Hn H0.
  - cbn. by rewrite (left_id_L ∅ (∪)).
  - cbn in *. rewrite Ha. cbn. apply list.NoDup_cons in Hn as [Hk Hn].
    rewrite IH; [|done|].
    + f_equal. rewrite <- insert_union_l, <- insert_union_r; [done|].
      by apply not_elem_of_list_to_map_1.
    + intros k' Hk'. rewrite lookup_insert_ne; [|by intros ->]. apply H0. by right.
Qed.

Lemma de_map_listed {A} (de : Value -> option A) (ser : A -> Value) (l : list (str * A)) :
  Forall (λ e, de (ser e.2) = Some e.2) l -> NoDup l.*1 ->
  de_map de (Object (map (λ e, (e.1, ser e.2)) l)) = Some (list_to_map l).
Proof.
  intros Hl Hn. cbn [de_map]. rewrite (de_map_go de ser l ∅ Hl Hn); [|done].
  by rewrite (right_id_L ∅ (∪)).
Qed.

(** The names of the fields in the order of their positions. *)
Definition technology_names : list str :=
  map lit ["cats"; "website"; "headers"; "cookies"; "meta"; "script"; "scripts"; "html"; "url"; "dns";
           "cert_issuer"; "js"; "implies"; "excludes"; "requires"; "requires_category"]%string.

Lemma technology_object v0 v1 v2 v3 v4 v5 v6 v7 v8 v9 v10 v11 v12 v13 v14 v15 :
  let values := [v0; v1; v2; v3; v4; v5; v6; v7; v8; v9; v10; v11; v12; v13; v14; v15] in
  de_technology (Object (combine technology_names values))
  = de_technology_fields (by_position values).
Proof. reflexivity. Qed.

Section RoundTrip.
Context `{I : HashIter} `{!HashIterLaws I}.

Lemma hash_iter_listed {A} (m : gmap str A) :
  NoDup (hash_iter m).*1 ∧ list_to_map (hash_iter m) = m.
Proof.
  assert (Hn : NoDup (hash_iter m).*1) by (rewrite hash_iter_perm; apply NoDup_fst_map_to_list).
  split; [exact Hn|]. rewrite <- (list_to_map_to_list m) at 2.
  apply list_to_map_proper; [exact Hn|apply hash_iter_perm].
Qed.

Lemma de_ser_map {A} (de : Value -> option A) (ser : A -> Value) (m : gmap str A) :
  map_Forall (λ _ a, de (ser a) = Some a) m -> de_map de (ser_map ser m) = Some m.
Proof.
  intros Hm. destruct (hash_iter_listed m) as [Hn E]. unfold ser_map.
  rewrite de_map_listed; [by rewrite E| |exact Hn].
  apply List.Forall_forall. intros [k a] Hin%list_elem_of_In%elem_of_hash_iter. by apply (Hm k a).
Qed.

Lemma de_ser_strings l : deserialize_string_or_array (ser_strings l) = Some l.
Proof. cbn. apply mapM_map_id, List.Forall_forall. done. Qed.

Lemma de_ser_meta m : deserialize_meta_map (ser_map ser_strings m) = Some m.
Proof.
  apply de_ser_map. intros k l _. cbn. f_equal. induction l as [|s l IH]; [done|]. cbn. by rewrite IH.
Qed.

Lemma de_ser_texts m : de_map de_string (ser_map of_str m) = Some m.
Proof. by apply de_ser_map. Qed.

Lemma de_ser_u32s l : Forall is_u32 l -> de_vec de_u32 (of_vec of_int l) = Some l.
Proof.
  intros Hl. cbn. apply mapM_map_id. eapply List.Forall_impl; [|exact Hl].
  intros z Hz. cbn. by apply u32_try_from_Some.
Qed.

Lemma de_ser_ids l : Forall is_u32 l -> deserialize_u32_or_array (of_vec of_int l) = Some l.
Proof.
  intros Hl. cbn. apply mapM_map_id. eapply List.Forall_impl; [|exact Hl].
  intros z Hz. cbn. rewrite (proj2 (Z.leb_le 0 z)) by apply Hz. by apply u32_try_from_Some.
Qed.

Lemma de_ser_technology t : wf_technology t -> de_technology (ser_technology t) = Some t.
Proof.
  intros [Hc Hr]. destruct t. etransitivity; [apply technology_object|].
  cbn [Literals.cats Literals.requires_category] in Hc, Hr.
  unfold de_technology_fields, by_position.
  cbn [lookup list_lookup Literals.cats Literals.website Literals.headers Literals.cookies Literals.meta
       Literals.script Literals.scripts Literals.html Literals.url Literals.dns Literals.cert_issuer
       Literals.js Literals.implies Literals.excludes Literals.requires Literals.requires_category].
  rewrite (de_ser_u32s _ Hc). cbn [mbind option_bind].
  by rewrite !de_ser_texts, !de_ser_meta, !de_ser_strings, (de_ser_ids _ Hr).
Qed.
Lemma de_ser_technologies (techs : gmap str Technology) :
  map_Forall (λ _, wf_technology) techs -> de_technologies (ser_technologies techs) = Some techs.
Proof.
  intros Hw. unfold de_technologies, ser_technologies. apply de_ser_map. intros k t Ht.
  apply de_ser_technology. exact (Hw k t Ht).
Qed.
End RoundTrip.

(** Whatever was deserialized has ids of their width. *)
Lemma mapM_Forall_of {A B} (f : A -> option B) (P : B -> Prop) l r :
  (∀ x y, f x = Some y -> P y) -> mapM f l = Some r -> Forall P r.
Proof.
  intros Hf. revert r. induction l as [|x l IH]; intros r H; cbn in H; [injection H as <-; constructor|].
  destruct (f x) as [y|] eqn:Ex; [|done]. cbn in H. destruct (mapM f l) as [r'|]; [|done].
  injection H as <-. constructor; eauto.
Qed.

Lemma by_field_of (A : Type) (P : A -> Prop) (de : Value -> option A) dflt fields a i names :
  (∃ m, fields = by_name m) ∨ (∃ l, fields = by_position l) ->
  (∀ v a, de v = Some a -> P a) -> (∀ a, dflt = Some a -> P a) ->
  fields A i names de dflt = Some a -> P a.
Proof.
  intros [[m ->]|[l ->]] Hd H0; unfold by_name, by_position; repeat case_match; naive_solver.
Qed.

Lemma de_technology_wf v t : de_technology v = Some t -> wf_technology t.
Proof.
  assert (Hgo : ∀ fields, (∃ m, fields = by_name m) ∨ (∃ l, fields = by_position l) ->
    de_technology_fields fields = Some t -> wf_technology t).
  { intros fields Hf H. unfold de_technology_fields in H.
    repeat match type of H with
           | (?x ≫= _) = _ => let E := fresh "E" in destruct x eqn:E; [cbn [mbind option_bind] in H|done]
           end.
    simplify_eq. split; cbn.
    - refine (by_field_of _ _ _ _ _ _ _ _ Hf _ _ E); [|intros ? [= <-]; constructor].
      intros [] a; try done. apply mapM_Forall_of. intros [| |[]| | |] n; try done.
      by intros [-> ?]%u32_try_from_Some.
    - match goal with
      | E' : fields _ 15%nat _ _ _ = _ |- _ => refine (by_field_of _ _ _ _ _ _ _ _ Hf _ _ E')
      end; [|intros ? [= <-]; constructor].
      assert (Hu : ∀ s n, parse_uint u32_max s = Some n -> is_u32 n).
      { intros s n Hn. split; [by eapply parse_uint_nonneg|by eapply parse_uint_bounds]. }
      intros [| |[]| | |] a; cbn; try done.
      + destruct (u32_try_from _) eqn:Eu; [|done]. intros [= <-].
        apply u32_try_from_Some in Eu as [-> ?]. by apply Forall_singleton.
      + destruct (parse_uint _ _) eqn:Eu; [|done]. intros [= <-]. apply Forall_singleton. by eapply Hu.
      + apply mapM_Forall_of. intros [| |[]| | |] n; cbn; try done.
        * case_match; [|done]. by intros [-> ?]%u32_try_from_Some.
        * by apply Hu. }
  unfold de_technology, de_struct. destruct v as [| | | |l|m]; try done.
  - case_match; [|done]. apply Hgo. right. by eexists.
  - apply Hgo. left. by eexists.
Qed.

Lemma de_map_Forall {A} (P : A -> Prop) (de : Value -> option A) v m :
  (∀ v a, de v = Some a -> P a) -> de_map de v = Some m -> map_Forall (λ _, P) m.
Proof.
  intros Hd. destruct v as [| | | | |l]; try done. cbn [de_map].
  assert (Hgo : ∀ m0 : gmap str A, map_Forall (λ _, P) m0 ->
    foldl (λ r e, r ← r; a ← de e.2; Some (<[e.1 := a]> r)) (Some m0) l = Some m ->
    map_Forall (λ _, P) m); [|apply Hgo; done].
  induction l as [|[k x] l IH]; intros m0 H0; cbn; [by intros [= <-]|].
  destruct (de x) as [a|] eqn:Ea; cbn.
  - apply IH. apply map_Forall_insert_2; eauto.
  - clear. induction l as [|e l IH]; [done|]. exact IH.
Qed.

Lemma de_technologies_wf v techs :
  de_technologies v = Some techs -> map_Forall (λ _, wf_technology) techs.
Proof. apply de_map_Forall, de_technology_wf. Qed.

(** ** The rules that are compiled in can be read *)

Definition reads {A} (r : option A) : bool := match r with Some _ => true | None => false end.
Lemma reads_some {A} (r : option A) : reads r = true -> is_Some r.
Proof. destruct r; [by eexists|done]. Qed.

Lemma overlay_reads : is_Some (de_technologies OVERLAY_JSON).
Proof. apply reads_some. vm_compute. reflexivity. Qed.
Lemma vendored_reads :
  is_Some (de_technologies VENDORED_TECHNOLOGIES_JSON) ∧ is_Some (de_categories VENDORED_CATEGORIES_JSON).
Proof. split; apply reads_some; vm_compute; reflexivity. Qed.

Module DemoModels.
(** Both spellings, a single string, ids as text; a field that is given under two names. *)
Example aliases :
  let read m := option_map (λ t, (script t, requires_category t)) (de_technology (Object m)) in
  read [(lit "scriptSrc", Str (lit "a\.js")); (lit "requiresCategory", Arr [Str (lit "6"); Num (Int 1)])]
  = Some ([lit "a\.js"], [6; 1])
  ∧ read [(lit "script", Arr []); (lit "scriptSrc", Str (lit "a\.js"))] = None
  ∧ read [(lit "icon", Null)] = Some ([], []) ∧ read [(lit "html", Null)] = None.
Proof. vm_compute. repeat split. Qed.

(** A category also reads as a technology, one without any pattern. *)
Example category_reads_as_technology :
  de_technology (Object [(lit "name", Str (lit "CMS")); (lit "priority", Num (Int 1))])
  = Some empty_technology.
Proof. reflexivity. Qed.
End DemoModels.
