(* ===== verification/ExportFields.v ===== *)
(** * The export registry ([src/src/export/fields.rs], [export/csv.rs])

    One table drives the columns of the CSV file, the schema of the Parquet file and the
    flat keys of the JSON lines.  The registry is split by topic; [EXPORT_FIELDS] is the
    concatenation in source order. *)

From Stdlib Require Import SpecFloat.
From S2P Require Import Prelude ExportRow Json.

(** ** The Arrow types a column can have *)

Inductive DataType :=
  | Utf8
  | Int32
  | Int64
  | Float64
  | Boolean
  | ListOf (item : Field)
  | Struct (fields : list Field)
with Field :=
  | MkArrowField (name : str) (data_type : DataType) (nullable : bool).

Definition utf8 : DataType := Utf8.
Definition int32 : DataType := Int32.
Definition int64 : DataType := Int64.
Definition float64 : DataType := Float64.
Definition boolean : DataType := Boolean.

Definition fld (name : string) (t : DataType) (nullable : bool) : Field :=
  MkArrowField (lit name) t nullable.

(** [DataType::List(Arc::new(Field::new("item", t, true)))]. *)
Definition list_of (t : DataType) : DataType := ListOf (fld "item" t true).

Definition arrow_type_redirect_chain : DataType :=
  list_of (Struct [fld "redirect_url" Utf8 false; fld "sequence_order" Int64 false]).
Definition arrow_type_technologies : DataType :=
  list_of (Struct [fld "name" Utf8 false; fld "version" Utf8 true; fld "category" Utf8 true;
                   fld "is_implied" Boolean false; fld "detection_source" Utf8 true]).
Definition arrow_type_certificate_sans : DataType := list_of Utf8.
Definition arrow_type_certificate_oids : DataType := list_of Utf8.
Definition arrow_type_cname_records : DataType := list_of Utf8.
Definition arrow_type_ipv6_addresses : DataType := list_of Utf8.
Definition arrow_type_caa_records : DataType :=
  list_of (Struct [fld "flag" Int64 false; fld "tag" Utf8 false; fld "value" Utf8 false]).
Definition arrow_type_nameservers : DataType := list_of Utf8.
Definition arrow_type_txt_records : DataType :=
  list_of (Struct [fld "record_type" Utf8 false; fld "content" Utf8 false]).
Definition arrow_type_mx_records : DataType :=
  list_of (Struct [fld "priority" Int64 false; fld "mail_exchange" Utf8 false]).
Definition arrow_type_script_hosts : DataType :=
  list_of (Struct [fld "host" Utf8 false; fld "registrable_domain" Utf8 true;
                   fld "is_first_party" Boolean false]).
Definition arrow_type_analytics_ids : DataType :=
  list_of (Struct [fld "provider" Utf8 false; fld "tracking_id" Utf8 false]).
Definition arrow_type_social_media_links : DataType :=
  list_of (Struct [fld "platform" Utf8 false; fld "url" Utf8 false;
                   fld "identifier" Utf8 true]).
Definition arrow_type_structured_data : DataType :=
  list_of (Struct [fld "data_type" Utf8 false; fld "property_name" Utf8 false;
                   fld "property_value" Utf8 false]).
Definition arrow_type_http_headers : DataType :=
  list_of (Struct [fld "name" Utf8 false; fld "value" Utf8 false]).
Definition arrow_type_security_headers : DataType :=
  list_of (Struct [fld "name" Utf8 false; fld "value" Utf8 false]).
Definition arrow_type_partial_failures : DataType :=
  list_of (Struct [fld "error_type" Utf8 false; fld "error_message" Utf8 false]).
Definition arrow_type_contact_links : DataType :=
  list_of (Struct [fld "contact_type" Utf8 false; fld "contact_value" Utf8 false]).
Definition arrow_type_exposed_secrets : DataType :=
  list_of (Struct
    [fld "secret_type" Utf8 false; fld "matched_value" Utf8 false; fld "severity" Utf8 false;
     fld "location" Utf8 false; fld "context" Utf8 true; fld "jwt_algorithm" Utf8 true;
     fld "jwt_issuer" Utf8 true; fld "jwt_subject" Utf8 true; fld "jwt_audience" Utf8 true;
     fld "jwt_expiration_ms" Int64 true; fld "jwt_issued_at_ms" Int64 true;
     fld "jwt_header_json" Utf8 true; fld "jwt_payload_json" Utf8 true]).

(** ** The registry *)

Record CsvSpec := MkCsv { csv_name : str; extract : ExportRow -> str }.
Record ParquetSpec := MkParquet { pq_name : str; data_type : DataType; nullable : bool }.
Record ExportField := MkField {
  f_id : str;
  f_csv : option CsvSpec;
  f_parquet : option ParquetSpec;
  f_jsonl_flat : option (ExportRow -> Value);
  f_flat_shared : bool;
}.

Definition csv (name : string) (f : ExportRow -> str) : option CsvSpec :=
  Some (MkCsv (lit name) f).
Definition parquet (name : string) (t : DataType) (nullable : bool) : option ParquetSpec :=
  Some (MkParquet (lit name) t nullable).

Section Fields.
Context `{FF : FloatFmt} `{Ch : Chrono}.

(** Milliseconds to a date; the division truncates. *)
Definition format_date (ts_ms : option Z) : str :=
  or_empty (ts ← ts_ms; format_ymd (Z.quot ts 1000)).

Definition format_caa_records (row : ExportRow) : str :=
  join (lit ", ")
    (map (λ r, dec_z (caa_flag r) ++ lit ":" ++ caa_tag r ++ lit ":" ++ caa_value r)
       (caa_records row)).
Definition format_nameservers (row : ExportRow) : str :=
  join (lit ",") (map ns_nameserver (nameservers row)).
Definition format_txt_records (row : ExportRow) : str :=
  join (lit ",")
    (map (λ r, txt_record_type r ++ lit "|" ++ txt_record_value r) (txt_records row)).
Definition format_mx_records (row : ExportRow) : str :=
  join (lit ",")
    (map (λ r, dec_z (mx_priority r) ++ lit ":" ++ mx_mail_exchange r) (mx_records row)).
Definition format_structured_data_entries (row : ExportRow) : str :=
  join (lit ",")
    (map (λ e, sd_data_type e ++ lit "|" ++ sd_property_name e ++ lit "|"
               ++ sd_property_value e) (structured_data_entries row)).
Definition format_social_media_identifiers (row : ExportRow) : str :=
  join (lit ",")
    (omap (λ l, option_map (λ id, sm_platform l ++ lit ":" ++ id) (sm_identifier l))
       (social_media_links row)).
Definition format_partial_failures (row : ExportRow) : str :=
  join (lit ",")
    (map (λ f, pf_error_type f ++ lit "|" ++ pf_error_message f) (partial_failures row)).
Definition format_contact_links (row : ExportRow) : str :=
  join (lit ",")
    (map (λ c, cl_contact_type c ++ lit ":" ++ cl_contact_value c) (contact_links row)).

Definition format_secret (s : ExposedSecretRecord) : str :=
  let base := lit "[" ++ es_severity s ++ lit "] " ++ es_secret_type s ++ lit "|"
              ++ es_location s ++ lit "|" ++ es_matched_value s in
  match es_jwt_algorithm s, es_jwt_issuer s with
  | Some alg, Some iss => base ++ lit "|alg=" ++ alg ++ lit "|iss=" ++ iss
  | Some alg, None => base ++ lit "|alg=" ++ alg
  | None, Some iss => base ++ lit "|iss=" ++ iss
  | None, None => base
  end.
Definition format_exposed_secrets (row : ExportRow) : str :=
  join (lit "; ") (map format_secret (exposed_secrets row)).

Definition page_fields : list ExportField :=
  [
    MkField (lit "url")
      (csv "url" (λ row, build_url (m_final_domain (main row))))
      (parquet "url" utf8 false)
      (Some (λ row, of_str (build_url (m_final_domain (main row))))) true;
    MkField (lit "initial_domain")
      (csv "initial_domain" (λ row, m_initial_domain (main row)))
      (parquet "initial_domain" utf8 false)
      (Some (λ row, of_str (m_initial_domain (main row)))) true;
    MkField (lit "final_domain")
      (csv "final_domain" (λ row, m_final_domain (main row)))
      (parquet "final_domain" utf8 false)
      (Some (λ row, of_str (m_final_domain (main row)))) true;
    MkField (lit "initial_url")
      (csv "initial_url" (λ row, or_empty (m_initial_url (main row))))
      (parquet "initial_url" utf8 true)
      (Some (λ row, of_option of_str (m_initial_url (main row)))) true;
    MkField (lit "final_url")
      (csv "final_url" (λ row, or_empty (m_final_url (main row))))
      (parquet "final_url" utf8 true)
      (Some (λ row, of_option of_str (m_final_url (main row)))) true;
    MkField (lit "ip_address")
      (csv "ip_address" (λ row, m_ip_address (main row)))
      (parquet "ip_address" utf8 false)
      (Some (λ row, of_str (m_ip_address (main row)))) true;
    MkField (lit "reverse_dns")
      (csv "reverse_dns" (λ row, or_empty (m_reverse_dns (main row))))
      (parquet "reverse_dns" utf8 true)
      (Some (λ row, of_option of_str (m_reverse_dns (main row)))) true;
    MkField (lit "status")
      (csv "status" (λ row, dec_z (m_status (main row))))
      (parquet "http_status" int32 false)
      (Some (λ row, of_int (m_status (main row)))) true;
    MkField (lit "status_description")
      (csv "status_description" (λ row, m_status_desc (main row)))
      (parquet "http_status_text" utf8 false)
      (Some (λ row, of_str (m_status_desc (main row)))) true;
    MkField (lit "response_time_ms")
      (csv "response_time_ms" (λ row, f64_to_string_2 (m_response_time (main row))))
      (parquet "response_time_seconds" float64 false)
      (Some (λ row, of_f64 (m_response_time (main row)))) true
  ].

Definition body_fields : list ExportField :=
  [
    MkField (lit "title")
      (csv "title" (λ row, m_title (main row)))
      (parquet "title" utf8 false)
      (Some (λ row, of_str (m_title (main row)))) true;
    MkField (lit "description")
      (csv "description" (λ row, or_empty (m_description (main row))))
      (parquet "description" utf8 true)
      (Some (λ row, of_option of_str (m_description (main row)))) true;
    MkField (lit "meta_robots")
      (csv "meta_robots" (λ row, or_empty (m_meta_robots (main row))))
      (parquet "meta_robots" utf8 true)
      (Some (λ row, of_option of_str (m_meta_robots (main row)))) true;
    MkField (lit "body_sha256")
      (csv "body_sha256" (λ row, or_empty (m_body_sha256 (main row))))
      (parquet "body_sha256" utf8 true)
      (Some (λ row, of_option of_str (m_body_sha256 (main row)))) true;
    MkField (lit "content_length")
      (csv "content_length" (λ row, or_empty (option_map dec_z (m_content_length (main row)))))
      (parquet "content_length" int64 true)
      (Some (λ row, of_option of_int (m_content_length (main row)))) true;
    MkField (lit "http_version")
      (csv "http_version" (λ row, or_empty (m_http_version (main row))))
      (parquet "http_version" utf8 true)
      (Some (λ row, of_option of_str (m_http_version (main row)))) true;
    MkField (lit "content_type")
      (csv "content_type" (λ row, or_empty (m_content_type (main row))))
      (parquet "content_type" utf8 true)
      (Some (λ row, of_option of_str (m_content_type (main row)))) true;
    MkField (lit "canonical_url")
      (csv "canonical_url" (λ row, or_empty (m_canonical_url (main row))))
      (parquet "canonical_url" utf8 true)
      (Some (λ row, of_option of_str (m_canonical_url (main row)))) true;
    MkField (lit "body_truncated")
      (csv "body_truncated" (λ row, bool_text (m_body_truncated (main row))))
      (parquet "body_truncated" boolean false)
      (Some (λ row, of_bool (m_body_truncated (main row)))) true
  ].

Definition technology_fields : list ExportField :=
  [
    MkField (lit "redirect_count")
      (csv "redirect_count" (λ row, dec_z (redirect_count row)))
      (parquet "redirect_count" int32 false)
      (Some (λ row, of_int (redirect_count row))) true;
    MkField (lit "final_redirect_url")
      (csv "final_redirect_url" (λ row, final_redirect_url row))
      (parquet "final_redirect_url" utf8 false)
      (Some (λ row, of_str (final_redirect_url row))) true;
    MkField (lit "technologies")
      (csv "technologies" (λ row, technologies_str row))
      (parquet "technologies" arrow_type_technologies false)
      None false;
    MkField (lit "technology_categories")
      (csv "technology_categories" (λ row, technology_categories_str row))
      None
      None false;
    MkField (lit "technology_count")
      (csv "technology_count" (λ row, dec_z (technology_count row)))
      (parquet "technology_count" int32 false)
      (Some (λ row, of_int (technology_count row))) true;
    MkField (lit "tls_version")
      (csv "tls_version" (λ row, or_empty (m_tls_version (main row))))
      (parquet "tls_version" utf8 true)
      None true
  ].

Definition certificate_fields : list ExportField :=
  [
    MkField (lit "ssl_cert_subject")
      (csv "ssl_cert_subject" (λ row, or_empty (m_ssl_cert_subject (main row))))
      (parquet "ssl_cert_subject" utf8 true)
      None true;
    MkField (lit "ssl_cert_issuer")
      (csv "ssl_cert_issuer" (λ row, or_empty (m_ssl_cert_issuer (main row))))
      (parquet "ssl_cert_issuer" utf8 true)
      None true;
    MkField (lit "ssl_cert_valid_to")
      (csv "ssl_cert_valid_to" (λ row, format_date (m_ssl_cert_valid_to_ms (main row))))
      (parquet "ssl_cert_valid_to_ms" int64 true)
      None true;
    MkField (lit "cipher_suite")
      (csv "cipher_suite" (λ row, or_empty (m_cipher_suite (main row))))
      (parquet "cipher_suite" utf8 true)
      None true;
    MkField (lit "key_algorithm")
      (csv "key_algorithm" (λ row, or_empty (m_key_algorithm (main row))))
      (parquet "key_algorithm" utf8 true)
      None true;
    MkField (lit "cert_fingerprint_sha256")
      (csv "cert_fingerprint_sha256" (λ row, or_empty (m_cert_fingerprint_sha256 (main row))))
      (parquet "cert_fingerprint_sha256" utf8 true)
      None true;
    MkField (lit "certificate_sans")
      (csv "certificate_sans" (λ row, certificate_sans_str row))
      (parquet "certificate_sans" arrow_type_certificate_sans true)
      None false;
    MkField (lit "certificate_san_count")
      (csv "certificate_san_count" (λ row, dec_z (certificate_san_count row)))
      None
      None false;
    MkField (lit "oids")
      (csv "oids" (λ row, oids_str row))
      (parquet "certificate_oids" arrow_type_certificate_oids true)
      None false
  ].

Definition dns_fields : list ExportField :=
  [
    MkField (lit "oid_count")
      (csv "oid_count" (λ row, dec_z (oid_count row)))
      None
      None false;
    MkField (lit "nameserver_count")
      (csv "nameserver_count" (λ row, dec_z (nameserver_count row)))
      None
      None false;
    MkField (lit "txt_record_count")
      (csv "txt_record_count" (λ row, dec_z (txt_count row)))
      None
      None false;
    MkField (lit "mx_record_count")
      (csv "mx_record_count" (λ row, dec_z (mx_count row)))
      None
      None false;
    MkField (lit "cname_records")
      (csv "cname_records" (λ row, join (lit ", ") (cname_records row)))
      (parquet "cname_records" arrow_type_cname_records true)
      None false;
    MkField (lit "cname_count")
      (csv "cname_count" (λ row, dec_z (cname_count row)))
      None
      None false;
    MkField (lit "ipv6_addresses")
      (csv "ipv6_addresses" (λ row, join (lit ", ") (ipv6_addresses row)))
      (parquet "ipv6_addresses" arrow_type_ipv6_addresses true)
      None false;
    MkField (lit "ipv6_count")
      (csv "ipv6_count" (λ row, dec_z (ipv6_count row)))
      None
      None false;
    MkField (lit "caa_records")
      (csv "caa_records" format_caa_records)
      (parquet "caa_records" arrow_type_caa_records false)
      None false;
    MkField (lit "caa_count")
      (csv "caa_count" (λ row, dec_z (caa_count row)))
      None
      None false
  ].

Definition policy_fields : list ExportField :=
  [
    MkField (lit "spf_record")
      (csv "spf_record" (λ row, or_empty (m_spf_record (main row))))
      (parquet "spf_record" utf8 true)
      (Some (λ row, of_option of_str (m_spf_record (main row)))) true;
    MkField (lit "dmarc_record")
      (csv "dmarc_record" (λ row, or_empty (m_dmarc_record (main row))))
      (parquet "dmarc_record" utf8 true)
      (Some (λ row, of_option of_str (m_dmarc_record (main row)))) true;
    MkField (lit "mta_sts_record")
      (csv "mta_sts_record" (λ row, or_empty (m_mta_sts_record (main row))))
      (parquet "mta_sts_record" utf8 true)
      (Some (λ row, of_option of_str (m_mta_sts_record (main row)))) true;
    MkField (lit "tls_rpt_record")
      (csv "tls_rpt_record" (λ row, or_empty (m_tls_rpt_record (main row))))
      (parquet "tls_rpt_record" utf8 true)
      (Some (λ row, of_option of_str (m_tls_rpt_record (main row)))) true;
    MkField (lit "bimi_record")
      (csv "bimi_record" (λ row, or_empty (m_bimi_record (main row))))
      (parquet "bimi_record" utf8 true)
      (Some (λ row, of_option of_str (m_bimi_record (main row)))) true;
    MkField (lit "hsts_max_age")
      (csv "hsts_max_age" (λ row, or_empty (option_map dec_z (m_hsts_max_age (main row)))))
      (parquet "hsts_max_age" int64 true)
      (Some (λ row, of_option of_int (m_hsts_max_age (main row)))) true;
    MkField (lit "hsts_include_subdomains")
      (csv "hsts_include_subdomains" 
         (λ row, or_empty (option_map (λ v, dec_z (Z.b2z v))
                             (m_hsts_include_subdomains (main row)))))
      (parquet "hsts_include_subdomains" boolean true)
      (Some (λ row, of_option of_bool (m_hsts_include_subdomains (main row)))) true;
    MkField (lit "hsts_preload")
      (csv "hsts_preload" 
         (λ row, or_empty (option_map (λ v, dec_z (Z.b2z v)) (m_hsts_preload (main row)))))
      (parquet "hsts_preload" boolean true)
      (Some (λ row, of_option of_bool (m_hsts_preload (main row)))) true
  ].

Definition analytics_fields : list ExportField :=
  [
    MkField (lit "cdn_provider")
      (csv "cdn_provider" (λ row, or_empty (m_cdn_provider (main row))))
      (parquet "cdn_provider" utf8 true)
      (Some (λ row, of_option of_str (m_cdn_provider (main row)))) true;
    MkField (lit "script_hosts")
      (csv "script_hosts" (λ row, script_hosts_str row))
      (parquet "script_hosts" arrow_type_script_hosts false)
      None false;
    MkField (lit "analytics_ids")
      (csv "analytics_ids" (λ row, analytics_ids_str row))
      (parquet "analytics_ids" arrow_type_analytics_ids false)
      None false;
    MkField (lit "analytics_count")
      (csv "analytics_count" (λ row, dec_z (analytics_count row)))
      None
      (Some (λ row, of_int (analytics_count row))) false;
    MkField (lit "social_media_links")
      (csv "social_media_links" (λ row, social_media_links_str row))
      (parquet "social_media_links" arrow_type_social_media_links false)
      None false;
    MkField (lit "social_media_count")
      (csv "social_media_count" (λ row, dec_z (social_media_count row)))
      None
      (Some (λ row, of_int (social_media_count row))) false
  ].

Definition header_fields : list ExportField :=
  [
    MkField (lit "structured_data_types")
      (csv "structured_data_types" (λ row, structured_data_types_str row))
      None
      None false;
    MkField (lit "structured_data_count")
      (csv "structured_data_count" (λ row, dec_z (structured_data_count row)))
      None
      None false;
    MkField (lit "http_headers")
      (csv "http_headers" (λ row, http_headers_str row))
      (parquet "http_headers" arrow_type_http_headers false)
      None false;
    MkField (lit "http_header_count")
      (csv "http_header_count" (λ row, dec_z (http_header_count row)))
      None
      (Some (λ row, of_int (http_header_count row))) false;
    MkField (lit "security_headers")
      (csv "security_headers" (λ row, security_headers_str row))
      (parquet "security_headers" arrow_type_security_headers false)
      None false;
    MkField (lit "security_header_count")
      (csv "security_header_count" (λ row, dec_z (security_header_count row)))
      None
      (Some (λ row, of_int (security_header_count row))) false
  ].

Definition geoip_fields : list ExportField :=
  [
    MkField (lit "geoip_country_code")
      (csv "geoip_country_code" (λ row, or_empty (geo_country_code (geoip row))))
      (parquet "geoip_country_code" utf8 true)
      None true;
    MkField (lit "geoip_country_name")
      (csv "geoip_country_name" (λ row, or_empty (geo_country_name (geoip row))))
      (parquet "geoip_country_name" utf8 true)
      None true;
    MkField (lit "geoip_region")
      (csv "geoip_region" (λ row, or_empty (geo_region (geoip row))))
      (parquet "geoip_region" utf8 true)
      None true;
    MkField (lit "geoip_city")
      (csv "geoip_city" (λ row, or_empty (geo_city (geoip row))))
      (parquet "geoip_city" utf8 true)
      None true;
    MkField (lit "geoip_latitude")
      (csv "geoip_latitude"
         (λ row, or_empty (option_map f64_to_string (geo_latitude (geoip row)))))
      (parquet "geoip_latitude" float64 true)
      None true;
    MkField (lit "geoip_longitude")
      (csv "geoip_longitude"
         (λ row, or_empty (option_map f64_to_string (geo_longitude (geoip row)))))
      (parquet "geoip_longitude" float64 true)
      None true;
    MkField (lit "geoip_asn")
      (csv "geoip_asn" (λ row, or_empty (option_map dec_z (geo_asn (geoip row)))))
      (parquet "geoip_asn" int64 true)
      None true;
    MkField (lit "geoip_asn_org")
      (csv "geoip_asn_org" (λ row, or_empty (geo_asn_org (geoip row))))
      (parquet "geoip_asn_org" utf8 true)
      None true
  ].

Definition whois_fields : list ExportField :=
  [
    MkField (lit "whois_registrar")
      (csv "whois_registrar" (λ row, or_empty (who_registrar (whois row))))
      (parquet "whois_registrar" utf8 true)
      None true;
    MkField (lit "whois_creation_date")
      (csv "whois_creation_date" (λ row, format_date (who_creation_date_ms (whois row))))
      (parquet "whois_creation_date_ms" int64 true)
      None true;
    MkField (lit "whois_expiration_date")
      (csv "whois_expiration_date" (λ row, format_date (who_expiration_date_ms (whois row))))
      (parquet "whois_expiration_date_ms" int64 true)
      None true;
    MkField (lit "whois_registrant_country")
      (csv "whois_registrant_country" (λ row, or_empty (who_registrant_country (whois row))))
      (parquet "whois_registrant_country" utf8 true)
      None true;
    MkField (lit "favicon_hash")
      (csv "favicon_hash" (λ row, or_empty (option_map dec_z (favicon_hash row))))
      (parquet "favicon_hash" int32 true)
      None true;
    MkField (lit "favicon_url")
      (csv "favicon_url" (λ row, or_empty (favicon_url row)))
      (parquet "favicon_url" utf8 true)
      None true;
    MkField (lit "timestamp")
      (csv "timestamp" (λ row, dec_z (m_timestamp (main row))))
      (parquet "observed_at_ms" int64 false)
      (Some (λ row, of_int (m_timestamp (main row)))) true;
    MkField (lit "run_id")
      (csv "run_id" (λ row, or_empty (m_run_id (main row))))
      (parquet "run_id" utf8 true)
      (Some (λ row, of_option of_str (m_run_id (main row)))) true
  ].

Definition record_fields : list ExportField :=
  [
    MkField (lit "nameservers")
      (csv "nameservers" format_nameservers)
      (parquet "nameservers" arrow_type_nameservers true)
      None false;
    MkField (lit "txt_records")
      (csv "txt_records" format_txt_records)
      (parquet "txt_records" arrow_type_txt_records false)
      None false;
    MkField (lit "mx_records")
      (csv "mx_records" format_mx_records)
      (parquet "mx_records" arrow_type_mx_records false)
      None false;
    MkField (lit "structured_data_entries")
      (csv "structured_data_entries" format_structured_data_entries)
      (parquet "structured_data" arrow_type_structured_data false)
      None false;
    MkField (lit "social_media_identifiers")
      (csv "social_media_identifiers" format_social_media_identifiers)
      None
      None false;
    MkField (lit "partial_failure_count")
      (csv "partial_failure_count" (λ row, dec_z (vec_len (partial_failures row))))
      None
      None false
  ].

Definition secret_fields : list ExportField :=
  [
    MkField (lit "partial_failures")
      (csv "partial_failures" format_partial_failures)
      (parquet "partial_failures" arrow_type_partial_failures false)
      None false;
    MkField (lit "contact_links")
      (csv "contact_links" format_contact_links)
      (parquet "contact_links" arrow_type_contact_links false)
      None false;
    MkField (lit "contact_link_count")
      (csv "contact_link_count" (λ row, dec_z (contact_link_count row)))
      (parquet "contact_link_count" int32 false)
      (Some (λ row, of_int (contact_link_count row))) true;
    MkField (lit "exposed_secrets")
      (csv "exposed_secrets" format_exposed_secrets)
      (parquet "exposed_secrets" arrow_type_exposed_secrets false)
      None false;
    MkField (lit "exposed_secret_count")
      (csv "exposed_secret_count" (λ row, dec_z (exposed_secret_count row)))
      (parquet "exposed_secret_count" int32 false)
      (Some (λ row, of_int (exposed_secret_count row))) true;
    MkField (lit "redirect_chain")
      None
      (parquet "redirect_chain" arrow_type_redirect_chain false)
      None false
  ].

(** Canonical export field registry (CSV order first, then Parquet-only). *)
Definition EXPORT_FIELDS : list ExportField :=
  page_fields ++ body_fields ++ technology_fields ++ certificate_fields ++ dns_fields
  ++ policy_fields ++ analytics_fields ++ header_fields ++ geoip_fields ++ whois_fields ++ record_fields
  ++ secret_fields.

(** CSV and Parquet column orders (ids into [EXPORT_FIELDS]). *)
Definition CSV_FIELD_ORDER : list str :=
  map lit [
    "url"; "initial_domain"; "final_domain"; "initial_url"; "final_url"; "ip_address";
    "reverse_dns"; "status"; "status_description"; "response_time_ms"; "title"; "description";
    "meta_robots"; "body_sha256"; "content_length"; "http_version"; "content_type";
    "canonical_url"; "body_truncated"; "redirect_count"; "final_redirect_url"; "technologies";
    "technology_categories"; "technology_count"; "tls_version"; "ssl_cert_subject";
    "ssl_cert_issuer"; "ssl_cert_valid_to"; "cipher_suite"; "key_algorithm";
    "cert_fingerprint_sha256"; "certificate_sans"; "certificate_san_count"; "oids";
    "oid_count"; "nameserver_count"; "txt_record_count"; "mx_record_count"; "cname_records";
    "cname_count"; "ipv6_addresses"; "ipv6_count"; "caa_records"; "caa_count"; "spf_record";
    "dmarc_record"; "mta_sts_record"; "tls_rpt_record"; "bimi_record"; "hsts_max_age";
    "hsts_include_subdomains"; "hsts_preload"; "cdn_provider"; "script_hosts"; "analytics_ids";
    "analytics_count"; "social_media_links"; "social_media_count"; "structured_data_types";
    "structured_data_count"; "http_headers"; "http_header_count"; "security_headers";
    "security_header_count"; "geoip_country_code"; "geoip_country_name"; "geoip_region";
    "geoip_city"; "geoip_latitude"; "geoip_longitude"; "geoip_asn"; "geoip_asn_org";
    "whois_registrar"; "whois_creation_date"; "whois_expiration_date";
    "whois_registrant_country"; "favicon_hash"; "favicon_url"; "timestamp"; "run_id";
    "nameservers"; "txt_records"; "mx_records"; "structured_data_entries";
    "social_media_identifiers"; "partial_failure_count"; "partial_failures"; "contact_links";
    "contact_link_count"; "exposed_secrets"; "exposed_secret_count" ]%string.

Definition PARQUET_FIELD_ORDER : list str :=
  map lit [
    "url"; "initial_domain"; "final_domain"; "initial_url"; "final_url"; "ip_address";
    "reverse_dns"; "status"; "status_description"; "response_time_ms"; "title"; "description";
    "meta_robots"; "body_sha256"; "content_length"; "http_version"; "content_type";
    "canonical_url"; "body_truncated"; "redirect_count"; "final_redirect_url";
    "redirect_chain"; "technology_count"; "technologies"; "tls_version"; "ssl_cert_subject";
    "ssl_cert_issuer"; "ssl_cert_valid_to"; "cipher_suite"; "key_algorithm";
    "cert_fingerprint_sha256"; "certificate_sans"; "oids"; "cname_records"; "ipv6_addresses";
    "caa_records"; "spf_record"; "dmarc_record"; "mta_sts_record"; "tls_rpt_record";
    "bimi_record"; "hsts_max_age"; "hsts_include_subdomains"; "hsts_preload"; "cdn_provider";
    "script_hosts"; "nameservers"; "txt_records"; "mx_records"; "analytics_ids";
    "social_media_links"; "structured_data_entries"; "http_headers"; "security_headers";
    "partial_failures"; "geoip_country_code"; "geoip_country_name"; "geoip_region";
    "geoip_city"; "geoip_latitude"; "geoip_longitude"; "geoip_asn"; "geoip_asn_org";
    "whois_registrar"; "whois_creation_date"; "whois_expiration_date";
    "whois_registrant_country"; "favicon_hash"; "favicon_url"; "contact_link_count";
    "contact_links"; "exposed_secret_count"; "exposed_secrets"; "timestamp"; "run_id" ]%string.


(** [panic!] on an unknown id. *)
Definition field_by_id (id : str) : outcome ExportField :=
  match List.find (λ f, streqb (f_id f) id) EXPORT_FIELDS with
  | Some f => Returns f
  | None => Panics
  end.

(** [iter().map(f).collect()] where [f] may panic. *)
Fixpoint collect {A B} (f : A -> outcome B) (l : list A) : outcome (list B) :=
  match l with
  | [] => Returns []
  | a :: r => match f a, collect f r with
              | Returns b, Returns bs => Returns (b :: bs)
              | _, _ => Panics
              end
  end.

Definition csv_column (id : str) : outcome CsvSpec :=
  match field_by_id id with
  | Returns f => match f_csv f with Some c => Returns c | None => Panics end
  | Panics => Panics
  end.
Definition csv_columns : outcome (list CsvSpec) := collect csv_column CSV_FIELD_ORDER.

Definition outcome_map {A B} (f : A -> B) (o : outcome A) : outcome B :=
  match o with Returns a => Returns (f a) | Panics => Panics end.

Definition csv_column_names : outcome (list str) := outcome_map (map csv_name) csv_columns.
Definition csv_record_cells (row : ExportRow) : outcome (list str) :=
  outcome_map (map (λ c, extract c row)) csv_columns.

Definition parquet_spec (id : str) : outcome ParquetSpec :=
  match field_by_id id with
  | Returns f => match f_parquet f with Some p => Returns p | None => Panics end
  | Panics => Panics
  end.
Definition build_parquet_schema : outcome (list Field) :=
  outcome_map (map (λ p, MkArrowField (pq_name p) (data_type p) (nullable p)))
    (collect parquet_spec PARQUET_FIELD_ORDER).
Definition parquet_column_names : outcome (list str) :=
  outcome_map (map pq_name) (collect parquet_spec PARQUET_FIELD_ORDER).

(** Insert registry-backed flat JSONL keys into [map]. *)
Definition insert_flat_field (row : ExportRow) (m : Map) (field : ExportField) : Map :=
  match f_csv field, f_jsonl_flat field with
  | Some c, Some value => map_insert (csv_name c) (value row) m
  | None, Some value => map_insert (f_id field) (value row) m
  | _, None => m
  end.
Definition insert_jsonl_flat_fields (m : Map) (row : ExportRow) : Map :=
  foldl (insert_flat_field row) m EXPORT_FIELDS.

(** csv.rs: the records of the file, the header first; [None] when building one panics. *)
Definition export_csv (rows : list ExportRow) : outcome (list (list str)) :=
  match csv_column_names, collect csv_record_cells rows with
  | Returns header, Returns records => Returns (header :: records)
  | _, _ => Panics
  end.
End Fields.
