(* ===== verification/ExportParquet.v ===== *)
(** * Parquet export ([src/src/export/parquet.rs])

    One batch of rows becomes one Arrow array per column.  The [arrow] crate is the class
    [Arrow]: a builder is described by what the program gives to it, the [Column]; its
    [finish], and the construction of a record batch, are operations of the library with
    the documented laws [ArrowLaws].  Struct builders are the delicate part: the program
    names a child by its position and its type, and panics when there is no such child. *)

From Stdlib Require Import SpecFloat.
From S2P Require Import Prelude ExportRow Json ExportFields.

(** ** Builders *)

Inductive BuilderKind := StringBuilder | Int64Builder | BooleanBuilder.

Definition kind_type (k : BuilderKind) : DataType :=
  match k with StringBuilder => Utf8 | Int64Builder => Int64 | BooleanBuilder => Boolean end.

(** One [append_value] or [append_null] on a child of a struct builder. *)
Inductive Append :=
  | AppendStr (v : option str)
  | AppendInt64 (v : option Z)
  | AppendBool (v : option bool).

Definition append_kind (a : Append) : BuilderKind :=
  match a with
  | AppendStr _ => StringBuilder
  | AppendInt64 _ => Int64Builder
  | AppendBool _ => BooleanBuilder
  end.
Definition append_null (a : Append) : bool :=
  match a with
  | AppendStr v => negb (bool_decide (is_Some v))
  | AppendInt64 v => negb (bool_decide (is_Some v))
  | AppendBool v => negb (bool_decide (is_Some v))
  end.

#[export] Instance BuilderKind_eq_dec : EqDecision BuilderKind.
Proof. solve_decision. Defined.

(** What one struct row appends: the index of the child and the value. *)
Definition StructRow : Type := list (nat * Append).

(** What a builder has received when it is finished. *)
Inductive Column :=
  | StringCol (vals : list (option str))
  | Int32Col (vals : list (option Z))
  | Int64Col (vals : list (option Z))
  | Float64Col (vals : list (option spec_float))
  | BooleanCol (vals : list (option bool))
  | StringListCol (rows : list (list str))
  | StructListCol (fields : list Field) (builders : list BuilderKind)
      (rows : list (list StructRow)).

Definition nulls {A} (l : list (option A)) : nat :=
  length (List.filter (λ o, negb (bool_decide (is_Some o))) l).

Definition column_type (c : Column) : DataType :=
  match c with
  | StringCol _ => Utf8
  | Int32Col _ => Int32
  | Int64Col _ => Int64
  | Float64Col _ => Float64
  | BooleanCol _ => Boolean
  | StringListCol _ => list_of Utf8
  | StructListCol fields _ _ => list_of (Struct fields)
  end.
Definition column_len (c : Column) : nat :=
  match c with
  | StringCol l => length l
  | Int32Col l | Int64Col l => length l
  | Float64Col l => length l
  | BooleanCol l => length l
  | StringListCol l => length l
  | StructListCol _ _ l => length l
  end.
Definition column_nulls (c : Column) : nat :=
  match c with
  | StringCol l => nulls l
  | Int32Col l | Int64Col l => nulls l
  | Float64Col l => nulls l
  | BooleanCol l => nulls l
  | StringListCol _ | StructListCol _ _ _ => O
  end.

Definition field_type (f : Field) : DataType := let '(MkArrowField _ t _) := f in t.
Definition field_nullable (f : Field) : bool := let '(MkArrowField _ _ n) := f in n.

(** [field_builder::<T>(i).unwrap()] finds a child of that type. *)
Definition field_builder_ok (builders : list BuilderKind) (a : nat * Append) : bool :=
  bool_decide (builders !! a.1 = Some (append_kind a.2)).

(** Every child receives exactly one value per struct row; a child that is not nullable no
    null.  [finish] panics otherwise, and when the builders do not have the types of the
    fields. *)
Definition struct_row_ok (fields : list Field) (r : StructRow) : Prop :=
  r.*1 = seq 0 (length fields)
  ∧ Forall2 (λ f a, append_null a = true -> field_nullable f = true) fields r.*2.

Definition column_ok (c : Column) : Prop :=
  match c with
  | StructListCol fields builders rows =>
      map field_type fields = map kind_type builders
      ∧ Forall (Forall (struct_row_ok fields)) rows
  | _ => True
  end.

Class Arrow := {
  ArrayRef : Type;
  RecordBatch : Type;
  ArrowError : Type;
  finish : Column -> outcome ArrayRef;
  array_type : ArrayRef -> DataType;
  array_len : ArrayRef -> nat;
  null_count : ArrayRef -> nat;
  try_new : list Field -> list ArrayRef -> result RecordBatch ArrowError;
}.

Class ArrowLaws (A : Arrow) := {
  finish_ok : ∀ c, column_ok c -> ∃ a,
    finish c = Returns a ∧ array_type a = column_type c ∧ array_len a = column_len c
    ∧ null_count a = column_nulls c;
  (** [RecordBatch::try_new] refuses columns whose types, lengths or nulls do not fit. *)
  try_new_ok : ∀ schema arrays n,
    schema <> [] ->
    Forall2 (λ f a, array_type a = field_type f ∧ array_len a = n
                    ∧ (field_nullable f = false -> null_count a = 0%nat)) schema arrays ->
    ∃ b, try_new schema arrays = Ok b;
}.

(** ** The columns of a batch *)

(** [for row in rows { b.append_value(f(row)) }]. *)
Definition strings (f : ExportRow -> str) (rows : list ExportRow) : outcome Column :=
  Returns (StringCol (map (λ row, Some (f row)) rows)).
Definition opt_strings (f : ExportRow -> option str) (rows : list ExportRow) : outcome Column :=
  Returns (StringCol (map f rows)).
Definition int32s (f : ExportRow -> Z) (rows : list ExportRow) : outcome Column :=
  Returns (Int32Col (map (λ row, Some (f row)) rows)).
Definition opt_int32s (f : ExportRow -> option Z) (rows : list ExportRow) : outcome Column :=
  Returns (Int32Col (map f rows)).
Definition int64s (f : ExportRow -> Z) (rows : list ExportRow) : outcome Column :=
  Returns (Int64Col (map (λ row, Some (f row)) rows)).
Definition opt_int64s (f : ExportRow -> option Z) (rows : list ExportRow) : outcome Column :=
  Returns (Int64Col (map f rows)).
Definition float64s (f : ExportRow -> spec_float) (rows : list ExportRow) : outcome Column :=
  Returns (Float64Col (map (λ row, Some (f row)) rows)).
Definition opt_float64s (f : ExportRow -> option spec_float) (rows : list ExportRow)
  : outcome Column := Returns (Float64Col (map f rows)).
Definition booleans (f : ExportRow -> bool) (rows : list ExportRow) : outcome Column :=
  Returns (BooleanCol (map (λ row, Some (f row)) rows)).
Definition opt_booleans (f : ExportRow -> option bool) (rows : list ExportRow) : outcome Column :=
  Returns (BooleanCol (map f rows)).
Definition string_lists (f : ExportRow -> list str) (rows : list ExportRow) : outcome Column :=
  Returns (StringListCol (map f rows)).

(** [for x in items(row) { ...field_builder(i).unwrap().append...; values().append(true) }
    append(true)]. *)
Definition struct_lists {A} (fields : list Field) (builders : list BuilderKind)
    (items : ExportRow -> list A) (appends : A -> StructRow) (rows : list ExportRow)
  : outcome Column :=
  let cells := map (λ row, map appends (items row)) rows in
  if forallb (forallb (forallb (field_builder_ok builders))) cells
  then Returns (StructListCol fields builders cells)
  else Panics.

Definition new_two_string_list_builder {A} (f1 f2 : string) (items : ExportRow -> list A)
    (appends : A -> StructRow) : list ExportRow -> outcome Column :=
  struct_lists [fld f1 Utf8 false; fld f2 Utf8 false] [StringBuilder; StringBuilder]
    items appends.
Definition new_three_string_list_builder {A} (f1 f2 f3 : string)
    (items : ExportRow -> list A) (appends : A -> StructRow)
  : list ExportRow -> outcome Column :=
  struct_lists [fld f1 Utf8 false; fld f2 Utf8 false; fld f3 Utf8 false]
    [StringBuilder; StringBuilder; StringBuilder] items appends.

Definition str_at (i : nat) (s : str) : nat * Append := (i, AppendStr (Some s)).
Definition opt_str_at (i : nat) (o : option str) : nat * Append := (i, AppendStr o).
Definition int_at (i : nat) (z : Z) : nat * Append := (i, AppendInt64 (Some z)).
Definition opt_int_at (i : nat) (o : option Z) : nat * Append := (i, AppendInt64 o).
Definition bool_at (i : nat) (b : bool) : nat * Append := (i, AppendBool (Some b)).

(** The builders and the loop over the rows, in the order of [finished]. *)
Definition page_columns : list (list ExportRow -> outcome Column) :=
  [ strings (λ row, build_url (m_final_domain (main row)));
    strings (λ row, m_initial_domain (main row));
    strings (λ row, m_final_domain (main row));
    opt_strings (λ row, m_initial_url (main row));
    opt_strings (λ row, m_final_url (main row));
    strings (λ row, m_ip_address (main row));
    opt_strings (λ row, m_reverse_dns (main row));
    int32s (λ row, m_status (main row));
    strings (λ row, m_status_desc (main row));
    float64s (λ row, m_response_time (main row));
    strings (λ row, m_title (main row));
    opt_strings (λ row, m_description (main row));
    opt_strings (λ row, m_meta_robots (main row));
    opt_strings (λ row, m_body_sha256 (main row));
    opt_int64s (λ row, m_content_length (main row));
    opt_strings (λ row, m_http_version (main row));
    opt_strings (λ row, m_content_type (main row));
    opt_strings (λ row, m_canonical_url (main row));
    booleans (λ row, m_body_truncated (main row));
    int32s (λ row, as_i32 (redirect_count row));
    strings final_redirect_url ].

Definition redirect_chain_column : list ExportRow -> outcome Column :=
  struct_lists [fld "redirect_url" Utf8 false; fld "sequence_order" Int64 false]
    [StringBuilder; Int64Builder] redirects
    (λ r, [str_at 0 (rd_redirect_url r); int_at 1 (rd_sequence_order r)]).

Definition technologies_column : list ExportRow -> outcome Column :=
  struct_lists
    [fld "name" Utf8 false; fld "version" Utf8 true; fld "category" Utf8 true;
     fld "is_implied" Boolean false; fld "detection_source" Utf8 true]
    [StringBuilder; StringBuilder; StringBuilder; BooleanBuilder; StringBuilder] technologies
    (λ tech, [str_at 0 (te_name tech); opt_str_at 1 (te_version tech);
              opt_str_at 2 (te_category tech); bool_at 3 (te_is_implied tech);
              opt_str_at 4 (te_detection_source tech)]).

Definition tls_columns : list (list ExportRow -> outcome Column) :=
  [ opt_strings (λ row, m_tls_version (main row));
    opt_strings (λ row, m_ssl_cert_subject (main row));
    opt_strings (λ row, m_ssl_cert_issuer (main row));
    opt_int64s (λ row, m_ssl_cert_valid_to_ms (main row));
    opt_strings (λ row, m_cipher_suite (main row));
    opt_strings (λ row, m_key_algorithm (main row));
    opt_strings (λ row, m_cert_fingerprint_sha256 (main row));
    string_lists (λ row, parse_string_list (certificate_sans_str row));
    string_lists (λ row, parse_string_list (oids_str row));
    string_lists cname_records;
    string_lists ipv6_addresses ].

Definition caa_records_column : list ExportRow -> outcome Column :=
  struct_lists [fld "flag" Int64 false; fld "tag" Utf8 false; fld "value" Utf8 false]
    [Int64Builder; StringBuilder; StringBuilder] caa_records
    (λ caa, [int_at 0 (caa_flag caa); str_at 1 (caa_tag caa); str_at 2 (caa_value caa)]).

Definition policy_columns : list (list ExportRow -> outcome Column) :=
  [ opt_strings (λ row, m_spf_record (main row));
    opt_strings (λ row, m_dmarc_record (main row));
    opt_strings (λ row, m_mta_sts_record (main row));
    opt_strings (λ row, m_tls_rpt_record (main row));
    opt_strings (λ row, m_bimi_record (main row));
    opt_int64s (λ row, m_hsts_max_age (main row));
    opt_booleans (λ row, m_hsts_include_subdomains (main row));
    opt_booleans (λ row, m_hsts_preload (main row));
    opt_strings (λ row, m_cdn_provider (main row)) ].

Definition script_hosts_column : list ExportRow -> outcome Column :=
  struct_lists
    [fld "host" Utf8 false; fld "registrable_domain" Utf8 true;
     fld "is_first_party" Boolean false]
    [StringBuilder; StringBuilder; BooleanBuilder] script_hosts
    (λ host, [str_at 0 (sh_host host); opt_str_at 1 (sh_registrable_domain host);
              bool_at 2 (sh_is_first_party host)]).

Definition record_columns : list (list ExportRow -> outcome Column) :=
  [ string_lists (λ row, map ns_nameserver (nameservers row));
    new_two_string_list_builder "record_type" "content" txt_records
      (λ txt, [str_at 0 (txt_record_type txt); str_at 1 (txt_record_value txt)]);
    struct_lists [fld "priority" Int64 false; fld "mail_exchange" Utf8 false]
      [Int64Builder; StringBuilder] mx_records
      (λ mx, [int_at 0 (mx_priority mx); str_at 1 (mx_mail_exchange mx)]);
    new_two_string_list_builder "provider" "tracking_id" analytics_ids
      (λ aid, [str_at 0 (an_provider aid); str_at 1 (an_tracking_id aid)]);
    struct_lists
      [fld "platform" Utf8 false; fld "url" Utf8 false; fld "identifier" Utf8 true]
      [StringBuilder; StringBuilder; StringBuilder] social_media_links
      (λ link, [str_at 0 (sm_platform link); str_at 1 (sm_profile_url link);
                opt_str_at 2 (sm_identifier link)]);
    new_three_string_list_builder "data_type" "property_name" "property_value"
      structured_data_entries
      (λ entry, [str_at 0 (sd_data_type entry); str_at 1 (sd_property_name entry);
                 str_at 2 (sd_property_value entry)]) ].

Definition header_columns : list (list ExportRow -> outcome Column) :=
  [ new_two_string_list_builder "name" "value" all_http_headers
      (λ h, [str_at 0 (hh_name h); str_at 1 (hh_value h)]);
    new_two_string_list_builder "name" "value" all_security_headers
      (λ h, [str_at 0 (hh_name h); str_at 1 (hh_value h)]);
    new_two_string_list_builder "error_type" "error_message" partial_failures
      (λ f, [str_at 0 (pf_error_type f); str_at 1 (pf_error_message f)]) ].

Definition enrichment_columns : list (list ExportRow -> outcome Column) :=
  [ opt_strings (λ row, geo_country_code (geoip row));
    opt_strings (λ row, geo_country_name (geoip row));
    opt_strings (λ row, geo_region (geoip row));
    opt_strings (λ row, geo_city (geoip row));
    opt_float64s (λ row, geo_latitude (geoip row));
    opt_float64s (λ row, geo_longitude (geoip row));
    opt_int64s (λ row, geo_asn (geoip row));
    opt_strings (λ row, geo_asn_org (geoip row));
    opt_strings (λ row, who_registrar (whois row));
    opt_int64s (λ row, who_creation_date_ms (whois row));
    opt_int64s (λ row, who_expiration_date_ms (whois row));
    opt_strings (λ row, who_registrant_country (whois row));
    opt_int32s favicon_hash;
    opt_strings favicon_url;
    int32s (λ row, as_i32 (contact_link_count row));
    new_two_string_list_builder "contact_type" "contact_value" contact_links
      (λ c, [str_at 0 (cl_contact_type c); str_at 1 (cl_contact_value c)]);
    int32s (λ row, as_i32 (exposed_secret_count row)) ].

Definition exposed_secrets_column : list ExportRow -> outcome Column :=
  struct_lists
    [fld "secret_type" Utf8 false; fld "matched_value" Utf8 false; fld "severity" Utf8 false;
     fld "location" Utf8 false; fld "context" Utf8 true; fld "jwt_algorithm" Utf8 true;
     fld "jwt_issuer" Utf8 true; fld "jwt_subject" Utf8 true; fld "jwt_audience" Utf8 true;
     fld "jwt_expiration_ms" Int64 true; fld "jwt_issued_at_ms" Int64 true;
     fld "jwt_header_json" Utf8 true; fld "jwt_payload_json" Utf8 true]
    [StringBuilder; StringBuilder; StringBuilder; StringBuilder; StringBuilder; StringBuilder;
     StringBuilder; StringBuilder; StringBuilder; Int64Builder; Int64Builder; StringBuilder;
     StringBuilder] exposed_secrets
    (λ s, [str_at 0 (es_secret_type s); str_at 1 (es_matched_value s);
           str_at 2 (es_severity s); str_at 3 (es_location s); opt_str_at 4 (es_context s);
           opt_str_at 5 (es_jwt_algorithm s); opt_str_at 6 (es_jwt_issuer s);
           opt_str_at 7 (es_jwt_subject s); opt_str_at 8 (es_jwt_audience s);
           opt_int_at 9 (es_jwt_expiration_ms s); opt_int_at 10 (es_jwt_issued_at_ms s);
           opt_str_at 11 (es_jwt_header_json s); opt_str_at 12 (es_jwt_payload_json s)]).

Definition finished : list (list ExportRow -> outcome Column) :=
  page_columns
  ++ [redirect_chain_column; int32s (λ row, as_i32 (technology_count row));
      technologies_column]
  ++ tls_columns ++ [caa_records_column] ++ policy_columns ++ [script_hosts_column]
  ++ record_columns ++ header_columns ++ enrichment_columns
  ++ [exposed_secrets_column; int64s (λ row, m_timestamp (main row));
      opt_strings (λ row, m_run_id (main row))].

Section Batch.
Context `{FF : FloatFmt} `{Ch : Chrono} `{A : Arrow}.

(** Finished arrays are put into a map by the registry's names and taken out again. *)
Fixpoint take_columns (names : list str) (by_name : gmap str ArrayRef)
  : outcome (list ArrayRef) :=
  match names with
  | [] => Returns []
  | name :: r =>
      match by_name !! name with
      | Some array =>
          outcome_map (cons array) (take_columns r (delete name by_name))
      | None => Panics
      end
  end.

Inductive BatchError := ColumnCount (columns fields : nat) | CreateFailed (e : ArrowError).

Definition outcome_bind {X Y} (o : outcome X) (k : X -> outcome Y) : outcome Y :=
  match o with Returns x => k x | Panics => Panics end.

Definition batch_columns (rows : list ExportRow) : outcome (list ArrayRef) :=
  outcome_bind (collect (λ b, outcome_bind (b rows) finish) finished) (λ arrays,
  outcome_bind parquet_column_names (λ names,
  take_columns names (foldl (λ m '(n, a), <[n := a]> m) ∅ (zip names arrays)))).

(** The record batch of [write_batch], before it is handed to the writer. *)
Definition record_batch (schema : list Field) (rows : list ExportRow)
  : outcome (result RecordBatch BatchError) :=
  outcome_map
    (λ columns,
       if negb (length columns =? length schema)%nat
       then Err (ColumnCount (length columns) (length schema))
       else match try_new schema columns with Ok b => Ok b | Err e => Err (CreateFailed e) end)
    (batch_columns rows).
End Batch.

(** ** Lemmas: one builder *)

(** A builder fits a field: it never panics, and its column has the type of the field, one
    value per row, and no null the field does not allow. *)
Definition fits (b : list ExportRow -> outcome Column) (f : Field) : Prop :=
  ∀ rows, ∃ c, b rows = Returns c ∧ column_ok c ∧ column_type c = field_type f
    ∧ column_len c = length rows ∧ (field_nullable f = false -> column_nulls c = 0%nat).

Lemma nulls_some {A B} (f : A -> B) l : nulls (map (λ a, Some (f a)) l) = 0%nat.
Proof. unfold nulls. by induction l. Qed.

Ltac solve_fits :=
  intros rows; eexists; split_and!;
  [reflexivity|exact I|reflexivity|cbn; apply length_map|];
  cbn; intros; first [apply nulls_some|done].

Lemma strings_fit f n b : fits (strings f) (MkArrowField n Utf8 b).
Proof. solve_fits. Qed.
Lemma opt_strings_fit f n : fits (opt_strings f) (MkArrowField n Utf8 true).
Proof. solve_fits. Qed.
Lemma int32s_fit f n b : fits (int32s f) (MkArrowField n Int32 b).
Proof. solve_fits. Qed.
Lemma opt_int32s_fit f n : fits (opt_int32s f) (MkArrowField n Int32 true).
Proof. solve_fits. Qed.
Lemma int64s_fit f n b : fits (int64s f) (MkArrowField n Int64 b).
Proof. solve_fits. Qed.
Lemma opt_int64s_fit f n : fits (opt_int64s f) (MkArrowField n Int64 true).
Proof. solve_fits. Qed.
Lemma float64s_fit f n b : fits (float64s f) (MkArrowField n Float64 b).
Proof. solve_fits. Qed.
Lemma opt_float64s_fit f n : fits (opt_float64s f) (MkArrowField n Float64 true).
Proof. solve_fits. Qed.
Lemma booleans_fit f n b : fits (booleans f) (MkArrowField n Boolean b).
Proof. solve_fits. Qed.
Lemma opt_booleans_fit f n : fits (opt_booleans f) (MkArrowField n Boolean true).
Proof. solve_fits. Qed.
Lemma string_lists_fit f n b : fits (string_lists f) (MkArrowField n (list_of Utf8) b).
Proof. solve_fits. Qed.

Lemma forallb_mapped {A B} (P : B -> bool) (f : A -> B) l :
  (∀ a, P (f a) = true) -> forallb P (map f l) = true.
Proof. intros H. induction l as [|a l IH]; cbn; [done|]. by rewrite H. Qed.

Lemma Forall_mapped {A B} (P : B -> Prop) (f : A -> B) l : (∀ a, P (f a)) -> Forall P (map f l).
Proof. intros H. induction l; cbn; constructor; auto. Qed.

(** The appends of every item suit the children. *)
Definition appends_fit {A} (fields : list Field) (builders : list BuilderKind)
    (appends : A -> StructRow) : Prop :=
  ∀ a, struct_row_ok fields (appends a)
       ∧ forallb (field_builder_ok builders) (appends a) = true.

Lemma struct_lists_fit {A} fields builders (items : ExportRow -> list A) appends n b :
  map field_type fields = map kind_type builders ->
  appends_fit fields builders appends ->
  fits (struct_lists fields builders items appends)
    (MkArrowField n (list_of (Struct fields)) b).
Proof.
  intros Ht Ha rows. unfold struct_lists.
  assert (E : forallb (forallb (forallb (field_builder_ok builders)))
                (map (λ row, map appends (items row)) rows) = true).
  { repeat (apply forallb_mapped; intros ?). apply Ha. }
  rewrite E. eexists. split_and!; [done| |done| |done].
  - cbn. split; [done|]. repeat (apply Forall_mapped; intros ?). apply Ha.
  - cbn. apply length_map.
Qed.

Ltac solve_appends := intros ?; split; [split; [reflexivity|repeat constructor; done]|reflexivity].

Create HintDb arrow discriminated.
#[export] Hint Resolve strings_fit opt_strings_fit int32s_fit opt_int32s_fit int64s_fit
  opt_int64s_fit float64s_fit opt_float64s_fit booleans_fit opt_booleans_fit
  string_lists_fit : arrow.
#[export] Hint Extern 2 (fits (struct_lists _ _ _ _) _) =>
  (apply struct_lists_fit; [reflexivity|solve_appends]) : arrow.
#[export] Hint Extern 3 (fits (new_two_string_list_builder _ _ _ _) _) =>
  (apply struct_lists_fit; [reflexivity|solve_appends]) : arrow.
#[export] Hint Extern 3 (fits (new_three_string_list_builder _ _ _ _ _) _) =>
  (apply struct_lists_fit; [reflexivity|solve_appends]) : arrow.

Section Schema.
Context `{FF : FloatFmt} `{Ch : Chrono}.

(** The registry's schema, computed. *)
Definition schema : list Field :=
  match build_parquet_schema with Returns s => s | Panics => [] end.

Lemma Returns_inj {X} (x y : X) : Returns x = Returns y -> x = y.
Proof. by intros [= ]. Qed.

Lemma schema_total : build_parquet_schema = Returns schema.
Proof. vm_compute. reflexivity. Qed.

Lemma finished_fits : Forall2 fits finished schema.
Proof.
  let s := eval vm_compute in schema in change schema with s.
  unfold finished, page_columns, tls_columns, policy_columns, record_columns,
    header_columns, enrichment_columns, redirect_chain_column, technologies_column,
    caa_records_column, script_hosts_column, exposed_secrets_column.
  cbn [app].
  repeat first [apply List.Forall2_nil | apply List.Forall2_cons]; auto with arrow nocore.
Qed.
End Schema.

(** ** Lemmas: the batch *)

Section BatchLemmas.
Context `{FF : FloatFmt} `{Ch : Chrono} `{A : Arrow} `{!ArrowLaws A}.

Definition array_fits (n : nat) (f : Field) (a : ArrayRef) : Prop :=
  array_type a = field_type f ∧ array_len a = n
  ∧ (field_nullable f = false -> null_count a = 0%nat).

Lemma collect_finish bs fs rows :
  Forall2 fits bs fs ->
  ∃ arrays, collect (λ b, outcome_bind (b rows) finish) bs = Returns arrays
    ∧ Forall2 (array_fits (length rows)) fs arrays.
Proof.
  induction 1 as [|b f bs fs Hb _ (arrays & IH & Hall)]; [by exists []|].
  destruct (Hb rows) as (c & Ec & Hok & Ht & Hl & Hn).
  destruct (finish_ok c Hok) as (a & Ea & Hta & Hla & Hna).
  exists (a :: arrays). cbn [collect]. rewrite IH, Ec. cbn [outcome_bind]. rewrite Ea.
  split; [done|]. constructor; [|done].
  split_and!; [congruence|congruence|]. intros Hf. rewrite Hna. auto.
Qed.

Lemma foldl_insert_notin (m : gmap str ArrayRef) (names : list str) arrays k :
  k ∉ names ->
  foldl (λ m '(n, a), <[n := a]> m) m (zip names arrays) !! k = m !! k.
Proof.
  revert m arrays. induction names as [|n names IH]; intros m [|a arrays] Hk; try done.
  apply not_elem_of_cons in Hk as [Hn Hk]. cbn. rewrite IH by done.
  by apply lookup_insert_ne.
Qed.

Lemma take_columns_ext (names : list str) (m m' : gmap str ArrayRef) :
  (∀ k, k ∈ names -> m !! k = m' !! k) -> take_columns names m = take_columns names m'.
Proof.
  revert m m'. induction names as [|n names IH]; intros m m' H; [done|].
  cbn. rewrite (H n) by (by left). destruct (m' !! n); [|done]. f_equal. apply IH.
  intros k Hk. destruct (decide (k = n)) as [->|].
  - by rewrite !lookup_delete_eq.
  - rewrite !lookup_delete_ne by done. apply H. by right.
Qed.

(** Through the map and out again: the columns are the finished arrays in order. *)
Lemma take_columns_zip (names : list str) arrays m :
  NoDup names -> length names = length arrays ->
  take_columns names (foldl (λ m '(n, a), <[n := a]> m) m (zip names arrays)) = Returns arrays.
Proof.
  revert m arrays. induction names as [|n names IH]; intros m [|a arrays] Hd Hl; try done.
  apply list.NoDup_cons in Hd as [Hn Hd]. injection Hl as Hl. cbn. rewrite foldl_insert_notin by done.
  rewrite lookup_insert_eq. cbn.
  rewrite (take_columns_ext names _
             (foldl (λ m '(n, a), <[n := a]> m) (<[n := a]> m) (zip names arrays))).
  - by rewrite IH.
  - intros k Hk. apply lookup_delete_ne. set_solver.
Qed.
End BatchLemmas.

Section Properties.
Context `{FF : FloatFmt} `{Ch : Chrono} `{A : Arrow} `{!ArrowLaws A}.

(** C12: Every batch of rows is a well-typed record batch of the registry's schema: no struct
    builder is used with a wrong position or type, no column is missing, and [try_new]
    accepts the columns. *)
Theorem write_batch_typed rows :
  ∃ schema b, build_parquet_schema = Returns schema
    ∧ record_batch schema rows = Returns (Ok b).
Proof.
  destruct (collect_finish _ _ rows finished_fits) as (arrays & E & Hall).
  assert (Hn : parquet_column_names = Returns (map (λ '(MkArrowField n _ _), n) schema)
               ∧ bool_decide (NoDup (map (λ '(MkArrowField n _ _), n) schema)) = true
               ∧ schema <> []) by (vm_compute; done).
  destruct Hn as (Hn & Hd%bool_decide_eq_true & Hne).
  pose proof (list.Forall2_length _ _ _ Hall) as Hl.
  destruct (try_new_ok _ _ _ Hne Hall) as [b Hb].
  exists schema, b. split; [apply schema_total|].
  unfold record_batch, batch_columns. rewrite E, Hn. cbn [outcome_bind].
  rewrite take_columns_zip by (try rewrite length_map; done). cbn [outcome_map].
  rewrite <- Hl, Nat.eqb_refl. cbn [negb]. by rewrite Hb.
Qed.
End Properties.

(** ** Writing the file *)

Section ParquetExport.
Context {E W WE : Type} `{FF : FloatFmt} `{Ch : Chrono} `{A : Arrow} `{Q : ExportQueries E}.

(** [ArrowWriter::write]. *)
Context (writer_write : W -> RecordBatch -> result W WE).

Definition BATCH_SIZE : Z := 10000.

Inductive ExportError :=
  | NotForStdout
  | QueryFailed (e : E)
  | BatchFailed (e : BatchError)
  | WriteFailed (e : WE).

(** bootstrap.rs: the rows of the main query, each completed and handed to [on_row]; the
    error of the stream, of the row or of the callback ends the export. *)
Fixpoint for_each_export_row {S} (on_row : ExportRow -> S -> outcome (result S ExportError))
    (include_implied_tech : bool) (rows : list (result MainRowData E)) (s : S)
    (record_count : Z) : outcome (result (S * Z) ExportError) :=
  match rows with
  | [] => Returns (Ok (s, record_count))
  | Err e :: _ => Returns (Err (QueryFailed e))
  | Ok m :: rest =>
      match build_export_row m include_implied_tech with
      | Err e => Returns (Err (QueryFailed e))
      | Ok export_row =>
          match on_row export_row s with
          | Panics => Panics
          | Returns (Err e) => Returns (Err e)
          | Returns (Ok s) =>
              for_each_export_row on_row include_implied_tech rest s (record_count + 1)
          end
      end
  end.

Definition write_batch (w : W) (schema : list Field) (rows : list ExportRow)
  : outcome (result W ExportError) :=
  outcome_map
    (λ r, match r with
          | Err e => Err (BatchFailed e)
          | Ok b => match writer_write w b with Ok w => Ok w | Err e => Err (WriteFailed e) end
          end)
    (record_batch schema rows).

Definition parquet_on_row (schema : list Field) (export_row : ExportRow)
    (s : W * list ExportRow) : outcome (result (W * list ExportRow) ExportError) :=
  let '(w, batch_rows) := s in
  let batch_rows := batch_rows ++ [export_row] in
  if BATCH_SIZE <=? vec_len batch_rows
  then outcome_map (λ r, match r with Ok w => Ok (w, []) | Err e => Err e end)
         (write_batch w schema batch_rows)
  else Returns (Ok (w, batch_rows)).

(** Opening the file and closing the writer are left to the caller. *)
Definition export_parquet (output : option str) (w : W) (include_implied_tech : bool)
    (rows : list (result MainRowData E)) : outcome (result (W * Z) ExportError) :=
  match output with
  | None => Returns (Err NotForStdout)
  | Some output_path =>
      if streqb output_path (lit "-") then Returns (Err NotForStdout)
      else
        outcome_bind build_parquet_schema (λ schema,
        outcome_bind
          (for_each_export_row (parquet_on_row schema) include_implied_tech rows (w, []) 0)
          (λ r, match r with
                | Err e => Returns (Err e)
                | Ok ((w, batch_rows), record_count) =>
                    if nonempty batch_rows
                    then outcome_map
                           (λ r, match r with Ok w => Ok (w, record_count) | Err e => Err e end)
                           (write_batch w schema batch_rows)
                    else Returns (Ok (w, record_count))
                end))
  end.
End ParquetExport.

Section ExportProperties.
Context {E W WE : Type} `{FF : FloatFmt} `{Ch : Chrono} `{A : Arrow} `{Q : ExportQueries E}.
Context `{!ArrowLaws A} (writer_write : W -> RecordBatch -> result W WE).

(** The writer has taken these batches of rows, in order. *)
Inductive written : W -> list (list ExportRow) -> W -> Prop :=
  | written_nil w : written w [] w
  | written_cons w b rb w1 bs w2 :
      record_batch schema b = Returns (Ok rb) -> writer_write w rb = Ok w1 ->
      written w1 bs w2 -> written w (b :: bs) w2.

Definition batch_size_ok (b : list ExportRow) : Prop := 0 < vec_len b <= BATCH_SIZE.

Hypothesis writer_ok : ∀ w b, ∃ w', writer_write w b = Ok w'.

Lemma write_batch_ok w rows :
  ∃ rb w', record_batch schema rows = Returns (Ok rb) ∧ writer_write w rb = Ok w'
    ∧ write_batch (E := E) writer_write w schema rows = Returns (Ok w').
Proof.
  destruct (write_batch_typed rows) as (s & rb & Hs & Hb).
  rewrite schema_total in Hs.
  apply Returns_inj in Hs as <-. destruct (writer_ok w rb) as [w' Hw].
  exists rb, w'. unfold write_batch. rewrite Hb. cbn. by rewrite Hw.
Qed.

Lemma for_each_batches implied ms rs w batch n :
  vec_len batch < BATCH_SIZE ->
  Forall2 (λ m r, build_export_row m implied = Ok r) ms rs ->
  ∃ w' batch' batches,
    for_each_export_row (parquet_on_row writer_write schema) implied (map Ok ms) (w, batch) n
    = Returns (Ok ((w', batch'), n + vec_len rs))
    ∧ concat batches ++ batch' = batch ++ rs ∧ vec_len batch' < BATCH_SIZE
    ∧ Forall batch_size_ok batches ∧ written w batches w'.
Proof.
  intros Hb H. revert w batch n Hb.
  induction H as [|m r ms rs Hr _ IH]; intros w batch n Hb.
  - exists w, batch, []. cbn. rewrite app_nil_r, Z.add_0_r.
    split_and!; [done|done|done|constructor|constructor].
  - cbn [map for_each_export_row]. rewrite Hr. cbn [parquet_on_row].
    assert (Hl : vec_len (batch ++ [r]) = vec_len batch + 1)
      by (unfold vec_len; rewrite length_app; cbn; lia).
    replace (n + vec_len (r :: rs)) with (n + 1 + vec_len rs) by (unfold vec_len; cbn; lia).
    replace (batch ++ r :: rs) with ((batch ++ [r]) ++ rs) by (by rewrite <- app_assoc).
    destruct (Z.leb_spec BATCH_SIZE (vec_len (batch ++ [r]))) as [Hfull|Hroom].
    + destruct (write_batch_ok w (batch ++ [r])) as (rb & w1 & Erb & Ew & ->).
      cbn [outcome_map].
      destruct (IH w1 [] (n + 1)) as (w' & batch' & batches & E1 & Ec & Hb' & Hs & Hw);
        [done|].
      exists w', batch', ((batch ++ [r]) :: batches). split_and!; [done| |done| |].
      * cbn [concat]. by rewrite <- app_assoc, Ec.
      * constructor; [|done]. unfold batch_size_ok. unfold vec_len in *. lia.
      * by eapply written_cons.
    + destruct (IH w (batch ++ [r]) (n + 1)) as (w' & batch' & batches & ?); [done|].
      by exists w', batch', batches.
Qed.

Lemma written_snoc w bs w1 b rb w2 :
  written w bs w1 -> record_batch schema b = Returns (Ok rb) -> writer_write w1 rb = Ok w2 ->
  written w (bs ++ [b]) w2.
Proof.
  induction 1 as [w|w b1 rb1 w1' bs w2' H1 H2 _ IH]; intros Hb Hw.
  - exact (written_cons _ _ _ _ _ _ Hb Hw (written_nil _)).
  - exact (written_cons _ _ _ _ _ _ H1 H2 (IH Hb Hw)).
Qed.

(** C24: A Parquet export of rows that can all be read writes every row once, in the order of
    the query, in batches of at most [BATCH_SIZE] rows, and reports their number. *)
Theorem export_parquet_complete path implied ms rs w :
  path <> lit "-" ->
  Forall2 (λ m r, build_export_row m implied = Ok r) ms rs ->
  ∃ w' batches,
    export_parquet writer_write (Some path) w implied (map Ok ms)
    = Returns (Ok (w', vec_len rs))
    ∧ concat batches = rs ∧ Forall batch_size_ok batches ∧ written w batches w'.
Proof.
  intros Hp%streqb_neq H. unfold export_parquet. rewrite Hp, schema_total. cbn [outcome_bind].
  destruct (for_each_batches implied ms rs w [] 0) as (w1 & batch & batches & -> & Ec & Hl & Hs & Hw);
    [done|done|].
  cbn [outcome_bind]. rewrite Z.add_0_l. cbn [app] in Ec. destruct batch as [|r batch].
  - exists w1, batches. cbn [nonempty]. rewrite app_nil_r in Ec. by split_and!.
  - cbn [nonempty].
    destruct (write_batch_ok w1 (r :: batch)) as (rb & w2 & Erb & Ew & ->).
    cbn [outcome_map]. exists w2, (batches ++ [r :: batch]). split_and!; [done| | |].
    + rewrite concat_app. cbn [concat]. by rewrite app_nil_r.
    + apply Forall_app. split; [done|]. constructor; [|constructor].
      unfold batch_size_ok. unfold vec_len in *. cbn in *. lia.
    + exact (written_snoc _ _ _ _ _ _ Hw Erb Ew).
Qed.
End ExportProperties.
