(* ===== verification/ExportAgree.v ===== *)
(** * The export formats together ([src/src/export/])

    CSV, JSON lines and Parquet render the same row: for the scalar fields of the registry
    the three values agree.  The JSON document of a row ([export/jsonl.rs]) is built by hand
    and then overlaid with the registry's flat keys. *)

From Stdlib Require Import SpecFloat.
From S2P Require Import Prelude ExportRow Json ExportFields ExportParquet.

(** ** Agreement of the three formats *)

(** [f64::is_finite]. *)
Definition f64_is_finite (x : spec_float) : bool :=
  match x with S754_infinity _ | S754_nan => false | _ => true end.

(** A JSON scalar and the CSV text of the same field. *)
Definition csv_shows `{FF : FloatFmt} (v : Value) (text : str) : Prop :=
  match v with
  | Null => text = []
  | Str s => text = s
  | Num (Int z) => text = dec_z z
  | Num (Float x) => text = f64_to_string_2 x
  | Bool b => text = bool_text b \/ text = dec_z (Z.b2z b)
  | Arr _ | Object _ => False
  end.

(** The cells of a scalar column as JSON. *)
Definition column_values (c : Column) : option (list Value) :=
  match c with
  | StringCol l => Some (map (of_option of_str) l)
  | Int32Col l | Int64Col l => Some (map (of_option of_int) l)
  | Float64Col l => Some (map (of_option of_f64) l)
  | BooleanCol l => Some (map (of_option of_bool) l)
  | StringListCol _ | StructListCol _ _ _ => None
  end.

(** The position of a registry id in the Parquet file, and the builder there. *)
Fixpoint position (id : str) (l : list str) : option nat :=
  match l with
  | [] => None
  | x :: r => if streqb x id then Some O else option_map S (position id r)
  end.
Definition parquet_builder (id : str) : option (list ExportRow -> outcome Column) :=
  match position id PARQUET_FIELD_ORDER with Some i => finished !! i | None => None end.

Section Agreement.
Context `{FF : FloatFmt} `{Ch : Chrono}.

Definition finite_times (row : ExportRow) : Prop :=
  f64_is_finite (m_response_time (main row)) = true.

Definition csv_agrees (f : ExportField) : Prop :=
  match f_csv f, f_jsonl_flat f with
  | Some c, Some v => ∀ row, finite_times row -> csv_shows (v row) (extract c row)
  | _, _ => True
  end.

Definition parquet_agrees (f : ExportField) : Prop :=
  match f_parquet f, f_jsonl_flat f with
  | Some p, Some v =>
      ∃ b, parquet_builder (f_id f) = Some b
        ∧ ∀ rows, Forall wf_row rows ->
            ∃ c, b rows = Returns c ∧ column_values c = Some (map v rows)
  | _, _ => True
  end.

Lemma vec_len_nonneg {X} (l : list X) : 0 <= vec_len l.
Proof. unfold vec_len. lia. Qed.

Lemma wf_counts_i32 row :
  wf_row row ->
  as_i32 (redirect_count row) = redirect_count row
  ∧ as_i32 (technology_count row) = technology_count row
  ∧ as_i32 (contact_link_count row) = contact_link_count row
  ∧ as_i32 (exposed_secret_count row) = exposed_secret_count row.
Proof.
  intros [(H1 & _ & H2) (H3 & _ & H4) _ _ [H5 H6] [H7 H8] _ _ _ _].
  unfold MAX_EXPORT_RELATED_RECORDS in *.
  pose proof (vec_len_nonneg (redirects row)). pose proof (vec_len_nonneg (technologies row)).
  pose proof (vec_len_nonneg (contact_links row)).
  pose proof (vec_len_nonneg (exposed_secrets row)).
  split_and!; apply as_i32_small; unfold i32_max; lia.
Qed.

Lemma csv_shows_option {X} (v : X -> Value) (t : X -> str) o :
  (∀ x, csv_shows (v x) (t x)) -> csv_shows (of_option v o) (or_empty (option_map t o)).
Proof. intros H. destruct o; cbn; [apply H|done]. Qed.

Lemma csv_shows_opt_str o : csv_shows (of_option of_str o) (or_empty o).
Proof. by destruct o. Qed.

Ltac solve_csv :=
  cbn; try exact I; intros row Hrow;
  first
    [ reflexivity
    | apply csv_shows_opt_str
    | apply csv_shows_option; intros []; cbn; auto
    | apply csv_shows_option; intros ?; cbn; auto
    | by left
    | unfold finite_times in Hrow; destruct (m_response_time (main row)); cbn in *; done ].

Lemma csv_json_agree : Forall csv_agrees EXPORT_FIELDS.
Proof.
  unfold EXPORT_FIELDS, page_fields, body_fields, technology_fields, certificate_fields,
    dns_fields, policy_fields, analytics_fields, header_fields, geoip_fields, whois_fields,
    record_fields, secret_fields. cbn [app].
  repeat (apply List.Forall_cons; [solve_csv|]). apply List.Forall_nil.
Qed.
Lemma values_same (v : ExportRow -> Value) g rows :
  Forall wf_row rows -> (∀ row, wf_row row -> g row = v row) ->
  Some (map g rows) = Some (map v rows).
Proof. intros H Hg. f_equal. induction H; cbn; [done|]. by rewrite Hg, IHForall. Qed.

Ltac find_builder :=
  unfold parquet_builder; cbn [f_id];
  match goal with |- match ?p with _ => _ end = _ =>
    let i := eval vm_compute in p in replace p with i by (vm_compute; reflexivity)
  end; reflexivity.

Ltac solve_cells :=
  eexists; split; [find_builder|];
  intros rows Hwf; eexists; split; [reflexivity|];
  cbn [column_values]; rewrite ?map_map;
  apply values_same; [done|]; intros row Hrow;
  destruct (wf_counts_i32 row Hrow) as (? & ? & ? & ?);
  try reflexivity; cbn; congruence.

Ltac solve_parquet :=
  cbn [parquet_agrees f_parquet f_jsonl_flat parquet csv];
  lazymatch goal with |- True => exact I | _ => solve_cells end.

Lemma parquet_json_agree : Forall parquet_agrees EXPORT_FIELDS.
Proof.
  unfold EXPORT_FIELDS, page_fields, body_fields, technology_fields, certificate_fields,
    dns_fields, policy_fields, analytics_fields, header_fields, geoip_fields, whois_fields,
    record_fields, secret_fields. cbn [app].
  repeat (apply List.Forall_cons; [solve_parquet|]). apply List.Forall_nil.
Qed.
End Agreement.

(** ** jsonl.rs *)

Section Jsonl.
Context `{FF : FloatFmt} `{Ch : Chrono}.

Definition kv (k : string) (v : Value) : str * Value := (lit k, v).
Definition opt_str (o : option str) : Value := of_option of_str o.
Definition opt_int (o : option Z) : Value := of_option of_int o.

Definition redirect_json (r : RedirectEntry) : Value :=
  json_object [ kv "redirect_url" (of_str (rd_redirect_url r));
                kv "sequence_order" (of_int (rd_sequence_order r));
                kv "http_status" (opt_int (rd_http_status r)) ].

Definition technology_json (t : TechnologyRecord) : Value :=
  json_object [ kv "name" (of_str (te_name t));
                kv "version" (opt_str (te_version t));
                kv "category" (opt_str (te_category t));
                kv "is_implied" (of_bool (te_is_implied t));
                kv "detection_source" (opt_str (te_detection_source t)) ].

Definition analytics_json (a : AnalyticsIdRecord) : Value :=
  json_object [ kv "provider" (of_str (an_provider a));
                kv "tracking_id" (of_str (an_tracking_id a)) ].

Definition social_json (link : SocialMediaLink) : Value :=
  json_object [ kv "platform" (of_str (sm_platform link));
                kv "url" (of_str (sm_profile_url link));
                kv "identifier" (opt_str (sm_identifier link)) ].

(** [null] when the row has no country, AS number or latitude. *)
Definition geoip_json (g : GeoIpData) : Value :=
  if bool_decide (is_Some (geo_country_code g)) || bool_decide (is_Some (geo_asn g))
     || bool_decide (is_Some (geo_latitude g))
  then json_object
         [ kv "country_code" (opt_str (geo_country_code g));
           kv "country_name" (opt_str (geo_country_name g));
           kv "region" (opt_str (geo_region g));
           kv "city" (opt_str (geo_city g));
           kv "latitude" (of_option of_f64 (geo_latitude g));
           kv "longitude" (of_option of_f64 (geo_longitude g));
           kv "asn" (opt_int (geo_asn g));
           kv "asn_org" (opt_str (geo_asn_org g)) ]
  else Null.

(** [null] when the row has no registrar and no creation date. *)
Definition whois_json (w : WhoisData) : Value :=
  if bool_decide (is_Some (who_registrar w)) || bool_decide (is_Some (who_creation_date_ms w))
  then json_object
         [ kv "registrar" (opt_str (who_registrar w));
           kv "creation_date_ms" (opt_int (who_creation_date_ms w));
           kv "expiration_date_ms" (opt_int (who_expiration_date_ms w));
           kv "registrant_country" (opt_str (who_registrant_country w)) ]
  else Null.

Definition tls_json (row : ExportRow) : Value :=
  json_object
    [ kv "version" (opt_str (m_tls_version (main row)));
      kv "certificate"
        (json_object
           [ kv "subject" (opt_str (m_ssl_cert_subject (main row)));
             kv "issuer" (opt_str (m_ssl_cert_issuer (main row)));
             kv "valid_to" (opt_int (m_ssl_cert_valid_to_ms (main row)));
             kv "sans" (of_vec of_str (parse_string_list (certificate_sans_str row)));
             kv "san_count" (of_int (certificate_san_count row));
             kv "oids" (of_vec of_str (parse_string_list (oids_str row))) ]);
      kv "cipher_suite" (opt_str (m_cipher_suite (main row)));
      kv "key_algorithm" (opt_str (m_key_algorithm (main row)));
      kv "cert_fingerprint_sha256" (opt_str (m_cert_fingerprint_sha256 (main row))) ].

Definition dns_json (row : ExportRow) : Value :=
  json_object
    [ kv "nameserver_count" (of_int (nameserver_count row));
      kv "nameservers" (of_vec (λ ns, of_str (ns_nameserver ns)) (nameservers row));
      kv "txt_record_count" (of_int (txt_count row));
      kv "txt_records"
        (of_vec (λ r, json_object [ kv "record_type" (of_str (txt_record_type r));
                                    kv "content" (of_str (txt_record_value r)) ])
           (txt_records row));
      kv "mx_record_count" (of_int (mx_count row));
      kv "mx_records"
        (of_vec (λ r, json_object [ kv "priority" (of_int (mx_priority r));
                                    kv "mail_exchange" (of_str (mx_mail_exchange r)) ])
           (mx_records row));
      kv "cname_records" (of_vec of_str (cname_records row));
      kv "cname_count" (of_int (cname_count row));
      kv "ipv6_addresses" (of_vec of_str (ipv6_addresses row));
      kv "ipv6_count" (of_int (ipv6_count row));
      kv "caa_records"
        (of_vec (λ r, json_object [ kv "flag" (of_int (caa_flag r));
                                    kv "tag" (of_str (caa_tag r));
                                    kv "value" (of_str (caa_value r)) ]) (caa_records row));
      kv "caa_count" (of_int (caa_count row)) ].

Definition header_json (h : HttpHeader) : Value :=
  json_object [ kv "name" (of_str (hh_name h)); kv "value" (of_str (hh_value h)) ].

(** The claims are added when the algorithm or the issuer is known. *)
Definition secret_json (s : ExposedSecretRecord) : Value :=
  let obj := insert_all []
    [ kv "secret_type" (of_str (es_secret_type s));
      kv "matched_value" (of_str (es_matched_value s));
      kv "severity" (of_str (es_severity s));
      kv "location" (of_str (es_location s));
      kv "context" (opt_str (es_context s)) ] in
  if bool_decide (is_Some (es_jwt_algorithm s)) || bool_decide (is_Some (es_jwt_issuer s))
  then Object (map_insert (lit "jwt_claims")
         (json_object
            [ kv "algorithm" (opt_str (es_jwt_algorithm s));
              kv "issuer" (opt_str (es_jwt_issuer s));
              kv "subject" (opt_str (es_jwt_subject s));
              kv "audience" (opt_str (es_jwt_audience s));
              kv "expiration_ms" (opt_int (es_jwt_expiration_ms s));
              kv "issued_at_ms" (opt_int (es_jwt_issued_at_ms s));
              kv "header_json" (opt_str (es_jwt_header_json s));
              kv "payload_json" (opt_str (es_jwt_payload_json s)) ]) obj)
  else Object obj.

(** The object written by hand, in the order of the keys in the source. *)
Definition base_entries (row : ExportRow) : Map :=
  [ kv "url" (of_str (build_url (m_final_domain (main row))));
    kv "initial_domain" (of_str (m_initial_domain (main row)));
    kv "final_domain" (of_str (m_final_domain (main row)));
    kv "initial_url" (opt_str (m_initial_url (main row)));
    kv "final_url" (opt_str (m_final_url (main row)));
    kv "ip_address" (of_str (m_ip_address (main row)));
    kv "reverse_dns" (opt_str (m_reverse_dns (main row)));
    kv "status" (of_int (m_status (main row)));
    kv "status_description" (of_str (m_status_desc (main row)));
    kv "response_time_ms" (of_f64 (m_response_time (main row)));
    kv "title" (of_str (m_title (main row)));
    kv "description" (opt_str (m_description (main row)));
    kv "meta_robots" (opt_str (m_meta_robots (main row)));
    kv "body_sha256" (opt_str (m_body_sha256 (main row)));
    kv "content_length" (opt_int (m_content_length (main row)));
    kv "http_version" (opt_str (m_http_version (main row)));
    kv "content_type" (opt_str (m_content_type (main row)));
    kv "canonical_url" (opt_str (m_canonical_url (main row)));
    kv "body_truncated" (of_bool (m_body_truncated (main row)));
    kv "redirect_chain" (of_vec redirect_json (redirects row));
    kv "redirect_count" (of_int (redirect_count row));
    kv "final_redirect_url" (of_str (final_redirect_url row));
    kv "technologies" (of_vec technology_json (technologies row));
    kv "technology_count" (of_int (technology_count row));
    kv "tls" (tls_json row);
    kv "dns" (dns_json row);
    kv "spf_record" (opt_str (m_spf_record (main row)));
    kv "dmarc_record" (opt_str (m_dmarc_record (main row)));
    kv "mta_sts_record" (opt_str (m_mta_sts_record (main row)));
    kv "tls_rpt_record" (opt_str (m_tls_rpt_record (main row)));
    kv "bimi_record" (opt_str (m_bimi_record (main row)));
    kv "hsts_max_age" (opt_int (m_hsts_max_age (main row)));
    kv "hsts_include_subdomains" (of_option of_bool (m_hsts_include_subdomains (main row)));
    kv "hsts_preload" (of_option of_bool (m_hsts_preload (main row)));
    kv "cdn_provider" (opt_str (m_cdn_provider (main row)));
    kv "script_hosts"
      (of_vec (λ h, json_object
                      [ kv "host" (of_str (sh_host h));
                        kv "registrable_domain" (opt_str (sh_registrable_domain h));
                        kv "is_first_party" (of_bool (sh_is_first_party h)) ])
         (script_hosts row));
    kv "analytics_ids" (of_vec analytics_json (analytics_ids row));
    kv "analytics_count" (of_int (analytics_count row));
    kv "social_media_links" (of_vec social_json (social_media_links row));
    kv "social_media_count" (of_int (social_media_count row));
    kv "structured_data"
      (json_object
         [ kv "types" (of_vec of_str (parse_string_list (structured_data_types_str row)));
           kv "count" (of_int (structured_data_count row));
           kv "entries"
             (of_vec (λ e, json_object
                             [ kv "data_type" (of_str (sd_data_type e));
                               kv "property_name" (of_str (sd_property_name e));
                               kv "property_value" (of_str (sd_property_value e)) ])
                (structured_data_entries row)) ]);
    kv "http_headers" (of_vec header_json (all_http_headers row));
    kv "http_header_count" (of_int (http_header_count row));
    kv "security_headers" (of_vec header_json (all_security_headers row));
    kv "security_header_count" (of_int (security_header_count row));
    kv "partial_failures"
      (of_vec (λ f, json_object [ kv "error_type" (of_str (pf_error_type f));
                                  kv "error_message" (of_str (pf_error_message f)) ])
         (partial_failures row));
    kv "geoip" (geoip_json (geoip row));
    kv "whois" (whois_json (whois row));
    kv "favicon" (json_object [ kv "hash" (opt_int (favicon_hash row));
                                kv "url" (opt_str (favicon_url row)) ]);
    kv "timestamp" (of_int (m_timestamp (main row)));
    kv "run_id" (opt_str (m_run_id (main row))) ].

(** The keys inserted outside the macro. *)
Definition extra_entries (row : ExportRow) : Map :=
  [ kv "contact_links"
      (of_vec (λ c, json_object [ kv "contact_type" (of_str (cl_contact_type c));
                                  kv "contact_value" (of_str (cl_contact_value c)) ])
         (contact_links row));
    kv "contact_link_count" (of_int (contact_link_count row));
    kv "exposed_secrets" (of_vec secret_json (exposed_secrets row));
    kv "exposed_secret_count" (of_int (exposed_secret_count row)) ].

Definition json_by_hand (row : ExportRow) : Map :=
  insert_all (insert_all [] (base_entries row)) (extra_entries row).

(** One line of the file. *)
Definition json_line (row : ExportRow) : Value :=
  Object (insert_jsonl_flat_fields (json_by_hand row) row).

(** The registry's flat keys. *)
Definition flat_entries (row : ExportRow) : Map :=
  omap (λ f, match f_csv f, f_jsonl_flat f with
             | Some c, Some v => Some (csv_name c, v row)
             | None, Some v => Some (f_id f, v row)
             | _, None => None
             end) EXPORT_FIELDS.

Lemma insert_flat_entries m row :
  insert_jsonl_flat_fields m row = insert_all m (flat_entries row).
Proof.
  unfold insert_jsonl_flat_fields, flat_entries, insert_all. revert m.
  induction EXPORT_FIELDS as [|f l IH]; intros m; [done|]. rewrite omap_cons. cbn [foldl].
  rewrite IH. unfold insert_flat_field.
  by destruct (f_csv f), (f_jsonl_flat f).
Qed.

Lemma insert_all_same m l :
  sorted m -> Forall (λ e, map_get e.1 m = Some e.2) l -> insert_all m l = m.
Proof.
  intros Hm H. unfold insert_all. induction H as [|[k v] l Hk _ IH]; [done|]. cbn.
  cbn in Hk. by rewrite map_insert_same.
Qed.

Lemma json_by_hand_get k row :
  map_get k (json_by_hand row) = map_get k (reverse (base_entries row ++ extra_entries row)).
Proof.
  unfold json_by_hand.
  rewrite !map_get_insert_all, reverse_app. generalize (reverse (extra_entries row)) as l.
  induction l as [|[k1 v1] l IH]; cbn [map_get app]; [by destruct (map_get k _)|].
  by destruct (streqb k k1).
Qed.
(** Every flat key is there by hand, with the same value. *)
Lemma flat_by_hand row :
  Forall (λ e, map_get e.1 (json_by_hand row) = Some e.2) (flat_entries row).
Proof.
  unfold flat_entries, EXPORT_FIELDS, page_fields, body_fields, technology_fields,
    certificate_fields, dns_fields, policy_fields, analytics_fields, header_fields,
    geoip_fields, whois_fields, record_fields, secret_fields.
  cbn [app]. repeat (rewrite omap_cons; cbn [f_csv f_jsonl_flat csv f_id csv_name]).
  repeat (apply List.Forall_cons; [cbn [fst snd]; rewrite json_by_hand_get; reflexivity|]).
  apply List.Forall_nil.
Qed.

(** The overlay of the registry's keys changes nothing. *)
Lemma json_overlay_agrees row : json_line row = Object (json_by_hand row).
Proof.
  unfold json_line. apply (f_equal Object). rewrite insert_flat_entries.
  apply insert_all_same; [by repeat apply sorted_insert_all|]. apply flat_by_hand.
Qed.
End Jsonl.

(** ** Properties *)

Section Properties.
Context `{FF : FloatFmt} `{Ch : Chrono}.

Lemma json_line_get row k :
  get (json_line row) k = map_get k (json_by_hand row).
Proof. by rewrite json_overlay_agrees. Qed.

(** C16: A flat field of the registry has one value in the three formats: the CSV text is the
    rendering of the JSON value found under the CSV name, and the Parquet column of the
    field holds the JSON values of the rows, no count being cut to 32 bits. *)
Theorem flat_formats_agree f c v :
  f ∈ EXPORT_FIELDS -> f_csv f = Some c -> f_jsonl_flat f = Some v ->
  (∀ row, get (json_line row) (csv_name c) = Some (v row)
          ∧ (finite_times row -> csv_shows (v row) (extract c row)))
  ∧ (is_Some (f_parquet f) ->
     ∃ b, parquet_builder (f_id f) = Some b
       ∧ ∀ rows, Forall wf_row rows ->
           ∃ col, b rows = Returns col ∧ column_values col = Some (map v rows)).
Proof.
  intros Hf Hc Hv. split.
  - intros row. split.
    + rewrite json_line_get. pose proof (flat_by_hand row) as H.
      rewrite list.Forall_forall in H. apply (H (csv_name c, v row)). unfold flat_entries.
      apply list_elem_of_omap. exists f. by rewrite Hc, Hv.
    + intros Hrow. pose proof csv_json_agree as H. rewrite list.Forall_forall in H.
      specialize (H f Hf). unfold csv_agrees in H. rewrite Hc, Hv in H. by apply H.
  - intros [p Hp]. pose proof parquet_json_agree as H. rewrite list.Forall_forall in H.
    specialize (H f Hf). unfold parquet_agrees in H. by rewrite Hp, Hv in H.
Qed.

(** A CSV file has a header of distinct names and, for every row, one cell per name: the
    extraction the registry pairs with it. *)
Theorem csv_file_shape rows :
  ∃ cols, csv_columns = Returns cols ∧ NoDup (map csv_name cols)
    ∧ export_csv rows
      = Returns (map csv_name cols :: map (λ row, map (λ c, extract c row) cols) rows).
Proof.
  assert (H : match csv_column_names with
              | Returns l => bool_decide (NoDup l) | Panics => false end = true)
    by (vm_compute; reflexivity).
  unfold csv_column_names in H. destruct csv_columns as [cols|] eqn:E; [|done].
  cbn [outcome_map] in H. apply bool_decide_eq_true in H.
  exists cols. split_and!; [done|done|].
  unfold export_csv, csv_column_names. rewrite E. cbn [outcome_map].
  assert (Hr : ∀ row, csv_record_cells row = Returns (map (λ c, extract c row) cols)).
  { intros row. unfold csv_record_cells. by rewrite E. }
  assert (Hall : collect csv_record_cells rows
                 = Returns (map (λ row, map (λ c, extract c row) cols) rows)).
  { induction rows as [|row rows IH]; [done|]. cbn [collect map]. by rewrite Hr, IH. }
  by rewrite Hall.
Qed.

Lemma tls_sans row :
  get_path (json_line row) [lit "tls"; lit "certificate"; lit "sans"]
  = Some (of_vec of_str (parse_string_list (certificate_sans_str row))).
Proof.
  cbn [get_path]. rewrite json_line_get, json_by_hand_get.
  assert (E : map_get (lit "tls") (reverse (base_entries row ++ extra_entries row))
              = Some (tls_json row)) by reflexivity.
  rewrite E. unfold tls_json.
  generalize (of_vec of_str (parse_string_list (certificate_sans_str row))). reflexivity.
Qed.

(** The certificate names of JSON and Parquet pass through the comma-joined text: they are
    the stored names exactly when no name has a comma (and the list is not one empty name);
    the count next to them always is the number of stored names. *)
Theorem certificate_sans_exported {E} `{Q : ExportQueries E} m implied row sans :
  build_export_row m implied = Ok row -> q_certificate_sans (m_id m) = Ok sans ->
  certificate_san_count row = vec_len sans
  ∧ (get_path (json_line row) [lit "tls"; lit "certificate"; lit "sans"]
     = Some (of_vec of_str sans)
     <-> sans <> [[]] ∧ Forall (λ s, 44 ∉ s) sans).
Proof.
  intros H Hs. unfold build_export_row, fetch_string_list in H. cbn zeta in H.
  rewrite Hs in H. cbn [and_then] in H. destruct_queries. injection H as <-.
  split; [done|]. rewrite tls_sans. cbn [certificate_sans_str].
  rewrite <- string_list_roundtrip.
  split; [|by intros ->]. intros [= Heq]. clear -Heq. revert Heq.
  generalize (parse_string_list (join (lit ",") sans)). intros l. revert sans.
  induction l as [|a l IH]; intros [|b sans] Heq; try done.
  injection Heq as -> Heq. f_equal. by apply IH.
Qed.
End Properties.

(** ** A concrete database and a concrete Arrow *)

Module DemoExport.
Definition fmt : FloatFmt := {|
  f64_to_string := λ x, match x with
                        | S754_finite _ m e => dec (Zpos m) ++ lit "p" ++ dec_z e
                        | _ => lit "0"
                        end;
  f64_to_string_2 := λ x, match x with S754_finite _ m _ => dec (Zpos m) | _ => lit "0" end;
|}.
Definition chrono : Chrono := {| format_ymd := λ secs, Some (dec_z (secs / 86400)) |}.

Definition queries : ExportQueries unit := {|
  q_redirects := λ _, Ok [MkRedirect (lit "https://a.example/") 1 (Some 301)];
  q_technologies := λ _ _, Ok [MkTech (lit "nginx") (Some (lit "1.25")) None false None];
  q_certificate_sans := λ _, Ok [lit "a.example"; lit "b.example"];
  q_oids := λ _, Ok []; q_nameservers := λ _, Ok [MkNs (lit "ns1.example")];
  q_txt_records := λ _, Ok []; q_mx_records := λ _, Ok []; q_cname_records := λ _, Ok [];
  q_ipv6_addresses := λ _, Ok []; q_caa_records := λ _, Ok []; q_analytics_ids := λ _, Ok [];
  q_script_hosts := λ _, Ok []; q_social_media_links := λ _, Ok [];
  q_structured_data := λ _, Ok []; q_headers_in := λ _ _ _, Ok [];
  q_headers_count := λ _ _, Ok 3; q_headers := λ _ _, Ok []; q_partial_failures := λ _, Ok [];
  q_geoip := λ _, Ok None; q_whois := λ _, Ok None; q_favicon := λ _, Ok None;
  q_contact_links := λ _, Ok []; q_exposed_secrets := λ _, Ok [];
|}.

Lemma queries_laws : ExportQueriesLaws queries.
Proof.
  split; cbn; intros.
  all: repeat match goal with H : Ok _ = Ok _ |- _ => injection H as <- end.
  all: try (vm_compute; done); try lia. repeat constructor.
Defined.

Definition site : MainRowData :=
  MkMain 1 (lit "a.example") (lit "a.example") None None (lit "192.0.2.1") None 200 (lit "OK")
    (S754_finite false 5629499534213120 (-52)) (lit "A") None None None None None None None None
    None None None None None None None None None 1700000000000 None None None None None None
    None false.

Definition arrow : Arrow := {|
  ArrayRef := Column; RecordBatch := list Column; ArrowError := unit; finish := Returns;
  array_type := column_type; array_len := column_len; null_count := column_nulls;
  try_new := λ schema arrays,
    if (length schema =? length arrays)%nat then Ok arrays else Err tt;
|}.

Lemma arrow_laws : ArrowLaws arrow.
Proof.
  split; cbn.
  - intros c _. by exists c.
  - intros schema arrays n _ H%list.Forall2_length. rewrite H, Nat.eqb_refl. by exists arrays.
Defined.

Definition row : option ExportRow := result_ok (@build_export_row _ queries site false).
End DemoExport.

Lemma build_export_row_wf_witness :
  ∃ r, @build_export_row _ DemoExport.queries DemoExport.site false = Ok r
    ∧ wf_row r ∧ main r = DemoExport.site.
Proof.
  eexists. split; [reflexivity|].
  destruct (@build_export_row_wf _ DemoExport.queries DemoExport.queries_laws
              DemoExport.site false _ eq_refl) as (H & Hm & _). by split.
Defined.

Lemma write_batch_typed_witness :
  ∃ s b, @build_parquet_schema DemoExport.fmt DemoExport.chrono = Returns s
    ∧ @record_batch DemoExport.fmt DemoExport.chrono DemoExport.arrow s
        (match DemoExport.row with Some r => [r] | None => [] end) = Returns (Ok b).
Proof.
  apply (@write_batch_typed DemoExport.fmt DemoExport.chrono DemoExport.arrow
           DemoExport.arrow_laws).
Defined.

Lemma export_parquet_complete_witness :
  ∃ w, @export_parquet unit (list (list Column)) unit DemoExport.fmt DemoExport.chrono
         DemoExport.arrow DemoExport.queries (λ w b, Ok (w ++ [b])) (Some (lit "out.parquet")) []
         false [Ok DemoExport.site; Ok DemoExport.site] = Returns (Ok (w, 2)).
Proof.
  destruct (@build_export_row _ DemoExport.queries DemoExport.site false) as [r|] eqn:E;
    [|by vm_compute in E].
  destruct (@export_parquet_complete unit (list (list Column)) unit DemoExport.fmt
              DemoExport.chrono DemoExport.arrow DemoExport.queries DemoExport.arrow_laws
              (λ w b, Ok (w ++ [b])) (λ w b, ex_intro _ _ eq_refl) (lit "out.parquet") false
              [DemoExport.site; DemoExport.site] [r; r] []) as (w & _ & H & _).
  - done.
  - repeat constructor; exact E.
  - by exists w.
Defined.

Definition title_field : option ExportField :=
  List.find (λ f, streqb (f_id f) (lit "title"))
    (@EXPORT_FIELDS DemoExport.fmt DemoExport.chrono).

Lemma flat_formats_agree_witness :
  ∃ f c v, title_field = Some f ∧ f_csv f = Some c ∧ f_jsonl_flat f = Some v
    ∧ ∀ row, get (@json_line DemoExport.fmt DemoExport.chrono row) (csv_name c) = Some (v row).
Proof.
  assert (H : ∃ f c v, f ∈ @EXPORT_FIELDS DemoExport.fmt DemoExport.chrono
                ∧ title_field = Some f ∧ f_csv f = Some c ∧ f_jsonl_flat f = Some v).
  { eexists _, _, _. split.
    - unfold EXPORT_FIELDS. apply elem_of_app. right. apply elem_of_app. left.
      apply list_elem_of_here.
    - split_and!; reflexivity. }
  destruct H as (f & c & v & Hf & Ht & Hc & Hv). exists f, c, v. split_and!; [done|done|done|].
  intros row.
  by apply (@flat_formats_agree DemoExport.fmt DemoExport.chrono f c v Hf Hc Hv).
Defined.

Lemma certificate_sans_exported_witness :
  ∃ row, @build_export_row _ DemoExport.queries DemoExport.site false = Ok row
    ∧ get_path (@json_line DemoExport.fmt DemoExport.chrono row)
        [lit "tls"; lit "certificate"; lit "sans"]
      = Some (of_vec of_str [lit "a.example"; lit "b.example"]).
Proof.
  destruct (@build_export_row _ DemoExport.queries DemoExport.site false) as [row|] eqn:E;
    [|by vm_compute in E].
  exists row. split; [done|].
  apply (@certificate_sans_exported DemoExport.fmt DemoExport.chrono unit DemoExport.queries
           DemoExport.site false row _ E eq_refl).
  split; [done|].
  repeat (constructor; [apply contains_char_false; reflexivity|]). constructor.
Defined.
