(* ===== verification/Sql.v ===== *)
(** * Statements and transactions ([src/src/sql.rs], [storage/insert/utils.rs])

    An SQL statement is its text with the values bound to its placeholders.  The database
    (sqlx and SQLite) is the parameter [Sqlx]: beginning, using and ending a transaction.
    [SqlxLaws] states what the code relies on: a failed statement has no effect, a
    transaction that is not committed has none either.  [writes] describes code that issues
    a list of statements and stops at the first failure.  The batch builder of the satellite
    tables and the texts it produces are here too. *)

From Stdlib Require Import SpecFloat.
From S2P Require Import Prelude ExportRow Retry.

(** ** Values and statements *)

Inductive SqlValue :=
  | VText (s : str)
  | VInteger (z : Z)
  | VReal (f : spec_float)
  | VNull.

(** [sqlx::Encode] for SQLite: integers of every width are INTEGER, [bool] is 0 or 1, [None]
    is NULL. *)
Class Encode (A : Type) := bind_value : A -> SqlValue.
#[export] Instance encode_text : Encode str := VText.
#[export] Instance encode_integer : Encode Z := VInteger.
#[export] Instance encode_real : Encode spec_float := VReal.
#[export] Instance encode_bool : Encode bool := λ b, VInteger (if b then 1 else 0).
#[export] Instance encode_option `{Encode A} : Encode (option A) :=
  λ o, match o with Some a => bind_value a | None => VNull end.

Record Statement := MkStatement { sql : str; binds : list SqlValue }.

(** [sqlx::query], [Query::bind], [QueryBuilder::push] and [push_bind]. *)
Definition query (text : str) : Statement := MkStatement text [].
Definition bind `{Encode A} (s : Statement) (a : A) : Statement :=
  MkStatement (sql s) (binds s ++ [bind_value a]).
Definition push (text : str) (s : Statement) : Statement :=
  MkStatement (sql s ++ text) (binds s).
Definition push_bind `{Encode A} (a : A) (s : Statement) : Statement :=
  MkStatement (sql s ++ lit "?") (binds s ++ [bind_value a]).

Declare Scope sql_scope.
Delimit Scope sql_scope with sql.
Notation "s ⊲ a" := (bind s a) (at level 50, left associativity) : sql_scope.
#[global] Open Scope sql_scope.

(** One value per placeholder. *)
Definition placeholders (text : str) : nat := length (List.filter (Z.eqb 63) text).
Definition statement_ok (s : Statement) : Prop := placeholders (sql s) = length (binds s).
#[export] Instance statement_ok_dec s : Decision (statement_ok s).
Proof. unfold statement_ok. apply _. Defined.

(** The table an INSERT names. *)
Definition inserts_into (table : str) (s : Statement) : Prop :=
  starts_with (lit "INSERT INTO " ++ table ++ lit " (") (sql s) = true.

Definition deletes_from (table : str) (s : Statement) : Prop :=
  starts_with (lit "DELETE FROM " ++ table ++ lit " WHERE") (sql s) = true.

(** ** The database *)

(** [W] is the world outside a transaction, [Tx] the world with a transaction open.
    [rollback] is the drop of a transaction that was not committed.  [execute] answers the
    number of rows affected, [fetch_optional] and [fetch_one] the id of [RETURNING id]. *)
Class Sqlx (W Tx : Type) := {
  begin_tx : W -> (W * DatabaseError) + Tx;
  execute_stmt : Statement -> Tx -> Tx * result Z DatabaseError;
  fetch_optional : Statement -> Tx -> Tx * result (option Z) DatabaseError;
  fetch_one : Statement -> Tx -> Tx * result Z DatabaseError;
  commit_tx : Tx -> W * result unit DatabaseError;
  rollback : Tx -> W;
  sqlx_error_text : DatabaseError -> str;
}.

(** The laws speak of the transactions this task has committed, oldest first, each the
    statements that took effect.  [base] and [pending] are those before an open transaction
    and those in it.  SQLite undoes a failed statement and keeps the transaction open, the
    default resolution of a failure; the failures at which it rolls the whole transaction
    back (a full disk, an I/O error) are outside the laws. *)
Class SqlxLaws {W Tx} (Q : Sqlx W Tx) := {
  committed : W -> list (list Statement);
  base : Tx -> list (list Statement);
  pending : Tx -> list Statement;
  begin_tx_law : ∀ w,
    match begin_tx w with
    | inr tx => base tx = committed w ∧ pending tx = []
    | inl (w', _) => committed w' = committed w
    end;
  execute_law : ∀ s tx,
    base (execute_stmt s tx).1 = base tx
    ∧ pending (execute_stmt s tx).1
      = pending tx ++ (if is_ok (execute_stmt s tx).2 then [s] else []);
  fetch_optional_law : ∀ s tx,
    base (fetch_optional s tx).1 = base tx
    ∧ pending (fetch_optional s tx).1
      = pending tx ++ (if is_ok (fetch_optional s tx).2 then [s] else []);
  fetch_one_law : ∀ s tx,
    base (fetch_one s tx).1 = base tx
    ∧ pending (fetch_one s tx).1
      = pending tx ++ (if is_ok (fetch_one s tx).2 then [s] else []);
  commit_law : ∀ tx,
    committed (commit_tx tx).1
    = base tx ++ (if is_ok (commit_tx tx).2 then [pending tx] else []);
  rollback_law : ∀ tx, committed (rollback tx) = base tx;
}.

(** [Display] of [DatabaseError]. *)
Definition database_error_text `{Sqlx W Tx} (e : DatabaseError) : str :=
  match e with
  | FileCreationError context => lit "Database file creation error: " ++ context
  | e => lit "SQL error: " ++ sqlx_error_text e
  end.

(** Code that runs inside a transaction and may return early with [?]. *)
Definition TxM (Tx A : Type) : Type := Tx -> Tx * result A DatabaseError.
Definition tx_ret {Tx A} (a : A) : TxM Tx A := λ tx, (tx, Ok a).
Definition tx_err {Tx A} (e : DatabaseError) : TxM Tx A := λ tx, (tx, Err e).
Definition tx_bind {Tx A B} (m : TxM Tx A) (k : A -> TxM Tx B) : TxM Tx B :=
  λ tx, match m tx with
        | (tx, Ok a) => k a tx
        | (tx, Err e) => (tx, Err e)
        end.
Notation "x ⇐ m ; k" := (tx_bind m (λ x, k))
  (at level 20, m at level 100, k at level 200, right associativity) : sql_scope.

Section Helpers.
Context `{Q : Sqlx W Tx}.

(** [query.execute(&mut **tx).await?] of which the answer is dropped. *)
Definition execute (s : Statement) : TxM Tx unit := _ ⇐ execute_stmt s; tx_ret tt.

(** ** utils.rs *)

Definition build_batch_insert_query (table_name : str) (columns : list str) (row_count : nat)
  (conflict_clause : option str) : str :=
  if (row_count =? 0)%nat then [] else
  let num_columns := length columns in
  let placeholder := lit "(" ++ join (lit ", ") (replicate num_columns (lit "?")) ++ lit ")" in
  let placeholders := replicate row_count placeholder in
  let query := lit "INSERT INTO " ++ table_name ++ lit " (" ++ join (lit ", ") columns
               ++ lit ") VALUES " ++ join (lit ", ") placeholders in
  match conflict_clause with
  | Some conflict => query ++ lit " " ++ conflict
  | None => query
  end.

(** The loop [for row in rows { query = query.bind(..).bind(..) }]. *)
Definition bind_rows {A} (f : Statement -> A -> Statement) (rows : list A) (s : Statement)
  : Statement := foldl f s rows.

Definition key_value_statement `{Encode K, Encode V} (table_name parent_id_column key_column
  value_column : str) (parent_id : Z) (data : list (K * V)) (conflict_clause : option str)
  : Statement :=
  bind_rows (λ s '(key, value), s ⊲ parent_id ⊲ key ⊲ value) data
    (query (build_batch_insert_query table_name [parent_id_column; key_column; value_column]
              (length data) conflict_clause)).

Definition insert_key_value_batch `{Encode K, Encode V} (table_name parent_id_column
  key_column value_column : str) (parent_id : Z) (data : list (K * V))
  (conflict_clause : option str) : TxM Tx unit :=
  if nonempty data then
    execute (key_value_statement table_name parent_id_column key_column value_column
               parent_id data conflict_clause)
  else tx_ret tt.

Definition single_column_statement `{Encode V} (table_name parent_id_column value_column : str)
  (parent_id : Z) (data : list V) (conflict_clause : option str) : Statement :=
  bind_rows (λ s value, s ⊲ parent_id ⊲ value) data
    (query (build_batch_insert_query table_name [parent_id_column; value_column]
              (length data) conflict_clause)).

Definition insert_single_column_batch `{Encode V} (table_name parent_id_column value_column
  : str) (parent_id : Z) (data : list V) (conflict_clause : option str) : TxM Tx unit :=
  if nonempty data then
    execute (single_column_statement table_name parent_id_column value_column parent_id data
               conflict_clause)
  else tx_ret tt.

Definition delete_statement (table : str) (url_status_id : Z) : Statement :=
  query (lit "DELETE FROM " ++ table ++ lit " WHERE url_status_id = ?") ⊲ url_status_id.

Fixpoint delete_child_rows (tables : list str) (url_status_id : Z) : TxM Tx unit :=
  match tables with
  | [] => tx_ret tt
  | table :: rest =>
      _ ⇐ execute (delete_statement table url_status_id);
      delete_child_rows rest url_status_id
  end.
End Helpers.

(** ** Lemmas on texts *)

Lemma placeholders_app a b : placeholders (a ++ b) = (placeholders a + placeholders b)%nat.
Proof. unfold placeholders. by rewrite filter_app, length_app. Qed.

Lemma placeholders_join sep l :
  placeholders sep = 0%nat -> placeholders (join sep l) = list_sum (map placeholders l).
Proof.
  intros Hsep. induction l as [|x [|y r] IH]; [done|cbn -[placeholders]; lia|].
  change (join sep (x :: y :: r)) with (x ++ sep ++ join sep (y :: r)).
  rewrite map_cons. cbn [list_sum fold_right]. by rewrite !placeholders_app, Hsep, IH.
Qed.

Lemma list_sum_zero {A} (f : A -> nat) l : Forall (λ x, f x = 0%nat) l -> list_sum (map f l) = 0%nat.
Proof. induction 1 as [|x l Hx _ IH]; [done|]. simpl. lia. Qed.

Lemma placeholders_replicate sep n t :
  placeholders sep = 0%nat -> placeholders (join sep (replicate n t)) = (n * placeholders t)%nat.
Proof.
  intros H. rewrite placeholders_join by done.
  induction n as [|n IH]; [done|]. simpl. by rewrite IH.
Qed.

(** The fixed parts of a statement hold no placeholder. *)
Definition plain (text : str) : bool := (placeholders text =? 0)%nat.

Lemma plain_iff text : plain text = true <-> placeholders text = 0%nat.
Proof. apply Nat.eqb_eq. Qed.

Lemma batch_placeholders table columns n conflict :
  plain table && forallb plain columns && plain (default [] conflict) = true ->
  placeholders (build_batch_insert_query table columns n conflict) = (n * length columns)%nat.
Proof.
  rewrite !andb_true_iff, !plain_iff, forallb_forall. intros [[Ht Hc] Hf].
  unfold build_batch_insert_query. destruct (Nat.eqb_spec n 0) as [->|Hn]; [done|].
  assert (Hcs : placeholders (join (lit ", ") columns) = 0%nat).
  { rewrite placeholders_join by done. apply list_sum_zero, List.Forall_forall.
    intros x Hx. by apply plain_iff, Hc. }
  assert (E : ∀ t, placeholders (match conflict with
                                 | Some c => t ++ lit " " ++ c
                                 | None => t end) = placeholders t).
  { intros t. destruct conflict; [|done]. rewrite !placeholders_app. simpl in Hf. rewrite Hf. change (placeholders (lit " ")) with 0%nat. lia. }
  rewrite E, !placeholders_app, Hcs, Ht.
  rewrite placeholders_replicate, !placeholders_app, placeholders_replicate by done.
  change (placeholders (lit "?")) with 1%nat. rewrite Nat.mul_1_r. simpl. change (placeholders (lit ")")) with 0%nat. lia.
Qed.

(** What a loop of binds adds. *)
Definition binds_row {A} (f : Statement -> A -> Statement) (row : A -> list SqlValue) : Prop :=
  ∀ s a, f s a = MkStatement (sql s) (binds s ++ row a).

Lemma bind_rows_spec {A} (f : Statement -> A -> Statement) row rows s :
  binds_row f row ->
  bind_rows f rows s = MkStatement (sql s) (binds s ++ concat (map row rows)).
Proof.
  intros H. revert s. induction rows as [|a rows IH]; intros s.
  - cbn. rewrite app_nil_r. by destruct s.
  - change (bind_rows f (a :: rows) s) with (bind_rows f rows (f s a)).
    rewrite IH, H. cbn. by rewrite <- app_assoc.
Qed.

Lemma length_concat_const {A B} (row : A -> list B) rows n :
  (∀ a, length (row a) = n) -> length (concat (map row rows)) = (length rows * n)%nat.
Proof. intros H. induction rows as [|a r IH]; [done|]. cbn. by rewrite length_app, H, IH. Qed.

(** A batch statement has one value per placeholder when a row binds one value per
    column. *)
Lemma batch_statement_ok {A} (f : Statement -> A -> Statement) row table columns conflict rows :
  binds_row f row -> (∀ a, length (row a) = length columns) ->
  plain table && forallb plain columns && plain (default [] conflict) = true ->
  statement_ok (bind_rows f rows
    (query (build_batch_insert_query table columns (length rows) conflict))).
Proof.
  intros Hf Hr Hp. rewrite (bind_rows_spec f row) by done. unfold statement_ok. cbn [sql binds query app].
  by rewrite batch_placeholders, (length_concat_const row rows (length columns)).
Qed.

Lemma batch_inserts_into {A} (f : Statement -> A -> Statement) row table columns conflict rows :
  binds_row f row -> rows <> [] ->
  inserts_into table (bind_rows f rows
    (query (build_batch_insert_query table columns (length rows) conflict))).
Proof.
  intros Hf Hne. rewrite (bind_rows_spec f row) by done. unfold inserts_into. cbn [sql query].
  unfold build_batch_insert_query. destruct rows as [|a rows]; [done|]. cbn [length Nat.eqb].
  apply starts_with_iff.
  destruct conflict; eexists; rewrite <- !app_assoc; reflexivity.
Qed.

(** ** Lemmas on transactions *)

(** An operation that changes nothing when it fails may be retried: the result is that of
    one successful attempt, or nothing. *)
Lemma sqlite_retry_transfers {S A C} (op : S -> S * result A DatabaseError) (view : S -> C)
  (P : C -> S -> A -> Prop) :
  (∀ w, match (op w).2 with Ok a => P (view w) (op w).1 a | Err _ => view (op w).1 = view w end) ->
  ∀ w, let r := (with_sqlite_retry op w).1 in
       match r.2 with Ok a => P (view w) r.1 a | Err _ => view r.1 = view w end.
Proof.
  intros Hop w. unfold with_sqlite_retry.
  enough (H : ∀ todo attempt slept w0, view w0 = view w ->
    let r := (sqlite_loop op todo attempt w0 slept).1 in
    match r.2 with Ok a => P (view w) r.1 a | Err _ => view r.1 = view w end) by by apply H.
  induction todo as [|todo IH]; intros attempt slept w0 E; [exact E|]. cbn [sqlite_loop].
  specialize (Hop w0). rewrite E in Hop.
  destruct (op w0) as [w1 [a|e]]; cbn in Hop; [exact Hop|]. destruct (_ || _); [exact Hop|]. by apply IH.
Qed.

Section Writes.
Context `{Q : Sqlx W Tx} {Laws : SqlxLaws Q}.

Definition applied (tx tx' : Tx) (l : list Statement) : Prop :=
  base tx' = base tx ∧ pending tx' = pending tx ++ l.

Lemma applied_refl tx : applied tx tx [].
Proof. split; [done|]. by rewrite app_nil_r. Qed.

Lemma applied_trans tx1 tx2 tx3 l1 l2 :
  applied tx1 tx2 l1 -> applied tx2 tx3 l2 -> applied tx1 tx3 (l1 ++ l2).
Proof. intros [H1 H2] [H3 H4]. split; [congruence|]. by rewrite H4, H2, app_assoc. Qed.

(** [m] issues [stmts] in order and stops at the first failure: a prefix takes effect, all
    of it exactly when [m] succeeds. *)
Definition writes {A} (m : TxM Tx A) (stmts : list Statement) : Prop :=
  ∀ tx, ∃ done rest, stmts = done ++ rest ∧ applied tx (m tx).1 done
                     ∧ is_ok (m tx).2 = negb (nonempty rest).

Lemma writes_ret {A} (a : A) : writes (tx_ret a) [].
Proof. intros tx. exists [], []. by split; [|split; [apply applied_refl|]]. Qed.

Lemma writes_answer {A} (m : TxM Tx A) s :
  (∀ tx, base (m tx).1 = base tx
         ∧ pending (m tx).1 = pending tx ++ (if is_ok (m tx).2 then [s] else [])) ->
  writes m [s].
Proof.
  intros H tx. destruct (H tx) as [Hb Hp]. destruct (is_ok (m tx).2).
  - by exists [s], [].
  - by exists [], [s].
Qed.

Lemma writes_fetch_one s : writes (fetch_one s) [s].
Proof. apply writes_answer. intros tx. apply fetch_one_law. Qed.

Lemma writes_bind {A B} (m : TxM Tx A) (k : A -> TxM Tx B) l1 l2 :
  writes m l1 -> (∀ a, writes (k a) l2) -> writes (tx_bind m k) (l1 ++ l2).
Proof.
  intros Hm Hk tx. destruct (Hm tx) as (d1 & r1 & -> & Ha & Hok). unfold tx_bind.
  destruct (m tx) as [tx1 [a|e]]; cbn in *.
  - destruct r1; [|done]. destruct (Hk a tx1) as (d2 & r2 & -> & Ha2 & Hok2).
    exists (d1 ++ d2), r2. rewrite app_nil_r, app_assoc. split_and!; [done| |done].
    by eapply applied_trans.
  - destruct r1 as [|s r1]; [done|]. exists d1, ((s :: r1) ++ l2).
    by rewrite <- app_assoc.
Qed.

Lemma writes_map {A B} (m : TxM Tx A) (f : A -> B) l :
  writes m l -> writes (tx_bind m (λ a, tx_ret (f a))) l.
Proof.
  intros H. rewrite <- (app_nil_r l). apply writes_bind; [done|]. intros a. apply writes_ret.
Qed.

Lemma writes_execute s : writes (execute s) [s].
Proof. apply writes_map, writes_answer. intros tx. apply execute_law. Qed.

(** The guard on empty data. *)
Lemma writes_if (b : bool) (m : TxM Tx unit) l :
  writes m l -> writes (if b then m else tx_ret tt) (if b then l else []).
Proof. intros H. destruct b; [done|apply writes_ret]. Qed.

Lemma writes_delete_child_rows tables id :
  writes (delete_child_rows tables id) (map (λ t, delete_statement t id) tables).
Proof.
  induction tables as [|t tables IH]; [apply writes_ret|].
  apply (writes_bind (execute _) _ [_]); [apply writes_execute|done].
Qed.
End Writes.

Create HintDb writes.
#[export] Hint Resolve writes_ret writes_execute writes_fetch_one writes_if
  writes_delete_child_rows : writes.

(** [eauto] cannot guess how the statements are split at a bind. *)
Ltac writes_step := first [apply writes_if | apply writes_execute | apply writes_ret].

(** ** A concrete database

    The log of the committed transactions, and the tables whose INSERTs fail. *)

Module DemoSql.
Record Database := MkDb { log : list (list Statement); broken : list str }.
Record Transaction := MkTx { tx_db : Database; tx_log : list Statement }.

Definition fails (db : Database) (s : Statement) : bool :=
  existsb (λ t, starts_with (lit "INSERT INTO " ++ t ++ lit " (") (sql s)) (broken db).

Definition run {A} (a : A) (s : Statement) (tx : Transaction)
  : Transaction * result A DatabaseError :=
  if fails (tx_db tx) s then (tx, Err (SqlOther (lit "disk I/O error")))
  else (MkTx (tx_db tx) (tx_log tx ++ [s]), Ok a).

#[export] Instance sqlx : Sqlx Database Transaction := {|
  begin_tx := λ db, inr (MkTx db []);
  execute_stmt := run 1;
  fetch_optional := run (Some 7);
  fetch_one := run 7;
  commit_tx := λ tx, (MkDb (log (tx_db tx) ++ [tx_log tx]) (broken (tx_db tx)), Ok tt);
  rollback := tx_db;
  sqlx_error_text := λ e, match e with SqlOther m | SqlDatabase m => m | _ => [] end;
|}.

#[export] Instance sqlx_laws : SqlxLaws sqlx.
Proof.
  refine {| committed := log; base := λ tx, log (tx_db tx); pending := tx_log |};
    intros; cbn; unfold run; try destruct (fails _ _); cbn; rewrite ?app_nil_r; done.
Defined.
End DemoSql.
