(* ===== verification/Upsert.v ===== *)
(** * What an INSERT with a conflict clause leaves ([src/migrations/*.sql],
    [storage/insert/url/satellite/dns.rs])

    The batch statements of the child tables end in [ON CONFLICT(..) DO NOTHING] or
    [DO UPDATE SET c=excluded.c]; the meaning SQLite gives to them on a table whose key columns
    are NOT NULL is here: the rows of a statement are inserted one after the other, a row whose
    key is in the table is dropped, or its one column replaces that of the row in place. *)

From Stdlib Require Import SpecFloat.
From S2P Require Import Prelude ExportRow Sql.

#[export] Instance spec_float_eq_dec : EqDecision spec_float.
Proof. solve_decision. Defined.
#[export] Instance SqlValue_eq_dec : EqDecision SqlValue.
Proof. solve_decision. Defined.

(** ** Rows and conflicts *)

Definition TableRow : Type := list SqlValue.

Inductive Conflict :=
  | DoNothing (key : list str)
  | DoUpdate (key : list str) (column : str).

Definition conflict_key (c : Conflict) : list str :=
  match c with DoNothing key | DoUpdate key _ => key end.

Definition conflict_text (c : Conflict) : str :=
  lit "ON CONFLICT(" ++ join (lit ", ") (conflict_key c)
  ++ match c with
     | DoNothing _ => lit ") DO NOTHING"
     | DoUpdate _ column => lit ") DO UPDATE SET " ++ column ++ lit "=excluded." ++ column
     end.

Definition cell_of (columns : list str) (row : TableRow) (c : str) : option SqlValue :=
  snd <$> List.find (λ p, streqb p.1 c) (zip columns row).
Definition key_agrees (columns key : list str) (a b : TableRow) : bool :=
  forallb (λ c, bool_decide (cell_of columns a c = cell_of columns b c)) key.
Definition set_column (columns : list str) (column : str) (new old : TableRow) : TableRow :=
  map (λ p, if streqb p.1 column then p.2.1 else p.2.2) (zip columns (zip new old)).

Definition insert_row (columns : list str) (c : Conflict) (table : list TableRow) (row : TableRow)
  : list TableRow :=
  if existsb (key_agrees columns (conflict_key c) row) table then
    match c with
    | DoNothing _ => table
    | DoUpdate key column =>
        map (λ old, if key_agrees columns key row old then set_column columns column row old else old)
          table
    end
  else table ++ [row].

(** A plan of at most one batch, run on the rows [before], leaves the rows [after]. *)
Definition leaves (table : str) (columns : list str) (c : Conflict) (plan : list Statement)
  (before after : list TableRow) : Prop :=
  plan = [] ∧ after = before
  ∨ ∃ s rows, plan = [s]
    ∧ sql s = build_batch_insert_query table columns (length rows) (Some (conflict_text c))
    ∧ binds s = concat rows
    ∧ Forall (λ row, length row = length columns) rows
    ∧ after = foldl (insert_row columns c) before rows.

(** ** First occurrences and last values *)

Section Merge.
Context {F K : Type} `{EqDecision K}.

Definition see (seen : list K) (x : K) : list K :=
  if bool_decide (x ∈ seen) then seen else seen ++ [x].
(** Each element once, in the order of the first occurrences. *)
Definition first_seen (l : list K) : list K := foldl see [] l.
(** The value that came last with a key. *)
Definition last_value (l : list (F * K)) (k : K) : option F :=
  list.last (map fst (List.filter (λ x, bool_decide (x.2 = k)) l)).

Lemma first_seen_snoc l x : first_seen (l ++ [x]) = see (first_seen l) x.
Proof. unfold first_seen. by rewrite foldl_app. Qed.

Lemma first_seen_spec l : NoDup (first_seen l) ∧ ∀ x, x ∈ first_seen l <-> x ∈ l.
Proof.
  induction l as [|x l [Hn Hi]] using rev_ind.
  { split; [constructor|]. intros y. split; intros H; by apply elem_of_nil in H. }
  rewrite first_seen_snoc. unfold see. case_bool_decide as Hx; split.
  - done.
  - intros y. rewrite elem_of_app, list_elem_of_singleton, Hi. rewrite Hi in Hx.
    split; [by left|]. by intros [?| ->].
  - apply list.NoDup_app. split_and!; [done| |apply NoDup_singleton].
    intros y Hy ->%list_elem_of_singleton. done.
  - intros y. rewrite !elem_of_app, !list_elem_of_singleton, Hi. done.
Qed.

Lemma last_value_snoc l f k k' :
  last_value (l ++ [(f, k)]) k' = if bool_decide (k = k') then Some f else last_value l k'.
Proof.
  unfold last_value. rewrite List.filter_app, map_app. cbn [List.filter snd].
  case_bool_decide; cbn [map fst].
  - by rewrite last_snoc.
  - by rewrite app_nil_r.
Qed.

Lemma last_value_known (l : list (F * K)) k : k ∈ map snd l -> ∃ f, last_value l k = Some f.
Proof.
  induction l as [|[f k'] l IH] using rev_ind; [by intros ?%elem_of_nil|].
  rewrite map_app, elem_of_app, last_value_snoc. cbn [map snd]. rewrite list_elem_of_singleton.
  case_bool_decide; [eauto|]. intros [Hm| ->]; [by apply IH|done].
Qed.
End Merge.

Lemma first_seen_map {A K} `{EqDecision A, EqDecision K} (f : A -> K) (l : list A) :
  Inj (=) (=) f -> first_seen (map f l) = map f (first_seen l).
Proof.
  intros Hf. induction l as [|a l IH] using rev_ind; [done|].
  rewrite map_app. cbn [map]. rewrite !first_seen_snoc, IH. unfold see.
  assert (E : f a ∈ map f (first_seen l) <-> a ∈ first_seen l).
  { rewrite !list_elem_of_In, in_map_iff. split; [|intros H; by exists a].
    intros (b & Hb%Hf & H). by subst b. }
  rewrite (bool_decide_ext _ _ E). case_bool_decide; [done|]. by rewrite map_app.
Qed.

(** ** Inserting the rows of a list of answers *)

Section Answers.
Context {A : Type} `{EqDecision A}.
Context (columns key : list str) (row : A -> TableRow) (others : list TableRow).
Context (Hkey : ∀ a b, key_agrees columns key (row a) (row b) = bool_decide (a = b)).
Context (Hothers : ∀ a o, o ∈ others -> key_agrees columns key (row a) o = false).

(** Answers whose key is the whole row: each is kept once. *)
Lemma insert_distinct l :
  foldl (insert_row columns (DoNothing key)) others (map row l)
  = others ++ map row (first_seen l).
Proof.
  induction l as [|a l IH] using rev_ind; [by rewrite app_nil_r|].
  rewrite map_app, foldl_app, IH, first_seen_snoc. cbn [map foldl]. unfold insert_row, see.
  cbn [conflict_key].
  assert (E : existsb (key_agrees columns key (row a)) (others ++ map row (first_seen l))
              = bool_decide (a ∈ first_seen l)).
  { apply eq_true_iff_eq. rewrite bool_decide_eq_true, existsb_exists. split.
    - intros (o & Ho & Hs). apply list_elem_of_In, elem_of_app in Ho as [Ho|Ho].
      + by rewrite (Hothers a o Ho) in Hs.
      + apply list_elem_of_In, in_map_iff in Ho as (b & <- & Hb).
        rewrite Hkey, bool_decide_eq_true in Hs. subst b. by apply list_elem_of_In.
    - intros Ha. exists (row a). rewrite Hkey. split; [|by apply bool_decide_eq_true].
      apply in_or_app. right. apply in_map. by apply list_elem_of_In. }
  rewrite E. case_bool_decide; [done|]. by rewrite map_app, app_assoc.
Qed.
End Answers.

Section Keyed.
Context {F K : Type} `{EqDecision K}.
Context (columns key : list str) (column : str) (row : F * K -> TableRow).
Context (Hkey : ∀ a b, key_agrees columns key (row a) (row b) = bool_decide (a.2 = b.2)).
Context (Hset : ∀ f g k, set_column columns column (row (f, k)) (row (g, k)) = row (f, k)).

Definition foreign (others : list TableRow) : Prop :=
  ∀ a o, o ∈ others -> key_agrees columns key (row a) o = false.

(** The answers kept of a list: each key once, with the value that came last. *)
Definition keep_latest (kept : list (F * K)) (a : F * K) : list (F * K) :=
  if bool_decide (a.2 ∈ map snd kept)
  then map (λ b, if bool_decide (a.2 = b.2) then a else b) kept else kept ++ [a].

Lemma insert_latest others l : foreign others ->
  foldl (insert_row columns (DoUpdate key column)) others (map row l)
  = others ++ map row (foldl keep_latest [] l).
Proof.
  intros Ho. induction l as [|[f k] l IH] using rev_ind; [by rewrite app_nil_r|].
  rewrite !map_app, !foldl_app, IH. cbn [map foldl]. set (kept := foldl keep_latest [] l).
  unfold insert_row, keep_latest. cbn [conflict_key snd].
  assert (E : existsb (key_agrees columns key (row (f, k))) (others ++ map row kept)
              = bool_decide (k ∈ map snd kept)).
  { apply eq_true_iff_eq. rewrite bool_decide_eq_true, existsb_exists, list_elem_of_In, in_map_iff.
    split.
    - intros (o & Hin & Hs). apply list_elem_of_In, elem_of_app in Hin as [Hin|Hin].
      + by rewrite (Ho (f, k) o Hin) in Hs.
      + apply list_elem_of_In, in_map_iff in Hin as (b & <- & Hb). exists b.
        rewrite Hkey, bool_decide_eq_true in Hs. by split.
    - intros (b & Hb & Hin). exists (row b). rewrite Hkey, bool_decide_eq_true.
      split; [apply in_or_app; right; by apply in_map|by symmetry]. }
  rewrite E. case_bool_decide as Hx; [|by rewrite map_app, app_assoc].
  rewrite map_app, !map_map. f_equal.
  - rewrite <- (map_id others) at 2. apply map_ext_in. intros o Hin.
    by rewrite (Ho (f, k) o) by by apply list_elem_of_In.
  - apply map_ext. intros [g k']. rewrite Hkey. cbn [snd].
    case_bool_decide as Hb; [subst k'; apply Hset|done].
Qed.
End Keyed.

Lemma keep_latest_spec {F K} `{EqDecision K} (l : list (F * K)) :
  let kept := foldl keep_latest [] l in
  map snd kept = first_seen (map snd l) ∧ ∀ f k, (f, k) ∈ kept <-> last_value l k = Some f.
Proof.
  cbn zeta. induction l as [|[f k] l [Hk Hv]] using rev_ind.
  { split; [done|]. intros f k. by split; [intros ?%elem_of_nil|]. }
  rewrite map_app, foldl_app. cbn [map foldl snd]. rewrite first_seen_snoc.
  revert Hk Hv. generalize (foldl keep_latest [] l). intros kept Hk Hv.
  unfold keep_latest, see. cbn [snd]. rewrite Hk. case_bool_decide as Hx.
  - split.
    + rewrite <- Hk, map_map. apply map_ext. intros [g k']. cbn [snd]. by case_bool_decide.
    + intros g k'. rewrite last_value_snoc, list_elem_of_In, in_map_iff. case_bool_decide as Hkk.
      * subst k'. split.
        -- intros ([g' k''] & Hb & _). cbn [snd] in Hb. case_bool_decide; congruence.
        -- intros [= ->]. rewrite <- Hk in Hx. apply list_elem_of_In, in_map_iff in Hx as (b & Eb & Hb).
           exists b. by rewrite bool_decide_eq_true_2.
      * rewrite <- Hv. split.
        -- intros ([g' k''] & Hb & Hin). cbn [snd] in Hb.
           case_bool_decide; [congruence|]. injection Hb as -> ->. by apply list_elem_of_In.
        -- intros Hin. exists (g, k'). cbn [snd]. rewrite bool_decide_eq_false_2 by done.
           split; [done|]. by apply list_elem_of_In.
  - rewrite map_app, Hk. split; [done|]. intros g k'.
    rewrite elem_of_app, list_elem_of_singleton, Hv, last_value_snoc. case_bool_decide as Hkk.
    + subst k'. split; [|intros [= ->]; by right]. intros [Hg|[= ->]]; [|done].
      exfalso. apply Hx. rewrite <- Hk. apply list_elem_of_In, in_map_iff.
      exists (g, k). split; [done|]. apply list_elem_of_In. by apply Hv.
    + split; [|by left]. by intros [?|[= -> ->]].
Qed.

(** A batch of rows leaves what inserting them one by one does. *)
Lemma batch_leaves {A} (f : Statement -> A -> Statement) (row : A -> TableRow) rows table columns c before :
  binds_row f row -> (∀ a, length (row a) = length columns) ->
  leaves table columns c
    (if nonempty rows then
       [bind_rows f rows
          (query (build_batch_insert_query table columns (length rows) (Some (conflict_text c))))]
     else [])
    before (foldl (insert_row columns c) before (map row rows)).
Proof.
  intros Hf Hl. rewrite (bind_rows_spec f row) by done. destruct rows as [|a rows]; [by left|].
  right. eexists _, (map row (a :: rows)). rewrite length_map. split_and!; try reflexivity.
  apply List.Forall_forall. intros r (x & <- & _)%in_map_iff. apply Hl.
Qed.
