(* ===== verification/Dns.v ===== *)
(** * DNS and TLS data ([src/src/models.rs], [dns/extract.rs], [dns/records.rs],
    [dns/resolution.rs], [fetch/dns/tls_dns.rs], [fetch/dns/additional.rs])

    The lookups of one host and what is made of their answers.  The resolver is the
    parameter [Resolver], the TLS handshake an argument; lookups that run in parallel are
    independent, so their order does not show.  Time measurements are left out. *)

From S2P Require Import Prelude Sanitize Net Security Errors ExportRow Json.

(** ** models.rs *)

Inductive KeyAlgorithm :=
  | RSA
  | ECDSA
  | Ed25519
  | Ed448
  | OtherAlgorithm (oid : str).

Definition key_algorithm_as_str (k : KeyAlgorithm) : str :=
  match k with
  | RSA => lit "RSA"
  | ECDSA => lit "ECDSA"
  | Ed25519 => lit "Ed25519"
  | Ed448 => lit "Ed448"
  | OtherAlgorithm oid => oid
  end.

Definition from_oid (oid_str : str) : KeyAlgorithm :=
  if streqb oid_str (lit "1.2.840.113549.1.1.1") then RSA
  else if streqb oid_str (lit "1.2.840.10045.2.1") then ECDSA
  else if streqb oid_str (lit "1.3.101.112") then Ed25519
  else if streqb oid_str (lit "1.3.101.113") then Ed448
  else OtherAlgorithm oid_str.

Inductive TlsVersion := Tls10 | Tls11 | Tls12 | Tls13 | Ssl30 | UnknownTls.

Definition tls_version_as_str (v : TlsVersion) : str :=
  match v with
  | Tls10 => lit "TLSv1.0"
  | Tls11 => lit "TLSv1.1"
  | Tls12 => lit "TLSv1.2"
  | Tls13 => lit "TLSv1.3"
  | Ssl30 => lit "SSLv3"
  | UnknownTls => lit "Unknown"
  end.

(** A [NaiveDateTime] is its number of nanoseconds since the epoch; a [HashSet] is a map
    to [unit]. *)
Record CertificateInfo := MkCertificate {
  cert_tls_version : option TlsVersion;
  cert_subject : option str;
  cert_issuer : option str;
  cert_valid_from : option Z;
  cert_valid_to : option Z;
  cert_oids : option (gmap str unit);
  cert_cipher_suite : option str;
  cert_key_algorithm : option KeyAlgorithm;
  cert_subject_alternative_names : option (list str);
  cert_fingerprint : option str;
  cert_serial : option str;
  cert_self_signed : option bool;
  cert_wildcard : option bool;
}.

Definition default_certificate : CertificateInfo :=
  MkCertificate None None None None None None None None None None None None None.

(** ** Text from bytes

    [String::from_utf8_lossy]: an ill-formed sequence becomes U+FFFD, one per maximal
    prefix of a well-formed one. *)

Definition replacement : Z := 65533.
Definition within (lo hi b : Z) : bool := (lo <=? b) && (b <=? hi).
Definition second_of_three (b0 b1 : Z) : bool :=
  if b0 =? 224 then within 160 191 b1
  else if b0 =? 237 then within 128 159 b1 else is_continuation b1.
Definition second_of_four (b0 b1 : Z) : bool :=
  if b0 =? 240 then within 144 191 b1
  else if b0 =? 244 then within 128 143 b1 else is_continuation b1.

Fixpoint from_utf8_lossy (bs : list Z) : str :=
  match bs with
  | [] => []
  | b0 :: r0 =>
      if b0 <? 128 then b0 :: from_utf8_lossy r0
      else if within 194 223 b0 then
        match r0 with
        | b1 :: r1 =>
            if is_continuation b1
            then ((b0 - 192) * 64 + (b1 - 128)) :: from_utf8_lossy r1
            else replacement :: from_utf8_lossy r0
        | [] => [replacement]
        end
      else if within 224 239 b0 then
        match r0 with
        | b1 :: r1 =>
            if second_of_three b0 b1 then
              match r1 with
              | b2 :: r2 =>
                  if is_continuation b2
                  then ((b0 - 224) * 4096 + (b1 - 128) * 64 + (b2 - 128)) :: from_utf8_lossy r2
                  else replacement :: from_utf8_lossy r1
              | [] => [replacement]
              end
            else replacement :: from_utf8_lossy r0
        | [] => [replacement]
        end
      else if within 240 244 b0 then
        match r0 with
        | b1 :: r1 =>
            if second_of_four b0 b1 then
              match r1 with
              | b2 :: r2 =>
                  if is_continuation b2 then
                    match r2 with
                    | b3 :: r3 =>
                        if is_continuation b3
                        then ((b0 - 240) * 262144 + (b1 - 128) * 4096 + (b2 - 128) * 64
                              + (b3 - 128)) :: from_utf8_lossy r3
                        else replacement :: from_utf8_lossy r2
                    | [] => [replacement]
                    end
                  else replacement :: from_utf8_lossy r1
              | [] => [replacement]
              end
            else replacement :: from_utf8_lossy r0
        | [] => [replacement]
        end
      else replacement :: from_utf8_lossy r0
  end.

(** ** extract.rs *)

(** [str::get(..n)]: [None] when [n] bytes are not a whole number of characters. *)
Fixpoint get_to (n : nat) (s : str) : option str :=
  match n, s with
  | O, _ => Some []
  | _, [] => None
  | _, c :: r =>
      let w := length (encode_char c) in
      if (n <? w)%nat then None else cons c <$> get_to (n - w) r
  end.

Definition starts_with_tag (txt tag : str) : bool :=
  match get_to (length (encode tag)) (trim txt) with
  | Some prefix => eq_ignore_ascii_case prefix tag
  | None => false
  end.

Definition extract_first (txt_records : list str) (pred : str -> bool) : option str :=
  trim <$> List.find pred txt_records.

Definition is_spf_txt (txt : str) : bool := starts_with_tag txt (lit "v=spf1").
Definition is_dmarc_txt (txt : str) : bool := starts_with_tag txt (lit "v=dmarc1").
Definition is_mta_sts_txt (txt : str) : bool := starts_with_tag txt (lit "v=stsv1").
Definition is_tls_rpt_txt (txt : str) : bool := starts_with_tag txt (lit "v=tlsrptv1").
Definition is_bimi_txt (txt : str) : bool := starts_with_tag txt (lit "v=bimi1").
Definition extract_spf_record (l : list str) : option str := extract_first l is_spf_txt.
Definition extract_dmarc_record (l : list str) : option str := extract_first l is_dmarc_txt.
Definition extract_mta_sts_record (l : list str) : option str := extract_first l is_mta_sts_txt.
Definition extract_tls_rpt_record (l : list str) : option str := extract_first l is_tls_rpt_txt.
Definition extract_bimi_record (l : list str) : option str := extract_first l is_bimi_txt.

(** ** records.rs *)

Inductive RecordType := TyNS | TyTXT | TyMX | TyCNAME | TyAAAA | TyCAA.

(** [RData] of hickory with names and addresses as the text the code takes from them. *)
Inductive RData :=
  | RNS (name : str)
  | RTXT (txt_data : list (list Z))
  | RMX (preference : Z) (exchange : str)
  | RCNAME (name : str)
  | RAAAA (addr : str)
  | RCAA (issuer_critical : bool) (tag : str) (value : list Z)
  | RPTR (name : str)
  | ROther.

Class Resolver := {
  lookup_rr : str -> RecordType -> result (list RData) NetError;
  lookup_ip : str -> result (list IpAddr) NetError;
  reverse_lookup : IpAddr -> result (list RData) NetError;
}.

(** [Display] and [FromStr] of [IpAddr]. *)
Class IpText := { ip_to_string : IpAddr -> str; ip_parse : str -> option IpAddr }.

Definition MAX_TXT_RECORD_SIZE : nat := Z.to_nat 1024.
Definition MAX_TXT_RECORD_COUNT : nat := 20.

Definition net_error (e : NetError) : AnyhowError := MkAnyhow [] (CNet e) [].

Definition map_lookup_error {T} (err : NetError) : result (list T) AnyhowError :=
  if is_no_records_found err || is_nx_domain err then Ok [] else Err (net_error err).

Definition is_storable_txt (txt : str) : bool := nonempty (trim txt).

Definition bound_txt_record (concatenated : str) : str :=
  if (length (encode concatenated) <=? MAX_TXT_RECORD_SIZE)%nat then concatenated
  else from_utf8_lossy (truncate_utf8 (encode concatenated) MAX_TXT_RECORD_SIZE).

Definition take_storable_txt (records : list str) : list str :=
  take MAX_TXT_RECORD_COUNT (List.filter is_storable_txt records).

Definition sort_by_priority : list (Z * str) -> list (Z * str) := sort_by_key fst.

Section Lookups.
Context `{R : Resolver}.

Definition lookup_mapped {T} (domain : str) (record_type : RecordType)
  (f : RData -> option T) : result (list T) AnyhowError :=
  match lookup_rr domain record_type with
  | Ok answers => Ok (omap f answers)
  | Err err => map_lookup_error err
  end.

Definition lookup_ns_records (domain : str) : result (list str) AnyhowError :=
  lookup_mapped domain TyNS (λ d, match d with RNS ns => Some ns | _ => None end).

Definition lookup_txt_records (domain : str) : result (list str) AnyhowError :=
  match lookup_rr domain TyTXT with
  | Ok answers =>
      Ok (take_storable_txt
            (omap (λ d, match d with
                        | RTXT txt_data =>
                            Some (bound_txt_record (concat (map from_utf8_lossy txt_data)))
                        | _ => None
                        end) answers))
  | Err err => map_lookup_error err
  end.

Definition lookup_mx_records (domain : str) : result (list (Z * str)) AnyhowError :=
  mx_records ←? lookup_mapped domain TyMX
    (λ d, match d with RMX preference exchange => Some (preference, exchange) | _ => None end);
  Ok (sort_by_priority mx_records).

Definition lookup_cname_records (domain : str) : result (list str) AnyhowError :=
  lookup_mapped domain TyCNAME (λ d, match d with RCNAME name => Some name | _ => None end).

Definition lookup_aaaa_records (domain : str) : result (list str) AnyhowError :=
  lookup_mapped domain TyAAAA (λ d, match d with RAAAA addr => Some addr | _ => None end).

Definition lookup_caa_records (domain : str) : result (list (Z * str * str)) AnyhowError :=
  lookup_mapped domain TyCAA
    (λ d, match d with
          | RCAA issuer_critical tag value =>
              Some (if issuer_critical then 128 else 0, tag, from_utf8_lossy value)
          | _ => None
          end).

(** ** resolution.rs *)

(** The loop returns the first public address and remembers the first of all. *)
Fixpoint prefer_public_go (first : option IpAddr) (ips : list IpAddr) : option IpAddr :=
  match ips with
  | [] => first
  | ip :: rest =>
      if is_public_ip ip then Some ip
      else prefer_public_go (match first with None => Some ip | Some _ => first end) rest
  end.
Definition prefer_public_ip (ips : list IpAddr) : option IpAddr := prefer_public_go None ips.

Context `{T : IpText}.

Definition resolve_host_to_ip (host : str) : result str AnyhowError :=
  match lookup_ip host with
  | Err e => Err (net_error e)
  | Ok response =>
      match prefer_public_ip response with
      | Some ip => Ok (ip_to_string ip)
      | None => Err (MkAnyhow [] (CMessage (lit "No IP addresses found")) [])
      end
  end.

Definition reverse_dns_lookup (ip : str) : result (option str) AnyhowError :=
  match ip_parse ip with
  | None => Err (MkAnyhow [] (CMessage (lit "invalid IP address syntax")) [])
  | Some addr =>
      match reverse_lookup addr with
      | Ok answers =>
          Ok (head (omap (λ d, match d with RPTR name => Some name | _ => None end) answers))
      | Err _ => Ok None
      end
  end.
End Lookups.

(** ** fetch/utils.rs, fetch/dns *)

Definition serialize_json_with_default `{Serde} (value : Value) (default_text : str) : str :=
  default default_text (to_json_string value).

Abbreviation Failures := (list (ErrorType * str)).

(** The bytes of the stored message read as text; they are well-formed. *)
Definition stored_message (message : str) : str :=
  from_utf8_lossy (sanitize_and_truncate_error_message message).

Record AdditionalDnsData := MkAdditional {
  ad_nameservers : option str;
  ad_txt_records : option str;
  ad_mx_records : option str;
  ad_spf_record : option str;
  ad_dmarc_record : option str;
  ad_mta_sts_record : option str;
  ad_tls_rpt_record : option str;
  ad_bimi_record : option str;
  ad_cname_chain : option str;
  ad_aaaa_records : option str;
  ad_caa_records : option str;
}.

Record TlsDnsData := MkTlsDns {
  td_tls_version : option TlsVersion;
  td_subject : option str;
  td_issuer : option str;
  td_valid_from : option Z;
  td_valid_to : option Z;
  td_oids : option (gmap str unit);
  td_cipher_suite : option str;
  td_key_algorithm : option KeyAlgorithm;
  td_subject_alternative_names : option (list str);
  td_ip_address : option str;
  td_reverse_dns_name : option str;
  td_cert_fingerprint_sha256 : option str;
  td_cert_serial_number : option str;
  td_cert_is_self_signed : option bool;
  td_cert_is_wildcard : option bool;
}.

Definition mx_json (r : Z * str) : Value :=
  json_object [(lit "priority", of_int r.1); (lit "hostname", of_str r.2)].
Definition caa_json (r : Z * str * str) : Value :=
  json_object [(lit "flag", of_int r.1.1); (lit "tag", of_str r.1.2); (lit "value", of_str r.2)].

(** The arms of one record type: the text of a non-empty answer, nothing for an empty one,
    and on an error a counter and a partial failure. *)
Definition dns_field `{Serde} {A} (label : str) (kind : ErrorType) (final_domain : str)
  (to_value : A -> Value) (r : result (list A) AnyhowError)
  (st : ProcessingStats * Failures) : option str * (ProcessingStats * Failures) :=
  match r with
  | Ok ((_ :: _) as l) =>
      (Some (serialize_json_with_default (of_vec to_value l) (lit "[]")), st)
  | Ok [] => (None, st)
  | Err e =>
      let error_msg := lit "Failed to lookup " ++ label ++ lit " records for " ++ final_domain
                       ++ lit ": " ++ error_to_string e in
      (None, (increment_error st.1 kind, st.2 ++ [(kind, stored_message error_msg)]))
  end.

Section Fetch.
Context `{R : Resolver} `{T : IpText} `{J : Serde}.

Definition subdomain_record (name : str) (extract : list str -> option str) : option str :=
  match lookup_txt_records name with Ok txts => extract txts | Err _ => None end.

Definition fetch_additional_dns_records (final_domain : str) (error_stats : ProcessingStats)
  : AdditionalDnsData * Failures * ProcessingStats :=
  let txt_result := lookup_txt_records final_domain in
  let (nameservers, st) := dns_field (lit "NS") DnsNsLookupError final_domain of_str
    (lookup_ns_records final_domain) (error_stats, []) in
  let txt_for_extraction := match txt_result with Ok records => records | Err _ => [] end in
  let (txt_records, st) := dns_field (lit "TXT") DnsTxtLookupError final_domain of_str
    txt_result st in
  let spf_record := extract_spf_record txt_for_extraction in
  let dmarc_record :=
    match extract_dmarc_record txt_for_extraction with
    | Some r => Some r
    | None => subdomain_record (lit "_dmarc." ++ final_domain) extract_dmarc_record
    end in
  let mta_sts_record :=
    subdomain_record (lit "_mta-sts." ++ final_domain) extract_mta_sts_record in
  let tls_rpt_record :=
    subdomain_record (lit "_smtp._tls." ++ final_domain) extract_tls_rpt_record in
  let bimi_record :=
    subdomain_record (lit "default._bimi." ++ final_domain) extract_bimi_record in
  let (mx_records, st) := dns_field (lit "MX") DnsMxLookupError final_domain mx_json
    (lookup_mx_records final_domain) st in
  let (cname_chain, st) := dns_field (lit "CNAME") DnsCnameLookupError final_domain of_str
    (lookup_cname_records final_domain) st in
  let (aaaa_records, st) := dns_field (lit "AAAA") DnsAaaaLookupError final_domain of_str
    (lookup_aaaa_records final_domain) st in
  let (caa_records, st) := dns_field (lit "CAA") DnsCaaLookupError final_domain caa_json
    (lookup_caa_records final_domain) st in
  (MkAdditional nameservers txt_records mx_records spf_record dmarc_record mta_sts_record
     tls_rpt_record bimi_record cname_chain aaaa_records caa_records, st.2, st.1).

(** [get_ssl_certificate_info] is the handshake of [tls/mod.rs]; its error is its text. *)
Definition fetch_tls_and_dns (get_ssl_certificate_info : str -> result CertificateInfo str)
  (final_url host final_domain : str) (error_stats : ProcessingStats)
  : TlsDnsData * Failures * ProcessingStats :=
  let tls_result :=
    if starts_with (lit "https://") final_url then get_ssl_certificate_info host
    else Ok default_certificate in
  let dns_result :=
    ip ←? resolve_host_to_ip host;
    reverse_dns ←? reverse_dns_lookup ip;
    Ok (ip, reverse_dns) in
  let (cert, st) :=
    match tls_result with
    | Ok cert_info => (cert_info, (error_stats, []))
    | Err e =>
        let error_msg := lit "Failed to get SSL certificate info for " ++ final_domain
                         ++ lit ": " ++ e in
        (default_certificate,
         (increment_error error_stats TlsCertificateError,
          [(TlsCertificateError, stored_message error_msg)]))
    end in
  let '(ip_address, reverse_dns_name, st) :=
    match dns_result with
    | Ok (ip, reverse_dns) => (Some ip, reverse_dns, st)
    | Err e =>
        let error_msg := lit "Failed to resolve DNS for " ++ final_domain ++ lit ": "
                         ++ error_to_string e in
        (None, None,
         (increment_error st.1 DnsForwardLookupError,
          st.2 ++ [(DnsForwardLookupError, stored_message error_msg)]))
    end in
  (MkTlsDns (cert_tls_version cert) (cert_subject cert) (cert_issuer cert)
     (cert_valid_from cert) (cert_valid_to cert) (cert_oids cert) (cert_cipher_suite cert)
     (cert_key_algorithm cert) (cert_subject_alternative_names cert) ip_address
     reverse_dns_name (cert_fingerprint cert) (cert_serial cert) (cert_self_signed cert)
     (cert_wildcard cert), st.2, st.1).

Definition fetch_all_dns_data (get_ssl_certificate_info : str -> result CertificateInfo str)
  (final_url host final_domain : str) (error_stats : ProcessingStats)
  : TlsDnsData * AdditionalDnsData * Failures * ProcessingStats :=
  let '(tls_dns_data, partial_failures, error_stats) :=
    fetch_tls_and_dns get_ssl_certificate_info final_url host final_domain error_stats in
  let '(additional_dns, more, error_stats) :=
    fetch_additional_dns_records final_domain error_stats in
  (tls_dns_data, additional_dns, partial_failures ++ more, error_stats).
End Fetch.

(** ** Lemmas *)

(** A [char]: a scalar value, not a surrogate. *)
Definition char_ok (c : Z) : bool := within 0 55295 c || within 57344 1114111 c.
Definition byte_ok (b : Z) : bool := within 0 255 b.

Lemma char_scalar s : forallb char_ok s = true -> Forall scalar s.
Proof.
  intros H. apply List.Forall_forall. intros c Hc. rewrite forallb_forall in H.
  specialize (H c Hc). unfold char_ok, within, scalar in *. lia.
Qed.

Ltac utf8_arith :=
  unfold char_ok, byte_ok, replacement, second_of_three, second_of_four in *;
  unfold within, is_continuation in *;
  repeat case_match; lia.

(** Whatever the bytes are, the text is made of characters. *)
Lemma from_utf8_lossy_chars bs :
  forallb byte_ok bs = true -> forallb char_ok (from_utf8_lossy bs) = true.
Proof.
  induction bs as [bs IH] using (induction_ltof1 _ (@length Z)). unfold ltof in IH.
  destruct bs as [|b0 r0]; [done|]. cbn [forallb]. rewrite andb_true_iff. intros [H0 Hr].
  cbn [from_utf8_lossy].
  repeat match goal with
    | |- context [if ?b then _ else _] => destruct b eqn:?
    | |- context [match ?l with [] => _ | _ => _ end] => is_var l; destruct l
    end; cbn [forallb length] in *; rewrite ?andb_true_iff in *; destruct_and?; try done;
  (split; [|apply IH; [cbn; lia|cbn [forallb]; rewrite ?andb_true_iff; tauto]]); clear IH; utf8_arith.
Qed.

Lemma sixty_four x : x = 64 * (x / 64) + x mod 64 ∧ 0 <= x mod 64 < 64.
Proof. split; [apply Z.div_mod; lia|apply Z.mod_pos_bound; lia]. Qed.

Lemma lossy_two b0 b1 r :
  within 194 223 b0 = true -> is_continuation b1 = true ->
  from_utf8_lossy (b0 :: b1 :: r) = ((b0 - 192) * 64 + (b1 - 128)) :: from_utf8_lossy r.
Proof.
  intros H0 H1. cbn [from_utf8_lossy].
  replace (b0 <? 128) with false by (unfold within in H0; lia). by rewrite H0, H1.
Qed.

Lemma lossy_three b0 b1 b2 r :
  within 224 239 b0 = true -> second_of_three b0 b1 = true -> is_continuation b2 = true ->
  from_utf8_lossy (b0 :: b1 :: b2 :: r)
  = ((b0 - 224) * 4096 + (b1 - 128) * 64 + (b2 - 128)) :: from_utf8_lossy r.
Proof.
  intros H0 H1 H2. cbn [from_utf8_lossy].
  replace (b0 <? 128) with false by (unfold within in H0; lia).
  replace (within 194 223 b0) with false by (unfold within in *; lia). by rewrite H0, H1, H2.
Qed.

Lemma lossy_four b0 b1 b2 b3 r :
  within 240 244 b0 = true -> second_of_four b0 b1 = true -> is_continuation b2 = true ->
  is_continuation b3 = true ->
  from_utf8_lossy (b0 :: b1 :: b2 :: b3 :: r)
  = ((b0 - 240) * 262144 + (b1 - 128) * 4096 + (b2 - 128) * 64 + (b3 - 128))
    :: from_utf8_lossy r.
Proof.
  intros H0 H1 H2 H3. cbn [from_utf8_lossy].
  replace (b0 <? 128) with false by (unfold within in H0; lia).
  replace (within 194 223 b0) with false by (unfold within in *; lia).
  replace (within 224 239 b0) with false by (unfold within in *; lia).
  by rewrite H0, H1, H2, H3.
Qed.

Lemma from_utf8_lossy_char c r :
  char_ok c = true -> from_utf8_lossy (encode_char c ++ r) = c :: from_utf8_lossy r.
Proof.
  intros Hc. unfold encode_char.
  replace (c / 262144) with (c / 64 / 64 / 64) by (rewrite !Z.div_div by lia; reflexivity).
  replace (c / 4096) with (c / 64 / 64) by (rewrite !Z.div_div by lia; reflexivity).
  destruct (sixty_four c), (sixty_four (c / 64)), (sixty_four (c / 64 / 64)).
  assert (0 <= c < 1114112) by (unfold char_ok, within in Hc; lia).
  set (m1 := c mod 64) in *. set (q1 := c / 64) in *. set (m2 := q1 mod 64) in *.
  set (q2 := q1 / 64) in *. set (m3 := q2 mod 64) in *. set (q3 := q2 / 64) in *.
  clearbody m1 q1 m2 q2 m3 q3.
  destruct (Z.ltb_spec c 128); [|destruct (Z.ltb_spec c 2048);
    [|destruct (Z.ltb_spec c 65536)]]; cbn [app].
  - cbn [from_utf8_lossy]. by replace (c <? 128) with true by lia.
  - rewrite lossy_two by utf8_arith. f_equal. lia.
  - rewrite lossy_three by utf8_arith. f_equal. lia.
  - rewrite lossy_four by utf8_arith. f_equal. lia.
Qed.

Lemma from_utf8_lossy_encode s :
  forallb char_ok s = true -> from_utf8_lossy (encode s) = s.
Proof.
  induction s as [|c s IH]; [done|]. cbn [forallb]. rewrite andb_true_iff. intros [Hc Hs].
  by rewrite encode_cons, from_utf8_lossy_char, IH.
Qed.

(** *** Prefixes *)

Lemma encode_char_pos c : (0 < length (encode_char c))%nat.
Proof. unfold encode_char. repeat case_match; cbn; lia. Qed.

Lemma get_to_app p r : get_to (length (encode p)) (p ++ r) = Some p.
Proof.
  induction p as [|c p IH]; [by destruct r|]. rewrite encode_cons, length_app.
  pose proof (encode_char_pos c). cbn [app get_to].
  destruct (length (encode_char c) + length (encode p))%nat eqn:E; [lia|]. rewrite <- E.
  destruct (Nat.ltb_spec (length (encode_char c) + length (encode p)) (length (encode_char c)));
    [lia|].
  replace (_ + _ - _)%nat with (length (encode p)) by lia. by rewrite IH.
Qed.

Lemma get_to_prefix n s p : get_to n s = Some p -> ∃ r, s = p ++ r.
Proof.
  revert n p. induction s as [|c s IH]; intros [|n] p; cbn [get_to].
  - intros [= <-]. by exists [].
  - done.
  - intros [= <-]. by exists (c :: s).
  - case_match; [done|]. destruct (get_to _ s) as [q|] eqn:E; [|done]. intros [= <-].
    destruct (IH _ _ E) as [r ->]. by exists r.
Qed.

Lemma length_encode_ascii s : forallb is_ascii s = true -> length (encode s) = length s.
Proof.
  induction s as [|c s IH]; [done|]. cbn [forallb]. rewrite andb_true_iff. intros [Hc Hs].
  rewrite encode_cons, length_app, IH by done. unfold encode_char, is_ascii in *.
  by rewrite Hc.
Qed.

Lemma eq_ignore_ascii p tag :
  eq_ignore_ascii_case p tag = true -> forallb is_ascii tag = true ->
  forallb is_ascii p = true ∧ length p = length tag.
Proof.
  rewrite eq_ignore_ascii_case_iff. revert tag.
  induction p as [|c p IH]; intros [|t tag]; try done. cbn [to_ascii_lowercase map forallb].
  intros [= Ec E]. rewrite !andb_true_iff. intros [Ht Htag].
  destruct (IH tag E Htag) as [-> Hl]. cbn [length]. rewrite Hl. split_and!; [|done|done].
  unfold is_ascii, ascii_lower, is_ascii_upper in *. repeat case_match; lia.
Qed.

(** A record carries a tag when its trimmed text starts with it, in any case. *)
Lemma starts_with_tag_iff txt tag :
  forallb is_ascii tag = true ->
  starts_with_tag txt tag = true <->
  ∃ p r, trim txt = p ++ r ∧ eq_ignore_ascii_case p tag = true.
Proof.
  intros Htag. unfold starts_with_tag. split.
  - destruct (get_to _ _) as [p|] eqn:E; [|done]. intros H.
    destruct (get_to_prefix _ _ _ E) as [r ->]. by exists p, r.
  - intros (p & r & -> & H). destruct (eq_ignore_ascii _ _ H Htag) as [Hp Hl].
    rewrite (length_encode_ascii tag), <- Hl, <- (length_encode_ascii p), get_to_app by done.
    done.
Qed.

(** *** Bounds of TXT records *)

Lemma truncated_text s n :
  forallb char_ok s = true ->
  ∃ k, from_utf8_lossy (truncate_utf8 (encode s) n) = take k s
       ∧ (length (encode (take k s)) <= n)%nat.
Proof.
  intros Hs. destruct (truncate_at_char_boundary_prefix s n (char_scalar s Hs))
    as (k & E & Hk & _). exists k. split; [|done]. unfold truncate_utf8. rewrite E.
  apply from_utf8_lossy_encode. rewrite forallb_forall in *. intros c Hc.
  apply Hs. rewrite <- (take_drop k s). apply in_or_app. by left.
Qed.

Lemma bound_txt_record_bounded s :
  forallb char_ok s = true -> (length (encode (bound_txt_record s)) <= MAX_TXT_RECORD_SIZE)%nat.
Proof.
  intros Hs. unfold bound_txt_record. destruct (Nat.leb_spec (length (encode s)) MAX_TXT_RECORD_SIZE);
    [done|]. by destruct (truncated_text s MAX_TXT_RECORD_SIZE Hs) as (k & -> & ?).
Qed.

Lemma take_storable_txt_spec (P : str -> Prop) l :
  Forall P l ->
  (length (take_storable_txt l) <= MAX_TXT_RECORD_COUNT)%nat
  ∧ Forall (λ t, P t ∧ trim t <> []) (take_storable_txt l).
Proof.
  intros HP. unfold take_storable_txt. split; [rewrite length_take; lia|].
  apply Forall_take, List.Forall_forall. intros t [Ht Hb]%filter_In.
  rewrite List.Forall_forall in HP. split; [auto|].
  unfold is_storable_txt in Hb. by destruct (trim t).
Qed.

Section Theorems.
Context `{R : Resolver} `{T : IpText} `{J : Serde}.

(** What the resolver hands over are bytes. *)
Definition bytes_of (d : RData) : bool :=
  match d with
  | RTXT txt_data => forallb (forallb byte_ok) txt_data
  | _ => true
  end.

Lemma forallb_concat_map {A B} (P : B -> bool) (f : A -> list B) l :
  (∀ a, In a l -> forallb P (f a) = true) -> forallb P (concat (map f l)) = true.
Proof.
  induction l as [|a l IH]; intros H; [done|]. cbn. rewrite forallb_app, H by (by left).
  apply IH. intros x Hx. apply H. by right.
Qed.

(** However many TXT records a zone holds and however long they are, at most 20 are kept,
    none is blank, and each is text of at most 1024 bytes. *)
Theorem txt_records_bounded domain answers :
  lookup_rr domain TyTXT = Ok answers -> forallb bytes_of answers = true ->
  ∃ l, lookup_txt_records domain = Ok l ∧ (length l <= MAX_TXT_RECORD_COUNT)%nat
       ∧ Forall (λ t, (length (encode t) <= MAX_TXT_RECORD_SIZE)%nat ∧ trim t <> []) l.
Proof.
  intros E Hb. unfold lookup_txt_records. rewrite E. eexists. split; [done|].
  apply (take_storable_txt_spec (λ t, length (encode t) <= MAX_TXT_RECORD_SIZE)%nat).
  clear E. induction answers as [|d answers IH]; [constructor|].
  cbn [forallb] in Hb. apply andb_true_iff in Hb as [Hd Hb]. rewrite omap_cons.
  destruct d; try by apply IH. constructor; [|by apply IH].
  apply bound_txt_record_bounded, forallb_concat_map. intros bs Hbs.
  apply from_utf8_lossy_chars. cbn in Hd. rewrite forallb_forall in Hd. auto.
Qed.

(** ** Accounting of failed lookups *)

Definition failed_as {A E} (kind : ErrorType) (r : result A E) : list ErrorType :=
  if is_ok r then [] else [kind].

(** The counters and the recorded failures of a fetch that started with [error_stats]. *)
Definition accounts (error_stats : ProcessingStats) (kinds : list ErrorType)
  (st : ProcessingStats * Failures) : Prop :=
  st.1 = foldl increment_error error_stats kinds ∧ map fst st.2 = kinds.

Lemma accounts_failure error_stats kinds st kind message :
  accounts error_stats kinds st ->
  accounts error_stats (kinds ++ [kind]) (increment_error st.1 kind, st.2 ++ [(kind, message)]).
Proof.
  intros [H1 H2]. split; cbn; [by rewrite foldl_app, <- H1|by rewrite map_app, H2].
Qed.

Lemma dns_field_accounts {A} label kind domain (to_value : A -> Value) r error_stats kinds st :
  accounts error_stats kinds st ->
  accounts error_stats (kinds ++ failed_as kind r) (dns_field label kind domain to_value r st).2
  ∧ ((dns_field label kind domain to_value r st).1 = None
     <-> match r with Ok (_ :: _) => False | _ => True end).
Proof.
  intros H. unfold dns_field, failed_as. destruct r as [[|a l]|e]; cbn [is_ok fst snd].
  - by rewrite app_nil_r.
  - by rewrite app_nil_r.
  - split; [by apply accounts_failure|done].
Qed.

Definition additional_kinds (domain : str) : list ErrorType :=
  failed_as DnsNsLookupError (lookup_ns_records domain)
  ++ failed_as DnsTxtLookupError (lookup_txt_records domain)
  ++ failed_as DnsMxLookupError (lookup_mx_records domain)
  ++ failed_as DnsCnameLookupError (lookup_cname_records domain)
  ++ failed_as DnsAaaaLookupError (lookup_aaaa_records domain)
  ++ failed_as DnsCaaLookupError (lookup_caa_records domain).

Lemma additional_accounts domain error_stats :
  let r := fetch_additional_dns_records domain error_stats in
  accounts error_stats (additional_kinds domain) (r.2, r.1.2).
Proof.
  unfold fetch_additional_dns_records, additional_kinds.
  repeat match goal with
    | |- context [dns_field ?a ?b ?c ?d ?e ?f] =>
        let H := fresh in
        pose proof (λ ks, dns_field_accounts a b c d e error_stats ks f) as H;
        destruct (dns_field a b c d e f) as [? ?]
    end; cbn [fst snd] in *.
  rewrite <- (app_nil_l (failed_as DnsNsLookupError _)), <- surjective_pairing.
  assert (Hnil : accounts error_stats [] (error_stats, [])) by done.
  repeat match goal with
    | H : ∀ ks, accounts _ ks ?st -> _, Hst : accounts _ ?ks ?st |- _ =>
        specialize (H ks Hst); destruct H as [H _]
    end.
  by rewrite !app_assoc in *.
Qed.

(** The lookups of the host: the handshake, then the address with its reverse name. *)
Definition resolve_with_reverse (host : str) : result (str * option str) AnyhowError :=
  ip ←? resolve_host_to_ip host;
  reverse_dns ←? reverse_dns_lookup ip;
  Ok (ip, reverse_dns).

Definition host_kinds (tls : str -> result CertificateInfo str) (final_url host : str)
  : list ErrorType :=
  (if starts_with (lit "https://") final_url then failed_as TlsCertificateError (tls host) else [])
  ++ failed_as DnsForwardLookupError (resolve_with_reverse host).

Lemma tls_and_dns_accounts tls final_url host domain error_stats :
  let r := fetch_tls_and_dns tls final_url host domain error_stats in
  accounts error_stats (host_kinds tls final_url host) (r.2, r.1.2).
Proof.
  unfold fetch_tls_and_dns, host_kinds, failed_as, resolve_with_reverse.
  destruct (starts_with _ _), (tls host), (ip ←? _; _) as [[? ?]|?]; cbn; split; reflexivity.
Qed.


(** The address recorded is the first public one of the answer, or the first at all. *)
Lemma prefer_public_ip_spec ips :
  prefer_public_ip ips
  = match List.find is_public_ip ips with Some ip => Some ip | None => head ips end.
Proof.
  unfold prefer_public_ip.
  enough (H : ∀ first, prefer_public_go first ips
    = match List.find is_public_ip ips with
      | Some ip => Some ip
      | None => match first with None => head ips | _ => first end end) by apply H.
  induction ips as [|ip ips IH]; intros first; [by destruct first|]. cbn.
  destruct (is_public_ip ip); [done|]. rewrite IH. by destruct (List.find _ _), first.
Qed.
End Theorems.

(** ** A concrete zone *)

Module DemoDns.

(** Twenty-five TXT records: an SPF policy of 1,200 bytes, then ill-formed bytes. *)
Definition spf : list Z := encode (lit "V=spf1 include:example.net ") ++ repeat 65 1173.
Definition zone : list RData := RTXT [spf] :: repeat (RTXT [[226; 130]; [65]]) 24.
#[export] Instance resolver : Resolver := {|
  lookup_rr := λ _ ty, match ty with
                       | TyTXT => Ok zone
                       | TyMX => Ok [RMX 20 (lit "b."); RMX 10 (lit "a.")]
                       | TyNS => Err (MkNet false false true (lit "timed out"))
                       | _ => Ok []
                       end;
  lookup_ip := λ _, Ok [V4 (Ipv4Addr 10 0 0 1); V4 (Ipv4Addr 93 184 216 34)];
  reverse_lookup := λ _, Ok [RPTR (lit "host.")];
|}.

Lemma txt_records_bounded_witness :
  ∃ l, lookup_txt_records (lit "example.com") = Ok l
       ∧ length l = 20%nat ∧ length (hd [] l) = 1024%nat ∧ list.last l = Some [65533; 65]
       ∧ extract_spf_record l = head l
       ∧ (length l <= MAX_TXT_RECORD_COUNT)%nat
       ∧ Forall (λ t, (length (encode t) <= MAX_TXT_RECORD_SIZE)%nat ∧ trim t <> []) l.
Proof.
  destruct (txt_records_bounded (R := resolver) (lit "example.com") zone eq_refl ltac:(vm_compute; reflexivity))
    as (l & E & Hn & Hl).
  vm_compute in E. injection E as <-. eexists. split; [vm_compute; reflexivity|].
  do 4 (split; [vm_compute; reflexivity|]). exact (conj Hn Hl).
Defined.

Example mx_sorted :
  lookup_mx_records (lit "example.com") = Ok [(10, lit "a."); (20, lit "b.")].
Proof. vm_compute. reflexivity. Qed.
End DemoDns.
