(* ===== verification/StorageRow.v ===== *)
(** * The fact row ([src/src/storage/models.rs], [storage/insert/url/columns.rs],
    [storage/insert/utils.rs], [export/queries.rs])

    A URL record, the registry of the columns of [url_status] with the value bound to each,
    the INSERT and UPDATE derived from it, and the SELECT of the export that reads the row
    back.  [run_insert], [run_update] and [run_select] give the statements the meaning their
    text says: column names paired with the values bound. *)

From Stdlib Require Import SpecFloat.
From S2P Require Import Prelude Dns ExportRow Retry Sql.

(** ** models.rs *)

Record UrlRecord := MkUrlRecord {
  ur_initial_domain : str;
  ur_final_domain : str;
  ur_initial_url : option str;
  ur_final_url : option str;
  ur_ip_address : str;
  ur_reverse_dns_name : option str;
  ur_status : Z;
  ur_status_desc : str;
  ur_response_time : spec_float;
  ur_title : str;
  ur_description : option str;
  ur_meta_robots : option str;
  ur_tls_version : option TlsVersion;
  ur_ssl_cert_subject : option str;
  ur_ssl_cert_issuer : option str;
  ur_ssl_cert_valid_from : option Z;
  ur_ssl_cert_valid_to : option Z;
  ur_timestamp : Z;
  ur_nameservers : option str;
  ur_txt_records : option str;
  ur_mx_records : option str;
  ur_spf_record : option str;
  ur_dmarc_record : option str;
  ur_cipher_suite : option str;
  ur_key_algorithm : option KeyAlgorithm;
  ur_run_id : option str;
  ur_body_sha256 : option str;
  ur_body_truncated : bool;
  ur_external_scripts_eligible : Z;
  ur_external_scripts_scanned : Z;
  ur_content_length : option Z;
  ur_http_version : option str;
  ur_content_type : option str;
  ur_canonical_url : option str;
  ur_cert_fingerprint_sha256 : option str;
  ur_cert_serial_number : option str;
  ur_cert_is_self_signed : option bool;
  ur_cert_is_wildcard : option bool;
  ur_cert_is_mismatched : option bool;
  ur_meta_refresh_url : option str;
  ur_hsts_max_age : option Z;
  ur_hsts_include_subdomains : option bool;
  ur_hsts_preload : option bool;
  ur_mta_sts_record : option str;
  ur_tls_rpt_record : option str;
  ur_bimi_record : option str;
  ur_cdn_provider : option str;
}.

(** ** columns.rs *)

Inductive UrlStatusBind :=
  | BText (v : str)
  | BOptText (v : option str)
  | BU16 (v : Z)
  | BU32 (v : Z)
  | BI64 (v : Z)
  | BOptI64 (v : option Z)
  | BF64 (v : spec_float)
  | BBool (v : bool)
  | BOptBool (v : option bool).

Record UrlStatusColumn := MkColumn {
  col_name : str;
  col_extract : UrlRecord -> option Z -> option Z -> UrlStatusBind;
}.

Definition URL_STATUS_COLUMN_DEFS : list UrlStatusColumn :=
  [MkColumn (lit "initial_domain") (λ r _ _, BText (ur_initial_domain r));
   MkColumn (lit "final_domain") (λ r _ _, BText (ur_final_domain r));
   MkColumn (lit "initial_url") (λ r _ _, BOptText (ur_initial_url r));
   MkColumn (lit "final_url") (λ r _ _, BOptText (ur_final_url r));
   MkColumn (lit "ip_address") (λ r _ _, BText (ur_ip_address r));
   MkColumn (lit "reverse_dns_name") (λ r _ _, BOptText (ur_reverse_dns_name r));
   MkColumn (lit "http_status") (λ r _ _, BU16 (ur_status r));
   MkColumn (lit "http_status_text") (λ r _ _, BText (ur_status_desc r));
   MkColumn (lit "response_time_seconds") (λ r _ _, BF64 (ur_response_time r));
   MkColumn (lit "title") (λ r _ _, BText (ur_title r));
   MkColumn (lit "description") (λ r _ _, BOptText (ur_description r));
   MkColumn (lit "meta_robots") (λ r _ _, BOptText (ur_meta_robots r));
   MkColumn (lit "tls_version") (λ r _ _, BOptText (tls_version_as_str <$> ur_tls_version r));
   MkColumn (lit "ssl_cert_subject") (λ r _ _, BOptText (ur_ssl_cert_subject r));
   MkColumn (lit "ssl_cert_issuer") (λ r _ _, BOptText (ur_ssl_cert_issuer r));
   MkColumn (lit "ssl_cert_valid_from_ms") (λ _ valid_from_ms _, BOptI64 valid_from_ms);
   MkColumn (lit "ssl_cert_valid_to_ms") (λ _ _ valid_to_ms, BOptI64 valid_to_ms);
   MkColumn (lit "observed_at_ms") (λ r _ _, BI64 (ur_timestamp r));
   MkColumn (lit "spf_record") (λ r _ _, BOptText (ur_spf_record r));
   MkColumn (lit "dmarc_record") (λ r _ _, BOptText (ur_dmarc_record r));
   MkColumn (lit "cipher_suite") (λ r _ _, BOptText (ur_cipher_suite r));
   MkColumn (lit "key_algorithm") (λ r _ _, BOptText (key_algorithm_as_str <$> ur_key_algorithm r));
   MkColumn (lit "run_id") (λ r _ _, BOptText (ur_run_id r));
   MkColumn (lit "body_sha256") (λ r _ _, BOptText (ur_body_sha256 r));
   MkColumn (lit "body_truncated") (λ r _ _, BBool (ur_body_truncated r));
   MkColumn (lit "external_scripts_eligible") (λ r _ _, BU32 (ur_external_scripts_eligible r));
   MkColumn (lit "external_scripts_scanned") (λ r _ _, BU32 (ur_external_scripts_scanned r));
   MkColumn (lit "content_length") (λ r _ _, BOptI64 (ur_content_length r));
   MkColumn (lit "http_version") (λ r _ _, BOptText (ur_http_version r));
   MkColumn (lit "content_type") (λ r _ _, BOptText (ur_content_type r));
   MkColumn (lit "canonical_url") (λ r _ _, BOptText (ur_canonical_url r));
   MkColumn (lit "cert_fingerprint_sha256") (λ r _ _, BOptText (ur_cert_fingerprint_sha256 r));
   MkColumn (lit "cert_serial_number") (λ r _ _, BOptText (ur_cert_serial_number r));
   MkColumn (lit "cert_is_self_signed") (λ r _ _, BOptBool (ur_cert_is_self_signed r));
   MkColumn (lit "cert_is_wildcard") (λ r _ _, BOptBool (ur_cert_is_wildcard r));
   MkColumn (lit "cert_is_mismatched") (λ r _ _, BOptBool (ur_cert_is_mismatched r));
   MkColumn (lit "meta_refresh_url") (λ r _ _, BOptText (ur_meta_refresh_url r));
   MkColumn (lit "hsts_max_age") (λ r _ _, BOptI64 (ur_hsts_max_age r));
   MkColumn (lit "hsts_include_subdomains") (λ r _ _, BOptBool (ur_hsts_include_subdomains r));
   MkColumn (lit "hsts_preload") (λ r _ _, BOptBool (ur_hsts_preload r));
   MkColumn (lit "mta_sts_record") (λ r _ _, BOptText (ur_mta_sts_record r));
   MkColumn (lit "tls_rpt_record") (λ r _ _, BOptText (ur_tls_rpt_record r));
   MkColumn (lit "bimi_record") (λ r _ _, BOptText (ur_bimi_record r));
   MkColumn (lit "cdn_provider") (λ r _ _, BOptText (ur_cdn_provider r))].

Definition url_status_column_names : list str := map col_name URL_STATUS_COLUMN_DEFS.

Definition bind_url_status_column (query : Statement) (col : UrlStatusColumn)
  (record : UrlRecord) (valid_from_millis valid_to_millis : option Z) : Statement :=
  match col_extract col record valid_from_millis valid_to_millis with
  | BText v => query ⊲ v
  | BOptText v => query ⊲ v
  | BU16 v => query ⊲ v
  | BU32 v => query ⊲ v
  | BI64 v => query ⊲ v
  | BOptI64 v => query ⊲ v
  | BF64 v => query ⊲ v
  | BBool v => query ⊲ v
  | BOptBool v => query ⊲ v
  end.

Definition url_status_insert_sql : str :=
  let columns := join (lit ", ") url_status_column_names in
  let placeholders :=
    join (lit ", ") (replicate (length URL_STATUS_COLUMN_DEFS) (lit "?")) in
  lit "INSERT INTO url_status (
            " ++ columns ++ lit "
        ) VALUES (" ++ placeholders ++ lit ")
        ON CONFLICT(run_id, initial_domain) DO NOTHING
        RETURNING id".

Definition url_status_update_sql : str :=
  let updates :=
    join (lit ",
            ")
      (map (λ col, col ++ lit "=?")
         (List.filter (λ col, negb (streqb col (lit "initial_domain")))
            url_status_column_names)) in
  lit "UPDATE url_status SET
            " ++ updates ++ lit "
        WHERE run_id = ? AND initial_domain = ?
        RETURNING id".

Definition bind_url_status_query (query : Statement) (record : UrlRecord)
  (valid_from_millis valid_to_millis : option Z) : Statement :=
  foldl (λ q col, bind_url_status_column q col record valid_from_millis valid_to_millis)
    query URL_STATUS_COLUMN_DEFS.

Definition bind_url_status_update_query (query : Statement) (record : UrlRecord)
  (valid_from_millis valid_to_millis : option Z) : Statement :=
  foldl (λ q col,
      if streqb (col_name col) (lit "initial_domain") then q
      else bind_url_status_column q col record valid_from_millis valid_to_millis)
    query URL_STATUS_COLUMN_DEFS
  ⊲ ur_run_id record ⊲ ur_initial_domain record.

(** The two statements of [upsert_url_status_row]. *)
Definition insert_statement (record : UrlRecord) (valid_from valid_to : option Z) : Statement :=
  bind_url_status_query (query url_status_insert_sql) record valid_from valid_to.
Definition update_statement (record : UrlRecord) (valid_from valid_to : option Z) : Statement :=
  bind_url_status_update_query (query url_status_update_sql) record valid_from valid_to.

#[global] Arguments insert_statement : simpl never.
#[global] Arguments update_statement : simpl never.

Definition upsert_url_status_row `{Q : Sqlx W Tx} (record : UrlRecord)
  (valid_from_millis valid_to_millis : option Z) : TxM Tx (Z * bool) :=
  inserted_id ⇐ fetch_optional (insert_statement record valid_from_millis valid_to_millis);
  match inserted_id with
  | Some id => tx_ret (id, true)
  | None =>
      id ⇐ fetch_one (update_statement record valid_from_millis valid_to_millis);
      tx_ret (id, false)
  end.

(** ** utils.rs *)

Definition naive_datetime_to_millis (datetime : option Z) : option Z :=
  (λ dt, dt / 1000000) <$> datetime.

(** ** queries.rs *)

(** [build_where_clause] pushes on the builder and remembers whether a WHERE is there. *)
Definition push_condition (has_where : bool) (s : Statement) : Statement :=
  if has_where then push (lit " AND ") s else push (lit " WHERE ") s.

Definition build_where_clause (query_builder : Statement) (run_id domain : option str)
  (status since : option Z) : Statement :=
  let has_where := false in
  let '(qb, has_where) :=
    match run_id with
    | Some run_id =>
        (push_bind run_id (push (lit " WHERE us.run_id = ") query_builder), true)
    | None => (query_builder, has_where)
    end in
  let '(qb, has_where) :=
    match domain with
    | Some domain =>
        let qb := push_condition has_where qb in
        let qb := push_bind domain (push (lit "(us.initial_domain = ") qb) in
        let qb := push_bind domain (push (lit " OR us.final_domain = ") qb) in
        (push (lit ")") qb, true)
    | None => (qb, has_where)
    end in
  let '(qb, has_where) :=
    match status with
    | Some status =>
        let qb := push_condition has_where qb in
        (push_bind status (push (lit "us.http_status = ") qb), true)
    | None => (qb, has_where)
    end in
  match since with
  | Some since =>
      push_bind since (push (lit "us.observed_at_ms >= ") (push_condition has_where qb))
  | None => qb
  end.

Definition EXPORT_SELECT : str := lit "SELECT us.id, us.initial_domain, us.final_domain, us.initial_url, us.final_url, us.ip_address, us.reverse_dns_name,
                us.http_status, us.http_status_text, us.response_time_seconds, us.title,
                us.description, us.meta_robots, us.tls_version, us.ssl_cert_subject,
                us.ssl_cert_issuer, us.ssl_cert_valid_to_ms, us.cipher_suite, us.key_algorithm,
                us.spf_record, us.dmarc_record,
                us.mta_sts_record, us.tls_rpt_record, us.bimi_record,
                us.hsts_max_age, us.hsts_include_subdomains, us.hsts_preload,
                us.cdn_provider,
                us.observed_at_ms, us.run_id,
                us.body_sha256, us.content_length, us.http_version,
                us.content_type, us.canonical_url, us.cert_fingerprint_sha256,
                us.body_truncated
         FROM url_status us".

Definition build_export_query (run_id domain : option str) (status since : option Z)
  : Statement :=
  push (lit " ORDER BY us.observed_at_ms DESC")
    (build_where_clause (query EXPORT_SELECT) run_id domain status since).

(** ** row.rs: reading a row *)

(** [sqlx::Decode] for SQLite; [None] is the panic of [Row::get]. *)
Class Decode (A : Type) := decode_value : SqlValue -> option A.
#[export] Instance decode_text : Decode str :=
  λ v, match v with VText s => Some s | _ => None end.
#[export] Instance decode_integer : Decode Z :=
  λ v, match v with VInteger z => Some z | _ => None end.
#[export] Instance decode_real : Decode spec_float :=
  λ v, match v with VReal f => Some f | _ => None end.
#[export] Instance decode_bool : Decode bool :=
  λ v, match v with VInteger z => Some (negb (z =? 0)) | _ => None end.
#[export] Instance decode_option `{Decode A} : Decode (option A) :=
  λ v, match v with VNull => Some None | v => Some <$> decode_value v end.

Abbreviation Row := (list (str * SqlValue)).

Fixpoint cell (row : Row) (name : str) : option SqlValue :=
  match row with
  | [] => None
  | (k, v) :: rest => if streqb k name then Some v else cell rest name
  end.

Definition column `{Decode A} (row : Row) (name : str) : option A :=
  cell row name ≫= decode_value.
Definition column_u16 (row : Row) (name : str) : option Z :=
  z ← column row name; if (0 <=? z) && (z <=? u16_max) then Some z else None.

Definition extract_main_row_data (row : Row) : option MainRowData :=
  id ← column row (lit "id");
  initial_domain ← column row (lit "initial_domain");
  final_domain ← column row (lit "final_domain");
  initial_url ← column row (lit "initial_url");
  final_url ← column row (lit "final_url");
  ip_address ← column row (lit "ip_address");
  reverse_dns ← column row (lit "reverse_dns_name");
  status ← column_u16 row (lit "http_status");
  status_desc ← column row (lit "http_status_text");
  response_time ← column row (lit "response_time_seconds");
  title ← column row (lit "title");
  description ← column row (lit "description");
  meta_robots ← column row (lit "meta_robots");
  tls_version ← column row (lit "tls_version");
  ssl_cert_subject ← column row (lit "ssl_cert_subject");
  ssl_cert_issuer ← column row (lit "ssl_cert_issuer");
  ssl_cert_valid_to_ms ← column row (lit "ssl_cert_valid_to_ms");
  cipher_suite ← column row (lit "cipher_suite");
  key_algorithm ← column row (lit "key_algorithm");
  spf_record ← column row (lit "spf_record");
  dmarc_record ← column row (lit "dmarc_record");
  mta_sts_record ← column row (lit "mta_sts_record");
  tls_rpt_record ← column row (lit "tls_rpt_record");
  bimi_record ← column row (lit "bimi_record");
  hsts_max_age ← column row (lit "hsts_max_age");
  hsts_include_subdomains ← column row (lit "hsts_include_subdomains");
  hsts_preload ← column row (lit "hsts_preload");
  cdn_provider ← column row (lit "cdn_provider");
  timestamp ← column row (lit "observed_at_ms");
  run_id ← column row (lit "run_id");
  body_sha256 ← column row (lit "body_sha256");
  content_length ← column row (lit "content_length");
  http_version ← column row (lit "http_version");
  content_type ← column row (lit "content_type");
  canonical_url ← column row (lit "canonical_url");
  cert_fingerprint_sha256 ← column row (lit "cert_fingerprint_sha256");
  body_truncated ← column row (lit "body_truncated");
  Some (MkMain id initial_domain final_domain initial_url final_url ip_address reverse_dns
    status status_desc response_time title description meta_robots tls_version
    ssl_cert_subject ssl_cert_issuer ssl_cert_valid_to_ms cipher_suite key_algorithm
    spf_record dmarc_record mta_sts_record tls_rpt_record bimi_record hsts_max_age
    hsts_include_subdomains hsts_preload cdn_provider timestamp run_id body_sha256
    content_length http_version content_type canonical_url cert_fingerprint_sha256
    body_truncated).

(** ** What the statements do to a row *)

(** The text between the first occurrence of a mark and the next of another, and the names
    in a list. *)
Fixpoint after (mark text : str) : str :=
  match strip_prefix mark text with
  | Some rest => rest
  | None => match text with [] => [] | _ :: r => after mark r end
  end.
Fixpoint before (mark text : str) : str :=
  if starts_with mark text then []
  else match text with [] => [] | c :: r => c :: before mark r end.
Definition between (open close text : str) : str := before close (after open text).
Definition names_in (text : str) : list str := map trim (split_char 44 text).

Definition insert_columns (text : str) : list str := names_in (between (lit "(") (lit ")") text).
Definition assigned_columns (text : str) : list str :=
  map (λ a, match split_once 61 a with Some (c, _) => c | None => a end)
    (names_in (between (lit "SET") (lit "WHERE") text)).
Definition selected_columns (text : str) : list str :=
  map (λ c, default c (strip_prefix (lit "us.") c))
    (names_in (between (lit "SELECT") (lit "FROM") text)).

Definition run_insert (id : Z) (s : Statement) : Row :=
  (lit "id", VInteger id) :: combine (insert_columns (sql s)) (binds s).
Definition run_update (s : Statement) (row : Row) : Row :=
  let assignments := combine (assigned_columns (sql s)) (binds s) in
  map (λ '(k, v), (k, default v (cell assignments k))) row.
Definition run_select (s : Statement) (row : Row) : Row :=
  omap (λ c, (λ v, (c, v)) <$> cell row c) (selected_columns (sql s)).

(** The conflict of the INSERT and the WHERE of the UPDATE: the same run and the same
    initial domain; NULL equals nothing. *)
Definition same_key (r r' : UrlRecord) : Prop :=
  ur_run_id r = ur_run_id r' ∧ ur_run_id r <> None ∧ ur_initial_domain r = ur_initial_domain r'.

(** ** Lemmas *)

(** Decoding undoes encoding, type by type. *)
Class DecodeEncode (A : Type) `{Encode A, Decode A} := {
  decode_bind : ∀ a : A, decode_value (bind_value a) = Some a;
  bind_not_null : ∀ a : A, bind_value a <> VNull;
}.
#[export] Instance decode_encode_text : DecodeEncode str.
Proof. by split. Qed.
#[export] Instance decode_encode_integer : DecodeEncode Z.
Proof. by split. Qed.
#[export] Instance decode_encode_real : DecodeEncode spec_float.
Proof. by split. Qed.
#[export] Instance decode_encode_bool : DecodeEncode bool.
Proof. split; by intros []. Qed.

Lemma decode_bind_option `{DecodeEncode A} (o : option A) :
  decode_value (bind_value o) = Some o.
Proof.
  destruct o as [a|]; [|done].
  pose proof (bind_not_null a) as Hn. pose proof (decode_bind a) as Hd.
  cbv [bind_value encode_option decode_value decode_option] in *.
  rewrite Hd. by destruct (_ a).
Qed.

(** The columns named in the texts are those of the registry. *)
Lemma insert_columns_names : insert_columns url_status_insert_sql = url_status_column_names.
Proof. vm_compute. reflexivity. Qed.

Lemma assigned_columns_names :
  assigned_columns url_status_update_sql
  = List.filter (λ c, negb (streqb c (lit "initial_domain"))) url_status_column_names.
Proof. vm_compute. reflexivity. Qed.

Lemma insert_statement_ok r a b : statement_ok (insert_statement r a b).
Proof. vm_compute. reflexivity. Qed.

Lemma update_statement_ok r a b : statement_ok (update_statement r a b).
Proof. vm_compute. reflexivity. Qed.

(** The WHERE clause written down as what it says: the conditions that are asked for, joined
    by AND, and their values in the same order. *)
Definition conditions (run_id domain : option str) (status since : option Z)
  : list (str * list SqlValue) :=
  match run_id with Some v => [(lit "us.run_id = ?", [bind_value v])] | None => [] end
  ++ match domain with
     | Some v => [(lit "(us.initial_domain = ? OR us.final_domain = ?)",
                   [bind_value v; bind_value v])]
     | None => [] end
  ++ match status with Some v => [(lit "us.http_status = ?", [bind_value v])] | None => [] end
  ++ match since with Some v => [(lit "us.observed_at_ms >= ?", [bind_value v])] | None => [] end.

Definition where_text (conds : list (str * list SqlValue)) : str :=
  match conds with
  | [] => []
  | _ => lit " WHERE " ++ join (lit " AND ") (map fst conds)
  end.

Lemma export_query_text run_id domain status since :
  sql (build_export_query run_id domain status since)
  = EXPORT_SELECT ++ where_text (conditions run_id domain status since)
    ++ lit " ORDER BY us.observed_at_ms DESC".
Proof. destruct run_id, domain, status, since; reflexivity. Qed.

(** Every export filter becomes the conjunction of the conditions asked for; the values are
    bound, never spliced into the text, one per placeholder. *)
Theorem export_query_spec run_id domain status since :
  let s := build_export_query run_id domain status since in
  let conds := conditions run_id domain status since in
  sql s = EXPORT_SELECT ++ where_text conds ++ lit " ORDER BY us.observed_at_ms DESC"
  ∧ binds s = concat (map snd conds) ∧ statement_ok s.
Proof.
  split; [apply export_query_text|].
  destruct run_id, domain, status, since; (split; [reflexivity|vm_compute; reflexivity]).
Qed.

(** *** Writing and reading the row *)

Definition bound_value (b : UrlStatusBind) : SqlValue :=
  match b with
  | BText v => bind_value v
  | BOptText v => bind_value v
  | BU16 v | BU32 v | BI64 v => bind_value v
  | BOptI64 v => bind_value v
  | BF64 v => bind_value v
  | BBool v => bind_value v
  | BOptBool v => bind_value v
  end.

(** The row a record asks for. *)
Definition row_of (id : Z) (r : UrlRecord) (valid_from valid_to : option Z) : Row :=
  (lit "id", VInteger id)
  :: map (λ c, (col_name c, bound_value (col_extract c r valid_from valid_to)))
       URL_STATUS_COLUMN_DEFS.

Lemma run_insert_row id r a b : run_insert id (insert_statement r a b) = row_of id r a b.
Proof.
  unfold run_insert. change (sql (insert_statement r a b)) with url_status_insert_sql.
  rewrite insert_columns_names. reflexivity.
Qed.

Lemma run_update_row id r r0 a b a0 b0 :
  ur_initial_domain r = ur_initial_domain r0 ->
  run_update (update_statement r a b) (row_of id r0 a0 b0) = row_of id r a b.
Proof.
  intros E. unfold run_update. change (sql (update_statement r a b)) with url_status_update_sql.
  rewrite assigned_columns_names. destruct r, r0. cbn in E. subst. vm_compute. reflexivity.
Qed.

(** What the export is to read of a record. *)
Definition exported_of (id : Z) (r : UrlRecord) (valid_to : option Z) : MainRowData :=
  MkMain id (ur_initial_domain r) (ur_final_domain r) (ur_initial_url r) (ur_final_url r)
    (ur_ip_address r) (ur_reverse_dns_name r) (ur_status r) (ur_status_desc r)
    (ur_response_time r) (ur_title r) (ur_description r) (ur_meta_robots r)
    (tls_version_as_str <$> ur_tls_version r) (ur_ssl_cert_subject r) (ur_ssl_cert_issuer r)
    valid_to (ur_cipher_suite r) (key_algorithm_as_str <$> ur_key_algorithm r)
    (ur_spf_record r) (ur_dmarc_record r) (ur_mta_sts_record r) (ur_tls_rpt_record r)
    (ur_bimi_record r) (ur_hsts_max_age r) (ur_hsts_include_subdomains r) (ur_hsts_preload r)
    (ur_cdn_provider r) (ur_timestamp r) (ur_run_id r) (ur_body_sha256 r)
    (ur_content_length r) (ur_http_version r) (ur_content_type r) (ur_canonical_url r)
    (ur_cert_fingerprint_sha256 r) (ur_body_truncated r).

Lemma column_bound `{DecodeEncode A} row name (a : A) :
  cell row name = Some (bind_value a) -> column row name = Some a.
Proof. unfold column. intros ->. apply decode_bind. Qed.

Lemma column_bound_option `{DecodeEncode A} row name (o : option A) :
  cell row name = Some (bind_value o) -> column row name = Some o.
Proof. unfold column. intros ->. apply decode_bind_option. Qed.

(** Reads the columns of a row one by one. *)
Ltac read_columns :=
  repeat match goal with
    | |- context [@column ?A ?D ?row ?name] =>
        let v := fresh "v" in
        let E := fresh "E" in
        evar (v : A);
        assert (E : @column A D row name = Some v);
        [ first [ apply (column_bound (A := A)) | eapply column_bound_option ];
          subst v; vm_compute; reflexivity
        | rewrite E; subst v; clear E; cbn [mbind option_bind] ]
    end.

Lemma selected_columns_prefix rest :
  selected_columns (EXPORT_SELECT ++ rest) = selected_columns EXPORT_SELECT.
Proof. vm_compute. reflexivity. Qed.

Lemma read_row id r a b run_id domain status since :
  0 <= ur_status r <= u16_max ->
  extract_main_row_data (run_select (build_export_query run_id domain status since)
                           (row_of id r a b)) = Some (exported_of id r b).
Proof.
  intros Hs. unfold run_select.
  rewrite export_query_text, selected_columns_prefix.
  remember (omap _ _) as row eqn:Erow. vm_compute in Erow.
  destruct r; cbn in Hs. subst row. unfold extract_main_row_data, exported_of, column_u16.
  read_columns.
  replace (_ && _) with true by (symmetry; apply andb_true_iff; lia). reflexivity.
Qed.

Definition insert_of (r : UrlRecord) : Statement :=
  insert_statement r (naive_datetime_to_millis (ur_ssl_cert_valid_from r))
    (naive_datetime_to_millis (ur_ssl_cert_valid_to r)).
Definition update_of (r : UrlRecord) : Statement :=
  update_statement r (naive_datetime_to_millis (ur_ssl_cert_valid_from r))
    (naive_datetime_to_millis (ur_ssl_cert_valid_to r)).

#[global] Arguments insert_of : simpl never.
#[global] Arguments update_of : simpl never.

(** C8: What a scan stores in [url_status] is what an export reads from it, column by column and
    type by type: for a row inserted for the record, and for the row of an earlier record of
    the same run and domain that the UPDATE refreshed.  Reading never panics. *)
Theorem stored_row_exported id r r0 run_id domain status since :
  0 <= ur_status r <= u16_max -> same_key r r0 ->
  let read row :=
    extract_main_row_data (run_select (build_export_query run_id domain status since) row) in
  let exported := exported_of id r (naive_datetime_to_millis (ur_ssl_cert_valid_to r)) in
  read (run_insert id (insert_of r)) = Some exported
  ∧ read (run_update (update_of r) (run_insert id (insert_of r0))) = Some exported.
Proof.
  intros Hs (_ & _ & Hd). unfold insert_of, update_of.
  rewrite !run_insert_row, run_update_row by done. split; by apply read_row.
Qed.

(** The values bound are as many as the placeholders, in both statements. *)
Corollary upsert_statements_ok r :
  statement_ok (insert_of r) ∧ statement_ok (update_of r).
Proof. unfold insert_of, update_of. split; [apply insert_statement_ok|apply update_statement_ok]. Qed.

(** ** A concrete row *)

Module DemoRow.
Definition record (final_domain : str) (status : Z) : UrlRecord :=
  MkUrlRecord (lit "example.com") final_domain (Some (lit "https://example.com/")) None
    (lit "93.184.216.34") None status (lit "OK") (S754_finite false 1 (-1)) (lit "Example")
    None None (Some Tls13) None None None (Some 1700000000000000000) 1700000000000 None None
    None None None None (Some RSA) (Some (lit "run")) None true 0 0 (Some 1256) None None None
    None None (Some false) None None None (Some 31536000) (Some true) None None None None None.

Lemma stored_row_exported_witness :
  let r := record (lit "www.example.com") 301 in
  let r0 := record (lit "example.com") 200 in
  same_key r r0 ∧
  m_final_domain <$> extract_main_row_data
    (run_select (build_export_query (Some (lit "run")) None (Some 301) None)
       (run_update (update_of r) (run_insert 7 (insert_of r0))))
  = Some (lit "www.example.com").
Proof.
  assert (H : same_key (record (lit "www.example.com") 301) (record (lit "example.com") 200))
    by (by split_and!).
  split; [exact H|].
  assert (Hs : 0 <= ur_status (record (lit "www.example.com") 301) <= u16_max) by easy.
  exact (f_equal (fmap m_final_domain)
    (proj2 (stored_row_exported 7 _ _ (Some (lit "run")) None (Some 301) None Hs H))).
Defined.
End DemoRow.
