(* ===== verification/Satellites.v ===== *)
(** * Core satellites ([src/src/storage/insert/utils.rs],
    [storage/insert/url/satellite/*.rs], [storage/insert/url/core_satellites.rs],
    [storage/insert/url/upsert.rs])

    The child rows of one URL written in the transaction of its fact row.  A failing satellite
    is recorded and does not undo the fact row; a failing clean-up skips them all.  The
    iteration order of a hash map is the parameter [HashIter], the parser of JSON text the
    parameter [Serde]. *)

From S2P Require Import Prelude Net Cookies Patterns Detection Errors Retry ExportRow.
From S2P Require Import Json Dns Sql Upsert StorageRow.

(** ** utils.rs *)

Section Parsing.
Context `{J : Serde} `{Lo : Lowercase}.

Definition parse_json_array (json_str : option str) : option (list str) :=
  json_str ← json_str;
  if nonempty json_str then v ← from_str json_str; vec_of_strings v else None.

Definition detect_txt_type (txt : str) : str :=
  if is_spf_txt txt then lit "SPF"
  else if is_dmarc_txt txt then lit "DMARC"
  else if is_mta_sts_txt txt then lit "MTA-STS"
  else if is_tls_rpt_txt txt then lit "TLS-RPT"
  else if is_bimi_txt txt then lit "BIMI"
  else
    let txt_lower := to_lowercase txt in
    if contains (lit "google-site-verification") txt_lower
       || contains (lit "ms-verify") txt_lower
       || contains (lit "facebook-domain-verification") txt_lower
       || contains (lit "atlassian-domain-verification") txt_lower
    then lit "VERIFICATION" else lit "OTHER".

(** [str::split_whitespace]. *)
Fixpoint words_go (word : str) (s : str) : list str :=
  match s with
  | [] => if nonempty word then [word] else []
  | c :: r =>
      if is_whitespace c then if nonempty word then word :: words_go [] r else words_go [] r
      else words_go (word ++ [c]) r
  end.
Definition split_whitespace (s : str) : list str := words_go [] s.

(** [str::parse::<i32>]. *)
Definition parse_i32 (s : str) : option Z :=
  match s with
  | 45 :: 43 :: _ => None
  | 45 :: ds => Z.opp <$> parse_uint (i32_max + 1) ds
  | _ => parse_uint i32_max s
  end.

Definition parse_mx_record (mx : str) : option (Z * str) :=
  match split_whitespace mx with
  | [] => None
  | first :: rest =>
      match parse_i32 first with
      | Some priority =>
          match rest with hostname :: _ => Some (priority, hostname) | [] => None end
      | None => Some (0, first)
      end
  end.

Definition mx_of_object (obj : Value) : option (Z * str) :=
  priority ← (get obj (lit "priority") ≫= λ v, as_i32 <$> as_i64 v);
  hostname ← (get obj (lit "hostname") ≫= as_str);
  Some (priority, hostname).

Definition parse_mx_json_array (json_str : option str) : option (list (Z * str)) :=
  json_str ← json_str;
  if negb (nonempty json_str) then None else
  let objects :=
    match from_str json_str ≫= vec_of_value with
    | Some mx_objects => omap mx_of_object mx_objects
    | None => []
    end in
  if nonempty objects then Some objects else
  let strings :=
    match from_str json_str ≫= vec_of_strings with
    | Some mx_strings => omap parse_mx_record mx_strings
    | None => []
    end in
  if nonempty strings then Some strings else None.
End Parsing.

(** ** Data of the satellites *)

Record ScriptHostInfo := MkScriptHostInfo {
  sh_host : str; sh_registrable_domain : option str; sh_is_first_party : bool }.

Record SecurityTxtData := MkSecurityTxt {
  st_source_url : str;
  st_http_status : Z;
  st_contacts : list str;
  st_expires : option str;
  st_encryption : list str;
  st_acknowledgments : list str;
  st_preferred_languages : option str;
  st_canonical : list str;
  st_policy : list str;
  st_hiring : list str;
  st_raw_body : str;
}.

Record RobotsTxtData := MkRobotsTxt {
  rt_http_status : Z; rt_raw_body : str; rt_directives : list (str * str) }.

Record UrlRecordInsertParams := MkParams {
  p_record : UrlRecord;
  p_security_headers : gmap str str;
  p_http_headers : gmap str str;
  p_oids : gmap str unit;
  p_redirect_chain : list (str * Z);
  p_technologies : list DetectedTechnology;
  p_subject_alternative_names : list str;
  p_cname_records : option str;
  p_aaaa_records : option str;
  p_caa_records : option str;
  p_csp_domains : list (str * str * option str);
  p_cookies : list CookieInfo;
  p_resource_hints : list (str * str);
  p_script_hosts : list ScriptHostInfo;
  p_security_txt : option SecurityTxtData;
  p_robots_txt : option RobotsTxtData;
}.

Definition URL_STATUS_CORE_SATELLITE_TABLES : list str :=
  map lit ["url_technologies"; "url_nameservers"; "url_txt_records"; "url_mx_records";
           "url_security_headers"; "url_http_headers"; "url_certificate_oids";
           "url_redirect_chain"; "url_certificate_sans"; "url_cname_records";
           "url_ipv6_addresses"; "url_caa_records"; "url_csp_domains"; "url_cookies";
           "url_resource_hints"; "url_script_hosts"; "url_security_txt"; "url_robots_txt";
           "url_robots_directives"]%string.

(** ** satellite/*.rs

    Each batch is a loop of binds over [build_batch_insert_query]; the statement is named on
    its own. *)

Definition id_column : str := lit "url_status_id".

(** [technologies.rs]: the first of each name and version. *)
Fixpoint dedup_technologies (seen : list (str * option str)) (l : list DetectedTechnology)
  : list DetectedTechnology :=
  match l with
  | [] => []
  | tech :: rest =>
      let key := (dt_name tech, dt_version tech) in
      if bool_decide (key ∈ seen) then dedup_technologies seen rest
      else tech :: dedup_technologies (key :: seen) rest
  end.

Definition technologies_statement (id : Z) (deduped : list DetectedTechnology) : Statement :=
  bind_rows (λ query tech,
      query ⊲ id ⊲ dt_name tech ⊲ dt_version tech ⊲ category tech
            ⊲ (if dt_is_implied tech then 1 else 0) ⊲ detection_source tech) deduped
    (query (build_batch_insert_query (lit "url_technologies")
       [id_column; lit "technology_name"; lit "technology_version";
        lit "technology_category"; lit "is_implied"; lit "detection_source"]
       (length deduped) (Some (lit "ON CONFLICT DO NOTHING")))).

Definition oids_statement (id : Z) (oids : list str) : Statement :=
  bind_rows (λ q oid, q ⊲ id ⊲ oid) oids
    (query (build_batch_insert_query (lit "url_certificate_oids") [id_column; lit "oid"]
       (length oids) (Some (lit "ON CONFLICT(url_status_id, oid) DO NOTHING")))).

Definition sans_statement (id : Z) (sans : list str) : Statement :=
  bind_rows (λ q san, q ⊲ id ⊲ san) sans
    (query (build_batch_insert_query (lit "url_certificate_sans") [id_column; lit "san_value"]
       (length sans) (Some (lit "ON CONFLICT(url_status_id, san_value) DO NOTHING")))).

(** [redirects.rs]: hops numbered from 1, as [i32]. *)
Definition redirect_statement (id : Z) (chain : list (str * Z)) : Statement :=
  bind_rows (λ q '(index, (url, status)),
      q ⊲ id ⊲ as_i32 (Z.of_nat index + 1) ⊲ url ⊲ status)
    (combine (seq 0 (length chain)) chain)
    (query (build_batch_insert_query (lit "url_redirect_chain")
       [id_column; lit "sequence_order"; lit "redirect_url"; lit "http_status"]
       (length chain) (Some (lit "ON CONFLICT(url_status_id, sequence_order) DO UPDATE SET redirect_url=excluded.redirect_url, http_status=excluded.http_status")))).

Definition caa_statement (id : Z) (parsed : list Value) : Statement :=
  bind_rows (λ q record,
      let flag := default 0 (as_u64 (index record (lit "flag"))) in
      let tag := or_empty (as_str (index record (lit "tag"))) in
      let value := or_empty (as_str (index record (lit "value"))) in
      q ⊲ id ⊲ as_i32 flag ⊲ tag ⊲ value) parsed
    (query (build_batch_insert_query (lit "url_caa_records")
       [id_column; lit "flag"; lit "tag"; lit "value"] (length parsed)
       (Some (lit "ON CONFLICT(url_status_id, tag, value) DO UPDATE SET flag=excluded.flag")))).

Definition csp_statement (id : Z) (domains : list (str * str * option str)) : Statement :=
  bind_rows (λ qb '(directive, fqdn, reg_domain),
      qb ⊲ id ⊲ (directive : str) ⊲ (fqdn : str) ⊲ (reg_domain : option str)) domains
    (query (build_batch_insert_query (lit "url_csp_domains")
       [id_column; lit "directive"; lit "fqdn"; lit "registrable_domain"]
       (length domains) (Some (lit "ON CONFLICT(url_status_id, directive, fqdn) DO NOTHING")))).

Definition cookies_statement (id : Z) (cookies : list CookieInfo) : Statement :=
  bind_rows (λ qb c,
      qb ⊲ id ⊲ ci_name c ⊲ ci_secure c ⊲ ci_http_only c ⊲ ci_same_site c ⊲ ci_domain c
         ⊲ ci_path c) cookies
    (query (build_batch_insert_query (lit "url_cookies")
       [id_column; lit "cookie_name"; lit "secure"; lit "http_only"; lit "same_site";
        lit "domain"; lit "path"]
       (length cookies)
       (Some (lit "ON CONFLICT(url_status_id, cookie_name) DO UPDATE SET secure=excluded.secure, http_only=excluded.http_only, same_site=excluded.same_site, domain=excluded.domain, path=excluded.path")))).

Definition newline : str := [10].

Definition security_txt_statement (id : Z) (data : SecurityTxtData) : Statement :=
  query (lit "INSERT INTO url_security_txt (
            url_status_id, source_url, http_status, contacts, expires, encryption,
            acknowledgments, preferred_languages, canonical, policy, hiring, raw_body
        ) VALUES (?, ?, ?, ?, ?, ?, ?, ?, ?, ?, ?, ?)
        ON CONFLICT(url_status_id) DO UPDATE SET
            source_url=excluded.source_url,
            http_status=excluded.http_status,
            contacts=excluded.contacts,
            expires=excluded.expires,
            encryption=excluded.encryption,
            acknowledgments=excluded.acknowledgments,
            preferred_languages=excluded.preferred_languages,
            canonical=excluded.canonical,
            policy=excluded.policy,
            hiring=excluded.hiring,
            raw_body=excluded.raw_body")
  ⊲ id ⊲ st_source_url data ⊲ st_http_status data ⊲ join newline (st_contacts data)
  ⊲ st_expires data ⊲ join newline (st_encryption data)
  ⊲ join newline (st_acknowledgments data) ⊲ st_preferred_languages data
  ⊲ join newline (st_canonical data) ⊲ join newline (st_policy data)
  ⊲ join newline (st_hiring data) ⊲ st_raw_body data.

Definition robots_statement (id : Z) (data : RobotsTxtData) : Statement :=
  query (lit "INSERT INTO url_robots_txt (url_status_id, http_status, raw_body)
         VALUES (?, ?, ?)
         ON CONFLICT(url_status_id) DO UPDATE SET
            http_status=excluded.http_status,
            raw_body=excluded.raw_body")
  ⊲ id ⊲ rt_http_status data ⊲ rt_raw_body data.

Definition directives_statement (id : Z) (directives : list (str * str)) : Statement :=
  bind_rows (λ qb '(directive, value), qb ⊲ id ⊲ (directive : str) ⊲ (value : str)) directives
    (query (build_batch_insert_query (lit "url_robots_directives")
       [id_column; lit "directive"; lit "value"] (length directives)
       (Some (lit "ON CONFLICT(url_status_id, directive, value) DO NOTHING")))).

Definition script_hosts_statement (id : Z) (hosts : list ScriptHostInfo) : Statement :=
  bind_rows (λ qb h,
      qb ⊲ id ⊲ sh_host h ⊲ sh_registrable_domain h ⊲ sh_is_first_party h) hosts
    (query (build_batch_insert_query (lit "url_script_hosts")
       [id_column; lit "host"; lit "registrable_domain"; lit "is_first_party"]
       (length hosts)
       (Some (lit "ON CONFLICT(url_status_id, host) DO UPDATE SET registrable_domain=excluded.registrable_domain, is_first_party=excluded.is_first_party")))).

Definition hints_statement (id : Z) (hints : list (str * str)) : Statement :=
  bind_rows (λ qb '(hint_type, href), qb ⊲ id ⊲ to_ascii_lowercase hint_type ⊲ (href : str)) hints
    (query (build_batch_insert_query (lit "url_resource_hints")
       [id_column; lit "hint_type"; lit "href"] (length hints)
       (Some (lit "ON CONFLICT(url_status_id, hint_type, href) DO NOTHING")))).

Section Inserts.
Context `{Q : Sqlx W Tx} `{J : Serde} `{Lo : Lowercase} `{H : HashIter}.

Definition insert_technologies (id : Z) (technologies : list DetectedTechnology) : TxM Tx unit :=
  if nonempty technologies then
    let deduped := dedup_technologies [] technologies in
    if nonempty deduped then execute (technologies_statement id deduped) else tx_ret tt
  else tx_ret tt.

(** The tables of one column that hold a JSON array of names. *)
Definition insert_names (table column conflict : str) (id : Z) (json : option str)
  : TxM Tx unit :=
  match parse_json_array json with
  | None => tx_ret tt
  | Some names =>
      if nonempty names
      then insert_single_column_batch table id_column column id names (Some conflict)
      else tx_ret tt
  end.

Definition insert_nameservers (id : Z) (nameservers_json : option str) : TxM Tx unit :=
  insert_names (lit "url_nameservers") (lit "nameserver")
    (lit "ON CONFLICT(url_status_id, nameserver) DO NOTHING") id nameservers_json.
Definition insert_cname_records (id : Z) (cname_records_json : option str) : TxM Tx unit :=
  insert_names (lit "url_cname_records") (lit "cname_target")
    (lit "ON CONFLICT(url_status_id, cname_target) DO NOTHING") id cname_records_json.
Definition insert_ipv6_addresses (id : Z) (aaaa_records_json : option str) : TxM Tx unit :=
  insert_names (lit "url_ipv6_addresses") (lit "ipv6_address")
    (lit "ON CONFLICT(url_status_id, ipv6_address) DO NOTHING") id aaaa_records_json.

Definition txt_with_types (txts : list str) : list (str * str) :=
  map (λ txt, (txt, detect_txt_type txt)) (List.filter is_storable_txt txts).

Definition insert_txt_records (id : Z) (txt_records_json : option str) : TxM Tx unit :=
  match parse_json_array txt_records_json with
  | None => tx_ret tt
  | Some txts =>
      if nonempty txts then
        let typed := txt_with_types txts in
        if nonempty typed
        then insert_key_value_batch (lit "url_txt_records") id_column (lit "record_value")
               (lit "record_type") id typed
               (Some (lit "ON CONFLICT(url_status_id, record_type, record_value) DO NOTHING"))
        else tx_ret tt
      else tx_ret tt
  end.

Definition insert_mx_records (id : Z) (mx_records_json : option str) : TxM Tx unit :=
  match parse_mx_json_array mx_records_json with
  | None => tx_ret tt
  | Some mx_records =>
      if nonempty mx_records
      then insert_key_value_batch (lit "url_mx_records") id_column (lit "priority")
             (lit "mail_exchange") id mx_records
             (Some (lit "ON CONFLICT(url_status_id, priority, mail_exchange) DO NOTHING"))
      else tx_ret tt
  end.

Definition insert_caa_records (id : Z) (caa_records_json : option str) : TxM Tx unit :=
  match caa_records_json with
  | None => tx_ret tt
  | Some json_str =>
      match from_str json_str ≫= vec_of_value with
      | None => tx_ret tt
      | Some parsed =>
          if nonempty parsed then execute (caa_statement id parsed) else tx_ret tt
      end
  end.

Definition header_conflict : str :=
  lit "ON CONFLICT(url_status_id, header_name) DO UPDATE SET header_value=excluded.header_value".

Definition insert_security_headers (id : Z) (security_headers : gmap str str) : TxM Tx unit :=
  if bool_decide (security_headers = ∅) then tx_ret tt
  else insert_key_value_batch (lit "url_security_headers") id_column (lit "header_name")
         (lit "header_value") id (hash_iter security_headers) (Some header_conflict).
Definition insert_http_headers (id : Z) (http_headers : gmap str str) : TxM Tx unit :=
  if bool_decide (http_headers = ∅) then tx_ret tt
  else insert_key_value_batch (lit "url_http_headers") id_column (lit "header_name")
         (lit "header_value") id (hash_iter http_headers) (Some header_conflict).

Definition insert_oids (id : Z) (oids : gmap str unit) : TxM Tx unit :=
  if bool_decide (oids = ∅) then tx_ret tt
  else execute (oids_statement id (map fst (hash_iter oids))).

Definition insert_certificate_sans (id : Z) (sans : list str) : TxM Tx unit :=
  if nonempty sans then execute (sans_statement id sans) else tx_ret tt.
Definition insert_redirect_chain (id : Z) (chain : list (str * Z)) : TxM Tx unit :=
  if nonempty chain then execute (redirect_statement id chain) else tx_ret tt.
Definition insert_csp_domains (id : Z) (domains : list (str * str * option str)) : TxM Tx unit :=
  if nonempty domains then execute (csp_statement id domains) else tx_ret tt.
Definition insert_cookies (id : Z) (cookies : list CookieInfo) : TxM Tx unit :=
  if nonempty cookies then execute (cookies_statement id cookies) else tx_ret tt.
Definition insert_script_hosts (id : Z) (hosts : list ScriptHostInfo) : TxM Tx unit :=
  if nonempty hosts then execute (script_hosts_statement id hosts) else tx_ret tt.
Definition insert_resource_hints (id : Z) (hints : list (str * str)) : TxM Tx unit :=
  if nonempty hints then execute (hints_statement id hints) else tx_ret tt.

Definition insert_security_txt (id : Z) (data : option SecurityTxtData) : TxM Tx unit :=
  match data with
  | None => tx_ret tt
  | Some data => execute (security_txt_statement id data)
  end.

Definition insert_robots_txt (id : Z) (data : option RobotsTxtData) : TxM Tx unit :=
  match data with
  | None => tx_ret tt
  | Some data =>
      _ ⇐ execute (robots_statement id data);
      if nonempty (rt_directives data)
      then execute (directives_statement id (rt_directives data)) else tx_ret tt
  end.

(** ** upsert.rs *)

Record SatelliteWriteFailure := MkWriteFailure { wf_table : str; wf_message : str }.

Record UrlUpsertOutcome := MkUpsert {
  up_id : Z;
  up_inserted : bool;
  satellite_insert_failures : list SatelliteWriteFailure;
  up_partial_failures_inserted : Z;
  up_satellite_insert_errors_inserted : Z;
}.

Definition record_satellite_write (table : str) (failures : list SatelliteWriteFailure)
  (r : result unit DatabaseError) : list SatelliteWriteFailure :=
  match r with
  | Ok _ => failures
  | Err e => failures ++ [MkWriteFailure table (sqlx_error_text e)]
  end.

(** The calls of [record_satellite_write] in order, each with its table and its insert. *)
Definition core_satellite_writes (id : Z) (params : UrlRecordInsertParams)
  : list (str * TxM Tx unit) :=
  let record := p_record params in
  [ (lit "url_technologies", insert_technologies id (p_technologies params));
    (lit "url_nameservers", insert_nameservers id (ur_nameservers record));
    (lit "url_txt_records", insert_txt_records id (ur_txt_records record));
    (lit "url_mx_records", insert_mx_records id (ur_mx_records record));
    (lit "url_security_headers", insert_security_headers id (p_security_headers params));
    (lit "url_http_headers", insert_http_headers id (p_http_headers params));
    (lit "url_certificate_oids", insert_oids id (p_oids params));
    (lit "url_redirect_chain", insert_redirect_chain id (p_redirect_chain params));
    (lit "url_certificate_sans",
     insert_certificate_sans id (p_subject_alternative_names params));
    (lit "url_cname_records", insert_cname_records id (p_cname_records params));
    (lit "url_ipv6_addresses", insert_ipv6_addresses id (p_aaaa_records params));
    (lit "url_caa_records", insert_caa_records id (p_caa_records params));
    (lit "url_csp_domains", insert_csp_domains id (p_csp_domains params));
    (lit "url_cookies", insert_cookies id (p_cookies params));
    (lit "url_resource_hints", insert_resource_hints id (p_resource_hints params));
    (lit "url_script_hosts", insert_script_hosts id (p_script_hosts params));
    (lit "url_security_txt", insert_security_txt id (p_security_txt params));
    (lit "url_robots_txt", insert_robots_txt id (p_robots_txt params)) ].

Fixpoint run_satellites (writes : list (str * TxM Tx unit)) (tx : Tx)
  (failures : list SatelliteWriteFailure) : Tx * list SatelliteWriteFailure :=
  match writes with
  | [] => (tx, failures)
  | (table, write) :: rest =>
      let (tx, r) := write tx in
      run_satellites rest tx (record_satellite_write table failures r)
  end.

(** The clean-up of stale rows, then the satellites. *)
Definition write_core_satellites (url_status_id : Z) (params : UrlRecordInsertParams) (tx : Tx)
  : Tx * list SatelliteWriteFailure :=
  match delete_child_rows URL_STATUS_CORE_SATELLITE_TABLES url_status_id tx with
  | (tx, Ok _) => run_satellites (core_satellite_writes url_status_id params) tx []
  | (tx, Err e) =>
      (tx, [MkWriteFailure (lit "core_satellites")
              (lit "Failed to clean stale core satellite rows: " ++ sqlx_error_text e)])
  end.

Definition insert_url_record_impl (params : UrlRecordInsertParams) (w : W)
  : W * result UrlUpsertOutcome DatabaseError :=
  let record := p_record params in
  let valid_from_millis := naive_datetime_to_millis (ur_ssl_cert_valid_from record) in
  let valid_to_millis := naive_datetime_to_millis (ur_ssl_cert_valid_to record) in
  match begin_tx w with
  | inl (w, e) => (w, Err e)
  | inr tx =>
      match upsert_url_status_row record valid_from_millis valid_to_millis tx with
      | (tx, Err e) => (rollback tx, Err e)
      | (tx, Ok (url_status_id, inserted)) =>
          let (tx, failures) := write_core_satellites url_status_id params tx in
          match commit_tx tx with
          | (w, Err e) => (w, Err e)
          | (w, Ok _) => (w, Ok (MkUpsert url_status_id inserted failures 0 0))
          end
      end
  end.

Definition insert_url_record_with_outcome (params : UrlRecordInsertParams) (w : W)
  : W * result UrlUpsertOutcome DatabaseError :=
  (with_sqlite_retry (insert_url_record_impl params) w).1.
End Inserts.

(** ** What each satellite writes

    The plan of a satellite: the statements it issues, in order. *)

Definition issue (b : bool) (s : Statement) : list Statement := if b then [s] else [].

Section Plans.
Context `{J : Serde} `{Lo : Lowercase} `{H : HashIter}.

Definition names_plan (table column conflict : str) (id : Z) (json : option str)
  : list Statement :=
  let names := default [] (parse_json_array json) in
  issue (nonempty names)
    (single_column_statement table id_column column id names (Some conflict)).
Definition nameservers_plan (id : Z) : option str -> list Statement :=
  names_plan (lit "url_nameservers") (lit "nameserver")
    (lit "ON CONFLICT(url_status_id, nameserver) DO NOTHING") id.
Definition cname_plan (id : Z) : option str -> list Statement :=
  names_plan (lit "url_cname_records") (lit "cname_target")
    (lit "ON CONFLICT(url_status_id, cname_target) DO NOTHING") id.
Definition ipv6_plan (id : Z) : option str -> list Statement :=
  names_plan (lit "url_ipv6_addresses") (lit "ipv6_address")
    (lit "ON CONFLICT(url_status_id, ipv6_address) DO NOTHING") id.

Definition txt_plan (id : Z) (json : option str) : list Statement :=
  let typed := txt_with_types (default [] (parse_json_array json)) in
  issue (nonempty typed)
    (key_value_statement (lit "url_txt_records") id_column (lit "record_value")
       (lit "record_type") id typed
       (Some (lit "ON CONFLICT(url_status_id, record_type, record_value) DO NOTHING"))).

Definition mx_plan (id : Z) (json : option str) : list Statement :=
  let records := default [] (parse_mx_json_array json) in
  issue (nonempty records)
    (key_value_statement (lit "url_mx_records") id_column (lit "priority")
       (lit "mail_exchange") id records
       (Some (lit "ON CONFLICT(url_status_id, priority, mail_exchange) DO NOTHING"))).

Definition caa_plan (id : Z) (json : option str) : list Statement :=
  let parsed := default [] (json ≫= λ s, from_str s ≫= vec_of_value) in
  issue (nonempty parsed) (caa_statement id parsed).

Definition headers_plan (table : str) (id : Z) (headers : gmap str str) : list Statement :=
  let l := hash_iter headers in
  issue (negb (bool_decide (headers = ∅)) && nonempty l)
    (key_value_statement table id_column (lit "header_name") (lit "header_value") id l
       (Some header_conflict)).

Definition robots_plan (id : Z) (data : option RobotsTxtData) : list Statement :=
  match data with
  | None => []
  | Some d => robots_statement id d
              :: issue (nonempty (rt_directives d)) (directives_statement id (rt_directives d))
  end.

Definition core_satellite_plans (id : Z) (params : UrlRecordInsertParams)
  : list (str * list Statement) :=
  let record := p_record params in
  let techs := dedup_technologies [] (p_technologies params) in
  [ (lit "url_technologies", issue (nonempty techs) (technologies_statement id techs));
    (lit "url_nameservers", nameservers_plan id (ur_nameservers record));
    (lit "url_txt_records", txt_plan id (ur_txt_records record));
    (lit "url_mx_records", mx_plan id (ur_mx_records record));
    (lit "url_security_headers",
     headers_plan (lit "url_security_headers") id (p_security_headers params));
    (lit "url_http_headers",
     headers_plan (lit "url_http_headers") id (p_http_headers params));
    (lit "url_certificate_oids",
     issue (negb (bool_decide (p_oids params = ∅)))
       (oids_statement id (map fst (hash_iter (p_oids params)))));
    (lit "url_redirect_chain",
     issue (nonempty (p_redirect_chain params)) (redirect_statement id (p_redirect_chain params)));
    (lit "url_certificate_sans",
     issue (nonempty (p_subject_alternative_names params))
       (sans_statement id (p_subject_alternative_names params)));
    (lit "url_cname_records", cname_plan id (p_cname_records params));
    (lit "url_ipv6_addresses", ipv6_plan id (p_aaaa_records params));
    (lit "url_caa_records", caa_plan id (p_caa_records params));
    (lit "url_csp_domains",
     issue (nonempty (p_csp_domains params)) (csp_statement id (p_csp_domains params)));
    (lit "url_cookies",
     issue (nonempty (p_cookies params)) (cookies_statement id (p_cookies params)));
    (lit "url_resource_hints",
     issue (nonempty (p_resource_hints params)) (hints_statement id (p_resource_hints params)));
    (lit "url_script_hosts",
     issue (nonempty (p_script_hosts params)) (script_hosts_statement id (p_script_hosts params)));
    (lit "url_security_txt",
     match p_security_txt params with Some d => [security_txt_statement id d] | None => [] end);
    (lit "url_robots_txt", robots_plan id (p_robots_txt params)) ].
End Plans.

(** ** The inserts follow the plans *)

Section Follow.
Context `{Q : Sqlx W Tx} {Laws : SqlxLaws Q} `{J : Serde} `{Lo : Lowercase} `{H : HashIter}.

Lemma writes_issue (b : bool) s : writes (if b then execute s else tx_ret tt) (issue b s).
Proof. apply writes_if, writes_execute. Qed.

Lemma writes_key_value `{Encode K, Encode V} t p k v id (data : list (K * V)) c :
  writes (insert_key_value_batch t p k v id data c)
    (issue (nonempty data) (key_value_statement t p k v id data c)).
Proof. apply writes_issue. Qed.

Lemma writes_names t c k id json : writes (insert_names t c k id json) (names_plan t c k id json).
Proof.
  unfold insert_names, names_plan. destruct (parse_json_array json) as [[|n l]|]; cbn;
    [apply writes_ret| |apply writes_ret]. apply (writes_issue true).
Qed.

Lemma writes_txt id json : writes (insert_txt_records id json) (txt_plan id json).
Proof.
  unfold insert_txt_records, txt_plan.
  destruct (parse_json_array json) as [[|n l]|]; [apply writes_ret| |apply writes_ret].
  cbn -[txt_with_types]. destruct (txt_with_types (n :: l)); [apply writes_ret|apply (writes_issue true)].
Qed.

Lemma writes_mx id json : writes (insert_mx_records id json) (mx_plan id json).
Proof.
  unfold insert_mx_records, mx_plan.
  destruct (parse_mx_json_array json) as [[|n l]|]; cbn;
    [apply writes_ret|apply (writes_issue true)|apply writes_ret].
Qed.

Lemma writes_caa id json : writes (insert_caa_records id json) (caa_plan id json).
Proof.
  unfold insert_caa_records, caa_plan. destruct json as [s|]; [|apply writes_ret].
  cbn [mbind option_bind]. destruct (from_str s ≫= vec_of_value) as [l|]; [|apply writes_ret].
  apply writes_issue.
Qed.

Lemma writes_headers (t : str) (id : Z) (headers : gmap str str) :
  writes (if bool_decide (headers = ∅) then tx_ret tt
          else insert_key_value_batch t id_column (lit "header_name") (lit "header_value") id
                 (hash_iter headers) (Some header_conflict))
    (headers_plan t id headers).
Proof.
  unfold headers_plan. destruct (bool_decide (headers = ∅)); [apply writes_ret|].
  apply writes_key_value.
Qed.

Lemma writes_oids (id : Z) (oids : gmap str unit) :
  writes (insert_oids id oids)
    (issue (negb (bool_decide (oids = ∅))) (oids_statement id (map fst (hash_iter oids)))).
Proof.
  unfold insert_oids. destruct (bool_decide _); [apply writes_ret|apply (writes_issue true)].
Qed.

Lemma writes_technologies id l :
  writes (insert_technologies id l)
    (issue (nonempty (dedup_technologies [] l)) (technologies_statement id (dedup_technologies [] l))).
Proof. unfold insert_technologies. destruct l; [apply writes_ret|apply writes_issue]. Qed.

Lemma writes_robots id data : writes (insert_robots_txt id data) (robots_plan id data).
Proof.
  destruct data as [d|]; [|apply writes_ret].
  apply (writes_bind (execute _) _ [_]); [apply writes_execute|intros _; apply writes_issue].
Qed.

Definition follows (write : str * TxM Tx unit) (plan : str * list Statement) : Prop :=
  write.1 = plan.1 ∧ writes write.2 plan.2.

Lemma core_satellites_follow id params :
  Forall2 follows (core_satellite_writes id params) (core_satellite_plans id params).
Proof.
  repeat constructor; try reflexivity; cbn [snd fst];
    first [ apply writes_technologies | apply writes_names | apply writes_txt
          | apply writes_mx | apply writes_headers | apply writes_oids | apply writes_caa
          | apply writes_robots | apply writes_issue
          | destruct (p_security_txt params); [apply writes_execute|apply writes_ret] ].
Qed.
End Follow.

(** ** The transaction of a URL *)

Section Upsert.
Context `{Q : Sqlx W Tx} {Laws : SqlxLaws Q} `{J : Serde} `{Lo : Lowercase} `{H : HashIter}.

(** A satellite writes its plan, or a strict prefix of it and is recorded by its table. *)
Inductive satellite_result : str * list Statement ->
  list Statement * option SatelliteWriteFailure -> Prop :=
  | satellite_written table l : satellite_result (table, l) (l, None)
  | satellite_failed table done s rest message :
      satellite_result (table, done ++ s :: rest)
        (done, Some (MkWriteFailure table message)).

Lemma run_satellites_spec ws plans tx failures :
  Forall2 follows ws plans ->
  ∃ rs, Forall2 satellite_result plans rs
        ∧ applied tx (run_satellites ws tx failures).1 (concat (map fst rs))
        ∧ (run_satellites ws tx failures).2 = failures ++ omap snd rs.
Proof.
  intros Hf. revert tx failures.
  induction Hf as [|[t m] [t' l] ws plans [Et Hw] _ IH]; intros tx failures.
  - exists []. split; [constructor|]. split; [apply applied_refl|]. cbn. by rewrite app_nil_r.
  - cbn in Et, Hw. subst t'. cbn [run_satellites].
    destruct (Hw tx) as (d & r & -> & Ha & Hok). destruct (m tx) as [tx1 res]. cbn in Ha, Hok.
    destruct (IH tx1 (record_satellite_write t failures res)) as (rs & Hrs & Hap & Hfs).
    destruct res as [[]|e]; cbn [record_satellite_write is_ok] in *.
    + destruct r; [|done]. rewrite app_nil_r. exists ((d, None) :: rs).
      split; [constructor; [constructor|done]|]. cbn. split; [by eapply applied_trans|done].
    + destruct r as [|s r]; [done|]. exists ((d, Some (MkWriteFailure t (sqlx_error_text e))) :: rs).
      split; [constructor; [constructor|done]|]. cbn. split; [by eapply applied_trans|].
      by rewrite Hfs, <- app_assoc.
Qed.

(** The statements of the fact row, by the answer to the INSERT. *)
Definition fact_statements (record : UrlRecord) (inserted : bool) : list Statement :=
  if inserted then [insert_of record] else [insert_of record; update_of record].

Lemma upsert_spec record a b tx :
  let r := upsert_url_status_row record a b tx in
  match r.2 with
  | Ok (_, inserted) =>
      applied tx r.1 (if inserted then [insert_statement record a b]
                      else [insert_statement record a b; update_statement record a b])
  | Err _ => base r.1 = base tx
  end.
Proof.
  unfold upsert_url_status_row, tx_bind.
  generalize (insert_statement record a b) (update_statement record a b). intros si su.
  pose proof (fetch_optional_law si tx) as [Hb Hp].
  destruct (fetch_optional _ tx) as [tx1 [[id|]|e]]; cbn in *; [by split| |done].
  pose proof (fetch_one_law su tx1) as [Hb1 Hp1].
  destruct (fetch_one _ tx1) as [tx2 [id|e]]; cbn in *; [|congruence].
  split; [congruence|]. by rewrite Hp1, Hp, <- app_assoc.
Qed.

(** The clean-up and the satellites of one upsert. *)
Definition satellites_done (plans : list (str * list Statement)) (deletes : list Statement)
  (body : list Statement) (failures : list SatelliteWriteFailure) : Prop :=
  (∃ rs, Forall2 satellite_result plans rs
         ∧ body = deletes ++ concat (map fst rs) ∧ failures = omap snd rs)
  ∨ (∃ rest message, rest <> [] ∧ deletes = body ++ rest
                     ∧ failures = [MkWriteFailure (lit "core_satellites") message]).

Definition core_deletes (id : Z) : list Statement :=
  map (λ t, delete_statement t id) URL_STATUS_CORE_SATELLITE_TABLES.

Lemma write_core_satellites_spec id params tx :
  ∃ body, applied tx (write_core_satellites id params tx).1 body
          ∧ satellites_done (core_satellite_plans id params) (core_deletes id) body
              (write_core_satellites id params tx).2.
Proof.
  unfold write_core_satellites, core_deletes.
  destruct (writes_delete_child_rows URL_STATUS_CORE_SATELLITE_TABLES id tx)
    as (d & r & Ed & Hd & Hdok).
  destruct (delete_child_rows _ id tx) as [tx2 [[]|e]]; cbn [fst snd is_ok] in *.
  - destruct r; [|done]. rewrite app_nil_r in Ed. subst d.
    destruct (run_satellites_spec _ _ tx2 [] (core_satellites_follow id params))
      as (rs & Hrs & Hap & Hfs).
    eexists. split; [by eapply applied_trans|]. left. by exists rs.
  - exists d. split; [done|]. right. eexists r, _. split; [|by split]. by destruct r.
Qed.

(** What a call that succeeds adds to the transactions committed [before]. *)
Definition upsert_effect (params : UrlRecordInsertParams) (before : list (list Statement))
  (w : W) (out : UrlUpsertOutcome) : Prop :=
  ∃ body, committed w = before ++ [fact_statements (p_record params) (up_inserted out) ++ body]
          ∧ satellites_done (core_satellite_plans (up_id out) params)
              (core_deletes (up_id out)) body (satellite_insert_failures out).

Lemma insert_url_record_effect params w :
  let r := insert_url_record_impl params w in
  match r.2 with
  | Ok out => upsert_effect params (committed w) r.1 out
  | Err _ => committed r.1 = committed w
  end.
Proof.
  unfold insert_url_record_impl. pose proof (begin_tx_law w) as Hbegin.
  destruct (begin_tx w) as [[w1 e]|tx]; [done|]. destruct Hbegin as [Hbase Hpend].
  pose proof (upsert_spec (p_record params)
    (naive_datetime_to_millis (ur_ssl_cert_valid_from (p_record params)))
    (naive_datetime_to_millis (ur_ssl_cert_valid_to (p_record params))) tx) as Hup.
  cbn zeta in Hup. fold (insert_of (p_record params)) (update_of (p_record params)) in Hup.
  destruct (upsert_url_status_row _ _ _ tx) as [tx1 [[id inserted]|e]]; cbn [fst snd] in Hup |- *;
    [|cbn; by rewrite rollback_law, Hup].
  fold (fact_statements (p_record params) inserted) in Hup.
  destruct (write_core_satellites_spec id params tx1) as (body & Hbody & Hdone).
  destruct (write_core_satellites id params tx1) as [tx2 failures].
  destruct (applied_trans _ _ _ _ _ Hup Hbody) as [Hb3 Hp3]. cbn [fst snd] in *.
  pose proof (commit_law tx2) as Hc. rewrite Hb3, Hbase in Hc.
  destruct (commit_tx tx2) as [w2 [[]|e]]; cbn in *; [|by rewrite app_nil_r in Hc].
  exists body. by rewrite Hc, Hp3, Hpend.
Qed.

(** C2: A URL is stored with its retries in at most one transaction.  Success commits the fact
    row whatever the satellites do: each satellite writes its whole plan after the clean-up
    of the earlier rows, or a strict prefix of it and is reported by its table, in order; a
    failed clean-up skips them all and is reported alone.  Failure commits nothing. *)
Theorem url_record_stored params w :
  let (w', r) := insert_url_record_with_outcome params w in
  match r with
  | Ok out => upsert_effect params (committed w) w' out
  | Err _ => committed w' = committed w
  end.
Proof.
  unfold insert_url_record_with_outcome.
  pose proof (sqlite_retry_transfers (insert_url_record_impl params) committed
                (upsert_effect params) (insert_url_record_effect params) w) as Hr.
  by destruct (with_sqlite_retry _ w).1.
Qed.
End Upsert.

(** ** The statements are well-formed and stay in their tables *)

(** Opens the rows of a batch. *)
Ltac rows :=
  repeat match goal with
    | a : _ * _ |- _ => destruct a
    end.

Section Statements.
Context `{J : Serde} `{Lo : Lowercase} `{H : HashIter} `{HL : !HashIterLaws H}.

(** One value per placeholder, and an INSERT into a table that the clean-up emptied. *)
Definition well_formed (s : Statement) : Prop :=
  statement_ok s ∧ ∃ t, t ∈ URL_STATUS_CORE_SATELLITE_TABLES ∧ inserts_into t s.

Definition core_table (t : str) : bool := bool_decide (t ∈ URL_STATUS_CORE_SATELLITE_TABLES).

(** The values a loop of binds takes from one row. *)
Definition row_values {A} (f : Statement -> A -> Statement) (a : A) : list SqlValue :=
  binds (f (query []) a).

Lemma batch_ok {A} (f : Statement -> A -> Statement) t columns conflict rows n :
  binds_row f (row_values f) -> (∀ a, length (row_values f a) = length columns) ->
  plain t && forallb plain columns && plain (default [] conflict) = true -> n = length rows ->
  statement_ok (bind_rows f rows (query (build_batch_insert_query t columns n conflict))).
Proof. intros Hf Hr Hp ->. by eapply batch_statement_ok. Qed.

Lemma batch_well_formed {A} (f : Statement -> A -> Statement) t columns conflict rows n :
  binds_row f (row_values f) -> (∀ a, length (row_values f a) = length columns) ->
  core_table t && plain t && forallb plain columns && plain (default [] conflict) = true ->
  n = length rows -> rows <> [] ->
  well_formed (bind_rows f rows (query (build_batch_insert_query t columns n conflict))).
Proof.
  rewrite <- !andb_assoc, andb_true_iff, andb_assoc. intros Hf Hr [Ht Hp] -> Hne.
  apply bool_decide_eq_true in Ht. split; [by eapply batch_statement_ok|].
  exists t. split; [done|by eapply batch_inserts_into].
Qed.

Lemma issue_forall (P : Statement -> Prop) (b : bool) s :
  (b = true -> P s) -> Forall P (issue b s).
Proof. destruct b; cbn; [|constructor]. intros HP. constructor; [by apply HP|constructor]. Qed.

Lemma nonempty_true {A} (l : list A) : nonempty l = true -> l <> [].
Proof. by destruct l. Qed.

Lemma hash_iter_nonempty {A} (m : gmap str A) : m <> ∅ -> hash_iter m <> [].
Proof.
  intros Hm E. apply Hm, map_to_list_empty_iff, Permutation_nil.
  rewrite <- (hash_iter_perm A m), E. done.
Qed.

Ltac batch :=
  apply issue_forall; intros Hne;
  apply batch_well_formed;
  [ intros s a; rows; unfold row_values, bind; cbn; by rewrite <- ?app_assoc
  | intros a; rows; reflexivity
  | vm_compute; reflexivity
  | try reflexivity
  | try (by apply nonempty_true) ].

Ltac no_batch t :=
  constructor;
  [ split; [vm_compute; reflexivity|]; exists t;
    split; [apply (bool_decide_eq_true_1 _)|]; vm_compute; reflexivity
  | ].

Lemma names_well_formed t c k id json :
  core_table t && plain t && forallb plain [id_column; c] && plain k = true ->
  Forall well_formed (names_plan t c k id json).
Proof.
  intros Hp. apply issue_forall. intros Hne. apply batch_well_formed; try done.
  - intros s a. unfold row_values, bind. cbn. by rewrite <- app_assoc.
  - by apply nonempty_true.
Qed.

Lemma headers_well_formed (t : str) (id : Z) (headers : gmap str str) :
  core_table t && plain t
    && forallb plain [id_column; lit "header_name"; lit "header_value"]
    && plain header_conflict = true ->
  Forall well_formed (headers_plan t id headers).
Proof.
  intros Hp. apply issue_forall. intros Hne. apply batch_well_formed; try done.
  - intros s [k v]. unfold row_values, bind. cbn. by rewrite <- !app_assoc.
  - by intros [].
  - apply andb_true_iff in Hne as [_ Hne]. by apply nonempty_true.
Qed.

Lemma oids_well_formed (id : Z) (oids : gmap str unit) :
  Forall well_formed
    (issue (negb (bool_decide (oids = ∅))) (oids_statement id (map fst (hash_iter oids)))).
Proof.
  batch. apply negb_true_iff, bool_decide_eq_false in Hne.
  pose proof (hash_iter_nonempty oids Hne). by destruct (hash_iter oids).
Qed.

Lemma redirect_well_formed id chain :
  Forall well_formed (issue (nonempty chain) (redirect_statement id chain)).
Proof. batch; [by rewrite length_combine, length_seq, Nat.min_id|by destruct chain]. Qed.

Lemma robots_well_formed id data : Forall well_formed (robots_plan id data).
Proof. destruct data as [d|]; [|constructor]. cbn [robots_plan].
  no_batch (lit "url_robots_txt"). batch. Qed.

Lemma security_txt_well_formed id (data : option SecurityTxtData) :
  Forall well_formed
    (match data with Some d => [security_txt_statement id d] | None => [] end).
Proof. destruct data as [d|]; [|constructor]. no_batch (lit "url_security_txt"). constructor. Qed.

(** Whatever was scraped, every statement of a satellite binds one value per placeholder and
    inserts into a table that the clean-up of the same transaction has emptied: rows of an
    earlier scan never survive next to those of a new one. *)
Theorem core_statements_well_formed id params :
  Forall (λ plan, Forall well_formed plan.2) (core_satellite_plans id params).
Proof.
  unfold core_satellite_plans, nameservers_plan, cname_plan, ipv6_plan. cbn zeta.
  repeat constructor; cbn [snd];
    first [ by apply names_well_formed | by apply headers_well_formed
          | apply oids_well_formed | apply redirect_well_formed | apply robots_well_formed
          | apply security_txt_well_formed | batch ].
Qed.
End Statements.

(** ** From the lookup to the rows *)

Section DnsRows.
Context `{R : Resolver} `{T : IpText} `{J : Serde} {JL : SerdeLaws J} `{Lo : Lowercase}
  `{H : HashIter}.

Definition answers {A} (r : result (list A) AnyhowError) : list A :=
  match r with Ok l => l | Err _ => [] end.

(** The plan of a child table that is cleared first, run on the rows of other pages, adds
    exactly the rows given. *)
Definition fills (id : Z) (table : str) (columns : list str) (c : Conflict)
  (plan : list Statement) (rows : list TableRow) : Prop :=
  table ∈ URL_STATUS_CORE_SATELLITE_TABLES
  ∧ ∀ before : list TableRow, Forall (λ o, cell_of columns o id_column <> Some (VInteger id)) before ->
      leaves table columns c plan before (before ++ rows).

(** The stored text of an answer parses back to the answer. *)
Lemma dns_field_reads {A} label kind domain (to_value : A -> Value) r st :
  forallb plain_value (map to_value (answers r)) = true ->
  let json := (dns_field label kind domain to_value r st).1 in
  json <> Some []
  ∧ (json ≫= λ s, from_str s ≫= vec_of_value)
    = if nonempty (answers r) then Some (map to_value (answers r)) else None.
Proof.
  intros Hp. unfold dns_field, serialize_json_with_default.
  destruct r as [[|a l]|e]; [done| |done]. cbn beta iota zeta.
  assert (Hv : plain_value (of_vec to_value (a :: l)) = true) by exact Hp.
  change (map to_value (answers (Ok (a :: l)))) with (map to_value (a :: l)).
  assert (Ev : vec_of_value (of_vec to_value (a :: l)) = Some (map to_value (a :: l))) by done.
  generalize dependent (of_vec to_value (a :: l)). intros v Hv Ev.
  destruct (json_print_total v Hv) as [s Es]. rewrite Es.
  change (default (lit "[]") (Some s)) with s. cbn [fst mbind option_bind].
  rewrite (json_reparse _ _ Hv Es). split; [|exact Ev].
  intros [= ->]. pose proof (json_reparse _ _ Hv Es) as E. by rewrite json_empty in E.
Qed.

Lemma parse_json_array_eq json :
  json <> Some [] ->
  parse_json_array json = (json ≫= λ s, from_str s ≫= vec_of_value) ≫= mapM as_str.
Proof.
  destruct json as [[|c s]|]; [done| |done]. intros _. cbn.
  unfold vec_of_strings. by destruct (from_str (c :: s)).
Qed.

Lemma mapM_as_str l : mapM as_str (map of_str l) = Some l.
Proof. induction l as [|x l IH]; [done|]. cbn. by rewrite IH. Qed.

Lemma plain_strings l : forallb plain_value (map of_str l) = true.
Proof. by induction l. Qed.

Lemma names_read label kind domain r st :
  default [] (parse_json_array (dns_field label kind domain of_str r st).1) = answers r.
Proof.
  destruct (dns_field_reads label kind domain of_str r st (plain_strings _)) as [Hne E].
  rewrite parse_json_array_eq, E by done. destruct (nonempty (answers r)) eqn:En.
  - cbn [mbind option_bind]. by rewrite mapM_as_str.
  - by destruct (answers r).
Qed.

Lemma other_page columns key id row o :
  cell_of columns row id_column = Some (VInteger id) ->
  cell_of columns o id_column <> Some (VInteger id) ->
  key_agrees columns (id_column :: key) row o = false.
Proof.
  intros Hr Ho. unfold key_agrees. cbn [forallb]. rewrite Hr.
  rewrite bool_decide_eq_false_2; [done|]. congruence.
Qed.

(** A batch of answers whose key is their whole row leaves each once. *)
Lemma fills_distinct {A} `{EqDecision A} id table columns key (f : Statement -> A -> Statement)
  (row : A -> TableRow) rows :
  table ∈ URL_STATUS_CORE_SATELLITE_TABLES ->
  binds_row f row -> (∀ a, length (row a) = length columns) ->
  (∀ a, cell_of columns (row a) id_column = Some (VInteger id)) ->
  (∀ a b, key_agrees columns (id_column :: key) (row a) (row b) = bool_decide (a = b)) ->
  fills id table columns (DoNothing (id_column :: key))
    (issue (nonempty rows)
       (bind_rows f rows (query (build_batch_insert_query table columns (length rows)
          (Some (conflict_text (DoNothing (id_column :: key))))))))
    (map row (first_seen rows)).
Proof.
  intros Ht Hf Hl Hid Hk. split; [done|]. intros before Hb.
  rewrite List.Forall_forall in Hb. rewrite <- (insert_distinct columns (id_column :: key) row).
  - by apply batch_leaves.
  - exact Hk.
  - intros a o Ho. apply (other_page _ _ id); [done|]. by apply Hb, list_elem_of_In.
Qed.

(** The cells of a row with known columns. *)
Ltac cells :=
  intros; apply eq_true_iff_eq; rewrite bool_decide_eq_true; unfold key_agrees; cbn [forallb map];
  rewrite !andb_true_iff, !bool_decide_eq_true.

Lemma names_fill table c id label kind domain r st :
  table ∈ URL_STATUS_CORE_SATELLITE_TABLES -> streqb id_column c = false ->
  fills id table [id_column; c] (DoNothing [id_column; c])
    (names_plan table c (conflict_text (DoNothing [id_column; c])) id
       (dns_field label kind domain of_str r st).1)
    (map (λ n, [VInteger id; VText n]) (first_seen (answers r))).
Proof.
  intros Ht Hc. unfold names_plan. rewrite names_read. cbn zeta. unfold single_column_statement.
  assert (Ei : ∀ n, cell_of [id_column; c] [VInteger id; VText n] id_column = Some (VInteger id)) by done.
  assert (En : ∀ n, cell_of [id_column; c] [VInteger id; VText n] c = Some (VText n)).
  { intros n. unfold cell_of. cbn [zip zip_with List.find fst]. rewrite Hc.
    by rewrite (proj2 (streqb_eq c c) eq_refl). }
  apply fills_distinct; [done| |done|done|].
  - intros s a. unfold bind. cbn. by rewrite <- app_assoc.
  - cells. rewrite !Ei, !En. split; [by intros (_ & [= ->] & _)|by intros ->].
Qed.
(** *** TXT, MX and CAA *)

Lemma txt_answers_storable domain :
  List.filter is_storable_txt (answers (lookup_txt_records domain))
  = answers (lookup_txt_records domain).
Proof.
  unfold lookup_txt_records. destruct (lookup_rr domain TyTXT) as [l|e]; cbn [answers].
  - generalize (omap (λ d, match d with
                           | RTXT txt_data =>
                               Some (bound_txt_record (concat (map from_utf8_lossy txt_data)))
                           | _ => None
                           end) l). intros records. unfold take_storable_txt.
    generalize MAX_TXT_RECORD_COUNT. induction records as [|x r IH]; intros n; cbn.
    + by rewrite take_nil.
    + destruct (is_storable_txt x) eqn:E; [|apply IH]. destruct n; [done|]. cbn.
      by rewrite E, IH.
  - unfold map_lookup_error. by destruct (_ || _).
Qed.

Lemma txt_fill id label kind domain d st :
  fills id (lit "url_txt_records") (map lit ["url_status_id"; "record_value"; "record_type"]%string)
    (DoNothing (map lit ["url_status_id"; "record_type"; "record_value"]%string))
    (txt_plan id (dns_field label kind d of_str (lookup_txt_records domain) st).1)
    (map (λ t, [VInteger id; VText t; VText (detect_txt_type t)])
       (first_seen (answers (lookup_txt_records domain)))).
Proof.
  unfold txt_plan. rewrite names_read. cbn zeta. unfold txt_with_types. rewrite txt_answers_storable.
  set (l := answers _). clearbody l.
  replace (map (λ t, [VInteger id; VText t; VText (detect_txt_type t)]) (first_seen l))
    with (map (λ '(k, v), [VInteger id; VText k; VText v])
            (first_seen (map (λ t, (t, detect_txt_type t)) l))).
  2: { rewrite first_seen_map, map_map; [done|]. intros a b E. by injection E. }
  apply (fills_distinct id _ _ (map lit ["record_type"; "record_value"]%string)).
  - by apply (bool_decide_unpack _); vm_compute.
  - intros s [k v]. unfold bind. cbn. by rewrite <- !app_assoc.
  - by intros [k v].
  - by intros [k v].
  - intros [k v] [k' v']. cells. split; [|intros [= -> ->]; repeat split]. intros (_ & E1 & E2 & _).
    change (Some (VText v) = Some (VText v')) in E1. change (Some (VText k) = Some (VText k')) in E2.
    congruence.
Qed.

Definition mx_in_range (r : Z * str) : Prop := 0 <= r.1 <= u16_max.

Lemma mx_object_reads r : mx_in_range r -> mx_of_object (mx_json r) = Some r.
Proof.
  unfold mx_in_range, u16_max. destruct r as [p h]. cbn [fst]. intros Hp.
  assert (Ep : get (mx_json (p, h)) (lit "priority") = Some (of_int p)) by reflexivity.
  assert (Eh : get (mx_json (p, h)) (lit "hostname") = Some (of_str h)) by reflexivity.
  unfold mx_of_object. rewrite Ep, Eh. cbn [mbind option_bind of_int of_str as_str as_i64].
  destruct (Z.leb_spec p 9223372036854775807); [|lia]. cbn.
  by rewrite as_i32_small by (unfold i32_max; lia).
Qed.

Lemma omap_mx l : Forall mx_in_range l -> omap mx_of_object (map mx_json l) = l.
Proof.
  induction 1 as [|r l Hr _ IH]; [done|]. cbn [map]. rewrite omap_cons, mx_object_reads by done.
  by rewrite IH.
Qed.

Lemma plain_mx l : Forall mx_in_range l -> forallb plain_value (map mx_json l) = true.
Proof.
  induction 1 as [|[p h] l Hr _ IH]; [done|]. cbn [map forallb]. rewrite IH, andb_true_r.
  unfold mx_in_range, u16_max in Hr. cbn [fst] in Hr.
  change (true && ((-9223372036854775808 <=? p) && (p <=? u64_max) && true) && true = true).
  unfold u64_max. lia.
Qed.

(** What the plan reads of the answers. *)
Lemma mx_read label kind d r st :
  Forall mx_in_range (answers r) ->
  default [] (parse_mx_json_array (dns_field label kind d mx_json r st).1) = answers r.
Proof.
  intros Hr. destruct (dns_field_reads label kind d mx_json r st (plain_mx _ Hr)) as [Hne E].
  destruct (dns_field _ _ _ _ _ _).1 as [[|c s]|] eqn:Ed; [done| |].
  - cbn [mbind option_bind] in E. unfold parse_mx_json_array.
    cbn [mbind option_bind nonempty negb]. rewrite E.
    destruct (answers r) as [|x l]; [|].
    + cbn [nonempty]. cbn [nonempty] in E. unfold vec_of_strings.
      destruct (from_str (c :: s)) as [v|]; [|done]. cbn [mbind option_bind] in E |- *.
      by rewrite E.
    + cbn [nonempty]. by rewrite omap_mx.
  - cbn in E. by destruct (answers r).
Qed.

Lemma mx_fill id label kind d r st :
  Forall mx_in_range (answers r) ->
  fills id (lit "url_mx_records") (map lit ["url_status_id"; "priority"; "mail_exchange"]%string)
    (DoNothing (map lit ["url_status_id"; "priority"; "mail_exchange"]%string))
    (mx_plan id (dns_field label kind d mx_json r st).1)
    (map (λ '(p, h), [VInteger id; VInteger p; VText h]) (first_seen (answers r))).
Proof.
  intros Hr. unfold mx_plan. rewrite mx_read by done. cbn zeta. unfold key_value_statement.
  apply (fills_distinct id _ _ (map lit ["priority"; "mail_exchange"]%string)).
  - by apply (bool_decide_unpack _); vm_compute.
  - intros s [p h]. unfold bind. cbn. by rewrite <- !app_assoc.
  - by intros [p h].
  - by intros [p h].
  - intros [p h] [p' h']. cells. split; [|intros [= -> ->]; repeat split]. intros (_ & E1 & E2 & _).
    change (Some (VInteger p) = Some (VInteger p')) in E1.
    change (Some (VText h) = Some (VText h')) in E2. congruence.
Qed.

Definition caa_in_range (r : Z * str * str) : Prop := 0 <= r.1.1 <= u8_max.

(** The row bound for one JSON record of [caa_statement]. *)
Definition caa_row (id : Z) (record : Value) : list SqlValue :=
  [VInteger id; VInteger (as_i32 (default 0 (as_u64 (index record (lit "flag")))));
   VText (or_empty (as_str (index record (lit "tag"))));
   VText (or_empty (as_str (index record (lit "value"))))].

Lemma caa_object_reads id r :
  caa_in_range r ->
  caa_row id (caa_json r) = [VInteger id; VInteger r.1.1; VText r.1.2; VText r.2].
Proof.
  destruct r as [[f t] v]. unfold caa_in_range, u8_max. cbn [fst snd]. intros Hf.
  assert (Ef : index (caa_json (f, t, v)) (lit "flag") = of_int f) by reflexivity.
  assert (Et : index (caa_json (f, t, v)) (lit "tag") = of_str t) by reflexivity.
  assert (Ev : index (caa_json (f, t, v)) (lit "value") = of_str v) by reflexivity.
  unfold caa_row. rewrite Ef, Et, Ev. cbn [of_int as_u64].
  destruct (Z.leb_spec 0 f); [|lia]. cbn.
  by rewrite as_i32_small by (unfold i32_max; lia).
Qed.

Lemma plain_caa l : Forall caa_in_range l -> forallb plain_value (map caa_json l) = true.
Proof.
  induction 1 as [|[[f t] v] l Hr _ IH]; [done|]. cbn [map forallb]. rewrite IH, andb_true_r.
  unfold caa_in_range, u8_max in Hr. cbn [fst] in Hr.
  change (((-9223372036854775808 <=? f) && (f <=? u64_max) && true) && true = true).
  unfold u64_max. lia.
Qed.

(** The flags of the answers, each with the tag and value that are its key. *)
Definition keyed (l : list (Z * str * str)) : list (Z * (str * str)) :=
  map (λ '(f, t, v), (f, (t, v))) l.
Definition caa_columns : list str := map lit ["url_status_id"; "flag"; "tag"; "value"]%string.

Lemma caa_plan_read id label kind d r st :
  Forall caa_in_range (answers r) ->
  caa_plan id (dns_field label kind d caa_json r st).1
  = issue (nonempty (answers r)) (caa_statement id (map caa_json (answers r))).
Proof.
  intros Hr. destruct (dns_field_reads label kind d caa_json r st (plain_caa _ Hr)) as [_ E].
  unfold caa_plan. rewrite E. by destruct (answers r).
Qed.

Lemma caa_statement_rows id l :
  Forall caa_in_range l ->
  caa_statement id (map caa_json l)
  = bind_rows (λ s '(f, (t, v)), s ⊲ id ⊲ (f : Z) ⊲ (t : str) ⊲ (v : str)) (keyed l)
      (query (build_batch_insert_query (lit "url_caa_records") caa_columns (length (keyed l))
         (Some (conflict_text (DoUpdate (map lit ["url_status_id"; "tag"; "value"]%string)
                                 (lit "flag")))))).
Proof.
  intros Hr. unfold caa_statement.
  rewrite (bind_rows_spec _ (caa_row id)), (bind_rows_spec _
    (λ '(f, (t, v)), [VInteger id; VInteger f; VText t; VText v])).
  - unfold keyed. rewrite !length_map, !map_map. f_equal. cbn [binds query app]. f_equal.
    apply map_ext_in. intros rec Hrec. rewrite List.Forall_forall in Hr.
    rewrite (caa_object_reads id rec (Hr rec Hrec)). by destruct rec as [[f t] v].
  - intros s [f [t v]]. unfold bind. cbn. by rewrite <- !app_assoc.
  - intros s rec. unfold bind, caa_row. cbn. by rewrite <- !app_assoc.
Qed.

Lemma caa_fill id label kind d r st :
  Forall caa_in_range (answers r) ->
  fills id (lit "url_caa_records") caa_columns
    (DoUpdate (map lit ["url_status_id"; "tag"; "value"]%string) (lit "flag"))
    (caa_plan id (dns_field label kind d caa_json r st).1)
    (map (λ '(f, (t, v)), [VInteger id; VInteger f; VText t; VText v])
       (foldl keep_latest [] (keyed (answers r)))).
Proof.
  intros Hr. rewrite caa_plan_read, caa_statement_rows by done.
  split; [by apply (bool_decide_unpack _); vm_compute|]. intros before Hb.
  rewrite List.Forall_forall in Hb.
  rewrite <- (insert_latest caa_columns (map lit ["url_status_id"; "tag"; "value"]%string)
                (lit "flag") (λ '(f, (t, v)), [VInteger id; VInteger f; VText t; VText v])).
  - replace (nonempty (answers r)) with (nonempty (keyed (answers r))) by apply nonempty_map.
    apply batch_leaves.
    + intros s [f [t v]]. unfold bind. cbn. by rewrite <- !app_assoc.
    + by intros [f [t v]].
  - intros [f [t v]] [f' [t' v']]. cells. cbn [snd]. split; [|intros [= -> ->]; repeat split].
    intros (_ & E1 & E2 & _). change (Some (VText t) = Some (VText t')) in E1.
    change (Some (VText v) = Some (VText v')) in E2. congruence.
  - by intros f g [t v].
  - intros [f [t v]] o Ho. apply (other_page _ _ id); [done|]. by apply Hb, list_elem_of_In.
Qed.

(** The six texts of a fetch are those of the six fields. *)
Lemma additional_fields domain stats :
  let d := (fetch_additional_dns_records domain stats).1.1 in
  ∃ st1 st2 st3 st4 st5 st6,
    ad_nameservers d = (dns_field (lit "NS") DnsNsLookupError domain of_str
                          (lookup_ns_records domain) st1).1
    ∧ ad_txt_records d = (dns_field (lit "TXT") DnsTxtLookupError domain of_str
                            (lookup_txt_records domain) st2).1
    ∧ ad_mx_records d = (dns_field (lit "MX") DnsMxLookupError domain mx_json
                           (lookup_mx_records domain) st3).1
    ∧ ad_cname_chain d = (dns_field (lit "CNAME") DnsCnameLookupError domain of_str
                            (lookup_cname_records domain) st4).1
    ∧ ad_aaaa_records d = (dns_field (lit "AAAA") DnsAaaaLookupError domain of_str
                             (lookup_aaaa_records domain) st5).1
    ∧ ad_caa_records d = (dns_field (lit "CAA") DnsCaaLookupError domain caa_json
                            (lookup_caa_records domain) st6).1.
Proof.
  cbn zeta. unfold fetch_additional_dns_records.
  repeat match goal with
    | |- context [dns_field ?a ?b ?c ?d ?e ?f] =>
        let E := fresh "E" in
        destruct (dns_field a b c d e f) as [? ?] eqn:E; apply (f_equal fst) in E
    end.
  do 6 eexists. split_and!; symmetry; eassumption.
Qed.

(** C23: What the resolver found for a domain is what the child tables hold once the six plans ran
    on the cleared tables: every distinct name, address, text with its type and exchange once, in
    the order of the answers, none altered by the JSON text of the record between; of the CAA
    answers every pair of tag and value once, with the flag of the last answer that has it.  The
    rows of other pages stay as they are. *)
Theorem dns_answers_stored id domain stats :
  Forall mx_in_range (answers (lookup_mx_records domain)) ->
  Forall caa_in_range (answers (lookup_caa_records domain)) ->
  let d := (fetch_additional_dns_records domain stats).1.1 in
  let names := λ table column plan (found : list str),
    fills id (lit table) [id_column; lit column] (DoNothing [id_column; lit column]) plan
      (map (λ n, [VInteger id; VText n]) (first_seen found)) in
  names "url_nameservers"%string "nameserver"%string (nameservers_plan id (ad_nameservers d))
    (answers (lookup_ns_records domain))
  ∧ names "url_cname_records"%string "cname_target"%string (cname_plan id (ad_cname_chain d))
      (answers (lookup_cname_records domain))
  ∧ names "url_ipv6_addresses"%string "ipv6_address"%string (ipv6_plan id (ad_aaaa_records d))
      (answers (lookup_aaaa_records domain))
  ∧ fills id (lit "url_txt_records") (map lit ["url_status_id"; "record_value"; "record_type"]%string)
      (DoNothing (map lit ["url_status_id"; "record_type"; "record_value"]%string))
      (txt_plan id (ad_txt_records d))
      (map (λ t, [VInteger id; VText t; VText (detect_txt_type t)])
         (first_seen (answers (lookup_txt_records domain))))
  ∧ fills id (lit "url_mx_records") (map lit ["url_status_id"; "priority"; "mail_exchange"]%string)
      (DoNothing (map lit ["url_status_id"; "priority"; "mail_exchange"]%string))
      (mx_plan id (ad_mx_records d))
      (map (λ '(p, h), [VInteger id; VInteger p; VText h])
         (first_seen (answers (lookup_mx_records domain))))
  ∧ let found := keyed (answers (lookup_caa_records domain)) in
    ∃ kept, fills id (lit "url_caa_records") caa_columns
      (DoUpdate (map lit ["url_status_id"; "tag"; "value"]%string) (lit "flag"))
      (caa_plan id (ad_caa_records d))
      (map (λ '(f, (t, v)), [VInteger id; VInteger f; VText t; VText v]) kept)
    ∧ map snd kept = first_seen (map snd found)
    ∧ ∀ flag key, (flag, key) ∈ kept <-> last_value found key = Some flag.
Proof.
  intros Hmx Hcaa. cbn zeta.
  destruct (additional_fields domain stats)
    as (st1 & st2 & st3 & st4 & st5 & st6 & -> & -> & -> & -> & -> & ->).
  split_and!.
  1-3: apply names_fill; [by apply (bool_decide_unpack _); vm_compute|reflexivity].
  - apply txt_fill.
  - by apply mx_fill.
  - eexists. split; [by apply caa_fill|]. apply keep_latest_spec.
Qed.
End DnsRows.

(** ** A concrete zone and record *)

Module DemoStorage.
Import DemoSerde DemoSql.
#[local] Existing Instance listing.
#[local] Instance lower : Lowercase := {| to_lowercase := to_ascii_lowercase |}.

Definition mx_columns : list str := map lit ["url_status_id"; "priority"; "mail_exchange"]%string.
Lemma dns_answers_stored_witness :
  fills 7 (lit "url_mx_records") mx_columns (DoNothing mx_columns)
    (mx_plan 7 (ad_mx_records (fetch_additional_dns_records (R := DemoDns.resolver)
                                 (lit "example.com") new_stats).1.1))
    [[VInteger 7; VInteger 10; VText (lit "a.")]; [VInteger 7; VInteger 20; VText (lit "b.")]].
Proof.
  assert (Hmx : Forall mx_in_range (answers (lookup_mx_records (R := DemoDns.resolver)
                                               (lit "example.com")))).
  { vm_compute. repeat constructor; by intros. }
  assert (Hcaa : Forall caa_in_range (answers (lookup_caa_records (R := DemoDns.resolver)
                                                 (lit "example.com")))) by (vm_compute; constructor).
  destruct (dns_answers_stored 7 (lit "example.com") new_stats Hmx Hcaa)
    as (_ & _ & _ & _ & Hmx' & _).
  assert (E : map (λ '(p, h), [VInteger 7; VInteger p; VText h])
                (first_seen (answers (lookup_mx_records (R := DemoDns.resolver)
                                        (lit "example.com"))))
              = [[VInteger 7; VInteger 10; VText (lit "a.")];
                 [VInteger 7; VInteger 20; VText (lit "b.")]]) by (vm_compute; reflexivity).
  rewrite E in Hmx'. exact Hmx'.
Defined.

(** Two records of one tag and value: one row, in the place of the first, with the last flag. *)
Example caa_flag_of_last :
  let row := λ f t v, [VInteger 7; VInteger f; VText (lit t); VText (lit v)] in
  foldl (insert_row caa_columns (DoUpdate (map lit ["url_status_id"; "tag"; "value"]%string)
                                   (lit "flag"))) []
    [row 0 "issue"%string "ca.example"%string; row 0 "iodef"%string "x"%string;
     row 128 "issue"%string "ca.example"%string]
  = [row 128 "issue"%string "ca.example"%string; row 0 "iodef"%string "x"%string].
Proof. vm_compute. reflexivity. Qed.

Definition params : UrlRecordInsertParams :=
  MkParams (DemoRow.record (lit "example.com") 200) ∅ ∅ ∅
    [(lit "https://example.com/", 301); (lit "https://www.example.com/", 200)] []
    [lit "example.com"] None None None [] [] [] [] None
    (Some (MkRobotsTxt 200 (lit "User-agent: *") [(lit "disallow", lit "/")])).

Lemma core_statements_well_formed_witness :
  Forall (λ plan, Forall well_formed plan.2) (core_satellite_plans 7 params)
  ∧ length (concat (map snd (core_satellite_plans 7 params))) = 4%nat.
Proof.
  split; [|vm_compute; reflexivity].
  apply (core_statements_well_formed (HL := listing_laws) 7 params).
Defined.

(** A failing table of directives leaves the robots.txt row, and is reported under it. *)
Example directives_fail :
  let db := DemoSql.MkDb [] [lit "url_robots_directives"] in
  let (db', r) := insert_url_record_with_outcome params db in
  length (hd [] (DemoSql.log db')) = 23%nat
  ∧ match r with
    | Ok out => map wf_table (satellite_insert_failures out) = [lit "url_robots_txt"]
    | Err _ => False
    end.
Proof. vm_compute. split; reflexivity. Qed.
End DemoStorage.
