(* ===== verification/StorageRecord.v ===== *)
(** * Failures and enrichment ([src/src/storage/models.rs], [storage/insert/failure.rs],
    [storage/insert/enrichment/*.rs], [storage/insert/record.rs])

    A failed URL is stored with its satellites in one transaction or not at all.  The
    enrichment of a stored URL replaces its child rows in a second transaction: a write that
    fails becomes a row of [url_partial_failures] or is counted.  [insert_persisted_url_record]
    composes both with the fact row of [Satellites].  The texts of the enums and the data
    extracted from a page are modelled as far as they are stored. *)

From Stdlib Require Import SpecFloat.
From S2P Require Import Prelude Net Cookies Patterns Detection Errors Retry ExportRow Json Dns.
From S2P Require Import Sql StorageRow Satellites.

(** ** models.rs *)

Record UrlFailureRecord := MkFailure {
  fr_url : str;
  fr_final_url : option str;
  fr_domain : str;
  fr_final_domain : option str;
  fr_error_type : ErrorType;
  fr_error_message : str;
  fr_http_status : option Z;
  fr_retry_count : Z;
  fr_elapsed_time_seconds : option spec_float;
  fr_timestamp : Z;
  fr_run_id : option str;
  fr_redirect_chain : list str;
  fr_response_headers : list (str * str);
}.

Record UrlPartialFailureRecord := MkPartialFailure {
  pfr_url_status_id : Z;
  pfr_error_type : ErrorType;
  pfr_error_message : str;
  pfr_timestamp : Z;
  pfr_run_id : option str;
}.

(** ** failure.rs *)

Definition failure_redirect_statement (failure_id : Z) (chain : list str) : Statement :=
  bind_rows (λ q '(order, redirect_url),
      q ⊲ failure_id ⊲ (Z.of_nat order + 1) ⊲ (redirect_url : str))
    (combine (seq 0 (length chain)) chain)
    (query (build_batch_insert_query (lit "url_failure_redirect_chain")
       [lit "url_failure_id"; lit "sequence_order"; lit "redirect_url"] (length chain)
       (Some (lit "ON CONFLICT(url_failure_id, sequence_order) DO NOTHING")))).

Definition failure_headers_statement (failure_id : Z) (headers : list (str * str)) : Statement :=
  key_value_statement (lit "url_failure_response_headers") (lit "url_failure_id")
    (lit "header_name") (lit "header_value") failure_id headers
    (Some (lit "ON CONFLICT(url_failure_id, header_name) DO UPDATE SET header_value=excluded.header_value")).

Definition failure_statement (failure : UrlFailureRecord) : Statement :=
  query (lit "INSERT INTO url_failures (
            attempted_url, final_url, initial_domain, final_domain, error_type, error_message,
            http_status, retry_count, elapsed_time_seconds, observed_at_ms, run_id
        ) VALUES (?, ?, ?, ?, ?, ?, ?, ?, ?, ?, ?)
        RETURNING id")
  ⊲ fr_url failure ⊲ fr_final_url failure ⊲ fr_domain failure ⊲ fr_final_domain failure
  ⊲ Errors.as_str (fr_error_type failure) ⊲ fr_error_message failure ⊲ fr_http_status failure
  ⊲ fr_retry_count failure ⊲ fr_elapsed_time_seconds failure ⊲ fr_timestamp failure
  ⊲ fr_run_id failure.

Definition partial_failure_statement (f : UrlPartialFailureRecord) : Statement :=
  query (lit "INSERT INTO url_partial_failures (
            url_status_id, error_type, error_message, observed_at_ms, run_id
        ) VALUES (?, ?, ?, ?, ?)
        RETURNING id")
  ⊲ pfr_url_status_id f ⊲ Errors.as_str (pfr_error_type f) ⊲ pfr_error_message f
  ⊲ pfr_timestamp f ⊲ pfr_run_id f.

Section Failure.
Context `{Q : Sqlx W Tx}.

Definition insert_failure_redirect_chain (failure_id : Z) (chain : list str) : TxM Tx unit :=
  if nonempty chain then execute (failure_redirect_statement failure_id chain) else tx_ret tt.

Definition insert_failure_response_headers (failure_id : Z) (headers : list (str * str))
  : TxM Tx unit :=
  if nonempty headers then
    insert_key_value_batch (lit "url_failure_response_headers") (lit "url_failure_id")
      (lit "header_name") (lit "header_value") failure_id headers
      (Some (lit "ON CONFLICT(url_failure_id, header_name) DO UPDATE SET header_value=excluded.header_value"))
  else tx_ret tt.

Definition insert_failure_satellite_data (failure_id : Z) (failure : UrlFailureRecord)
  : TxM Tx unit :=
  _ ⇐ insert_failure_redirect_chain failure_id (fr_redirect_chain failure);
  _ ⇐ insert_failure_response_headers failure_id (fr_response_headers failure);
  tx_ret tt.

Definition insert_url_failure_impl (failure : UrlFailureRecord) (w : W)
  : W * result Z DatabaseError :=
  match begin_tx w with
  | inl (w, e) => (w, Err e)
  | inr tx =>
      match fetch_one (failure_statement failure) tx with
      | (tx, Err e) => (rollback tx, Err e)
      | (tx, Ok failure_id) =>
          match insert_failure_satellite_data failure_id failure tx with
          | (tx, Ok _) =>
              match commit_tx tx with
              | (w, Err e) => (w, Err e)
              | (w, Ok _) => (w, Ok failure_id)
              end
          | (tx, Err e) => (rollback tx, Err e)
          end
      end
  end.

Definition insert_url_failure (failure : UrlFailureRecord) (w : W) : W * result Z DatabaseError :=
  (with_sqlite_retry (insert_url_failure_impl failure) w).1.

Definition insert_url_partial_failure_in_tx (partial_failure : UrlPartialFailureRecord)
  : TxM Tx Z := fetch_one (partial_failure_statement partial_failure).
End Failure.

(** ** Data of the enrichment *)

Record GeoIpResult := MkGeoResult {
  gr_country_code : option str;
  gr_country_name : option str;
  gr_region : option str;
  gr_city : option str;
  gr_latitude : option spec_float;
  gr_longitude : option spec_float;
  gr_postal_code : option str;
  gr_timezone : option str;
  gr_asn : option Z;
  gr_asn_org : option str;
}.

(** A [DateTime<Utc>] is its number of nanoseconds since the epoch. *)
Record WhoisResult := MkWhoisResult {
  wr_creation_date : option Z;
  wr_expiration_date : option Z;
  wr_updated_date : option Z;
  wr_registrar : option str;
  wr_registrant_country : option str;
  wr_registrant_org : option str;
  wr_status : list str;
  wr_nameservers : list str;
  wr_raw_text : option str;
}.

Record StructuredData := MkStructuredData {
  sd_json_ld : list Value;
  sd_open_graph : gmap str str;
  sd_twitter_cards : gmap str str;
  sd_schema_types : list str;
}.

Inductive SocialPlatform :=
  | LinkedIn | Twitter | Facebook | Instagram | YouTube | GitHub | TikTok | Pinterest
  | Snapchat | Reddit.
Definition social_platform_as_str (p : SocialPlatform) : str :=
  match p with
  | LinkedIn => lit "LinkedIn"
  | Twitter => lit "Twitter"
  | Facebook => lit "Facebook"
  | Instagram => lit "Instagram"
  | YouTube => lit "YouTube"
  | GitHub => lit "GitHub"
  | TikTok => lit "TikTok"
  | Pinterest => lit "Pinterest"
  | Snapchat => lit "Snapchat"
  | Reddit => lit "Reddit"
  end.
Record PageSocialLink := MkSocialLink {
  sl_platform : SocialPlatform; sl_url : str; sl_identifier : option str }.

Inductive ContactType := Email | Phone.
Definition contact_type_as_str (c : ContactType) : str :=
  match c with Email => lit "email" | Phone => lit "phone" end.
Record ContactLink := MkContactLink {
  ct_contact_type : ContactType; ct_value : str; ct_raw_href : str }.

Inductive AnalyticsProvider :=
  | GoogleAnalytics | GoogleAnalytics4 | FacebookPixel | GoogleTagManager | GoogleAdSense.
Definition provider_as_str (p : AnalyticsProvider) : str :=
  match p with
  | GoogleAnalytics => lit "Google Analytics"
  | GoogleAnalytics4 => lit "Google Analytics 4"
  | FacebookPixel => lit "Facebook Pixel"
  | GoogleTagManager => lit "Google Tag Manager"
  | GoogleAdSense => lit "Google AdSense"
  end.
Record AnalyticsId := MkAnalyticsId { ai_provider : AnalyticsProvider; ai_id : str }.

Record DecodedJwt := MkJwt {
  header_json : str;
  payload_json : str;
  algorithm : option str;
  token_type : option str;
  issuer : option str;
  subject : option str;
  audience : option str;
  expiration_ms : option Z;
  issued_at_ms : option Z;
  not_before_ms : option Z;
  jwt_id : option str;
}.

Inductive SecretSeverity := Critical | High | Medium | Low.
Definition severity_as_str (s : SecretSeverity) : str :=
  match s with
  | Critical => lit "critical"
  | High => lit "high"
  | Medium => lit "medium"
  | Low => lit "low"
  end.
Record ExposedSecret := MkExposedSecret {
  xs_secret_type : str;
  xs_matched_value : str;
  xs_context : str;
  xs_severity : SecretSeverity;
  xs_location : str;
  xs_decoded_jwt : option DecodedJwt;
}.

Record FaviconData := MkFavicon { fv_favicon_url : str; fv_hash : Z }.

Record PersistedUrlRecord := MkPersisted {
  pr_url_record : UrlRecord;
  pr_security_headers : gmap str str;
  pr_http_headers : gmap str str;
  pr_oids : gmap str unit;
  pr_redirect_chain : list (str * Z);
  pr_technologies : list DetectedTechnology;
  pr_subject_alternative_names : list str;
  pr_analytics_ids : list AnalyticsId;
  pr_geoip : option (str * GeoIpResult);
  pr_structured_data : option StructuredData;
  pr_social_media_links : list PageSocialLink;
  pr_contact_links : list ContactLink;
  pr_exposed_secrets : list ExposedSecret;
  pr_whois : option WhoisResult;
  pr_partial_failures : list UrlPartialFailureRecord;
  pr_favicon : option FaviconData;
  pr_cname_records : option str;
  pr_aaaa_records : option str;
  pr_caa_records : option str;
  pr_csp_domains : list (str * str * option str);
  pr_cookies : list CookieInfo;
  pr_resource_hints : list (str * str);
  pr_script_hosts : list ScriptHostInfo;
  pr_security_txt : option SecurityTxtData;
  pr_robots_txt : option RobotsTxtData;
}.

Definition from_persisted_record (persisted : PersistedUrlRecord) : UrlRecordInsertParams :=
  MkParams (pr_url_record persisted) (pr_security_headers persisted)
    (pr_http_headers persisted) (pr_oids persisted) (pr_redirect_chain persisted)
    (pr_technologies persisted) (pr_subject_alternative_names persisted)
    (pr_cname_records persisted) (pr_aaaa_records persisted) (pr_caa_records persisted)
    (pr_csp_domains persisted) (pr_cookies persisted) (pr_resource_hints persisted)
    (pr_script_hosts persisted) (pr_security_txt persisted) (pr_robots_txt persisted).

Definition URL_STATUS_ENRICHMENT_SATELLITE_TABLES : list str :=
  map lit ["url_analytics_ids"; "url_structured_data"; "url_social_media_links";
           "url_contact_links"; "url_exposed_secrets"; "url_partial_failures";
           "url_favicons"; "url_geoip"; "url_whois"]%string.

(** ** enrichment/*.rs *)

Definition analytics_statement (id : Z) (ids : list AnalyticsId) : Statement :=
  bind_rows (λ q a, q ⊲ id ⊲ provider_as_str (ai_provider a) ⊲ ai_id a) ids
    (query (build_batch_insert_query (lit "url_analytics_ids")
       [id_column; lit "provider"; lit "tracking_id"] (length ids)
       (Some (lit "ON CONFLICT(url_status_id, provider, tracking_id) DO NOTHING")))).

Definition contact_statement (id : Z) (links : list ContactLink) : Statement :=
  bind_rows (λ q l,
      q ⊲ id ⊲ contact_type_as_str (ct_contact_type l) ⊲ ct_value l ⊲ ct_raw_href l) links
    (query (build_batch_insert_query (lit "url_contact_links")
       [id_column; lit "contact_type"; lit "contact_value"; lit "raw_href"] (length links)
       (Some (lit "ON CONFLICT(url_status_id, contact_type, contact_value) DO UPDATE SET raw_href=excluded.raw_href")))).

Definition social_statement (id : Z) (links : list PageSocialLink) : Statement :=
  bind_rows (λ q l,
      q ⊲ id ⊲ social_platform_as_str (sl_platform l) ⊲ sl_url l ⊲ sl_identifier l) links
    (query (build_batch_insert_query (lit "url_social_media_links")
       [id_column; lit "platform"; lit "profile_url"; lit "identifier"] (length links)
       (Some (lit "ON CONFLICT(url_status_id, platform, profile_url) DO UPDATE SET identifier=excluded.identifier")))).

Definition favicon_statement (id : Z) (favicon : FaviconData) : Statement :=
  query (lit "INSERT INTO url_favicons (url_status_id, favicon_url, hash)
             VALUES (?, ?, ?)
             ON CONFLICT(url_status_id) DO UPDATE SET
                favicon_url=excluded.favicon_url,
                hash=excluded.hash")
  ⊲ id ⊲ fv_favicon_url favicon ⊲ fv_hash favicon.

Definition geoip_statement (id : Z) (geoip : GeoIpResult) : Statement :=
  query (lit "INSERT INTO url_geoip (
                url_status_id, country_code, country_name, region, city,
                latitude, longitude, postal_code, timezone, asn, asn_org
            ) VALUES (?, ?, ?, ?, ?, ?, ?, ?, ?, ?, ?)
            ON CONFLICT(url_status_id) DO UPDATE SET
                country_code=excluded.country_code,
                country_name=excluded.country_name,
                region=excluded.region,
                city=excluded.city,
                latitude=excluded.latitude,
                longitude=excluded.longitude,
                postal_code=excluded.postal_code,
                timezone=excluded.timezone,
                asn=excluded.asn,
                asn_org=excluded.asn_org")
  ⊲ id ⊲ gr_country_code geoip ⊲ gr_country_name geoip ⊲ gr_region geoip ⊲ gr_city geoip
  ⊲ gr_latitude geoip ⊲ gr_longitude geoip ⊲ gr_postal_code geoip ⊲ gr_timezone geoip
  ⊲ gr_asn geoip ⊲ gr_asn_org geoip.

Definition timestamp_millis (dt : Z) : Z := dt / 1000000.

Definition whois_statement `{Serde} (id : Z) (whois : WhoisResult) : Statement :=
  let vec_to_json_or_null (v : list str) : option str :=
    if nonempty v then to_json_string (of_vec of_str v) else None in
  query (lit "INSERT INTO url_whois (
                url_status_id, creation_date_ms, expiration_date_ms, updated_date_ms,
                registrar, registrant_country, registrant_org, whois_statuses, nameservers_json, raw_response
            ) VALUES (?, ?, ?, ?, ?, ?, ?, ?, ?, ?)
            ON CONFLICT(url_status_id) DO UPDATE SET
                creation_date_ms=excluded.creation_date_ms,
                expiration_date_ms=excluded.expiration_date_ms,
                updated_date_ms=excluded.updated_date_ms,
                registrar=excluded.registrar,
                registrant_country=excluded.registrant_country,
                registrant_org=excluded.registrant_org,
                whois_statuses=excluded.whois_statuses,
                nameservers_json=excluded.nameservers_json,
                raw_response=excluded.raw_response")
  ⊲ id ⊲ (timestamp_millis <$> wr_creation_date whois)
  ⊲ (timestamp_millis <$> wr_expiration_date whois)
  ⊲ (timestamp_millis <$> wr_updated_date whois)
  ⊲ wr_registrar whois ⊲ wr_registrant_country whois ⊲ wr_registrant_org whois
  ⊲ vec_to_json_or_null (wr_status whois) ⊲ vec_to_json_or_null (wr_nameservers whois)
  ⊲ wr_raw_text whois.

Definition secret_statement (id : Z) (secret : ExposedSecret) : Statement :=
  query (lit "INSERT INTO url_exposed_secrets (url_status_id, secret_type, matched_value, severity, location, context)
                 VALUES (?, ?, ?, ?, ?, ?)
                 ON CONFLICT(url_status_id, secret_type, matched_value) DO UPDATE SET
                 severity=excluded.severity, location=excluded.location, context=excluded.context
                 RETURNING id")
  ⊲ id ⊲ xs_secret_type secret ⊲ xs_matched_value secret ⊲ severity_as_str (xs_severity secret)
  ⊲ xs_location secret ⊲ xs_context secret.

Definition jwt_statement (item : Z * DecodedJwt) : Statement :=
  let '(exposed_secret_id, jwt) := item in
  query (lit "INSERT INTO url_jwt_claims (
                    exposed_secret_id, header_json, payload_json,
                    algorithm, token_type, issuer, subject, audience,
                    expiration_ms, issued_at_ms, not_before_ms, jwt_id
                ) VALUES (?, ?, ?, ?, ?, ?, ?, ?, ?, ?, ?, ?)
                ON CONFLICT(exposed_secret_id) DO UPDATE SET
                    header_json=excluded.header_json,
                    payload_json=excluded.payload_json,
                    algorithm=excluded.algorithm,
                    token_type=excluded.token_type,
                    issuer=excluded.issuer,
                    subject=excluded.subject,
                    audience=excluded.audience,
                    expiration_ms=excluded.expiration_ms,
                    issued_at_ms=excluded.issued_at_ms,
                    not_before_ms=excluded.not_before_ms,
                    jwt_id=excluded.jwt_id")
  ⊲ exposed_secret_id ⊲ header_json jwt ⊲ payload_json jwt ⊲ algorithm jwt ⊲ token_type jwt
  ⊲ issuer jwt ⊲ subject jwt ⊲ audience jwt ⊲ expiration_ms jwt ⊲ issued_at_ms jwt
  ⊲ not_before_ms jwt ⊲ jwt_id jwt.

Definition structured_statement (id : Z) (data_type : str) (rows : list (str * str)) : Statement :=
  bind_rows (λ q '(property_name, property_value),
      q ⊲ id ⊲ data_type ⊲ (property_name : str) ⊲ (property_value : str)) rows
    (query (build_batch_insert_query (lit "url_structured_data")
       [id_column; lit "data_type"; lit "property_name"; lit "property_value"] (length rows)
       (Some (lit "ON CONFLICT(url_status_id, data_type, property_name, property_value) DO NOTHING")))).

Section EnrichmentInserts.
Context `{Q : Sqlx W Tx} `{J : Serde} `{H : HashIter}.

Definition insert_analytics_ids_in_tx (id : Z) (ids : list AnalyticsId) : TxM Tx unit :=
  if nonempty ids then execute (analytics_statement id ids) else tx_ret tt.
Definition insert_contact_links_in_tx (id : Z) (links : list ContactLink) : TxM Tx unit :=
  if nonempty links then execute (contact_statement id links) else tx_ret tt.
Definition insert_social_media_links_in_tx (id : Z) (links : list PageSocialLink) : TxM Tx unit :=
  if nonempty links then execute (social_statement id links) else tx_ret tt.
Definition insert_favicon_data_in_tx (id : Z) (favicon : FaviconData) : TxM Tx unit :=
  execute (favicon_statement id favicon).
Definition insert_geoip_data_in_tx (id : Z) (geoip : GeoIpResult) : TxM Tx unit :=
  execute (geoip_statement id geoip).
Definition insert_whois_data_in_tx (id : Z) (whois : WhoisResult) : TxM Tx unit :=
  execute (whois_statement id whois).

Definition insert_structured_rows (id : Z) (data_type : str) (rows : list (str * str))
  : TxM Tx unit :=
  if nonempty rows then execute (structured_statement id data_type rows) else tx_ret tt.

Definition schema_rows (schema_types : list str) : list (str * str) :=
  map (λ t, (t, [])) (List.filter nonempty (map trim schema_types)).

(** The text of the serialization error is left out. *)
Definition insert_structured_data_in_tx (id : Z) (data : StructuredData) : TxM Tx unit :=
  match mapM to_json_string (sd_json_ld data) with
  | None => tx_err (SqlOther (lit "Failed to serialize JSON-LD"))
  | Some texts =>
      _ ⇐ insert_structured_rows id (lit "json_ld") (map (λ t, (lit "@document", t)) texts);
      _ ⇐ insert_structured_rows id (lit "open_graph") (hash_iter (sd_open_graph data));
      _ ⇐ insert_structured_rows id (lit "twitter_card") (hash_iter (sd_twitter_cards data));
      _ ⇐ insert_structured_rows id (lit "schema_type") (schema_rows (sd_schema_types data));
      tx_ret tt
  end.

(** The ids of the rows, one per secret. *)
Fixpoint insert_exposed_secrets_rows (id : Z) (secrets : list ExposedSecret) : TxM Tx (list Z) :=
  match secrets with
  | [] => tx_ret []
  | secret :: rest =>
      row ⇐ fetch_one (secret_statement id secret);
      ids ⇐ insert_exposed_secrets_rows id rest;
      tx_ret (row :: ids)
  end.

Fixpoint insert_jwt_claims_batch_in_tx (items : list (Z * DecodedJwt)) : TxM Tx unit :=
  match items with
  | [] => tx_ret tt
  | item :: rest => _ ⇐ execute (jwt_statement item); insert_jwt_claims_batch_in_tx rest
  end.

(** ** record.rs *)

Inductive EnrichmentWrite := Skipped | Inserted | Failed.

Definition is_failed (w : EnrichmentWrite) : bool :=
  match w with Failed => true | _ => false end.

Record EnrichmentInsertSummary := MkSummary {
  partial_failures_inserted : Z;
  satellite_insert_errors_inserted : Z;
  partial_failures_failed : Z;
  es_geoip : EnrichmentWrite;
  es_structured_data : EnrichmentWrite;
  es_social_media : EnrichmentWrite;
  es_whois : EnrichmentWrite;
  es_analytics_ids : EnrichmentWrite;
  es_favicon : EnrichmentWrite;
  es_contact_links : EnrichmentWrite;
  es_exposed_secrets : EnrichmentWrite;
}.

Definition total_failures (s : EnrichmentInsertSummary) : Z :=
  partial_failures_failed s
  + Z.b2z (is_failed (es_geoip s)) + Z.b2z (is_failed (es_structured_data s))
  + Z.b2z (is_failed (es_social_media s)) + Z.b2z (is_failed (es_whois s))
  + Z.b2z (is_failed (es_analytics_ids s)) + Z.b2z (is_failed (es_favicon s))
  + Z.b2z (is_failed (es_contact_links s)) + Z.b2z (is_failed (es_exposed_secrets s)).

Definition has_failures (s : EnrichmentInsertSummary) : bool := 0 <? total_failures s.

(** The transaction with the failures collected so far. *)
Abbreviation Enriching := (Tx * list SatelliteWriteFailure)%type.

(** [try_enrich_tx] of the answer of [write]. *)
Definition try_enrich_tx (table : str) (write : TxM Tx unit) (st : Enriching)
  : EnrichmentWrite * Enriching :=
  match write st.1 with
  | (tx, Ok _) => (Inserted, (tx, st.2))
  | (tx, Err e) =>
      (Failed, (tx, st.2 ++ [MkWriteFailure table (database_error_text e)]))
  end.

Definition satellite_write_to_partial_failure (url_status_id timestamp : Z)
  (run_id : option str) (failure : SatelliteWriteFailure) : UrlPartialFailureRecord :=
  MkPartialFailure url_status_id SatelliteInsertError
    (wf_table failure ++ lit ": " ++ wf_message failure) timestamp run_id.

Definition with_status_id (url_status_id : Z) (f : UrlPartialFailureRecord)
  : UrlPartialFailureRecord :=
  MkPartialFailure url_status_id (pfr_error_type f) (pfr_error_message f) (pfr_timestamp f)
    (pfr_run_id f).

Definition is_satellite_error (f : UrlPartialFailureRecord) : bool :=
  bool_decide (pfr_error_type f = SatelliteInsertError).

(** The three counters of the loop: inserted, satellite errors among them, failed. *)
Fixpoint insert_partial_failure_rows (rows : list UrlPartialFailureRecord) (tx : Tx)
  (counts : Z * Z * Z) : Tx * (Z * Z * Z) :=
  match rows with
  | [] => (tx, counts)
  | row :: rest =>
      let '(inserted, satellite_errors, failed) := counts in
      match insert_url_partial_failure_in_tx row tx with
      | (tx, Ok _) =>
          insert_partial_failure_rows rest tx
            (inserted + 1,
             if is_satellite_error row then satellite_errors + 1 else satellite_errors, failed)
      | (tx, Err _) =>
          insert_partial_failure_rows rest tx (inserted, satellite_errors, failed + 1)
      end
  end.

(** The rows of [insert_partial_failures_in_tx]: those of the scan, then the writes that
    failed. *)
Definition partial_failure_rows (url_status_id : Z)
  (partial_failures : list UrlPartialFailureRecord) (extra : list SatelliteWriteFailure)
  (timestamp : Z) (run_id : option str) : list UrlPartialFailureRecord :=
  map (with_status_id url_status_id)
    (partial_failures
     ++ map (satellite_write_to_partial_failure url_status_id timestamp run_id) extra).

Definition jwt_items (exposed_secrets : list ExposedSecret) (ids : list Z)
  : list (Z * DecodedJwt) :=
  omap (λ '(secret, secret_id), (λ jwt, (secret_id, jwt)) <$> xs_decoded_jwt secret)
    (combine exposed_secrets ids).

Definition insert_exposed_secrets_in_tx (url_status_id : Z)
  (exposed_secrets : list ExposedSecret) (st : Enriching) : EnrichmentWrite * Enriching :=
  if nonempty exposed_secrets then
    match insert_exposed_secrets_rows url_status_id exposed_secrets st.1 with
    | (tx, Ok ids) =>
        let items := jwt_items exposed_secrets ids in
        if nonempty items then
          match insert_jwt_claims_batch_in_tx items tx with
          | (tx, Ok _) => (Inserted, (tx, st.2))
          | (tx, Err e) =>
              (Inserted,
               (tx, st.2 ++ [MkWriteFailure (lit "url_jwt_claims") (database_error_text e)]))
          end
        else (Inserted, (tx, st.2))
    | (tx, Err e) =>
        (Failed,
         (tx, st.2 ++ [MkWriteFailure (lit "url_exposed_secrets") (database_error_text e)]))
    end
  else (Skipped, st).

(** [if present { try_enrich_tx(..) }]. *)
Definition enrich (present : bool) (table : str) (write : TxM Tx unit) (st : Enriching)
  : EnrichmentWrite * Enriching :=
  if present then try_enrich_tx table write st else (Skipped, st).
Definition enrich_some {A} (payload : option A) (table : str) (write : A -> TxM Tx unit)
  (st : Enriching) : EnrichmentWrite * Enriching :=
  match payload with
  | Some a => try_enrich_tx table (write a) st
  | None => (Skipped, st)
  end.

Definition insert_enrichment_txn (url_status_id : Z) (record : PersistedUrlRecord)
  (core_satellite_failures : list SatelliteWriteFailure) (w : W)
  : W * result EnrichmentInsertSummary DatabaseError :=
  match begin_tx w with
  | inl (w, e) => (w, Err e)
  | inr tx =>
      match delete_child_rows URL_STATUS_ENRICHMENT_SATELLITE_TABLES url_status_id tx with
      | (tx, Err e) => (rollback tx, Err e)
      | (tx, Ok _) =>
          let id := url_status_id in
          let st : Enriching := (tx, []) in
          let (geoip, st) := enrich_some (pr_geoip record) (lit "url_geoip")
            (λ g, insert_geoip_data_in_tx id g.2) st in
          let (structured_data, st) := enrich_some (pr_structured_data record)
            (lit "url_structured_data") (insert_structured_data_in_tx id) st in
          let (social_media, st) := enrich (nonempty (pr_social_media_links record))
            (lit "url_social_media_links")
            (insert_social_media_links_in_tx id (pr_social_media_links record)) st in
          let (whois, st) := enrich_some (pr_whois record) (lit "url_whois")
            (insert_whois_data_in_tx id) st in
          let (contact_links, st) := enrich (nonempty (pr_contact_links record))
            (lit "url_contact_links")
            (insert_contact_links_in_tx id (pr_contact_links record)) st in
          let (exposed_secrets, st) :=
            insert_exposed_secrets_in_tx id (pr_exposed_secrets record) st in
          let (analytics_ids, st) := enrich (nonempty (pr_analytics_ids record))
            (lit "url_analytics_ids")
            (insert_analytics_ids_in_tx id (pr_analytics_ids record)) st in
          let (favicon, st) := enrich_some (pr_favicon record) (lit "url_favicons")
            (insert_favicon_data_in_tx id) st in
          let all_write_failures := core_satellite_failures ++ st.2 in
          let '(tx, (inserted, satellite_errors, failed)) :=
            insert_partial_failure_rows
              (partial_failure_rows id (pr_partial_failures record) all_write_failures
                 (ur_timestamp (pr_url_record record)) (ur_run_id (pr_url_record record)))
              st.1 (0, 0, 0) in
          match commit_tx tx with
          | (w, Err e) => (w, Err e)
          | (w, Ok _) =>
              (w, Ok (MkSummary inserted satellite_errors failed geoip structured_data
                        social_media whois analytics_ids favicon contact_links
                        exposed_secrets))
          end
      end
  end.

Definition insert_enrichment_data (url_status_id : Z) (record : PersistedUrlRecord)
  (core_satellite_failures : list SatelliteWriteFailure) (w : W)
  : W * EnrichmentInsertSummary :=
  match (with_sqlite_retry
           (insert_enrichment_txn url_status_id record core_satellite_failures) w).1 with
  | (w, Ok summary) => (w, summary)
  | (w, Err _) =>
      (w, MkSummary 0 0
            (vec_len core_satellite_failures + vec_len (pr_partial_failures record))
            Skipped Skipped Skipped Skipped Skipped Skipped Skipped Skipped)
  end.

Definition insert_persisted_url_record `{Lo : Lowercase} (record : PersistedUrlRecord) (w : W)
  : W * result UrlUpsertOutcome DatabaseError :=
  match insert_url_record_with_outcome (from_persisted_record record) w with
  | (w, Err e) => (w, Err e)
  | (w, Ok upsert) =>
      let (w, enrichment_summary) :=
        insert_enrichment_data (up_id upsert) record (satellite_insert_failures upsert) w in
      (w, Ok (MkUpsert (up_id upsert) (up_inserted upsert) (satellite_insert_failures upsert)
                (partial_failures_inserted enrichment_summary)
                (satellite_insert_errors_inserted enrichment_summary)))
  end.
End EnrichmentInserts.

(** ** Failure records *)

Section FailureTheorems.
Context `{Q : Sqlx W Tx} {Laws : SqlxLaws Q}.

Definition failure_satellites (failure_id : Z) (failure : UrlFailureRecord) : list Statement :=
  issue (nonempty (fr_redirect_chain failure))
    (failure_redirect_statement failure_id (fr_redirect_chain failure))
  ++ issue (nonempty (fr_response_headers failure))
       (failure_headers_statement failure_id (fr_response_headers failure)).

Lemma writes_failure_satellites failure_id failure :
  writes (insert_failure_satellite_data failure_id failure)
    (failure_satellites failure_id failure).
Proof.
  apply writes_bind; [apply writes_issue|]. intros _. apply (writes_map _ (λ _, tt)).
  unfold insert_failure_response_headers.
  destruct (fr_response_headers failure); [apply writes_ret|apply (writes_issue true)].
Qed.

Definition failure_effect (failure : UrlFailureRecord) (before : list (list Statement)) (w : W)
  (failure_id : Z) : Prop :=
  committed w = before ++ [failure_statement failure :: failure_satellites failure_id failure].

Lemma insert_url_failure_effect failure w :
  let r := insert_url_failure_impl failure w in
  match r.2 with
  | Ok id => failure_effect failure (committed w) r.1 id
  | Err _ => committed r.1 = committed w
  end.
Proof.
  unfold insert_url_failure_impl. pose proof (begin_tx_law w) as Hbegin.
  destruct (begin_tx w) as [[w1 e]|tx]; [done|]. destruct Hbegin as [Hbase Hpend].
  pose proof (fetch_one_law (failure_statement failure) tx) as [Hb Hp].
  unfold failure_effect. generalize dependent (failure_statement failure). intros s Hb Hp.
  destruct (fetch_one s tx) as [tx1 [id|e]]; cbn [fst snd is_ok] in *;
    [|rewrite rollback_law; congruence].
  destruct (writes_failure_satellites id failure tx1) as (d & r & Ed & [Hbs Hps] & Hok).
  destruct (insert_failure_satellite_data id failure tx1) as [tx2 [[]|e]];
    cbn [fst snd is_ok] in *; [|rewrite rollback_law; congruence].
  destruct r; [|done]. rewrite app_nil_r in Ed. subst d.
  pose proof (commit_law tx2) as Hc.
  destruct (commit_tx tx2) as [w2 [[]|e]]; cbn [fst snd is_ok] in *.
  - rewrite Hc, Hbs, Hb, Hbase, Hps, Hp, Hpend. done.
  - rewrite Hc, app_nil_r. congruence.
Qed.

Lemma insert_url_failure_committed failure w :
  let (w', r) := insert_url_failure failure w in
  match r with
  | Ok id => failure_effect failure (committed w) w' id
  | Err _ => committed w' = committed w
  end.
Proof.
  unfold insert_url_failure.
  pose proof (sqlite_retry_transfers (insert_url_failure_impl failure) committed
                (failure_effect failure) (insert_url_failure_effect failure) w) as Hr.
  by destruct (with_sqlite_retry _ w).1.
Qed.

(** C15: A failed URL is recorded with its redirect chain and headers or not at all, whatever
    fails and however often the transaction is retried; the children carry the id of the
    row stored, and every statement binds one value per placeholder. *)
Theorem failure_record_atomic failure w :
  let (w', r) := insert_url_failure failure w in
  match r with
  | Ok id =>
      committed w'
      = committed w ++ [failure_statement failure :: failure_satellites id failure]
      ∧ Forall statement_ok (failure_statement failure :: failure_satellites id failure)
  | Err _ => committed w' = committed w
  end.
Proof.
  pose proof (insert_url_failure_committed failure w) as Hr.
  destruct (insert_url_failure failure w) as [w' [id|e]]; [|done]. split; [exact Hr|].
  constructor; [vm_compute; reflexivity|]. apply Forall_app. split.
  - apply issue_forall. intros _. apply batch_ok; [|by intros []|vm_compute; reflexivity|].
    + intros s [n u]. unfold row_values, bind. cbn. by rewrite <- !app_assoc.
    + by rewrite length_combine, length_seq, Nat.min_id.
  - apply issue_forall. intros _. apply batch_ok; [|by intros []|vm_compute; reflexivity|done].
    intros s [k v]. unfold row_values, bind. cbn. by rewrite <- !app_assoc.
Qed.
End FailureTheorems.

(** ** The enrichment transaction *)

(** Printing a JSON value never fails. *)
Class SerdePrints (J : Serde) := { json_prints : ∀ v, ∃ s, to_json_string v = Some s }.

Section EnrichmentTheorems.
Context `{Q : Sqlx W Tx} {Laws : SqlxLaws Q} `{J : Serde} {JP : SerdePrints J} `{H : HashIter}.
Abbreviation Enriching := (Tx * list SatelliteWriteFailure)%type.

Definition json_texts (l : list Value) : list str := default [] (mapM to_json_string l).

Definition structured_plan (id : Z) (data : StructuredData) : list Statement :=
  let part data_type rows :=
    issue (nonempty rows) (structured_statement id data_type rows) in
  part (lit "json_ld") (map (λ t, (lit "@document", t)) (json_texts (sd_json_ld data)))
  ++ part (lit "open_graph") (hash_iter (sd_open_graph data))
  ++ part (lit "twitter_card") (hash_iter (sd_twitter_cards data))
  ++ part (lit "schema_type") (schema_rows (sd_schema_types data)).

(** What the enrichment of a record writes; [ids] are those of its secrets. *)
Definition enrichment_plans (id : Z) (record : PersistedUrlRecord) (ids : list Z)
  : list (str * list Statement) :=
  [ (lit "url_geoip", from_option (λ g, [geoip_statement id g.2]) [] (pr_geoip record));
    (lit "url_structured_data", from_option (structured_plan id) [] (pr_structured_data record));
    (lit "url_social_media_links",
     issue (nonempty (pr_social_media_links record))
       (social_statement id (pr_social_media_links record)));
    (lit "url_whois", from_option (λ x, [whois_statement id x]) [] (pr_whois record));
    (lit "url_contact_links",
     issue (nonempty (pr_contact_links record)) (contact_statement id (pr_contact_links record)));
    (lit "url_exposed_secrets", map (secret_statement id) (pr_exposed_secrets record));
    (lit "url_jwt_claims", map jwt_statement (jwt_items (pr_exposed_secrets record) ids));
    (lit "url_analytics_ids",
     issue (nonempty (pr_analytics_ids record)) (analytics_statement id (pr_analytics_ids record)));
    (lit "url_favicons", from_option (λ f, [favicon_statement id f]) [] (pr_favicon record)) ].

(** The status reported for a part of the enrichment. *)
Definition status_of (present : bool) (failure : option SatelliteWriteFailure) : EnrichmentWrite :=
  if present then match failure with Some _ => Failed | None => Inserted end else Skipped.

Definition enriches (step : Enriching -> EnrichmentWrite * Enriching) (present : bool)
  (plan : str * list Statement) : Prop :=
  ∀ st, ∃ r, satellite_result plan r
             ∧ applied st.1 (step st).2.1 r.1
             ∧ (step st).2.2 = st.2 ++ option_list r.2
             ∧ (step st).1 = status_of present r.2.

Lemma try_enrich_spec table write l :
  writes write l -> enriches (try_enrich_tx table write) true (table, l).
Proof.
  intros Hw [tx fs]. unfold try_enrich_tx. cbn [fst snd].
  destruct (Hw tx) as (d & r & -> & Ha & Hok).
  destruct (write tx) as [tx' [[]|e]]; cbn [fst snd is_ok] in *.
  - destruct r; [|done]. rewrite app_nil_r. exists (d, None).
    split; [constructor|]. cbn. by rewrite app_nil_r.
  - destruct r as [|s r]; [done|]. eexists (d, Some _). split; [constructor|]. by split.
Qed.

Lemma skipped_spec table : enriches (λ st, (Skipped, st)) false (table, []).
Proof.
  intros [tx fs]. exists ([], None). split; [constructor|]. cbn. rewrite app_nil_r.
  by split; [apply applied_refl|].
Qed.

Lemma enrich_spec present table write l :
  writes write l -> (present = false -> l = []) -> enriches (enrich present table write) present (table, l).
Proof.
  intros Hw Hl. destruct present; [by apply try_enrich_spec|]. rewrite Hl by done.
  apply skipped_spec.
Qed.

Lemma enrich_some_spec {A} (payload : option A) table (write : A -> TxM Tx unit) plan :
  (∀ a, writes (write a) (plan a)) ->
  enriches (enrich_some payload table write) (bool_decide (is_Some payload))
    (table, from_option plan [] payload).
Proof.
  intros Hw. destruct payload as [a|]; [by apply try_enrich_spec|apply skipped_spec].
Qed.

Lemma writes_structured id data :
  writes (insert_structured_data_in_tx id data) (structured_plan id data).
Proof.
  unfold insert_structured_data_in_tx, structured_plan, json_texts.
  destruct (mapM to_json_string (sd_json_ld data)) as [texts|] eqn:E.
  - apply (writes_bind _ _ _ _); [apply writes_issue|intros _].
    apply writes_bind; [apply writes_issue|intros _].
    apply writes_bind; [apply writes_issue|intros _].
    apply (writes_map _ (λ _, tt)), writes_issue.
  - exfalso. revert E. generalize (sd_json_ld data). intros l.
    induction l as [|v l IH]; [done|]. cbn. destruct (json_prints v) as [s ->]. cbn.
    by destruct (mapM to_json_string l).
Qed.

Lemma writes_secrets id secrets :
  writes (insert_exposed_secrets_rows id secrets) (map (secret_statement id) secrets).
Proof.
  induction secrets as [|s l IH]; [apply writes_ret|].
  apply (writes_bind (fetch_one _) _ [_]); [apply writes_fetch_one|].
  intros row. by apply (writes_map _ (cons row)).
Qed.

Lemma writes_jwt items : writes (insert_jwt_claims_batch_in_tx items) (map jwt_statement items).
Proof.
  induction items as [|i l IH]; [apply writes_ret|].
  apply (writes_bind (execute _) _ [_]); [apply writes_execute|done].
Qed.
Lemma secrets_spec id secrets (st : Enriching) :
  ∃ ids r1 r2,
    satellite_result (lit "url_exposed_secrets", map (secret_statement id) secrets) r1
    ∧ satellite_result (lit "url_jwt_claims", map jwt_statement (jwt_items secrets ids)) r2
    ∧ applied st.1 (insert_exposed_secrets_in_tx id secrets st).2.1 (r1.1 ++ r2.1)
    ∧ (insert_exposed_secrets_in_tx id secrets st).2.2
      = st.2 ++ option_list r1.2 ++ option_list r2.2
    ∧ (insert_exposed_secrets_in_tx id secrets st).1 = status_of (nonempty secrets) r1.2.
Proof.
  destruct st as [tx fs]. unfold insert_exposed_secrets_in_tx. cbn [fst snd].
  assert (Hnil : jwt_items secrets [] = []) by (by destruct secrets).
  destruct (nonempty secrets) eqn:Es.
  2:{ destruct secrets; [|done]. exists [], ([], None), ([], None).
      do 2 (split; [constructor|]). cbn. rewrite app_nil_r. by split; [apply applied_refl|]. }
  destruct (writes_secrets id secrets tx) as (d & r & Ed & Ha & Hok).
  destruct (insert_exposed_secrets_rows id secrets tx) as [tx1 [ids|e]]; cbn [fst snd is_ok] in *.
  2:{ destruct r as [|s r]; [done|]. rewrite Ed. eexists [], (d, Some _), ([], None).
      rewrite Hnil. do 2 (split; [constructor|]). cbn. rewrite app_nil_r. by split. }
  destruct r; [|done]. rewrite app_nil_r in Ed. subst d.
  destruct (jwt_items secrets ids) as [|i items] eqn:Ei; cbn [nonempty].
  - exists ids, (map (secret_statement id) secrets, None), ([], None). rewrite Ei.
    do 2 (split; [constructor|]). cbn. rewrite !app_nil_r. by split.
  - destruct (writes_jwt (i :: items) tx1) as (d & r & Ej & Hj & Hjok).
    destruct (insert_jwt_claims_batch_in_tx (i :: items) tx1) as [tx2 [[]|e]];
      cbn [fst snd is_ok] in *.
    + destruct r; [|done]. rewrite app_nil_r in Ej. subst d.
      eexists ids, (_, None), (_, None). rewrite Ei. do 2 (split; [constructor|]). cbn [fst snd].
      split; [by eapply applied_trans|]. cbn. by rewrite app_nil_r.
    + destruct r as [|s r]; [done|]. eexists ids, (_, None), (d, Some _). rewrite Ei, Ej.
      do 2 (split; [constructor|]). cbn [fst snd]. split; [by eapply applied_trans|done].
Qed.

Lemma partial_failure_rows_spec rows tx a b c :
  ∃ stored, stored `sublist_of` rows
    ∧ applied tx (insert_partial_failure_rows rows tx (a, b, c)).1
        (map partial_failure_statement stored)
    ∧ (insert_partial_failure_rows rows tx (a, b, c)).2
      = (a + vec_len stored, b + vec_len (List.filter is_satellite_error stored),
         c + (vec_len rows - vec_len stored)).
Proof.
  revert tx a b c. induction rows as [|row rows IH]; intros tx a b c.
  - exists []. split; [constructor|]. split; [apply applied_refl|]. cbn. unfold vec_len. cbn.
    by rewrite !Z.add_0_r.
  - cbn [insert_partial_failure_rows]. unfold insert_url_partial_failure_in_tx.
    pose proof (fetch_one_law (partial_failure_statement row) tx) as [Hb Hp].
    destruct (fetch_one _ tx) as [tx1 [i|e]]; cbn [fst snd is_ok] in *.
    + destruct (IH tx1 (a + 1) (if is_satellite_error row then b + 1 else b) c) as (stored & Hs & Ha & Hc).
      exists (row :: stored). split; [by constructor|]. split.
      * apply (applied_trans _ tx1 _ [_]); [by split|exact Ha].
      * rewrite Hc. unfold vec_len. cbn [length List.filter].
        destruct (is_satellite_error row); cbn [length];
          (apply (f_equal2 pair); [apply (f_equal2 pair)|]; lia).
    + destruct (IH tx1 a b (c + 1)) as (stored & Hs & Ha & Hc).
      exists stored. split; [by constructor|]. split.
      * apply (applied_trans _ tx1 _ []); [|exact Ha]. split; [done|]. exact Hp.
      * rewrite Hc. unfold vec_len. cbn [length]. f_equal; lia.
Qed.
Definition enrichment_deletes (id : Z) : list Statement :=
  map (λ t, delete_statement t id) URL_STATUS_ENRICHMENT_SATELLITE_TABLES.

(** The status of a part by the failures recorded. *)
Definition part_status (rs : list (list Statement * option SatelliteWriteFailure)) (i : nat)
  (present : bool) : EnrichmentWrite :=
  status_of present (r ← rs !! i; r.2).

Definition summary_of (record : PersistedUrlRecord)
  (rs : list (list Statement * option SatelliteWriteFailure))
  (rows stored : list UrlPartialFailureRecord) : EnrichmentInsertSummary :=
  MkSummary (vec_len stored) (vec_len (List.filter is_satellite_error stored))
    (vec_len rows - vec_len stored)
    (part_status rs 0 (bool_decide (is_Some (pr_geoip record))))
    (part_status rs 1 (bool_decide (is_Some (pr_structured_data record))))
    (part_status rs 2 (nonempty (pr_social_media_links record)))
    (part_status rs 3 (bool_decide (is_Some (pr_whois record))))
    (part_status rs 7 (nonempty (pr_analytics_ids record)))
    (part_status rs 8 (bool_decide (is_Some (pr_favicon record))))
    (part_status rs 4 (nonempty (pr_contact_links record)))
    (part_status rs 5 (nonempty (pr_exposed_secrets record))).

(** What an enrichment that commits adds to the transactions [before]: the clean-up, then of
    each part its plan or a strict prefix of it, then the partial failures that could be
    stored among those of the scan, of the core satellites and of the parts. *)
Definition enrichment_effect (id : Z) (record : PersistedUrlRecord)
  (core : list SatelliteWriteFailure) (before : list (list Statement)) (w : W)
  (summary : EnrichmentInsertSummary) : Prop :=
  ∃ ids rs stored,
    let rows := partial_failure_rows id (pr_partial_failures record) (core ++ omap snd rs)
                  (ur_timestamp (pr_url_record record)) (ur_run_id (pr_url_record record)) in
    Forall2 satellite_result (enrichment_plans id record ids) rs
    ∧ stored `sublist_of` rows
    ∧ committed w = before ++ [enrichment_deletes id ++ concat (map fst rs)
                               ++ map partial_failure_statement stored]
    ∧ summary = summary_of record rs rows stored.

Lemma enrich_issue_spec present table s :
  enriches (enrich present table (if present then execute s else tx_ret tt)) present
    (table, issue present s).
Proof. apply enrich_spec; [apply writes_issue|by intros ->]. Qed.

Lemma omap_snd_cons {A B} (r : A * option B) rs :
  omap snd (r :: rs) = option_list r.2 ++ omap snd rs.
Proof. cbn. by destruct r.2. Qed.

(** One step with its description; [st'] is the state it leaves. *)
Ltac next_part spec st' :=
  let r := fresh "r" in
  let H := fresh "H" in
  let A := fresh "A" in
  let F := fresh "F" in
  let Es := fresh "Es" in
  destruct spec as (r & H & A & F & Es);
  match type of A with applied _ (?step).2.1 _ => destruct step as [? st'] end;
  cbn [fst snd] in A, F, Es.

(** The eight steps, one after the other. *)
Lemma parts_spec id record tx :
  let st : Enriching := (tx, []) in
  let (geoip, st) := enrich_some (pr_geoip record) (lit "url_geoip")
    (λ g, insert_geoip_data_in_tx id g.2) st in
  let (structured_data, st) := enrich_some (pr_structured_data record)
    (lit "url_structured_data") (insert_structured_data_in_tx id) st in
  let (social_media, st) := enrich (nonempty (pr_social_media_links record))
    (lit "url_social_media_links")
    (insert_social_media_links_in_tx id (pr_social_media_links record)) st in
  let (whois, st) := enrich_some (pr_whois record) (lit "url_whois")
    (insert_whois_data_in_tx id) st in
  let (contact_links, st) := enrich (nonempty (pr_contact_links record))
    (lit "url_contact_links")
    (insert_contact_links_in_tx id (pr_contact_links record)) st in
  let (exposed_secrets, st) :=
    insert_exposed_secrets_in_tx id (pr_exposed_secrets record) st in
  let (analytics_ids, st) := enrich (nonempty (pr_analytics_ids record))
    (lit "url_analytics_ids")
    (insert_analytics_ids_in_tx id (pr_analytics_ids record)) st in
  let (favicon, st) := enrich_some (pr_favicon record) (lit "url_favicons")
    (insert_favicon_data_in_tx id) st in
  ∃ ids rs, Forall2 satellite_result (enrichment_plans id record ids) rs
    ∧ applied tx st.1 (concat (map fst rs)) ∧ st.2 = omap snd rs
    ∧ ∀ rows stored,
        MkSummary (vec_len stored) (vec_len (List.filter is_satellite_error stored))
          (vec_len rows - vec_len stored) geoip structured_data social_media whois
          analytics_ids favicon contact_links exposed_secrets
        = summary_of record rs rows stored.
Proof.
  cbn zeta. unfold insert_geoip_data_in_tx, insert_social_media_links_in_tx,
    insert_whois_data_in_tx, insert_contact_links_in_tx, insert_analytics_ids_in_tx,
    insert_favicon_data_in_tx.
  next_part (enrich_some_spec (pr_geoip record) (lit "url_geoip") _ _
               (λ g, writes_execute (geoip_statement id g.2)) (tx, [])) st0.
  next_part (enrich_some_spec (pr_structured_data record) (lit "url_structured_data") _ _
               (writes_structured id) st0) st1.
  next_part (enrich_issue_spec (nonempty (pr_social_media_links record)) (lit "url_social_media_links")
               (social_statement id (pr_social_media_links record)) st1) st2.
  next_part (enrich_some_spec (pr_whois record) (lit "url_whois") _ _
               (λ x, writes_execute (whois_statement id x)) st2) st3.
  next_part (enrich_issue_spec (nonempty (pr_contact_links record)) (lit "url_contact_links")
               (contact_statement id (pr_contact_links record)) st3) st4.
  destruct (secrets_spec id (pr_exposed_secrets record) st4)
    as (ids & r5 & r6 & H5 & H6 & A5 & F5 & S5).
  destruct (insert_exposed_secrets_in_tx id _ st4) as [s5 st5]. cbn [fst snd] in A5, F5, S5.
  next_part (enrich_issue_spec (nonempty (pr_analytics_ids record)) (lit "url_analytics_ids")
               (analytics_statement id (pr_analytics_ids record)) st5) st7.
  next_part (enrich_some_spec (pr_favicon record) (lit "url_favicons") _ _
               (λ f, writes_execute (favicon_statement id f)) st7) st8.
  exists ids, [r; r0; r1; r2; r3; r5; r6; r4; r7].
  split; [repeat (constructor; [assumption|]); constructor|]. split_and!.
  - cbn [map concat fst]. rewrite app_nil_r.
    do 5 (eapply applied_trans; [eassumption|]).
    rewrite (app_assoc r5.1). do 2 (eapply applied_trans; [eassumption|]). eassumption.
  - repeat match goal with E : ?st.2 = ?l ++ _ |- context [?st.2] => rewrite E end.
    rewrite !omap_snd_cons. cbn [omap list_omap]. by rewrite <- !app_assoc, app_nil_r.
  - intros rows stored. by subst.
Qed.
Lemma enrichment_txn_effect id record core w :
  let r := insert_enrichment_txn id record core w in
  match r.2 with
  | Ok summary => enrichment_effect id record core (committed w) r.1 summary
  | Err _ => committed r.1 = committed w
  end.
Proof.
  unfold insert_enrichment_txn. pose proof (begin_tx_law w) as Hbegin.
  destruct (begin_tx w) as [[w1 e]|tx]; [done|]. destruct Hbegin as [Hbase Hpend].
  destruct (writes_delete_child_rows URL_STATUS_ENRICHMENT_SATELLITE_TABLES id tx)
    as (d & r & Ed & Hd & Hok).
  destruct (delete_child_rows _ id tx) as [tx1 [[]|e]]; cbn [fst snd is_ok] in *.
  2:{ destruct Hd as [Hb _]. rewrite rollback_law. congruence. }
  destruct r; [|done]. rewrite app_nil_r in Ed. fold (enrichment_deletes id) in Ed. subst d.
  pose proof (parts_spec id record tx1) as Hparts. cbn zeta in Hparts |- *.
  repeat match type of Hparts with
    | context [let (_, _) := ?step in _] => destruct step as [? ?]
    end.
  destruct Hparts as (ids & rs & Hrs & Ha & Hf & Hsum). rewrite Hf.
  set (rows := partial_failure_rows _ _ _ _ _).
  destruct (partial_failure_rows_spec rows p6.1 0 0 0) as (stored & Hs & Hp & Hc).
  destruct (insert_partial_failure_rows rows _ _) as [tx9 [[i se] fl]].
  cbn [fst snd] in Hp, Hc. injection Hc as -> -> ->. cbn zeta.
  pose proof (applied_trans _ _ _ _ _ (applied_trans _ _ _ _ _ Hd Ha) Hp) as [Hb9 Hp9].
  pose proof (commit_law tx9) as Hcommit. rewrite Hb9, Hbase in Hcommit.
  destruct (commit_tx tx9) as [w2 [[]|e9]]; cbn [fst snd is_ok] in *;
    [|by rewrite app_nil_r in Hcommit].
  exists ids, rs, stored. cbn zeta. split_and!; [done|done| |].
  - by rewrite Hcommit, Hp9, Hpend, <- app_assoc.
  - rewrite <- Hsum. by rewrite !Z.add_0_l.
Qed.
(** *** Counting *)

Definition failure_count (r : list Statement * option SatelliteWriteFailure) : Z :=
  vec_len (option_list r.2).

Lemma status_failed table l present r :
  satellite_result (table, l) r -> (present = false -> l = []) ->
  Z.b2z (is_failed (status_of present r.2)) = failure_count r.
Proof.
  intros Hr Hl. unfold failure_count, status_of.
  inversion Hr as [|? d s rest m]; subst; cbn; [by destruct present|].
  destruct present; [done|]. specialize (Hl eq_refl). by destruct d.
Qed.

Lemma option_plan_absent {A} (f : A -> list Statement) o :
  bool_decide (is_Some o) = false -> from_option f [] o = [].
Proof. by destruct o. Qed.

Lemma secrets_plan_absent id secrets :
  nonempty secrets = false -> map (secret_statement id) secrets = [].
Proof. by destruct secrets. Qed.

Lemma issue_absent (b : bool) s : b = false -> issue b s = [].
Proof. by intros ->. Qed.

(** The failures of the parts are those the statuses show, and those of the JWT claims. *)
Lemma summary_failures id record ids rs rows stored :
  Forall2 satellite_result (enrichment_plans id record ids) rs ->
  total_failures (summary_of record rs rows stored) + from_option failure_count 0 (rs !! 6%nat)
  = vec_len rows - vec_len stored + vec_len (omap snd rs).
Proof.
  unfold enrichment_plans. intros H0.
  do 9 (apply Forall2_cons_inv_l in H0 as (? & ? & ? & H0 & ->)). apply Forall2_nil_inv_l in H0.
  subst. unfold total_failures, summary_of, part_status. cbn [partial_failures_failed es_geoip
    es_structured_data es_social_media es_whois es_analytics_ids es_favicon es_contact_links
    es_exposed_secrets lookup list_lookup mbind option_bind from_option].
  repeat match goal with
    | Hr : satellite_result (_, ?l) ?r |- context [status_of ?p (?r.2)] =>
        rewrite (status_failed _ l p r Hr)
          by first [apply option_plan_absent | apply issue_absent | apply secrets_plan_absent];
        clear Hr
    end.
  rewrite !omap_snd_cons. unfold failure_count, vec_len. rewrite !length_app. cbn. lia.
Qed.

(** What becomes of the failures of an enrichment that commits. *)
Lemma enrichment_counts id record core before w summary :
  enrichment_effect id record core before w summary ->
  ∃ ids rs stored,
    let failed_writes := omap snd rs in
    let rows := partial_failure_rows id (pr_partial_failures record) (core ++ failed_writes)
                  (ur_timestamp (pr_url_record record)) (ur_run_id (pr_url_record record)) in
    Forall2 satellite_result (enrichment_plans id record ids) rs
    ∧ stored `sublist_of` rows
    ∧ committed w = before ++ [enrichment_deletes id ++ concat (map fst rs)
                               ++ map partial_failure_statement stored]
    ∧ partial_failures_inserted summary = vec_len stored
    ∧ satellite_insert_errors_inserted summary = vec_len (List.filter is_satellite_error stored)
    ∧ partial_failures_inserted summary + partial_failures_failed summary
      = vec_len (pr_partial_failures record) + vec_len core + vec_len failed_writes
    ∧ total_failures summary + from_option failure_count 0 (rs !! 6%nat)
      = partial_failures_failed summary + vec_len failed_writes.
Proof.
  intros (ids & rs & stored & Hrs & Hsub & Hc & ->). cbn zeta. exists ids, rs, stored.
  split_and!; [done|done|done|done|done| |].
  - cbn [summary_of partial_failures_inserted partial_failures_failed].
    unfold partial_failure_rows, vec_len. rewrite length_map, !length_app, length_map, length_app.
    lia.
  - rewrite (summary_failures id record ids) by done. done.
Qed.
End EnrichmentTheorems.

(** ** A URL with its enrichment *)

Section Persisted.
Context `{Q : Sqlx W Tx} {Laws : SqlxLaws Q} `{J : Serde} {JP : SerdePrints J} `{H : HashIter}
  `{Lo : Lowercase}.

(** The enrichment after the fact row: committed, or without effect, with every partial
    failure counted as lost. *)
Definition enriched (id : Z) (record : PersistedUrlRecord) (core : list SatelliteWriteFailure)
  (before : list (list Statement)) (w : W) (summary : EnrichmentInsertSummary) : Prop :=
  enrichment_effect id record core before w summary
  ∨ (committed w = before
     ∧ summary = MkSummary 0 0 (vec_len core + vec_len (pr_partial_failures record))
                   Skipped Skipped Skipped Skipped Skipped Skipped Skipped Skipped).

Lemma insert_enrichment_data_effect id record core w :
  let (w', summary) := insert_enrichment_data id record core w in
  enriched id record core (committed w) w' summary.
Proof.
  unfold insert_enrichment_data, enriched.
  pose proof (sqlite_retry_transfers (insert_enrichment_txn id record core) committed
                (enrichment_effect id record core) (enrichment_txn_effect id record core) w) as Hr.
  destruct (with_sqlite_retry _ w).1 as [w' [summary|e]]; [by left|by right].
Qed.

(** The two transactions of a stored URL. *)
Definition stored_effect (record : PersistedUrlRecord) (before : list (list Statement)) (w' : W)
  (out : UrlUpsertOutcome) : Prop :=
  ∃ w1 upsert summary,
    upsert_effect (from_persisted_record record) before w1 upsert
    ∧ enriched (up_id upsert) record (satellite_insert_failures upsert) (committed w1) w' summary
    ∧ out = MkUpsert (up_id upsert) (up_inserted upsert) (satellite_insert_failures upsert)
              (partial_failures_inserted summary) (satellite_insert_errors_inserted summary).

Lemma insert_persisted_committed record w :
  let (w', r) := insert_persisted_url_record record w in
  match r with
  | Err _ => committed w' = committed w
  | Ok out => stored_effect record (committed w) w' out
  end.
Proof.
  unfold insert_persisted_url_record, insert_url_record_with_outcome.
  pose proof (sqlite_retry_transfers (insert_url_record_impl (from_persisted_record record))
                committed (upsert_effect (from_persisted_record record))
                (insert_url_record_effect (from_persisted_record record)) w) as Hr.
  destruct (with_sqlite_retry _ w).1 as [w1 [upsert|e]]; [|exact Hr]. cbn [fst snd] in Hr.
  pose proof (insert_enrichment_data_effect (up_id upsert) record
                (satellite_insert_failures upsert) w1) as He.
  destruct (insert_enrichment_data _ _ _ w1) as [w' summary]. by exists w1, upsert, summary.
Qed.

(** C6: Storing a URL.  If the first transaction fails nothing is stored.  If it commits, the second
    one is tried, and its answer decides.  When it commits, every partial failure of the scan,
    every failed core satellite and every failed write of the enrichment is one row to insert,
    and each of these rows is stored or counted in [partial_failures_failed]; the total shown
    also counts the parts that failed, the JWT claims excepted.  When it is rolled back nothing
    of it stands, the failures of the scan and of the core satellites are counted as not
    stored, and what failed inside the transaction is counted nowhere. *)
Theorem persisted_record_accounted record w :
  let (w', r) := insert_persisted_url_record record w in
  let (w1, first) := insert_url_record_with_outcome (from_persisted_record record) w in
  match first with
  | Err e => r = Err e ∧ w' = w1 ∧ committed w' = committed w
  | Ok upsert =>
      let core := satellite_insert_failures upsert in
      let second :=
        (with_sqlite_retry (insert_enrichment_txn (up_id upsert) record core) w1).1 in
      upsert_effect (from_persisted_record record) (committed w) w1 upsert
      ∧ w' = second.1
      ∧ match second.2 with
        | Ok summary =>
            (∃ ids rs stored,
               let failed_writes := omap snd rs in
               let rows :=
                 partial_failure_rows (up_id upsert) (pr_partial_failures record)
                   (core ++ failed_writes) (ur_timestamp (pr_url_record record))
                   (ur_run_id (pr_url_record record)) in
               Forall2 satellite_result (enrichment_plans (up_id upsert) record ids) rs
               ∧ stored `sublist_of` rows
               ∧ committed w'
                 = committed w1 ++ [enrichment_deletes (up_id upsert) ++ concat (map fst rs)
                                    ++ map partial_failure_statement stored]
               ∧ partial_failures_inserted summary = vec_len stored
               ∧ satellite_insert_errors_inserted summary
                 = vec_len (List.filter is_satellite_error stored)
               ∧ partial_failures_inserted summary + partial_failures_failed summary
                 = vec_len (pr_partial_failures record) + vec_len core + vec_len failed_writes
               ∧ total_failures summary + from_option failure_count 0 (rs !! 6%nat)
                 = partial_failures_failed summary + vec_len failed_writes)
            ∧ r = Ok (MkUpsert (up_id upsert) (up_inserted upsert) core
                        (partial_failures_inserted summary)
                        (satellite_insert_errors_inserted summary))
        | Err _ =>
            committed w' = committed w1
            ∧ r = Ok (MkUpsert (up_id upsert) (up_inserted upsert) core 0 0)
            ∧ total_failures (insert_enrichment_data (up_id upsert) record core w1).2
              = vec_len core + vec_len (pr_partial_failures record)
        end
  end.
Proof.
  unfold insert_persisted_url_record, insert_url_record_with_outcome.
  pose proof (sqlite_retry_transfers (insert_url_record_impl (from_persisted_record record))
                committed (upsert_effect (from_persisted_record record))
                (insert_url_record_effect (from_persisted_record record)) w) as Hr.
  destruct (with_sqlite_retry _ w).1 as [w1 [upsert|e]]; [|done]. cbn [fst snd] in Hr.
  pose proof (sqlite_retry_transfers
                (insert_enrichment_txn (up_id upsert) record (satellite_insert_failures upsert))
                committed (enrichment_effect (up_id upsert) record (satellite_insert_failures upsert))
                (enrichment_txn_effect (up_id upsert) record (satellite_insert_failures upsert)) w1)
    as He.
  unfold insert_enrichment_data. cbn zeta.
  destruct (with_sqlite_retry (insert_enrichment_txn _ _ _) w1).1 as [w' [summary|e]];
    cbn [fst snd partial_failures_inserted satellite_insert_errors_inserted] in *;
    (split; [exact Hr|]); (split; [done|]).
  - split; [|done]. by apply enrichment_counts.
  - split; [exact He|]. split; [done|]. unfold total_failures, vec_len. cbn. lia.
Qed.

(** *** Well-formed statements *)

Ltac batch_ok_tac :=
  apply issue_forall; intros _; apply batch_ok;
  [ intros s a; rows; unfold row_values, bind; cbn; by rewrite <- ?app_assoc
  | intros a; rows; reflexivity
  | vm_compute; reflexivity
  | reflexivity ].

Lemma structured_statements_ok id data : Forall statement_ok (structured_plan id data).
Proof.
  unfold structured_plan. cbn zeta. repeat (apply Forall_app; split); batch_ok_tac.
Qed.

(** Every statement of the enrichment binds one value per placeholder. *)
Theorem enrichment_statements_ok id record ids :
  Forall (λ plan, Forall statement_ok plan.2) (enrichment_plans id record ids)
  ∧ Forall statement_ok (enrichment_deletes id)
  ∧ ∀ f, statement_ok (partial_failure_statement f).
Proof.
  split; [|split; [vm_compute; repeat constructor|intros f; vm_compute; reflexivity]].
  assert (Hmap : ∀ A (f : A -> Statement) l, (∀ a, statement_ok (f a)) -> Forall statement_ok (map f l)).
  { intros A f l Hf. induction l; constructor; auto. }
  repeat constructor; cbn [snd].
  - destruct (pr_geoip record); repeat constructor.
  - destruct (pr_structured_data record); [apply structured_statements_ok|constructor].
  - batch_ok_tac.
  - destruct (pr_whois record); repeat constructor.
  - batch_ok_tac.
  - apply Hmap. intros a. vm_compute. reflexivity.
  - apply Hmap. intros [i a]. vm_compute. reflexivity.
  - batch_ok_tac.
  - destruct (pr_favicon record); repeat constructor.
Qed.
End Persisted.

(** ** A concrete record on a database with failing tables *)

Module DemoRecord.
Import DemoSerde DemoSql.
#[local] Existing Instance listing.
#[local] Instance lower : Lowercase := {| to_lowercase := to_ascii_lowercase |}.
#[local] Instance prints : SerdePrints serde.
Proof. split. intros v. by eexists. Defined.

Definition token : DecodedJwt :=
  MkJwt (lit "{}") (lit "{}") (Some (lit "none")) None None None None None None None None.
Definition secret : ExposedSecret :=
  MkExposedSecret (lit "jwt") (lit "eyJ") [] Low (lit "inline_script") (Some token).
Definition record : PersistedUrlRecord :=
  MkPersisted (DemoRow.record (lit "example.com") 200) ∅ ∅ ∅ [] [] [lit "example.com"]
    [MkAnalyticsId GoogleAnalytics4 (lit "G-1")] None None [] [MkContactLink Email [] []] [secret]
    None [MkPartialFailure 0 DnsNsLookupError (lit "timed out") 5 None] None None None None [] []
    [] [] None None.

(** SANs, contact links and JWT claims cannot be written: the URL is stored, and the four
    partial failures are rows.  The failed claims are in no status of the summary. *)
Definition failing : Database :=
  MkDb [] [lit "url_certificate_sans"; lit "url_contact_links"; lit "url_jwt_claims"].

Example failures_become_rows :
  let (db', r) := insert_persisted_url_record record failing in
  length (log db') = 2%nat
  ∧ option_map up_partial_failures_inserted (result_ok r) = Some 4
  ∧ option_map up_satellite_insert_errors_inserted (result_ok r) = Some 3
  ∧ option_map (λ out, map wf_table (satellite_insert_failures out)) (result_ok r)
    = Some [lit "url_certificate_sans"].
Proof. vm_compute. split_and!; reflexivity. Qed.

Lemma persisted_record_accounted_witness :
  let (w1, first) := insert_url_record_with_outcome (from_persisted_record record) failing in
  ∃ upsert, first = Ok upsert
    ∧ upsert_effect (from_persisted_record record) (committed failing) w1 upsert.
Proof.
  pose proof (persisted_record_accounted (Laws := sqlx_laws) record failing) as H.
  destruct (insert_persisted_url_record record failing) as [w' r].
  destruct (insert_url_record_with_outcome (from_persisted_record record) failing)
    as [w1 [upsert|e]] eqn:E; [|vm_compute in E; discriminate].
  exists upsert. split; [reflexivity|exact (proj1 H)].
Defined.

Example claims_not_counted :
  total_failures (insert_enrichment_data 7 record [] (MkDb [] [lit "url_jwt_claims"])).2 = 0.
Proof. vm_compute. reflexivity. Qed.
End DemoRecord.
