(* ===== verification/Runs.v ===== *)
(** * Runs and their summary ([src/storage/insert/run.rs], [src/summary/mod.rs])

    The rows of [runs]: inserted when a scan starts, completed when it ends, listed as the
    history; the counts of the fact tables; the summary of a run and its text.  A table is the
    list of its rows with the columns the queries read, and a query of the source is written out
    as the function its SQL denotes.  What SQLite answers instead of a result is an argument,
    one answer per query; the order of history rows with the same start time is the class
    [RunOrder]; the rounding of [{:.1}] is the class [ShowTenths]. *)

From Stdlib Require Import SpecFloat.
From stdpp Require Import sorting.
From S2P Require Import Prelude Errors Scan ExportRow Json.

(** ** The tables *)

Record RunRow := MkRunRow {
  row_run_id : str;
  row_version : option str;
  row_fingerprints_source : option str;
  row_fingerprints_version : option str;
  row_geoip_version : option str;
  row_start_time_ms : Z;
  row_end_time_ms : option Z;
  row_total_urls : Z;
  row_successful_urls : Z;
  row_failed_urls : Z;
  row_skipped_urls : Z;
  row_elapsed_seconds : option spec_float;
}.

Record StatusRow := MkStatusRow {
  st_id : Z;
  st_run_id : option str;
  st_http_status : Z;
}.

Record TechnologyRow := MkTechnologyRow {
  tech_url_status_id : Z;
  tech_name : str;
  tech_is_implied : option Z;
}.

(** [failure_rows]: the [run_id]s; [partial_rows]: [run_id] and [error_type];
    [secret_rows]: the [url_status_id]s. *)
Record Database := MkDatabase {
  runs : list RunRow;
  status_rows : list StatusRow;
  failure_rows : list (option str);
  partial_rows : list (option str * str);
  technology_rows : list TechnologyRow;
  secret_rows : list Z;
}.

Definition set_runs (l : list RunRow) (db : Database) : Database :=
  MkDatabase l (status_rows db) (failure_rows db) (partial_rows db) (technology_rows db)
    (secret_rows db).

(** The statements of the two files, as SQLite sees them. *)
Inductive RunQuery :=
  | InsertRun | UpdateRun | CountStatus | CountFailures | CountPartials
  | CountSatelliteErrors | SelectHistory | SelectRun | SelectStatusCounts
  | SelectTechnologies | SelectSecrets.

(** ** storage/insert/run.rs *)

Record RunMetadata := MkRunMetadata {
  meta_run_id : str;
  meta_start_time_ms : Z;
  meta_version : str;
  meta_fingerprints_source : option str;
  meta_fingerprints_version : option str;
  meta_geoip_version : option str;
}.

Record RunStats := MkRunStats {
  stats_run_id : str;
  stats_total_urls : Z;
  stats_successful_urls : Z;
  stats_failed_urls : Z;
  stats_skipped_urls : Z;
  stats_elapsed_seconds : spec_float;
}.

Record RunSummary := MkRunSummary {
  rs_run_id : str;
  rs_version : option str;
  rs_start_time_ms : Z;
  rs_end_time_ms : option Z;
  rs_total_urls : Z;
  rs_successful_urls : Z;
  rs_failed_urls : Z;
  rs_skipped_urls : Z;
  rs_elapsed_seconds : option spec_float;
}.

Record RunPartialFailureCounts := MkPartialCounts {
  partial_total : Z;
  satellite_insert_errors : Z;
}.

Definition run_summary_from_row (row : RunRow) : RunSummary :=
  MkRunSummary (row_run_id row) (row_version row) (row_start_time_ms row)
    (row_end_time_ms row) (row_total_urls row) (row_successful_urls row)
    (row_failed_urls row) (row_skipped_urls row) (row_elapsed_seconds row).

(** The row of [VALUES], the other columns at their defaults. *)
Definition new_run_row (meta : RunMetadata) : RunRow :=
  MkRunRow (meta_run_id meta) (Some (meta_version meta)) (meta_fingerprints_source meta)
    (meta_fingerprints_version meta) (meta_geoip_version meta) (meta_start_time_ms meta)
    None 0 0 0 0 None.

(** [DO UPDATE SET]. *)
Definition conflict_run_row (meta : RunMetadata) (row : RunRow) : RunRow :=
  MkRunRow (row_run_id row) (Some (meta_version meta)) (meta_fingerprints_source meta)
    (meta_fingerprints_version meta) (meta_geoip_version meta) (meta_start_time_ms meta)
    (row_end_time_ms row) (row_total_urls row) (row_successful_urls row)
    (row_failed_urls row) (row_skipped_urls row) (row_elapsed_seconds row).

Definition stats_run_row (end_time_ms : Z) (stats : RunStats) (row : RunRow) : RunRow :=
  MkRunRow (row_run_id row) (row_version row) (row_fingerprints_source row)
    (row_fingerprints_version row) (row_geoip_version row) (row_start_time_ms row)
    (Some end_time_ms) (stats_total_urls stats) (stats_successful_urls stats)
    (stats_failed_urls stats) (stats_skipped_urls stats) (Some (stats_elapsed_seconds stats)).

(** [WHERE run_id = ?] on [runs], and on a table where the column may be NULL. *)
Definition is_run (run_id : str) (row : RunRow) : bool := streqb (row_run_id row) run_id.
Definition in_run (run_id : str) (column : option str) : bool :=
  match column with Some r => streqb r run_id | None => false end.

Definition update_where (run_id : str) (f : RunRow -> RunRow) (l : list RunRow) : list RunRow :=
  map (λ row, if is_run run_id row then f row else row) l.

(** [COUNT] of all rows. *)
Definition count_rows {A} (p : A -> bool) (l : list A) : Z :=
  Z.of_nat (length (List.filter p l)).

(** [ORDER BY start_time_ms DESC]: rows with the same start time in any order. *)
Class RunOrder := order_runs : list RunRow -> list RunRow.

Definition later (a b : RunRow) : Prop := row_start_time_ms b <= row_start_time_ms a.
#[export] Instance later_dec a b : Decision (later a b).
Proof. unfold later. apply _. Defined.

Class RunOrderLaws `{RunOrder} := {
  order_runs_perm : ∀ l, order_runs l ≡ₚ l;
  order_runs_sorted : ∀ l, StronglySorted later (order_runs l);
}.

Definition is_completed (row : RunRow) : bool :=
  match row_end_time_ms row with Some _ => true | None => false end.

Definition i64_max : Z := 9223372036854775807.

Section Queries.
Context {E : Type}.
(** What SQLite answers to a query instead of its result. *)
Context (refuses : RunQuery -> option E).
(** A [LIMIT] that is no 64-bit integer. *)
Context (datatype_mismatch : E).

Definition asked {A} (q : RunQuery) (a : A) : result A E :=
  match refuses q with Some e => Err e | None => Ok a end.

Definition insert_run_metadata (meta : RunMetadata) (db : Database) : Database * result unit E :=
  match asked InsertRun tt with
  | Err e => (db, Err e)
  | Ok _ =>
      (set_runs (if existsb (is_run (meta_run_id meta)) (runs db)
                 then update_where (meta_run_id meta) (conflict_run_row meta) (runs db)
                 else runs db ++ [new_run_row meta]) db, Ok tt)
  end.

(** No row with the id is a warning only. *)
Definition update_run_stats (end_time_ms : Z) (stats : RunStats) (db : Database)
  : Database * result unit E :=
  match asked UpdateRun tt with
  | Err e => (db, Err e)
  | Ok _ =>
      (set_runs (update_where (stats_run_id stats) (stats_run_row end_time_ms stats) (runs db)) db,
       Ok tt)
  end.

Definition count_fact_rows (run_id : str) (db : Database) : result RunFactCounts E :=
  successful ←? asked CountStatus (count_rows (λ r, in_run run_id (st_run_id r)) (status_rows db));
  failed ←? asked CountFailures (count_rows (in_run run_id) (failure_rows db));
  Ok (MkFactCounts successful failed).

Definition count_run_partial_failures (run_id : str) (db : Database)
  : result RunPartialFailureCounts E :=
  total ←? asked CountPartials (count_rows (λ r, in_run run_id r.1) (partial_rows db));
  satellite ←? asked CountSatelliteErrors
    (count_rows (λ r, in_run run_id r.1 && streqb r.2 (Errors.as_str SatelliteInsertError))
       (partial_rows db));
  Ok (MkPartialCounts total satellite).

Definition query_run_history `{RunOrder} (limit : option Z) (db : Database)
  : result (list RunSummary) E :=
  rows ←? asked SelectHistory (order_runs (List.filter is_completed (runs db)));
  rows ←? (match limit with
           | None => Ok rows
           | Some n => if n <=? i64_max then Ok (take (Z.to_nat n) rows)
                       else Err datatype_mismatch
           end);
  Ok (map run_summary_from_row rows).

(** [fetch_optional]: the first row. *)
Definition query_run_by_id (run_id : str) (db : Database) : result (option RunSummary) E :=
  rows ←? asked SelectRun (List.filter (is_run run_id) (runs db));
  Ok (option_map run_summary_from_row (head rows)).

(** *** run/finalize.rs: the counts of a run are stored *)

Definition stats_of (run_id : str) (elapsed_seconds : spec_float) (c : FinalRunCounts) : RunStats :=
  MkRunStats run_id (total_urls c) (final_successful c) (final_failed c) (final_skipped c)
    elapsed_seconds.

(** [Scan.persist_run_counts] on the database. *)
Definition persist_run (run_id : str) (end_time_ms : Z) (elapsed_seconds : spec_float)
    (c : Counters) (db : Database) : Database * result FinalRunCounts E :=
  let update f := update_run_stats end_time_ms (stats_of run_id elapsed_seconds f) db in
  let counted := persist_run_counts (count_fact_rows run_id db) (λ f, (update f).2) c in
  (match counted with Ok f => (update f).1 | Err _ => db end, counted).

(** ** summary/mod.rs *)

Record SummaryOptions := MkSummaryOptions {
  opt_run_id : option str;
  opt_top_technologies : Z;
}.

Definition default_summary_options : SummaryOptions := MkSummaryOptions None 15.

Record ScanSummary := MkScanSummary {
  sum_run : RunSummary;
  sum_status_counts : list (Z * Z);
  sum_top_technologies : list (str * Z);
  sum_secret_count : Z;
  sum_urls_with_secrets : Z;
}.

(** [anyhow::Error]: a message, or the context of a database error. *)
Inductive SummaryError :=
  | Message (message : str)
  | InContext (context : str) (error : E).

Definition with_context {A} (context : string) (r : result A E) : result A SummaryError :=
  match r with Ok a => Ok a | Err e => Err (InContext (lit context) e) end.

Definition run_not_found (run_id : str) : str :=
  lit "No run found with run_id '" ++ run_id ++ lit "'".
Definition no_completed_runs : str :=
  lit "No completed runs found in the database. Run `domain-status scan` first, "
  ++ lit "or pass --run-id for an in-progress run.".

(** The history has at most one row, so [pop] is its only one. *)
Definition resolve_run `{RunOrder} (run_id : option str) (db : Database)
  : result RunSummary SummaryError :=
  match run_id with
  | Some run_id =>
      found ←? with_context "Failed to look up run" (query_run_by_id run_id db);
      match found with Some run => Ok run | None => Err (Message (run_not_found run_id)) end
  | None =>
      history ←? with_context "Failed to query run history" (query_run_history (Some 1) db);
      match list.last history with
      | Some run => Ok run
      | None => Err (Message no_completed_runs)
      end
  end.

(** [GROUP BY key] with the number of rows of each group. *)
Definition group_count {K} `{EqDecision K} (keys : list K) : list (K * Z) :=
  map (λ k, (k, count_rows (λ k', bool_decide (k' = k)) keys)) (remove_dups keys).

(** [ORDER BY cnt DESC, key ASC]. *)
Definition counts_leb {K} (key_leb : K -> K -> bool) (a b : K * Z) : bool :=
  (b.2 <? a.2) || ((b.2 =? a.2) && key_leb a.1 b.1).

Definition order_counts {K} (key_leb : K -> K -> bool) (l : list (K * Z)) : list (K * Z) :=
  merge_sort (λ a b, Is_true (counts_leb key_leb a b)) l.

Definition query_status_counts (run_id : str) (db : Database)
  : result (list (Z * Z)) SummaryError :=
  with_context "Failed to query HTTP status counts" (asked SelectStatusCounts
    (order_counts Z.leb (group_count (map st_http_status
       (List.filter (λ u, in_run run_id (st_run_id u)) (status_rows db)))))).

(** [INNER JOIN url_status u ON u.id = ... WHERE u.run_id = ?]: a row for every pair. *)
Definition joined {A} (url_status_id : A -> Z) (run_id : str) (db : Database) (l : list A)
  : list A :=
  concat (map (λ a, map (λ _, a)
    (List.filter (λ u, (st_id u =? url_status_id a) && in_run run_id (st_run_id u))
       (status_rows db))) l).

(** [COALESCE(t.is_implied, 0) = 0]. *)
Definition is_observed (t : TechnologyRow) : bool := default 0 (tech_is_implied t) =? 0.

(** [i64::try_from(limit).unwrap_or(15)]. *)
Definition technology_limit (limit : Z) : Z := if limit <=? i64_max then limit else 15.

Definition query_top_technologies (run_id : str) (limit : Z) (db : Database)
  : result (list (str * Z)) SummaryError :=
  with_context "Failed to query top technologies" (asked SelectTechnologies
    (take (Z.to_nat (technology_limit limit)) (order_counts str_leb (group_count (map tech_name
       (List.filter is_observed (joined tech_url_status_id run_id db (technology_rows db)))))))).

Definition query_secret_stats (run_id : str) (db : Database) : result (Z * Z) SummaryError :=
  let rows := joined id run_id db (secret_rows db) in
  with_context "Failed to query exposed secret counts" (asked SelectSecrets
    (Z.of_nat (length rows), Z.of_nat (length (remove_dups rows)))).

Definition query_scan_summary `{RunOrder} (options : SummaryOptions) (db : Database)
  : result ScanSummary SummaryError :=
  run ←? resolve_run (opt_run_id options) db;
  let top_n := if opt_top_technologies options =? 0 then 15 else opt_top_technologies options in
  status_counts ←? query_status_counts (rs_run_id run) db;
  top_technologies ←? query_top_technologies (rs_run_id run) top_n db;
  ' secrets ←? query_secret_stats (rs_run_id run) db;
  Ok (MkScanSummary run status_counts top_technologies secrets.1 secrets.2).
End Queries.
Arguments Message {E} _.
Arguments InContext {E} _ _.

(** *** The text of a summary *)

(** [{:.1}] of an [f64]. *)
Class ShowTenths := { show_tenths : spec_float -> str }.

(** [{:>width$}]. *)
Definition align_right (width : nat) (s : str) : str := replicate (width - length s) 32 ++ s.

Definition write_line (out line : str) : str := out ++ line ++ [10].

Definition format_scan_summary `{ShowTenths} (summary : ScanSummary) : str :=
  let run := sum_run summary in
  let out := write_line [] (lit "Run: " ++ rs_run_id run) in
  let out := match rs_version run with
             | Some version => write_line out (lit "Version: " ++ version)
             | None => out
             end in
  let out := match rs_elapsed_seconds run with
             | Some elapsed => write_line out (lit "Elapsed: " ++ show_tenths elapsed ++ lit "s")
             | None => out
             end in
  let out := write_line out (lit "URLs: " ++ dec_z (rs_total_urls run) ++ lit " total " ++ [8212; 32]
               ++ dec_z (rs_successful_urls run) ++ lit " succeeded, "
               ++ dec_z (rs_failed_urls run) ++ lit " failed, "
               ++ dec_z (rs_skipped_urls run) ++ lit " skipped") in
  let out := write_line out [] in
  let out := write_line out (lit "HTTP status:") in
  let out := match sum_status_counts summary with
             | [] => write_line out (lit "  (none)")
             | counts =>
                 foldl (λ out row, write_line out
                   (lit "  " ++ align_right 3 (dec_z row.1) ++ lit ": " ++ dec_z row.2)) out counts
             end in
  let out := write_line out [] in
  let out := write_line out (lit "Top technologies (observed, is_implied=0):") in
  let out := match sum_top_technologies summary with
             | [] => write_line out (lit "  (none)")
             | counts =>
                 foldl (λ out row, write_line out
                   (lit "  " ++ align_right 4 (dec_z row.2) ++ lit "  " ++ row.1)) out counts
             end in
  let out := write_line out [] in
  write_line out (lit "Exposed secrets: " ++ dec_z (sum_secret_count summary)
    ++ lit " finding(s) across " ++ dec_z (sum_urls_with_secrets summary) ++ lit " URL(s)").

(** ** Lemmas: grouping and ordering *)

Section Groups.
Context {K : Type} `{EqDecision K}.

Definition group_total (l : list (K * Z)) : Z := foldr (λ row n, row.2 + n) 0 l.

#[export] Instance group_total_perm : Proper ((≡ₚ) ==> eq) group_total.
Proof. unfold group_total. intros l l' H. induction H; cbn in *; lia. Qed.

Lemma count_rows_cons {A} (p : A -> bool) a l :
  count_rows p (a :: l) = (if p a then 1 else 0) + count_rows p l.
Proof. unfold count_rows. cbn. destruct (p a); cbn; lia. Qed.

Lemma count_rows_nonneg {A} (p : A -> bool) l : 0 <= count_rows p l.
Proof. unfold count_rows. lia. Qed.

Lemma count_rows_pos {A} (p : A -> bool) l : 0 < count_rows p l <-> ∃ a, a ∈ l ∧ p a = true.
Proof.
  induction l as [|a l IH].
  - split; [done|intros (a & H & _); set_solver].
  - rewrite count_rows_cons. pose proof (count_rows_nonneg p l).
    setoid_rewrite elem_of_cons. destruct (p a) eqn:E; [split; [eauto|lia]|].
    rewrite Z.add_0_l, IH. split; [naive_solver|]. intros (x & [->|Hx] & Hp); [congruence|eauto].
Qed.

(** The occurrences of every key. *)
Definition occurrences (k : K) (keys : list K) : Z :=
  count_rows (λ k', bool_decide (k' = k)) keys.

Lemma occurrences_cons k k' keys :
  occurrences k (k' :: keys) = (if decide (k' = k) then 1 else 0) + occurrences k keys.
Proof. unfold occurrences. rewrite count_rows_cons. by repeat case_match; case_bool_decide. Qed.

Lemma occurrences_pos k keys : 0 < occurrences k keys <-> k ∈ keys.
Proof.
  unfold occurrences. rewrite count_rows_pos. split.
  - intros (a & H & Ha). by apply bool_decide_eq_true_1 in Ha as ->.
  - intros H. exists k. by rewrite bool_decide_eq_true_2.
Qed.

Lemma sum_over_dups k ks (f : K -> Z) :
  NoDup ks -> k ∈ ks ->
  foldr (λ k' n, (if decide (k = k') then 1 else 0) + f k' + n) 0 ks
  = 1 + foldr (λ k' n, f k' + n) 0 ks.
Proof.
  induction 1 as [|x ks Hx Hd IH]; [set_solver|]. intros [->|Hk]%elem_of_cons; cbn.
  - rewrite decide_True by done.
    enough (foldr (λ k' n, (if decide (x = k') then 1 else 0) + f k' + n) 0 ks
            = foldr (λ k' n, f k' + n) 0 ks) by lia.
    clear IH Hd. induction ks as [|y ks IH]; cbn; [done|].
    rewrite decide_False by set_solver. rewrite IH by set_solver. lia.
  - rewrite decide_False by set_solver. rewrite (IH Hk). lia.
Qed.

Lemma sum_zero ks (f : K -> Z) : (∀ k, k ∈ ks -> f k = 0) -> foldr (λ k n, f k + n) 0 ks = 0.
Proof.
  induction ks as [|k ks IH]; cbn; intros H; [done|].
  rewrite H, IH by set_solver. done.
Qed.

Lemma occurrences_total ks keys :
  NoDup ks -> (∀ k, k ∈ keys -> k ∈ ks) ->
  foldr (λ k n, occurrences k keys + n) 0 ks = Z.of_nat (length keys).
Proof.
  intros Hd. induction keys as [|k keys IH]; intros Hk.
  - by apply sum_zero.
  - transitivity (foldr (λ k' n, (if decide (k = k') then 1 else 0) + occurrences k' keys + n) 0 ks).
    { apply foldr_ext; [intros k' n; by rewrite occurrences_cons|done..]. }
    rewrite sum_over_dups, IH by set_solver. cbn [length]. lia.
Qed.

(** A group per key, with its number of rows. *)
Lemma elem_of_group_count keys k n :
  (k, n) ∈ group_count keys <-> n = occurrences k keys ∧ 0 < n.
Proof.
  unfold group_count. rewrite list_elem_of_fmap. split.
  - intros (k' & [= -> ->] & H). rewrite elem_of_remove_dups in H. split; [done|].
    by apply occurrences_pos.
  - intros [-> H%occurrences_pos]. exists k. split; [done|]. by rewrite elem_of_remove_dups.
Qed.

Lemma group_count_total keys : group_total (group_count keys) = Z.of_nat (length keys).
Proof.
  rewrite <- (occurrences_total (remove_dups keys) keys (NoDup_remove_dups keys)).
  - unfold group_total, group_count.
    induction (remove_dups keys); cbn; [done|]; unfold occurrences in *; congruence.
  - intros k. by rewrite elem_of_remove_dups.
Qed.

Lemma group_count_nodup (keys : list K) : NoDup (group_count keys).*1.
Proof.
  unfold group_count. replace (map _ _).*1 with (remove_dups keys) by
    (induction (remove_dups keys); cbn; congruence).
  apply NoDup_remove_dups.
Qed.

(** A total order of the keys orders the groups. *)
Context (key_leb : K -> K -> bool).
Context (key_total : ∀ a b, key_leb a b = false -> key_leb b a = true).
Context (key_trans : ∀ a b c, key_leb a b = true -> key_leb b c = true -> key_leb a c = true).

Definition counts_le (a b : K * Z) : Prop := Is_true (counts_leb key_leb a b).

Lemma counts_leb_iff a b :
  counts_le a b <-> b.2 < a.2 ∨ (b.2 = a.2 ∧ key_leb a.1 b.1 = true).
Proof.
  unfold counts_le, counts_leb.
  rewrite Is_true_true, orb_true_iff, andb_true_iff, Z.ltb_lt, Z.eqb_eq. done.
Qed.

#[local] Instance counts_le_total : Total counts_le.
Proof.
  intros a b. rewrite !counts_leb_iff.
  destruct (Z.lt_trichotomy a.2 b.2) as [H|[H|H]]; [right; by left| |left; by left].
  destruct (key_leb a.1 b.1) eqn:E; [left; by right|]. apply key_total in E. right. by right.
Qed.

#[local] Instance counts_le_trans : Transitive counts_le.
Proof.
  intros a b c. rewrite !counts_leb_iff. intros [?|[]] [?|[]]; [left; lia..|].
  right; split; [lia|eauto].
Qed.

Lemma order_counts_perm l : order_counts key_leb l ≡ₚ l.
Proof. apply merge_sort_Permutation. Qed.

Lemma order_counts_sorted l : StronglySorted counts_le (order_counts key_leb l).
Proof. apply (StronglySorted_merge_sort counts_le). Qed.

Lemma order_counts_take n l a : a ∈ take n (order_counts key_leb l) -> a ∈ l.
Proof.
  intros H. rewrite <- (order_counts_perm l), <- (take_drop n (order_counts key_leb l)).
  apply elem_of_app. by left.
Qed.

(** What a [LIMIT] cuts off has no larger count. *)
Lemma order_counts_cut n l a b :
  a ∈ take n (order_counts key_leb l) -> b ∈ l -> b ∉ take n (order_counts key_leb l) ->
  b.2 <= a.2.
Proof.
  intros Ha Hb Hn.
  assert (Hd : b ∈ drop n (order_counts key_leb l)).
  { rewrite <- (order_counts_perm l), <- (take_drop n (order_counts key_leb l)) in Hb.
    rewrite elem_of_app in Hb. tauto. }
  assert (counts_le a b) as H%counts_leb_iff.
  { pose proof (order_counts_sorted l) as Hs.
    rewrite <- (take_drop n (order_counts key_leb l)) in Hs.
    rewrite StronglySorted_app in Hs. by apply Hs. }
  destruct H; lia.
Qed.
End Groups.

(** *** Rows *)

Lemma is_run_iff run_id row : is_run run_id row = true <-> row_run_id row = run_id.
Proof. apply streqb_eq. Qed.

Lemma absent_run run_id l :
  run_id ∉ map row_run_id l ->
  List.filter (is_run run_id) l = [] ∧ existsb (is_run run_id) l = false.
Proof.
  induction l as [|row l IH]; [done|]. cbn. intros [Hr Hl]%not_elem_of_cons.
  destruct (is_run run_id row) eqn:E; [apply is_run_iff in E; congruence|]. by apply IH.
Qed.

(** A row updated keeps its id, so ids stay unique. *)
Section Updates.
Context (run_id : str) (f : RunRow -> RunRow).
Context (keeps_id : ∀ row, row_run_id (f row) = row_run_id row).

Lemma is_run_updated run_id' row : is_run run_id' (f row) = is_run run_id' row.
Proof. unfold is_run. by rewrite keeps_id. Qed.

Lemma update_where_ids l : map row_run_id (update_where run_id f l) = map row_run_id l.
Proof.
  unfold update_where. rewrite map_map. apply map_ext. intros row.
  destruct (is_run run_id row); [apply keeps_id|done].
Qed.

Lemma filter_update_where l :
  List.filter (is_run run_id) (update_where run_id f l)
  = map f (List.filter (is_run run_id) l).
Proof.
  induction l as [|row l IH]; cbn; [done|].
  destruct (is_run run_id row) eqn:E; cbn; rewrite ?is_run_updated, E; [|done].
  cbn. by rewrite <- IH.
Qed.

Lemma filter_update_other run_id' l :
  run_id' <> run_id ->
  List.filter (is_run run_id') (update_where run_id f l) = List.filter (is_run run_id') l.
Proof.
  intros Hn. induction l as [|row l IH]; cbn; [done|].
  destruct (is_run run_id row) eqn:E; cbn; rewrite ?is_run_updated; [|by rewrite <- IH].
  destruct (is_run run_id' row) eqn:E'; [|done].
  apply is_run_iff in E, E'. congruence.
Qed.
End Updates.

(** *** The queries *)

Section QueryLemmas.
Context {E : Type} (refuses : RunQuery -> option E) (datatype_mismatch : E).

Lemma asked_ok {A} q (a b : A) : asked refuses q a = Ok b <-> refuses q = None ∧ a = b.
Proof. unfold asked. destruct (refuses q); naive_solver. Qed.

Lemma with_context_ok {A} context (r : result A E) a :
  with_context context r = Ok a <-> r = Ok a.
Proof. unfold with_context. destruct r; naive_solver. Qed.

(** The rows of a run and the statuses they hold. *)
Definition run_statuses (run_id : str) (db : Database) : list Z :=
  map st_http_status (List.filter (λ u, in_run run_id (st_run_id u)) (status_rows db)).

Definition run_technologies (run_id : str) (db : Database) : list str :=
  map tech_name (List.filter is_observed (joined tech_url_status_id run_id db (technology_rows db))).

Definition run_secrets (run_id : str) (db : Database) : list Z :=
  joined id run_id db (secret_rows db).

Lemma scan_summary_ok `{RunOrder} options db s :
  query_scan_summary refuses datatype_mismatch options db = Ok s ->
  resolve_run refuses datatype_mismatch (opt_run_id options) db = Ok (sum_run s) ∧
  (let run_id := rs_run_id (sum_run s) in
   let top_n := if opt_top_technologies options =? 0 then 15 else opt_top_technologies options in
   sum_status_counts s = order_counts Z.leb (group_count (run_statuses run_id db)) ∧
   sum_top_technologies s = take (Z.to_nat (technology_limit top_n))
     (order_counts str_leb (group_count (run_technologies run_id db))) ∧
   sum_secret_count s = Z.of_nat (length (run_secrets run_id db)) ∧
   sum_urls_with_secrets s = Z.of_nat (length (remove_dups (run_secrets run_id db)))).
Proof.
  unfold query_scan_summary. intros (run & Hr & H1)%and_then_Ok.
  apply and_then_Ok in H1 as (counts & Hc & H1). apply and_then_Ok in H1 as (top & Ht & H1).
  apply and_then_Ok in H1 as (secrets & Hs & [= <-]).
  unfold query_status_counts, query_top_technologies, query_secret_stats in *. cbn zeta in Hs.
  apply with_context_ok, asked_ok in Hc as [_ <-].
  apply with_context_ok, asked_ok in Ht as [_ <-].
  apply with_context_ok, asked_ok in Hs as [_ <-]. done.
Qed.

Lemma length_remove_dups {A} `{EqDecision A} (l : list A) :
  (length (remove_dups l) <= length l)%nat.
Proof.
  apply submseteq_length, NoDup_submseteq; [apply NoDup_remove_dups|].
  intros x. by rewrite elem_of_remove_dups.
Qed.
End QueryLemmas.

(** ** Theorems *)

Definition unique_ids (db : Database) : Prop := NoDup (map row_run_id (runs db)).

Section Theorems.
Context {E : Type} (refuses : RunQuery -> option E) (datatype_mismatch : E).
Context `{!RunOrder, !RunOrderLaws}.

(** A summary counts what the tables hold for its run: every status with the number of its
    rows and no other, in strictly ordered groups that add up to the rows of the run; the
    observed technologies with the number of their rows, none left out that has more than one
    listed; the secrets, and the URLs that have any. *)
Theorem summary_counts_tables options db s :
  query_scan_summary refuses datatype_mismatch options db = Ok s ->
  let run_id := rs_run_id (sum_run s) in
  (∀ status n, (status, n) ∈ sum_status_counts s
     <-> n = occurrences status (run_statuses run_id db) ∧ 0 < n) ∧
  group_total (sum_status_counts s)
  = count_rows (λ u, in_run run_id (st_run_id u)) (status_rows db) ∧
  NoDup (sum_status_counts s).*1 ∧
  StronglySorted (counts_le Z.leb) (sum_status_counts s) ∧
  (∀ name n, (name, n) ∈ sum_top_technologies s
     -> n = occurrences name (run_technologies run_id db) ∧ 0 < n
        ∧ ∀ other, other ∈ run_technologies run_id db ->
            other ∉ (sum_top_technologies s).*1 ->
            occurrences other (run_technologies run_id db) <= n) ∧
  (sum_secret_count s = 0 <-> sum_urls_with_secrets s = 0) ∧
  sum_urls_with_secrets s <= sum_secret_count s.
Proof.
  intros (_ & Hc & Ht & Hs & Hu)%scan_summary_ok. cbn zeta.
  set (run_id := rs_run_id (sum_run s)) in *.
  set (n := Z.to_nat _) in Ht. clearbody n.
  rewrite Hc, Ht, Hs, Hu. split_and!.
  - intros status m. rewrite order_counts_perm. apply elem_of_group_count.
  - rewrite order_counts_perm, group_count_total. unfold run_statuses, count_rows.
    by rewrite length_map.
  - rewrite order_counts_perm. apply group_count_nodup.
  - apply order_counts_sorted; intros; lia.
  - intros name m Hm.
    assert (Hg : (name, m) ∈ group_count (run_technologies run_id db)).
    { by apply (order_counts_take str_leb n). }
    apply elem_of_group_count in Hg as Hg'. destruct Hg' as [-> Hp]. split_and!; [done..|].
    intros other Ho Hn.
    apply (order_counts_cut str_leb str_leb_total str_leb_trans n _ _
             (other, occurrences other (run_technologies run_id db)) Hm).
    + apply elem_of_group_count. split; [done|]. by apply occurrences_pos.
    + intros Hin. apply Hn. apply list_elem_of_fmap.
      by exists (other, occurrences other (run_technologies run_id db)).
  - destruct (run_secrets run_id db) as [|x l] eqn:El; [done|].
    assert (x ∈ remove_dups (x :: l)) as Hx by (rewrite elem_of_remove_dups; set_solver).
    destruct (remove_dups (x :: l)); [set_solver|]. cbn. lia.
  - pose proof (length_remove_dups (run_secrets run_id db)). lia.
Qed.

(** C39: The end of a scan that could store its counts, and the summary of that run read from the
    database it leaves: the summary has the end time and the duration of the scan, the four counts
    that the scan reported, and status counts that add up to the successful ones; the rows of
    the other runs are as they were. *)
Theorem finished_run_summarised run_id end_time_ms elapsed c db db' final options s :
  persist_run refuses run_id end_time_ms elapsed c db = (db', Ok final) ->
  query_scan_summary refuses datatype_mismatch options db' = Ok s ->
  opt_run_id options = Some run_id ->
  (let run := sum_run s in
   rs_run_id run = run_id ∧ rs_end_time_ms run = Some end_time_ms
   ∧ rs_elapsed_seconds run = Some elapsed
   ∧ rs_total_urls run = total_urls final ∧ rs_successful_urls run = final_successful final
   ∧ rs_failed_urls run = final_failed final ∧ rs_skipped_urls run = final_skipped final) ∧
  saturating_i32_count (group_total (sum_status_counts s)) = final_successful final ∧
  (∀ other, other <> run_id ->
     List.filter (is_run other) (runs db') = List.filter (is_run other) (runs db)).
Proof.
  intros Hp Hs Ho. unfold persist_run, persist_run_counts in Hp. cbn zeta in Hp.
  destruct (count_fact_rows refuses run_id db) as [facts|e] eqn:Hf; [|by inversion Hp].
  unfold update_run_stats, asked in Hp. destruct (refuses UpdateRun); cbn in Hp; [by inversion Hp|].
  injection Hp as <- <-. cbn.
  apply scan_summary_ok in Hs as (Hr & Hc & _). rewrite Ho in Hr. cbn in Hr.
  apply and_then_Ok in Hr as (found & Hq & Hr). apply with_context_ok in Hq.
  apply and_then_Ok in Hq as (rows & Hrows & [= <-]). apply asked_ok in Hrows as [_ <-].
  cbn in Hr. rewrite filter_update_where in Hr by done.
  destruct (List.filter (is_run run_id) (runs db)) as [|row rows] eqn:El; [by inversion Hr|].
  cbn in Hr. injection Hr as Hr.
  assert (row_run_id row = run_id) as Hrow.
  { apply is_run_iff. apply (filter_In (is_run run_id) row (runs db)). rewrite El. by left. }
  assert (rs_run_id (sum_run s) = run_id) as Hid by (by rewrite <- Hr).
  split; [rewrite <- Hr; by cbn|]. split.
  - rewrite Hc, Hid, order_counts_perm, group_count_total. unfold run_statuses. rewrite length_map.
    unfold count_fact_rows in Hf. apply and_then_Ok in Hf as (? & Hs1 & Hf).
    apply asked_ok in Hs1 as [_ <-]. apply and_then_Ok in Hf as (? & _ & [= <-]). done.
  - intros other Hn. by apply filter_update_other.
Qed.

(** The history lists exactly the completed runs, the latest first, and a limit keeps the
    first ones; without a run id the summary is of a completed run that no completed run
    started after. *)
Theorem history_latest_first db l :
  query_run_history refuses datatype_mismatch None db = Ok l ->
  l ≡ₚ map run_summary_from_row (List.filter is_completed (runs db)) ∧
  StronglySorted (λ a b, rs_start_time_ms b <= rs_start_time_ms a) l ∧
  (∀ n, 0 <= n <= i64_max ->
     query_run_history refuses datatype_mismatch (Some n) db = Ok (take (Z.to_nat n) l)) ∧
  resolve_run refuses datatype_mismatch None db
  = match l with run :: _ => Ok run | [] => Err (Message no_completed_runs) end.
Proof.
  intros (rows & Hr & H1)%and_then_Ok. apply and_then_Ok in H1 as (rows' & [= <-] & [= <-]).
  pose proof Hr as [_ Hrows]%asked_ok.
  assert (Hlim : ∀ n, 0 <= n <= i64_max -> query_run_history refuses datatype_mismatch (Some n) db
                   = Ok (take (Z.to_nat n) (map run_summary_from_row rows))).
  { intros n Hn. unfold query_run_history. rewrite Hr. cbn [and_then].
    rewrite (proj2 (Z.leb_le _ _)) by lia. cbn [and_then]. f_equal. by rewrite firstn_map. }
  split_and!; [| |done|].
  - subst rows. by rewrite order_runs_perm.
  - pose proof (order_runs_sorted (List.filter is_completed (runs db))) as Hs.
    rewrite Hrows in Hs. clear Hr Hrows Hlim.
    induction Hs as [|row rows Hs IH Ha]; cbn; constructor; [done|].
    by apply Forall_map.
  - unfold resolve_run. rewrite Hlim by done. cbn [and_then with_context].
    by destruct rows as [|row [|]].
Qed.

(** A run recorded at the start of a scan has its metadata and no end: it can be summarised by
    its id and is not in the history until it ends. *)
Theorem started_run_in_progress meta db db' :
  unique_ids db -> meta_run_id meta ∉ map row_run_id (runs db) ->
  insert_run_metadata refuses meta db = (db', Ok tt) ->
  unique_ids db' ∧
  List.filter (is_run (meta_run_id meta)) (runs db') = [new_run_row meta] ∧
  List.filter is_completed (runs db') = List.filter is_completed (runs db) ∧
  (refuses SelectRun = None ->
     query_run_by_id refuses (meta_run_id meta) db'
     = Ok (Some (MkRunSummary (meta_run_id meta) (Some (meta_version meta))
                   (meta_start_time_ms meta) None 0 0 0 0 None))).
Proof.
  intros Hd Hn Hi. unfold insert_run_metadata, asked in Hi.
  destruct (refuses InsertRun); [by inversion Hi|].
  destruct (absent_run _ _ Hn) as [Hnone Hex].
  rewrite Hex in Hi. injection Hi as <-. unfold unique_ids. cbn.
  assert (Hrun : List.filter (is_run (meta_run_id meta)) (runs db ++ [new_run_row meta])
                 = [new_run_row meta]).
  { rewrite List.filter_app, Hnone. cbn. unfold is_run. cbn. by rewrite streqb_refl. }
  split_and!; [|done| |].
  - rewrite map_app. apply list.NoDup_app. split_and!; [done| |apply NoDup_singleton].
    cbn. set_solver.
  - rewrite List.filter_app. cbn. by rewrite app_nil_r.
  - intros Hq. unfold query_run_by_id, asked. rewrite Hq. cbn. by rewrite Hrun.
Qed.

(** The id is the start time in milliseconds: a scan that starts in the millisecond of another
    one takes over its row, and is listed as completed with the other's end and counts. *)
Theorem colliding_run_takes_over meta db db' row :
  List.filter (is_run (meta_run_id meta)) (runs db) = [row] ->
  insert_run_metadata refuses meta db = (db', Ok tt) ->
  List.filter (is_run (meta_run_id meta)) (runs db') = [conflict_run_row meta row] ∧
  is_completed (conflict_run_row meta row) = is_completed row.
Proof.
  intros Hrow Hi. unfold insert_run_metadata, asked in Hi.
  destruct (refuses InsertRun); [by inversion Hi|].
  assert (existsb (is_run (meta_run_id meta)) (runs db) = true) as Hex.
  { apply existsb_exists. exists row. apply filter_In. rewrite Hrow. by left. }
  rewrite Hex in Hi. injection Hi as <-. cbn. by rewrite filter_update_where, Hrow by done.
Qed.
End Theorems.

(** ** A scan of three URLs *)

Module DemoRuns.
#[export] Instance order : RunOrder := λ l, merge_sort later l.
#[export] Instance order_laws : RunOrderLaws.
Proof.
  assert (Total later) by (intros a b; unfold later; lia).
  assert (Transitive later) by (intros a b c; unfold later; lia).
  split; intros l.
  - apply merge_sort_Permutation.
  - by apply StronglySorted_merge_sort.
Qed.

#[export] Instance tenths : ShowTenths := { show_tenths := λ _, lit "2.5" }.

Definition never (q : RunQuery) : option unit := None.

Definition meta : RunMetadata :=
  MkRunMetadata (lit "run_7") 7 (lit "0.1.4") None None None.
Definition empty : Database := MkDatabase [] [] [] [] [] [].
Definition started : Database := (insert_run_metadata never meta empty).1.
Definition this : option str := Some (lit "run_7").

(** Two pages, one failure, and a page of another run. *)
Definition scanned : Database :=
  MkDatabase (runs started)
    [MkStatusRow 1 this 200; MkStatusRow 2 this 404; MkStatusRow 3 this 200;
     MkStatusRow 4 (Some (lit "run_6")) 500]
    [this] [(this, lit "Satellite insert error"); (this, lit "DNS")]
    [MkTechnologyRow 1 (lit "nginx") None; MkTechnologyRow 2 (lit "PHP") (Some 0);
     MkTechnologyRow 3 (lit "nginx") (Some 0); MkTechnologyRow 3 (lit "MySQL") (Some 1);
     MkTechnologyRow 4 (lit "IIS") (Some 0)]
    [1; 1; 4].

Definition elapsed : spec_float := S754_zero false.
Definition counters : Counters := MkCounters 5 3 1 1.
Definition ended : Database := (persist_run never (lit "run_7") 9 elapsed counters scanned).1.
Definition by_id : SummaryOptions := MkSummaryOptions this 0.

Definition run_7 : RunSummary :=
  MkRunSummary (lit "run_7") (Some (lit "0.1.4")) 7 (Some 9) 5 3 1 1 (Some elapsed).
Definition summary : ScanSummary :=
  MkScanSummary run_7 [(200, 2); (404, 1)] [(lit "nginx", 2); (lit "PHP", 1)] 2 1.

Example summarised :
  query_scan_summary never tt by_id ended = Ok summary ∧
  query_scan_summary never tt default_summary_options ended = Ok summary ∧
  query_scan_summary never tt default_summary_options scanned
  = Err (Message no_completed_runs) ∧
  count_run_partial_failures never (lit "run_7") ended = Ok (MkPartialCounts 2 1).
Proof. by vm_compute. Qed.

Example printed :
  format_scan_summary summary
  = concat (map (λ line, line ++ [10])
      [lit "Run: run_7"; lit "Version: 0.1.4"; lit "Elapsed: 2.5s";
       lit "URLs: 5 total " ++ [8212] ++ lit " 3 succeeded, 1 failed, 1 skipped"; [];
       lit "HTTP status:"; lit "  200: 2"; lit "  404: 1"; [];
       lit "Top technologies (observed, is_implied=0):"; lit "     2  nginx"; lit "     1  PHP"; [];
       lit "Exposed secrets: 2 finding(s) across 1 URL(s)"]).
Proof. by vm_compute. Qed.

Lemma finished_run_summarised_witness :
  saturating_i32_count (group_total (sum_status_counts summary)) = 3.
Proof.
  apply (finished_run_summarised never tt (lit "run_7") 9 elapsed counters scanned ended
           (MkFinal 5 3 1 1) by_id summary); vm_compute; reflexivity.
Defined.

Lemma summary_counts_tables_witness : group_total (sum_status_counts summary) = 3.
Proof.
  destruct (summary_counts_tables never tt by_id ended summary) as (_ & H & _);
    [vm_compute; reflexivity|].
  etransitivity; [exact H|]. vm_compute. reflexivity.
Defined.

Lemma history_latest_first_witness :
  resolve_run never tt None ended = Ok run_7.
Proof.
  destruct (history_latest_first never tt ended [run_7]) as (_ & _ & _ & H);
    [vm_compute; reflexivity|exact H].
Defined.

Lemma started_run_in_progress_witness : unique_ids started.
Proof.
  apply (started_run_in_progress never meta empty started); [constructor|set_solver|].
  vm_compute. reflexivity.
Defined.

Lemma colliding_run_takes_over_witness :
  is_completed (conflict_run_row meta (stats_run_row 9 (MkRunStats [] 5 3 1 1 elapsed)
    (new_run_row meta))) = true.
Proof.
  etransitivity; [eapply (colliding_run_takes_over never meta ended)|];
    vm_compute; reflexivity.
Defined.
End DemoRuns.
