(* ===== verification/StrIndex.v ===== *)
(** * Byte offsets in strings

    [&s[a..b]], [is_char_boundary], [find] and [rfind] count bytes of UTF-8; here a string is
    its characters.  A slice at an offset inside a character, or past the end, panics: [None].
    Used by [Secrets]. *)

From S2P Require Import Prelude Sanitize Dns.

Definition width (c : Z) : nat := length (encode_char c).
(** [str::len]. *)
Definition blen (s : str) : nat := length (encode s).

(** [str::split_at]: the [n] bytes before and the rest. *)
Fixpoint split_at (n : nat) (s : str) : option (str * str) :=
  match n, s with
  | O, _ => Some ([], s)
  | _, [] => None
  | _, c :: r =>
      if (n <? width c)%nat then None
      else '(p, q) ← split_at (n - width c) r; Some (c :: p, q)
  end.

Definition char_boundary (s : str) (i : nat) : bool :=
  match split_at i s with Some _ => true | None => false end.

Definition slice_to (s : str) (j : nat) : option str := fst <$> split_at j s.
Definition slice_from (s : str) (i : nat) : option str := snd <$> split_at i s.
Definition slice (s : str) (i j : nat) : option str :=
  if (i <=? j)%nat then slice_to s j ≫= λ p, slice_from p i else None.

(** The offset of the first and of the last occurrence. *)
Fixpoint find (pat s : str) : option nat :=
  if starts_with pat s then Some O
  else match s with [] => None | c :: r => Nat.add (width c) <$> find pat r end.

Fixpoint rfind (pat s : str) : option nat :=
  match s with
  | [] => if starts_with pat [] then Some O else None
  | c :: r =>
      match rfind pat r with
      | Some i => Some (width c + i)%nat
      | None => if starts_with pat s then Some O else None
      end
  end.

(** [str::split_once] with a string: the slices at an occurrence and after it. *)
Fixpoint split_once_str (pat s : str) : option (str * str) :=
  match strip_prefix pat s with
  | Some rest => Some ([], rest)
  | None =>
      match s with
      | [] => None
      | c :: r => '(a, b) ← split_once_str pat r; Some (c :: a, b)
      end
  end.

(** Stepping an offset down, or up at most [fuel] times, to a character boundary. *)
Fixpoint floor_char (s : str) (i : nat) : nat :=
  match i with
  | O => O
  | S k => if char_boundary s i then i else floor_char s k
  end.

Fixpoint ceil_char (fuel : nat) (s : str) (i : nat) : option nat :=
  if char_boundary s i then Some i
  else match fuel with O => None | S fuel => ceil_char fuel s (S i) end.

(** ** Lemmas *)

Lemma width_pos c : (0 < width c)%nat.
Proof. apply encode_char_pos. Qed.

Lemma blen_nil : blen [] = O.
Proof. done. Qed.

Lemma blen_cons c s : blen (c :: s) = (width c + blen s)%nat.
Proof. unfold blen. by rewrite encode_cons, length_app. Qed.

Lemma blen_app a b : blen (a ++ b) = (blen a + blen b)%nat.
Proof. unfold blen. by rewrite encode_app, length_app. Qed.

Lemma blen_zero s : blen s = O -> s = [].
Proof. destruct s as [|c s]; [done|]. rewrite blen_cons. pose proof (width_pos c). lia. Qed.

Lemma split_at_app p q : split_at (blen p) (p ++ q) = Some (p, q).
Proof.
  induction p as [|c p IH]; [by destruct q|]. rewrite blen_cons. cbn [app split_at].
  pose proof (width_pos c). destruct (width c + blen p)%nat eqn:E; [lia|]. rewrite <- E.
  destruct (Nat.ltb_spec (width c + blen p) (width c)); [lia|].
  replace (width c + blen p - width c)%nat with (blen p) by lia. by rewrite IH.
Qed.

Lemma split_at_Some n s p q : split_at n s = Some (p, q) <-> s = p ++ q ∧ n = blen p.
Proof.
  split; [|intros [-> ->]; apply split_at_app].
  revert n p q. induction s as [|c s IH]; intros [|n] p q; cbn [split_at].
  - by intros [= <- <-].
  - done.
  - by intros [= <- <-].
  - pose proof (width_pos c). destruct (Nat.ltb_spec (S n) (width c)); [done|].
    destruct (split_at (S n - width c) s) as [[p' q']|] eqn:E; [|done].
    intros [= <- <-]. destruct (IH _ _ _ E) as [-> Hn]. split; [done|]. rewrite blen_cons. lia.
Qed.

Lemma boundary_iff s i : char_boundary s i = true <-> ∃ p q, s = p ++ q ∧ i = blen p.
Proof.
  unfold char_boundary. destruct (split_at i s) as [[p q]|] eqn:E.
  - apply split_at_Some in E. split; [intros _; by exists p, q|done].
  - split; [done|]. intros (p & q & -> & ->). by rewrite split_at_app in E.
Qed.

Lemma boundary_prefix p q : char_boundary (p ++ q) (blen p) = true.
Proof. apply boundary_iff. eauto. Qed.

Lemma slice_app a m b : slice (a ++ m ++ b) (blen a) (blen a + blen m) = Some m.
Proof.
  unfold slice, slice_to, slice_from. destruct (Nat.leb_spec (blen a) (blen a + blen m)); [|lia].
  rewrite app_assoc, <- blen_app, split_at_app. cbn. by rewrite split_at_app.
Qed.

Lemma slice_Some s i j m :
  slice s i j = Some m <-> ∃ a b, s = a ++ m ++ b ∧ i = blen a ∧ j = (blen a + blen m)%nat.
Proof.
  split; [|intros (a & b & -> & -> & ->); apply slice_app].
  unfold slice, slice_to, slice_from. destruct (i <=? j)%nat; [|done].
  destruct (split_at j s) as [[p q]|] eqn:E1; [|done]. cbn.
  destruct (split_at i p) as [[a m']|] eqn:E2; [|done]. cbn. intros [= ->].
  apply split_at_Some in E1 as [-> ->], E2 as [-> ->]. exists a, q.
  by rewrite blen_app, <- app_assoc.
Qed.

(** Two prefixes of a string, the shorter one first. *)
Lemma prefixes_ordered (p q p' q' : str) : p ++ q = p' ++ q' -> (blen p <= blen p')%nat ->
  ∃ m, p' = p ++ m ∧ q = m ++ q'.
Proof.
  intros E Hl. apply app_eq_inv in E as [(m & -> & ->)|(m & -> & ->)]; [|by exists m].
  rewrite blen_app in Hl. assert (m = []) as -> by (apply blen_zero; lia).
  exists []. by rewrite !app_nil_r.
Qed.

Lemma slice_boundaries s i j : (i <= j)%nat -> char_boundary s i = true ->
  char_boundary s j = true -> ∃ m, slice s i j = Some m.
Proof.
  intros Hij (p & q & -> & ->)%boundary_iff (p' & q' & E & ->)%boundary_iff.
  destruct (prefixes_ordered _ _ _ _ E Hij) as (m & -> & ->). exists m.
  rewrite blen_app. apply slice_app.
Qed.

Lemma boundary_le s i : char_boundary s i = true -> (i <= blen s)%nat.
Proof. intros (p & q & -> & ->)%boundary_iff. rewrite blen_app. lia. Qed.

Lemma boundary_end s : char_boundary s (blen s) = true.
Proof. apply boundary_iff. exists s, []. by rewrite app_nil_r. Qed.

Lemma boundary_zero s : char_boundary s 0 = true.
Proof. by destruct s. Qed.

Lemma floor_char_spec s i :
  char_boundary s (floor_char s i) = true ∧ (floor_char s i <= i)%nat
  ∧ ∀ k, (k <= i)%nat -> char_boundary s k = true -> (k <= floor_char s i)%nat.
Proof.
  induction i as [|i IH]; cbn [floor_char].
  { split_and!; [apply boundary_zero|lia|lia]. }
  destruct (char_boundary s (S i)) eqn:E; [split_and!; [done|lia|lia]|].
  destruct IH as (H1 & H2 & H3). split_and!; [done|lia|]. intros k Hk Hb.
  destruct (Nat.eq_dec k (S i)) as [->|]; [congruence|]. apply H3; [lia|done].
Qed.

Lemma ceil_char_spec s i k fuel : char_boundary s k = true -> (i <= k)%nat -> (k <= i + fuel)%nat ->
  ∃ j, ceil_char fuel s i = Some j ∧ char_boundary s j = true ∧ (i <= j <= k)%nat.
Proof.
  intros Hk. revert i. induction fuel as [|fuel IH]; intros i Hi Hf; cbn [ceil_char];
    destruct (char_boundary s i) eqn:E; try by exists i.
  - assert (i = k) by lia. congruence.
  - assert (i <> k) by congruence. destruct (IH (S i)) as (j & Hj & Hb & Hl); [lia|lia|].
    exists j. split_and!; [done|done|lia|lia].
Qed.

Lemma find_Some pat s i : find pat s = Some i -> ∃ a b, s = a ++ pat ++ b ∧ i = blen a.
Proof.
  revert i. induction s as [|c s IH]; intros i; cbn [find].
  - destruct (starts_with pat []) eqn:E; [|done]. intros [= <-].
    apply starts_with_iff in E as [r ->]. by exists [], r.
  - destruct (starts_with pat (c :: s)) eqn:E.
    + intros [= <-]. apply starts_with_iff in E as [r ->]. by exists [], r.
    + destruct (find pat s) as [k|]; [|done]. intros [= <-].
      destruct (IH k eq_refl) as (a & b & -> & ->). exists (c :: a), b. by rewrite blen_cons.
Qed.

Lemma find_None pat s : find pat s = None <-> contains pat s = false.
Proof.
  induction s as [|c s IH]; cbn [find contains].
  - by destruct (starts_with pat []).
  - destruct (starts_with pat (c :: s)); [done|]. rewrite <- IH. by destruct (find pat s).
Qed.

(** The first occurrence of a character, and the last. *)
Lemma find_char_Some c s i : find [c] s = Some i ->
  ∃ a b, s = a ++ c :: b ∧ i = blen a ∧ c ∉ a.
Proof.
  revert i. induction s as [|x s IH]; intros i; cbn [find]; [done|].
  unfold starts_with. cbn [strip_prefix]. destruct (Z.eqb_spec c x) as [->|Hn].
  - intros [= <-]. exists [], s. split_and!; [done|done|apply not_elem_of_nil].
  - destruct (find [c] s) as [k|]; [|done]. intros [= <-].
    destruct (IH k eq_refl) as (a & b & -> & -> & Ha). exists (x :: a), b.
    rewrite blen_cons. split_and!; [done|done|]. by apply not_elem_of_cons.
Qed.

Lemma find_char_None c s : find [c] s = None -> c ∉ s.
Proof.
  rewrite find_None. intros H Hc. apply list_elem_of_split in Hc as (a & b & ->).
  assert (contains [c] (a ++ c :: b) = true) by (apply contains_iff; by exists a, b). congruence.
Qed.

Lemma rfind_char_None c s : rfind [c] s = None -> c ∉ s.
Proof.
  induction s as [|y s IH]; [intros _; apply not_elem_of_nil|].
  cbn [rfind]. destruct (rfind [c] s); [done|]. unfold starts_with. cbn [strip_prefix].
  destruct (Z.eqb_spec c y) as [->|Hn]; [done|]. intros _. apply not_elem_of_cons. auto.
Qed.

Lemma rfind_char_Some c s i : rfind [c] s = Some i ->
  ∃ a b, s = a ++ c :: b ∧ i = blen a ∧ c ∉ b.
Proof.
  revert i. induction s as [|x s IH]; intros i; cbn [rfind]; [done|].
  destruct (rfind [c] s) as [k|] eqn:E.
  - intros [= <-]. destruct (IH k eq_refl) as (a & b & -> & -> & Hb). exists (x :: a), b.
    by rewrite blen_cons.
  - apply rfind_char_None in E.
    unfold starts_with. cbn [strip_prefix]. destruct (Z.eqb_spec c x) as [->|Hn]; [|done].
    intros [= <-]. by exists [], s.
Qed.

Lemma width_le c : (width c <= 4)%nat.
Proof. unfold width, encode_char. repeat case_match; cbn; lia. Qed.

(** The boundary below an offset is less than a character away, and so is the one above. *)
Lemma floor_char_near s i : (i <= blen s)%nat -> (i < floor_char s i + 4)%nat.
Proof.
  intros Hi. destruct (floor_char_spec s i) as (Hb & Hl & Hmax).
  apply boundary_iff in Hb as (p & q & E & Hp). rewrite Hp in *. destruct q as [|c q].
  { rewrite app_nil_r in E. subst. lia. }
  pose proof (width_pos c). pose proof (width_le c).
  assert (Hc : char_boundary s (blen p + width c) = true).
  { apply boundary_iff. exists (p ++ [c]), q. rewrite <- app_assoc, blen_app, blen_cons, blen_nil.
    split; [done|lia]. }
  destruct (Nat.le_gt_cases (blen p + width c) i) as [Hle|]; [|lia].
  specialize (Hmax _ Hle Hc). lia.
Qed.

Lemma ceil_char_near s i : (i <= blen s)%nat ->
  ∃ j, ceil_char (blen s - i) s i = Some j ∧ char_boundary s j = true ∧ (i <= j < i + 4)%nat.
Proof.
  intros Hi. destruct (ceil_char_spec s i (blen s) (blen s - i)) as (j & Hj & Hb & Hl);
    [apply boundary_end|lia|lia|]. exists j. split_and!; [done|done|lia|].
  pose proof Hb as (p & q & -> & ->)%boundary_iff.
  induction p as [|c p _] using rev_ind; [cbn; lia|].
  pose proof (width_pos c). pose proof (width_le c).
  assert (Hw : blen (p ++ [c]) = (blen p + width c)%nat) by (rewrite blen_app, blen_cons, blen_nil; lia).
  destruct (Nat.le_gt_cases i (blen p)) as [Hle|]; [|lia].
  destruct (ceil_char_spec ((p ++ [c]) ++ q) i (blen p) (blen ((p ++ [c]) ++ q) - i))
    as (j' & Hj' & _ & Hl'); [rewrite <- app_assoc; apply boundary_prefix|done|rewrite !blen_app in *; lia|].
  rewrite Hj in Hj'. injection Hj' as <-. lia.
Qed.

(** A prefix cut at a boundary. *)
Lemma boundary_cut (a b : str) i : char_boundary (a ++ b) i = true -> (i <= blen a)%nat ->
  ∃ x y, a = x ++ y ∧ i = blen x.
Proof.
  intros (p & q & E & ->)%boundary_iff Hl.
  destruct (prefixes_ordered _ _ _ _ (eq_sym E) Hl) as (m & -> & _). eauto.
Qed.

Lemma boundary_cut_r (a b : str) i : char_boundary (a ++ b) i = true -> (blen a <= i)%nat ->
  ∃ x y, b = x ++ y ∧ i = (blen a + blen x)%nat.
Proof.
  intros (p & q & E & ->)%boundary_iff Hl.
  destruct (prefixes_ordered _ _ _ _ E Hl) as (m & -> & ->). exists m, q. by rewrite blen_app.
Qed.

Lemma slice_mid a m b : slice (a ++ m ++ b) (blen a) (blen (a ++ m)) = Some m.
Proof. rewrite blen_app. apply slice_app. Qed.

Lemma rfind_Some pat s i : rfind pat s = Some i -> ∃ a b, s = a ++ pat ++ b ∧ i = blen a.
Proof.
  revert i. induction s as [|c s IH]; intros i; cbn [rfind].
  - destruct (starts_with pat []) eqn:E; [|done]. intros [= <-].
    apply starts_with_iff in E as [r ->]. by exists [], r.
  - destruct (rfind pat s) as [k|].
    + intros [= <-]. destruct (IH k eq_refl) as (a & b & -> & ->). exists (c :: a), b.
      by rewrite blen_cons.
    + destruct (starts_with pat (c :: s)) eqn:E; [|done]. intros [= <-].
      apply starts_with_iff in E as [r ->]. by exists [], r.
Qed.

Lemma width_lower c : width (ascii_lower c) = width c.
Proof.
  unfold ascii_lower, is_ascii_upper, width, encode_char.
  destruct ((65 <=? c) && (c <=? 90)) eqn:E; [|done].
  apply andb_true_iff in E as [H1%Z.leb_le H2%Z.leb_le].
  destruct (Z.ltb_spec (c + 32) 128); [|lia]. by destruct (Z.ltb_spec c 128); [|lia].
Qed.

Lemma blen_lower s : blen (to_ascii_lowercase s) = blen s.
Proof.
  unfold to_ascii_lowercase. induction s as [|c s IH]; [done|]. cbn [map].
  by rewrite !blen_cons, width_lower, IH.
Qed.

Lemma slice_to_boundary s i : slice_to s i = None <-> char_boundary s i = false.
Proof. unfold slice_to, char_boundary. by destruct (split_at i s) as [[]|]. Qed.

Lemma slice_to_prefix p q : slice_to (p ++ q) (blen p) = Some p.
Proof. unfold slice_to. by rewrite split_at_app. Qed.

Lemma slice_from_boundary s i : slice_from s i = None <-> char_boundary s i = false.
Proof. unfold slice_from, char_boundary. by destruct (split_at i s) as [[]|]. Qed.

Lemma slice_from_prefix p q : slice_from (p ++ q) (blen p) = Some q.
Proof. unfold slice_from. by rewrite split_at_app. Qed.
