(* ===== verification/Domain.v ===== *)
(** * Registrable domains ([src/src/domain/mod.rs])

    Also the error of the SSRF check, whose text names the address it refuses.
    The public suffix list (crate [psl]) is a parameter. *)

From S2P Require Import Prelude Net Security Errors Dns.

Class Psl := {
  domain_str : str -> option str;
  suffix_str : str -> option str;
}.

Section Domain.
Context `{U : UrlLib} `{T : IpText} `{P : Psl}.

(** The error of [url::ParseError]; its text is in the list of contexts of the caller. *)
Definition url_parse_error : Cause := CUrlParse (lit "invalid URL").

(** The error of [validate_url_safe]. *)
Definition unsafe_url_error (url_str : str) (e : UnsafeUrl) : AnyhowError :=
  let message m := MkAnyhow [] (CMessage m) [] in
  match e with
  | UrlParseFailed => MkAnyhow [lit "Failed to parse URL: " ++ url_str] url_parse_error []
  | UnsafeScheme scheme =>
      message (lit "Unsafe URL scheme '" ++ scheme
               ++ lit "' (only http:// and https:// allowed): " ++ url_str)
  | LocalhostDomain domain =>
      message (lit "Unsafe URL: localhost domain '" ++ domain ++ lit "' is not allowed: "
               ++ url_str)
  | PrivateIpv4 ip =>
      message (lit "Unsafe URL: private IPv4 address '" ++ ip_to_string (V4 ip)
               ++ lit "' is not allowed: " ++ url_str)
  | PrivateIpv6 ip =>
      message (lit "Unsafe URL: private IPv6 address '" ++ ip_to_string (V6 ip)
               ++ lit "' is not allowed: " ++ url_str)
  | NoHostComponent => message (lit "URL has no host component: " ++ url_str)
  end.

Definition is_ip_host (host : str) (parsed : Url) : bool :=
  bool_decide (is_Some (ip_parse host))
  || match url_host parsed with
     | Some (Ipv4 _) | Some (Ipv6 _) => true
     | _ => false
     end.

Definition extract_domain (url : str) : result str AnyhowError :=
  match url_parse url with
  | None => Err (MkAnyhow [lit "Failed to parse URL: " ++ url] url_parse_error [])
  | Some parsed =>
      match url_host_str parsed with
      | None => Err (MkAnyhow [] (CMessage (lit "URL '" ++ url ++ lit "' has no host component")) [])
      | Some host =>
          if is_ip_host host parsed then Ok host
          else
            match domain_str host with
            | Some domain => Ok domain
            | None => Err (MkAnyhow [] (CMessage (lit "Failed to extract domain from URL: " ++ url)) [])
            end
      end
  end.

Definition normalize_domain (domain : str) : str :=
  let lower := to_ascii_lowercase (trim domain) in
  match strip_prefix (lit "www.") lower with Some rest => rest | None => lower end.

Definition root_domain (fqdn : str) : option str :=
  match domain_str fqdn with
  | Some d => Some d
  | None => if bool_decide (is_Some (suffix_str fqdn)) then Some fqdn else None
  end.
End Domain.
