(* ===== verification/Failure.v ===== *)
(** * Recording a failure ([src/src/storage/failure/record.rs], [run/task.rs])

    From the error of an attempt and the context attached to it to the row of
    [url_failures]: the text built from the error chain, the bounds on what is stored, what
    attaching a context does to the classification of an error, and the rows of URLs that
    timed out, were cancelled or were abandoned at the drain deadline ([run/mod.rs]). *)

From Stdlib Require Import SpecFloat.
From S2P Require Import Prelude Sanitize Net Errors Retry ExportRow Dns Sql StorageRecord.
From S2P Require Import Domain.

Definition MAX_HEADER_VALUE_LENGTH : nat := 1000.

(** The bytes kept of a value read as text; they are well-formed. *)
Definition truncate_header_value (value : str) : str :=
  if (length (encode value) <=? MAX_HEADER_VALUE_LENGTH)%nat then value
  else from_utf8_lossy (truncate_utf8_with_suffix (encode value) MAX_HEADER_VALUE_LENGTH
                          (encode (lit "... (truncated)"))).

(** The first [reqwest::Error] of the chain with its [source], the next cause. *)
Fixpoint reqwest_message (chain : list Cause) : option str :=
  match chain with
  | [] => None
  | CReqwest e :: rest =>
      Some (match rest with
            | source :: _ => r_message e ++ lit ": " ++ cause_message source
            | [] => r_message e
            end)
  | _ :: rest => reqwest_message rest
  end.

(** The message of [record_url_failure] before it is sanitised and cut. *)
Definition failure_message (error : AnyhowError) : str :=
  let texts := map cause_message (error_chain error) in
  match reqwest_message (error_chain error) with
  | Some reqwest_msg =>
      if (3 <? length texts)%nat then
        let chain_summary := take 3 (List.filter (λ s, negb (streqb s reqwest_msg)) texts) in
        if negb (nonempty chain_summary) then reqwest_msg
        else reqwest_msg ++ lit " (error chain: " ++ join (lit " -> ") chain_summary
             ++ lit " -> ...)"
      else reqwest_msg
  | None =>
      match texts with
      | first :: ((_ :: _) as more) =>
          first ++ lit " (error chain: " ++ join (lit " -> ") more ++ lit ")"
      | _ => error_to_string error
      end
  end.

Record FailureRecordParams := MkFailureParams {
  fp_url : str;
  fp_error : AnyhowError;
  fp_context : FailureContext;
  fp_retry_count : Z;
  fp_elapsed_time : spec_float;
  fp_run_id : option str;
}.

Section Record.
Context `{U : UrlLib} `{T : IpText} `{P : Psl} `{Lo : Lowercase}.

(** The record built from the parameters at time [now]. *)
Definition failure_record (params : FailureRecordParams) (now : Z) : UrlFailureRecord :=
  let extracted_context := extract_failure_context (fp_error params) in
  let final_url :=
    match fc_final_url (fp_context params) with
    | Some u => Some u
    | None => fc_final_url extracted_context
    end in
  let redirect_chain :=
    if negb (nonempty (fc_redirect_chain (fp_context params)))
    then fc_redirect_chain extracted_context else fc_redirect_chain (fp_context params) in
  let domain :=
    match extract_domain (fp_url params) with Ok d => d | Err _ => lit "unknown" end in
  let final_domain := u ← final_url; result_ok (extract_domain u) in
  let error_type := extract_error_type (fp_error params) in
  let error_message := stored_message (failure_message (fp_error params)) in
  let http_status := extract_http_status (fp_error params) in
  let response_headers :=
    if negb (nonempty (fc_response_headers (fp_context params)))
    then fc_response_headers extracted_context else fc_response_headers (fp_context params) in
  let response_headers :=
    map (λ '(name, value), (name, truncate_header_value value)) response_headers in
  MkFailure (fp_url params) final_url domain final_domain error_type error_message http_status
    (fp_retry_count params) (Some (fp_elapsed_time params)) now (fp_run_id params)
    redirect_chain response_headers.

Context `{Q : Sqlx W Tx}.

(** A write that fails is logged and dropped. *)
Definition record_url_failure (params : FailureRecordParams) (now : Z) (w : W) : W :=
  (insert_url_failure (failure_record params now) w).1.

(** [handle_failure] of task.rs after the counter and the callback. *)
Definition failure_params (url : str) (error : AnyhowError) (retry_count : Z)
    (elapsed : spec_float) (run_id : option str) : FailureRecordParams :=
  MkFailureParams url error (extract_failure_context error) retry_count elapsed run_id.
Definition handle_failure (url : str) (error : AnyhowError) (retry_count : Z)
    (elapsed : spec_float) (run_id : option str) (now : Z) (w : W) : W :=
  record_url_failure (failure_params url error retry_count elapsed run_id) now w.

(** [handle_timeout]: the retries made before the timeout are not known. *)
Definition timeout_params (url : str) (elapsed : spec_float) (run_id : option str)
  : FailureRecordParams :=
  MkFailureParams url (timeout_error url) (MkFailureContext None [] [])
    (Z.of_nat RETRY_MAX_ATTEMPTS - 1) elapsed run_id.
Definition handle_timeout (url : str) (elapsed : spec_float) (run_id : option str) (now : Z)
    (w : W) : W :=
  record_url_failure (timeout_params url elapsed run_id) now w.

(** ** run/mod.rs: URLs abandoned by the scan *)

Definition domain_from_url_or_raw (url : str) : str :=
  match url_parse url with Some u => default url (url_host_str u) | None => url end.

Definition abort_record (run_id : option str) (url : str) (error_type : ErrorType)
    (error_message : str) (elapsed_time_seconds : option spec_float) (now : Z)
  : UrlFailureRecord :=
  MkFailure url None (domain_from_url_or_raw url) None error_type error_message None 0
    elapsed_time_seconds now run_id [] [].

Definition insert_abort_url_failure (run_id : option str) (url : str) (error_type : ErrorType)
    (error_message : str) (elapsed_time_seconds : option spec_float) (now : Z) (w : W)
  : W * bool :=
  match insert_url_failure
          (abort_record run_id url error_type error_message elapsed_time_seconds now) w with
  | (w, Ok _) => (w, true)
  | (w, Err _) => (w, false)
  end.

Definition drain_timeout_message (drain_timeout_secs : Z) : str :=
  lit "Aborted at scan drain timeout (" ++ dec drain_timeout_secs
  ++ lit "s expired); task did not finish in time".

(** Every row is inserted at its own time; the count is of the rows written. *)
Fixpoint record_drain_timeout_failures (run_id : str) (drain_timeout_secs : Z)
    (abandoned : list (str * Z)) (w : W) : W * Z :=
  match abandoned with
  | [] => (w, 0)
  | (url, now) :: abandoned =>
      let (w, ok) :=
        insert_abort_url_failure (Some run_id) url ProcessUrlTimeout
          (drain_timeout_message drain_timeout_secs) None now w in
      let (w, inserted) := record_drain_timeout_failures run_id drain_timeout_secs abandoned w in
      (w, if ok then inserted + 1 else inserted)
  end.

Definition record_cooperative_cancel_failure (run_id : option str) (url : str) (now : Z) (w : W)
  : W :=
  (insert_abort_url_failure run_id url ScanCancelled
     (lit "Scan cancelled before URL finished processing: " ++ url) None now w).1.
End Record.

(** ** Attaching a context *)

Lemma extract_attached error context : extract_failure_context (attach_failure_context error context) = context.
Proof. done. Qed.

Lemma extract_with_context c error : extract_failure_context (with_context c error) = extract_failure_context error.
Proof. done. Qed.

(** Attaching a failure context hides the HTTP error from everything that looks for one in
    the chain: the new error is not retriable, it has no HTTP status, and its type is read
    off its text. *)
Theorem attach_hides_error `{Lo : Lowercase} error context :
  let attached := attach_failure_context error context in
  is_retriable_error attached = false
  ∧ extract_http_status attached = None
  ∧ extract_error_type attached = message_error_type (to_lowercase (error_to_string error)).
Proof. done. Qed.

(** ** Bounds *)

Lemma truncate_header_value_bounded v :
  forallb char_ok v = true ->
  (length (encode (truncate_header_value v)) <= MAX_HEADER_VALUE_LENGTH)%nat
  ∧ forallb char_ok (truncate_header_value v) = true.
Proof.
  intros Hv. unfold truncate_header_value.
  destruct (Nat.leb_spec (length (encode v)) MAX_HEADER_VALUE_LENGTH); [done|].
  set (suffix := lit "... (truncated)").
  assert (Hs : forallb char_ok suffix = true) by (vm_compute; reflexivity).
  destruct (truncate_with_suffix_prefix v MAX_HEADER_VALUE_LENGTH suffix
              (char_scalar v Hv) (char_scalar suffix Hs)) as (k & j & E & Hlen).
  assert (Hc : forallb char_ok (take k v ++ take j suffix) = true).
  { rewrite forallb_app, andb_true_iff. rewrite forallb_forall in Hv, Hs |- *.
    split; [intros c Hc; apply Hv; rewrite <- (take_drop k v); apply in_or_app; by left|].
    apply forallb_forall. intros c Hc. apply Hs. rewrite <- (take_drop j suffix).
    apply in_or_app. by left. }
  rewrite E in Hlen |- *. rewrite from_utf8_lossy_encode by done. done.
Qed.

Lemma forallb_take {A} (f : A -> bool) n l : forallb f l = true -> forallb f (take n l) = true.
Proof. rewrite !forallb_forall. intros H x Hx. apply H. rewrite <- (take_drop n l). apply in_or_app. by left. Qed.

Lemma lit_char_ok s : forallb char_ok (lit s) = true.
Proof.
  unfold lit. rewrite forallb_forall. intros c (a & <- & _)%in_map_iff.
  pose proof (Ascii.nat_ascii_bounded a) as Hb. unfold char_ok, within, Ascii.nat_of_ascii in *. lia.
Qed.

Lemma dec_char_ok n : 0 <= n -> forallb char_ok (dec n) = true.
Proof.
  intros Hn. rewrite forallb_forall. intros c Hc.
  pose proof (dec_digits n Hn) as Hd. rewrite List.Forall_forall in Hd. specialize (Hd c Hc).
  unfold char_ok, within. cbn in Hd. lia.
Qed.

Lemma stored_message_bounded m :
  forallb char_ok m = true ->
  (length (encode (stored_message m)) <= MAX_ERROR_MESSAGE_LENGTH)%nat
  ∧ Forall (λ c, c < 32 -> c = 9 ∨ c = 10 ∨ c = 13) (stored_message m).
Proof.
  intros Hm. destruct (stored_error_message_wf m (char_scalar m Hm)) as (Hlen & k & j & E & Hc).
  unfold stored_message.
  assert (Hs : forallb char_ok (sanitize_error_message m) = true).
  { rewrite forallb_forall in Hm |- *. intros c [Hin _]%filter_In. by apply Hm. }
  assert (Hsuf : forallb char_ok (truncation_suffix (sanitize_error_message m)) = true).
  { unfold truncation_suffix. rewrite !forallb_app, !lit_char_ok, dec_char_ok by lia. done. }
  rewrite E in Hlen |- *. rewrite from_utf8_lossy_encode
    by (rewrite forallb_app, !forallb_take by done; done).
  split; [done|]. apply Forall_app. split; [done|].
  apply Forall_take. unfold truncation_suffix. rewrite !Forall_app.
  split; [vm_compute; repeat constructor; discriminate|].
  split; [|vm_compute; repeat constructor; discriminate].
  eapply Forall_impl; [|apply dec_digits; lia]. cbn. lia.
Qed.

Section RecordTheorems.
Context `{U : UrlLib} `{T : IpText} `{P : Psl} `{Lo : Lowercase}.

End RecordTheorems.

(** ** The drain deadline *)

Section DrainTheorems.
Context `{U : UrlLib} `{Q : Sqlx W Tx} {Laws : SqlxLaws Q}.

(** The number of abandoned URLs reported as recorded is the number of rows that are
    committed: one transaction per URL in the order of the snapshot, each exactly the row of
    a URL abandoned; the others are those whose transaction failed. *)
Theorem drain_failures_counted run_id secs abandoned w :
  let (w', inserted) := record_drain_timeout_failures run_id secs abandoned w in
  ∃ rows, rows `sublist_of` abandoned
    ∧ committed w'
      = committed w
        ++ map (λ '(url, now),
             [failure_statement (abort_record (Some run_id) url ProcessUrlTimeout
                                   (drain_timeout_message secs) None now)]) rows
    ∧ inserted = vec_len rows.
Proof.
  revert w. induction abandoned as [|[url now] abandoned IH]; intros w.
  { exists []. by rewrite app_nil_r. }
  cbn [record_drain_timeout_failures]. unfold insert_abort_url_failure.
  set (row := abort_record _ _ _ _ _ _).
  pose proof (insert_url_failure_committed row w) as Hrow. unfold failure_effect in Hrow.
  destruct (insert_url_failure row w) as [w1 r].
  specialize (IH w1).
  destruct r as [id|e];
    destruct (record_drain_timeout_failures run_id secs abandoned w1) as [w2 n];
    destruct IH as (rows & Hsub & Hw2 & ->); rewrite Hw2, Hrow.
  - exists ((url, now) :: rows). split; [by apply sublist_skip|].
    split; [|unfold vec_len; cbn [length]; lia].
    rewrite <- app_assoc. done.
  - exists rows. split; [by apply sublist_cons|]. done.
Qed.
End DrainTheorems.

Module DemoFailure.
#[local] Existing Instance Net.Demo.ascii_lowercase.
#[local] Existing Instance Net.Demo.urls.
#[local] Instance ips : IpText := {| ip_to_string := λ _, []; ip_parse := λ _, None |}.
#[local] Instance psl : Psl := {|
  domain_str := λ s, match strip_prefix (lit "www.") s with Some r => Some r | None => Some s end;
  suffix_str := λ _, None |}.

(** The same URL is filed under its registrable domain when it fails and under its host when
    it is abandoned. *)
Example abandoned_domain_differs :
  extract_domain (lit "https://www.example.com/") = Ok (lit "example.com")
  ∧ domain_from_url_or_raw (lit "https://www.example.com/") = lit "www.example.com".
Proof. vm_compute. done. Qed.

End DemoFailure.
