(* ===== verification/Response.v ===== *)
(** * Reading a response ([src/src/fetch/stream.rs], [charset.rs], [request.rs],
    [response/extract.rs], [utils/digest.rs], [config/headers.rs])

    The body is the sequence of chunks the client yields, each bytes or a read error.  The
    tables of [encoding_rs], the reason phrases of the [http] crate, SHA-256 and the engine
    behind the [<meta charset>] expression are parameters. *)

From S2P Require Import Prelude Sanitize Net Redirects Cookies Errors Dns Domain.

(** ** stream.rs *)

Inductive OnLimit := Truncate | Abort | Error.

Inductive StreamedBytes :=
  | Complete (bytes : list Z)
  | Truncated (bytes : list Z).

Definition into_bytes (s : StreamedBytes) : list Z :=
  match s with Complete b | Truncated b => b end.

Definition is_truncated (s : StreamedBytes) : bool :=
  match s with Truncated _ => true | Complete _ => false end.

Inductive StreamBytesError :=
  | Read (e : str)
  | LimitExceeded
  | TooLarge (got max : Z).

Definition stream_error_text (e : StreamBytesError) : str :=
  match e with
  | Read e => e
  | LimitExceeded => lit "body exceeded size limit (aborted)"
  | TooLarge got max =>
      lit "body too large: " ++ dec got ++ lit " bytes (max: " ++ dec max ++ lit " bytes)"
  end.

Definition saturating_add_usize (a b : Z) : Z := Z.min u64_max (a + b).

(** The loop over the chunks; [accumulated] is what was kept so far. *)
Fixpoint stream_loop (max_size : nat) (on_limit : OnLimit) (accumulated : list Z)
    (chunks : list (result (list Z) str)) : result StreamedBytes StreamBytesError :=
  match chunks with
  | [] => Ok (Complete accumulated)
  | Err e :: _ => Err (Read e)
  | Ok chunk :: chunks =>
      if (max_size <? length accumulated + length chunk)%nat then
        match on_limit with
        | Truncate => Ok (Truncated (accumulated ++ take (max_size - length accumulated) chunk))
        | Abort => Err LimitExceeded
        | Error =>
            Err (TooLarge (saturating_add_usize (Z.of_nat (length accumulated))
                             (Z.of_nat (length chunk))) (Z.of_nat max_size))
        end
      else stream_loop max_size on_limit (accumulated ++ chunk) chunks
  end.

Definition stream_bytes_with_limit (response : Response) (max_size : nat) (on_limit : OnLimit)
  : result StreamedBytes StreamBytesError :=
  stream_loop max_size on_limit [] (resp_chunks response).

Definition reject_if_content_length_exceeds (response : Response) (max_size : Z) (label : str)
  : result unit AnyhowError :=
  match resp_content_length response with
  | Some content_length =>
      if max_size <? content_length then
        Err (MkAnyhow [] (CMessage (label ++ lit " too large: " ++ dec content_length
               ++ lit " bytes (max: " ++ dec max_size ++ lit " bytes)")) [])
      else Ok tt
  | None => Ok tt
  end.

(** ** charset.rs *)

(** [String::from_utf8]. *)
Definition from_utf8 (bs : list Z) : option str :=
  let s := from_utf8_lossy bs in if bool_decide (encode s = bs) then Some s else None.

Class EncodingRs := {
  Encoding : Type;
  for_label : list Z -> option Encoding;
  for_bom : list Z -> option Encoding;
  UTF_8 : Encoding;
  decode : Encoding -> list Z -> str;
  (** The groups of the first match of the expression in bytes. *)
  meta_charset_captures : list Z -> option (option (list Z) * option (list Z));
}.

(** [part[..8]] is only reached on header text, which is visible ASCII. *)
Definition charset_parameter (part : str) : option str :=
  match strip_prefix (lit "charset=") part with
  | Some rest => Some rest
  | None =>
      match get_to 8 part with
      | Some head =>
          if eq_ignore_ascii_case head (lit "charset=") then Some (drop 8 part) else None
      | None => None
      end
  end.

Definition charset_from_content_type (ct : str) : option str :=
  head (omap (λ part,
          rest ← charset_parameter part;
          let trimmed := trim_by (λ c, (c =? 34) || (c =? 39)) (trim rest) in
          if nonempty trimmed then Some trimmed else None)
        (map trim (split_char 59 ct))).

Section Charset.
Context `{E : EncodingRs}.

Definition sniff_meta_charset (prefix : list Z) : option str :=
  '(g1, g2) ← meta_charset_captures prefix;
  m ← (match g1 with Some m => Some m | None => g2 end);
  from_utf8 m.

Definition decode_body (bytes : list Z) (content_type : option str) (meta_sniff : bool) : str :=
  let ct_charset := content_type ≫= charset_from_content_type in
  match ct_charset ≫= (λ label, for_label (encode label)) with
  | Some enc => decode enc bytes
  | None =>
      match for_bom bytes with
      | Some enc => decode enc bytes
      | None =>
          match (if meta_sniff then
                   label ← sniff_meta_charset (take 1024 bytes); for_label (encode label)
                 else None) with
          | Some enc => decode enc bytes
          | None => decode UTF_8 bytes
          end
      end
  end.
End Charset.

(** ** config/headers.rs and request.rs *)

Definition SECURITY_HEADERS : list str :=
  map lit ["Content-Security-Policy"; "Content-Security-Policy-Report-Only";
    "Strict-Transport-Security"; "X-Content-Type-Options"; "X-Frame-Options";
    "X-XSS-Protection"; "Referrer-Policy"; "Permissions-Policy"; "Cross-Origin-Opener-Policy";
    "Cross-Origin-Embedder-Policy"; "Cross-Origin-Resource-Policy";
    "Access-Control-Allow-Origin"; "Access-Control-Allow-Methods";
    "Access-Control-Allow-Headers"; "Access-Control-Allow-Credentials";
    "Access-Control-Expose-Headers"; "Access-Control-Max-Age"]%string.

Definition HTTP_HEADERS : list str :=
  map lit ["Server"; "X-Powered-By"; "X-Generator"; "CF-Ray"; "CF-Cache-Status"; "X-Served-By";
    "Via"; "X-Amz-Cf-Id"; "X-Amz-Cf-Pop"; "X-Azure-Ref"; "X-MSEdge-Ref"; "X-Akamai-Request-ID";
    "X-Vercel-Id"; "X-Vercel-Cache"; "X-Nf-Request-Id"; "Fastly-IO-Info"; "Server-Timing";
    "X-Cache"; "Cache-Control"; "ETag"; "Last-Modified"; "Link"; "Alt-Svc"; "Accept-CH";
    "Critical-CH"; "Clear-Site-Data"; "Report-To"; "NEL"; "X-Robots-Tag"]%string.

(** A [HeaderMap] holds lower-case names and is searched by the lower-cased name. *)
Definition get (name : str) (headers : list (str * option str)) : option (option str) :=
  header_get (to_ascii_lowercase name) headers.

Definition captured (names : list str) (headers : list (str * option str)) : gmap str str :=
  foldl (λ m name, match get name headers with
                   | Some value => <[name := default [] value]> m
                   | None => m
                   end) ∅ names.
Definition extract_security_headers (headers : list (str * option str)) : gmap str str :=
  captured SECURITY_HEADERS headers.
Definition extract_http_headers (headers : list (str * option str)) : gmap str str :=
  captured HTTP_HEADERS headers.

Definition REQUEST_HEADERS : list (str * str) :=
  [(lit "accept", lit "text/html,application/xhtml+xml,application/xml;q=0.9,image/avif,image/webp,image/apng,*/*;q=0.8,application/signed-exchange;v=b3;q=0.7");
   (lit "accept-language", lit "en-US,en;q=0.9");
   (lit "accept-encoding", lit "gzip, deflate, br");
   (lit "sec-fetch-dest", lit "document"); (lit "sec-fetch-mode", lit "navigate");
   (lit "sec-fetch-site", lit "none"); (lit "sec-fetch-user", lit "?1");
   (lit "upgrade-insecure-requests", lit "1"); (lit "cache-control", lit "max-age=0")].

(** The headers of the client as the cookie parsers read them. *)
Definition cookie_headers (headers : list (str * option str)) : CookieHeaders :=
  MkHeaders (map snd (List.filter (λ h, streqb h.1 (lit "set-cookie")) headers))
    (header_get (lit "cookie") headers).

(** ** digest.rs *)

Definition hex_digit (n : Z) : Z := if n <? 10 then 48 + n else 97 + (n - 10).
Definition hex_encode_lower (bytes : list Z) : str :=
  concat (map (λ b, [hex_digit (Z.shiftr b 4); hex_digit (Z.land b 15)]) bytes).

(** ** extract.rs *)

Class HttpLib := {
  canonical_reason : Z -> option str;
  sha256 : list Z -> list Z;
}.

Definition MAX_RESPONSE_BODY_SIZE : nat := Z.to_nat (2 * 1024 * 1024).
#[global] Opaque MAX_RESPONSE_BODY_SIZE.

Record ResponseData := MkResponseData {
  rd_initial_url : str;
  rd_final_url : str;
  rd_initial_domain : str;
  rd_final_domain : str;
  rd_host : str;
  rd_status : Z;
  rd_status_desc : str;
  rd_headers : list (str * option str);
  rd_security_headers : gmap str str;
  rd_http_headers : gmap str str;
  rd_body : str;
  rd_body_sha256 : option str;
  rd_body_truncated : bool;
  rd_content_length : option Z;
  rd_http_version : option str;
  rd_content_type : option str;
}.

Definition format_http_version (version : HttpVersion) : str :=
  match version with
  | HTTP_09 => lit "HTTP/0.9"
  | HTTP_10 => lit "HTTP/1.0"
  | HTTP_11 => lit "HTTP/1.1"
  | HTTP_2 => lit "HTTP/2"
  | HTTP_3 => lit "HTTP/3"
  | OtherVersion text => text
  end.

Definition SCANNABLE_APPLICATION_TYPES : list str :=
  map lit ["application/xhtml+xml"; "application/javascript"; "application/ecmascript";
    "application/x-javascript"; "application/json"; "application/manifest+json";
    "application/ld+json"; "application/xml"; "application/atom+xml"; "application/rss+xml";
    "application/soap+xml"]%string.

Definition is_scannable_content_type (ct_lower : str) : bool :=
  let mime := trim (default [] (head (split_char 59 ct_lower))) in
  if starts_with (lit "text/") mime then true
  else
    existsb (streqb mime) SCANNABLE_APPLICATION_TYPES
    || ends_with (lit "+json") mime || ends_with (lit "+xml") mime.

Section Extract.
Context `{U : UrlLib} `{T : IpText} `{P : Psl} `{L : Lowercase} `{E : EncodingRs}
  `{H : HttpLib}.

Definition sha256_hex (data : list Z) : str := hex_encode_lower (sha256 data).

Definition compute_body_sha256 (body : str) : option str :=
  if negb (nonempty body) then None else Some (sha256_hex (encode body)).

Definition decode_streamed_body (streamed : StreamedBytes) (content_type : option str)
  : str * bool :=
  match streamed with
  | Complete bytes => (decode_body bytes content_type true, false)
  | Truncated bytes => (decode_body bytes content_type true, true)
  end.

Definition extract_response_data (response : Response) (original_url : str)
  : result (option ResponseData) AnyhowError :=
  let final_url := resp_url response in
  initial_domain ←? extract_domain original_url;
  final_domain ←? extract_domain final_url;
  match url_parse final_url with
  | None => Err (MkAnyhow [] url_parse_error [])
  | Some parsed_url =>
      match url_host_str parsed_url with
      | None => Err (MkAnyhow [] (CMessage (lit "Failed to extract host")) [])
      | Some host =>
          let status := status response in
          let status_desc := default (lit "Unknown Status Code") (canonical_reason status) in
          let headers := resp_headers response in
          let http_version := Some (format_http_version (resp_version response)) in
          let content_type := mjoin (get (lit "content-type") headers) in
          let security_headers := extract_security_headers headers in
          let http_headers := extract_http_headers headers in
          let skip :=
            match get (lit "content-type") headers with
            | Some ct => negb (is_scannable_content_type (to_lowercase (default [] ct)))
            | None => false
            end in
          if skip then Ok None
          else
            let (body, body_truncated) :=
              match stream_bytes_with_limit response MAX_RESPONSE_BODY_SIZE Truncate with
              | Ok s => decode_streamed_body s content_type
              | Err _ => ([], false)
              end in
            let record := MkResponseData original_url final_url initial_domain final_domain host
                            status status_desc headers security_headers http_headers in
            if negb (nonempty body) then
              Ok (Some (record [] None body_truncated None http_version content_type))
            else
              Ok (Some (record body (compute_body_sha256 body) body_truncated
                          (Some (Z.of_nat (length (encode body)))) http_version content_type))
      end
  end.
End Extract.

(** ** What is kept of a body

    [readable] is everything the client delivers before it fails, however it is cut. *)

Fixpoint readable (chunks : list (result (list Z) str)) : list Z :=
  match chunks with
  | Ok chunk :: chunks => chunk ++ readable chunks
  | _ => []
  end.

Fixpoint read_failure (chunks : list (result (list Z) str)) : option str :=
  match chunks with
  | [] => None
  | Ok _ :: chunks => read_failure chunks
  | Err e :: _ => Some e
  end.

Definition stream_spec (max_size : nat) (on_limit : OnLimit) (body : list Z)
    (failure : option str) (r : result StreamedBytes StreamBytesError) : Prop :=
  if (length body <=? max_size)%nat then
    r = match failure with None => Ok (Complete body) | Some e => Err (Read e) end
  else
    match on_limit with
    | Truncate => r = Ok (Truncated (take max_size body))
    | Abort => r = Err LimitExceeded
    | Error => ∃ got, r = Err (TooLarge got (Z.of_nat max_size))
                 ∧ Z.min u64_max (Z.of_nat max_size + 1) <= got
    end.

Lemma stream_loop_spec max_size on_limit chunks : ∀ accumulated,
  (length accumulated <= max_size)%nat ->
  stream_spec max_size on_limit (accumulated ++ readable chunks) (read_failure chunks)
    (stream_loop max_size on_limit accumulated chunks).
Proof.
  unfold stream_spec. induction chunks as [|[chunk|e] chunks IH]; intros acc Hacc.
  - cbn. rewrite app_nil_r. by destruct (Nat.leb_spec (length acc) max_size); [|lia].
  - cbn [stream_loop readable read_failure].
    destruct (Nat.ltb_spec max_size (length acc + length chunk)).
    + rewrite !length_app. destruct (Nat.leb_spec (length acc + (length chunk + length (readable chunks))) max_size); [lia|].
      destruct on_limit; [|done|].
      * rewrite take_app, (take_ge acc) by lia. rewrite take_app.
        replace (max_size - length acc - length chunk)%nat with 0%nat by lia.
        by rewrite take_0, app_nil_r.
      * eexists; split; [done|]. unfold saturating_add_usize. lia.
    + rewrite app_assoc. apply IH. rewrite length_app. lia.
  - cbn. rewrite app_nil_r. by destruct (Nat.leb_spec (length acc) max_size); [|lia].
Qed.

(** How the chunks of a body are cut does not matter: a body within the limit is complete,
    or the read failure that ended it; of a longer one exactly the first [max_size] bytes are
    kept and marked truncated, or the error of the policy is returned. *)
Theorem stream_chunking_irrelevant response max_size on_limit :
  stream_spec max_size on_limit (readable (resp_chunks response))
    (read_failure (resp_chunks response)) (stream_bytes_with_limit response max_size on_limit).
Proof. apply (stream_loop_spec max_size on_limit (resp_chunks response) []). cbn. lia. Qed.

(** ** What is recorded of a response *)

Section ResponseTheorems.
Context `{U : UrlLib} `{T : IpText} `{P : Psl} `{L : Lowercase} `{E : EncodingRs}
  `{H : HttpLib}.

Definition declared_type (response : Response) : option str :=
  mjoin (get (lit "content-type") (resp_headers response)).

(** Whether the declared type is scanned; a missing one is, one that is not text is not. *)
Definition scannable (response : Response) : Prop :=
  ∀ ct, get (lit "content-type") (resp_headers response) = Some ct ->
    is_scannable_content_type (to_lowercase (default [] ct)) = true.

(** The text of the page: the decoded first two megabytes, nothing when the read failed. *)
Definition page_text (response : Response) : str :=
  let body := readable (resp_chunks response) in
  if (length body <=? MAX_RESPONSE_BODY_SIZE)%nat && bool_decide (is_Some (read_failure (resp_chunks response)))
  then []
  else decode_body (take MAX_RESPONSE_BODY_SIZE body) (declared_type response) true.

Lemma page_text_cases response :
  let delivered := readable (resp_chunks response) in
  let failed_early :=
    (length delivered <= MAX_RESPONSE_BODY_SIZE)%nat ∧ is_Some (read_failure (resp_chunks response)) in
  (~ failed_early ->
   page_text response
   = decode_body (take MAX_RESPONSE_BODY_SIZE delivered) (declared_type response) true)
  ∧ (failed_early -> page_text response = []).
Proof.
  cbn zeta. unfold page_text. split; intros Hf.
  - destruct (_ && _) eqn:Ef; [|done]. apply andb_true_iff in Ef as [E1 E2].
    destruct Hf. split; [by apply Nat.leb_le|by apply bool_decide_eq_true_1 in E2].
  - destruct Hf as [H1 H2]. rewrite (proj2 (Nat.leb_le _ _) H1), bool_decide_eq_true_2 by done. done.
Qed.

Lemma page_streamed response :
  match stream_bytes_with_limit response MAX_RESPONSE_BODY_SIZE Truncate with
  | Ok s => decode_streamed_body s (declared_type response)
  | Err _ => ([], false)
  end = (page_text response,
         (MAX_RESPONSE_BODY_SIZE <? length (readable (resp_chunks response)))%nat).
Proof.
  pose proof (stream_loop_spec MAX_RESPONSE_BODY_SIZE Truncate (resp_chunks response) []
                ltac:(cbn; lia)) as Hs.
  unfold page_text, stream_bytes_with_limit, stream_spec in *. rewrite app_nil_l in Hs.
  generalize dependent MAX_RESPONSE_BODY_SIZE. intros cap Hs. cbn zeta.
  destruct (Nat.leb_spec (length (readable (resp_chunks response))) cap) as [Hle|Hgt].
  - destruct (Nat.ltb_spec cap (length (readable (resp_chunks response)))); [lia|].
    rewrite Hs, take_ge by done.
    destruct (read_failure (resp_chunks response)); [|done].
    by rewrite bool_decide_eq_true_2.
  - destruct (Nat.ltb_spec cap (length (readable (resp_chunks response)))); [|lia].
    by rewrite Hs.
Qed.

Lemma recorded_response response original_url d :
  extract_response_data response original_url = Ok (Some d) ->
  scannable response
  ∧ rd_body d = page_text response
  ∧ rd_body_truncated d
    = (MAX_RESPONSE_BODY_SIZE <? length (readable (resp_chunks response)))%nat
  ∧ (rd_body d = [] -> rd_body_sha256 d = None ∧ rd_content_length d = None)
  ∧ (rd_body d <> [] -> rd_body_sha256 d = Some (sha256_hex (encode (rd_body d)))
                        ∧ rd_content_length d = Some (Z.of_nat (length (encode (rd_body d)))))
  ∧ rd_status d = status response ∧ rd_final_url d = resp_url response
  ∧ rd_headers d = resp_headers response ∧ rd_content_type d = declared_type response
  ∧ extract_domain original_url = Ok (rd_initial_domain d)
  ∧ extract_domain (resp_url response) = Ok (rd_final_domain d).
Proof.
  unfold extract_response_data, scannable.
  destruct (extract_domain original_url) as [dom|]; [|done].
  destruct (extract_domain (resp_url response)) as [dom'|]; [|done]. cbn [and_then].
  destruct (url_parse (resp_url response)) as [parsed|]; [|done].
  destruct (url_host_str parsed) as [host|]; [|done].
  fold (declared_type response). rewrite page_streamed.
  destruct (get (lit "content-type") (resp_headers response)) as [ct|] eqn:Ect.
  - destruct (is_scannable_content_type _) eqn:Es; [|done]. cbn [negb].
    destruct (page_text response) as [|c text] eqn:Et; cbn [nonempty negb]; intros [= <-]; cbn;
      repeat (split; [first [done | by intros ? [= <-]]|]); split; done.
  - destruct (page_text response) as [|c text] eqn:Et; cbn [nonempty negb]; intros [= <-]; cbn;
      repeat (split; [done|]); split; done.
Qed.
(** C26: A recorded response is scannable and carries the status, headers and final URL that were
    received.  Its text is the decoded first two megabytes of what was delivered, marked
    truncated exactly when there was more; but when the connection fails before that much has
    come the response is recorded all the same, without text and not marked.  Digest and length
    are those of the text, absent when it is empty. *)
Theorem response_data_spec response original_url d :
  extract_response_data response original_url = Ok (Some d) ->
  let delivered := readable (resp_chunks response) in
  let failed_early :=
    (length delivered <= MAX_RESPONSE_BODY_SIZE)%nat ∧ is_Some (read_failure (resp_chunks response)) in
  scannable response
  ∧ (~ failed_early ->
     rd_body d = decode_body (take MAX_RESPONSE_BODY_SIZE delivered) (declared_type response) true)
  ∧ (failed_early -> rd_body d = [])
  ∧ rd_body_truncated d = (MAX_RESPONSE_BODY_SIZE <? length delivered)%nat
  ∧ (rd_body d = [] -> rd_body_sha256 d = None ∧ rd_content_length d = None)
  ∧ (rd_body d <> [] -> rd_body_sha256 d = Some (sha256_hex (encode (rd_body d)))
                        ∧ rd_content_length d = Some (Z.of_nat (length (encode (rd_body d)))))
  ∧ rd_status d = status response ∧ rd_final_url d = resp_url response
  ∧ rd_headers d = resp_headers response ∧ rd_content_type d = declared_type response
  ∧ extract_domain original_url = Ok (rd_initial_domain d)
  ∧ extract_domain (resp_url response) = Ok (rd_final_domain d).
Proof.
  intros Hd. destruct (recorded_response _ _ _ Hd) as (Hs & Hb & Hall).
  destruct (page_text_cases response) as [H1 H2]. cbn zeta in *. rewrite Hb in *.
  exact (conj Hs (conj H1 (conj H2 Hall))).
Qed.
End ResponseTheorems.
