(* ===== verification/Jwt.v ===== *)
(** * JSON Web Tokens ([src/src/parse/jwt.rs])

    Decoding of header and claims; signatures are not looked at.  The base64 engines and
    [serde_json] are parameters. *)

From Stdlib Require Import SpecFloat.
From S2P Require Import Prelude Sanitize Float Json StorageRecord Dns StrIndex Response.

(** [Engine::decode] of the four engines of the [base64] crate. *)
Class Base64 := {
  standard_decode : str -> option (list Z);
  standard_no_pad_decode : str -> option (list Z);
  url_safe_decode : str -> option (list Z);
  url_safe_no_pad_decode : str -> option (list Z);
}.
(** An engine without padding refuses any [=]. *)
Class Base64Laws (B : Base64) := {
  no_pad_law : ∀ s, 61 ∈ s -> url_safe_no_pad_decode s = None;
}.

Definition i64_clamp (z : Z) : Z := Z.max (-9223372036854775808) (Z.min 9223372036854775807 z).

(** [f as i64]: towards zero, saturating, NaN as zero. *)
Definition f64_as_i64 (f : spec_float) : Z :=
  match f with
  | S754_finite s m e =>
      let a := if 0 <=? e then Zpos m * 2 ^ e else Zpos m / 2 ^ (- e) in
      i64_clamp (if s then - a else a)
  | S754_infinity s => i64_clamp (if s then - 2 ^ 64 else 2 ^ 64)
  | S754_zero _ | S754_nan => 0
  end.

(** [Value::as_f64]. *)
Definition as_f64 (v : Value) : option spec_float :=
  match v with
  | Num (Int z) => Some (f64_of_int z)
  | Num (Json.Float f) => Some f
  | _ => None
  end.

Lemma from_utf8_Some bs s : from_utf8 bs = Some s -> bs = encode s.
Proof. unfold from_utf8. case_bool_decide as H; [|done]. by intros [= <-]. Qed.

Section Jwt.
Context `{B : Base64} `{J : Serde}.

Definition base64url_decode (input : str) : option (list Z) :=
  match url_safe_no_pad_decode input with
  | Some bytes => Some bytes
  | None =>
      match url_safe_decode input with
      | Some bytes => Some bytes
      | None =>
          let padded :=
            if (blen input mod 4 =? 2)%nat then input ++ lit "=="
            else if (blen input mod 4 =? 3)%nat then input ++ lit "="
            else input in
          url_safe_no_pad_decode padded
      end
  end.

Definition epoch_seconds_to_ms (payload : Value) (key : str) : option Z :=
  v ← Json.get payload key;
  secs ← (match as_i64 v with Some z => Some z | None => f64_as_i64 <$> as_f64 v end);
  Some (i64_clamp (secs * 1000)).

Definition claim (v : Value) (key : str) : option str := Json.get v key ≫= as_str.

Definition decode_jwt (token : str) : option DecodedJwt :=
  let token := trim_end_by (Z.eqb 92) (trim token) in
  match split_char 46 token with
  | [part0; part1; _] =>
      header_bytes ← base64url_decode part0;
      payload_bytes ← base64url_decode part1;
      header_str ← from_utf8 header_bytes;
      payload_str ← from_utf8 payload_bytes;
      header ← from_str header_str;
      payload ← from_str payload_str;
      let audience :=
        (λ v, match v with Str s => s | other => default [] (to_json_string other) end)
          <$> Json.get payload (lit "aud") in
      Some (MkJwt header_str payload_str (claim header (lit "alg")) (claim header (lit "typ"))
              (claim payload (lit "iss")) (claim payload (lit "sub")) audience
              (epoch_seconds_to_ms payload (lit "exp")) (epoch_seconds_to_ms payload (lit "iat"))
              (epoch_seconds_to_ms payload (lit "nbf")) (claim payload (lit "jti")))
  | _ => None
  end.

Definition decode_jwt_base64 (encoded : str) : option DecodedJwt :=
  let trimmed := trim encoded in
  match (inner_bytes ← base64url_decode trimmed;
         inner_str ← from_utf8 inner_bytes;
         decode_jwt inner_str) with
  | Some jwt => Some jwt
  | None => decode_jwt trimmed
  end.

(** ** Lemmas *)

Lemma i64_clamp_range z : -9223372036854775808 <= i64_clamp z <= 9223372036854775807.
Proof. unfold i64_clamp. lia. Qed.

Context {BL : Base64Laws B}.

(** The retry with padding never decodes anything: the engine that is asked refuses
    padding, and without padding it has refused the text before. *)
Theorem padding_retry_is_dead input :
  base64url_decode input
  = match url_safe_no_pad_decode input with
    | Some bytes => Some bytes
    | None => url_safe_decode input
    end.
Proof.
  unfold base64url_decode. destruct (url_safe_no_pad_decode input) eqn:E; [done|].
  destruct (url_safe_decode input); [done|].
  destruct (blen input mod 4 =? 2)%nat; [apply no_pad_law, elem_of_app; right; change (lit "==") with [61; 61]; by left|].
  destruct (blen input mod 4 =? 3)%nat; [apply no_pad_law, elem_of_app; right; change (lit "=") with [61]; by left|done].
Qed.

(** Two decoded texts of a token are the JSON that its claims are read from, and every time
    claim fits 64 bits. *)
Theorem decoded_jwt_sound token jwt : decode_jwt token = Some jwt ->
  ∃ header payload part0 part1 part2,
    trim_end_by (Z.eqb 92) (trim token) = part0 ++ [46] ++ part1 ++ [46] ++ part2
    ∧ from_str (header_json jwt) = Some header ∧ from_str (payload_json jwt) = Some payload
    ∧ base64url_decode part0 = Some (encode (header_json jwt))
    ∧ base64url_decode part1 = Some (encode (payload_json jwt))
    ∧ algorithm jwt = claim header (lit "alg") ∧ issuer jwt = claim payload (lit "iss")
    ∧ subject jwt = claim payload (lit "sub")
    ∧ ∀ ms, ms ∈ omap id [expiration_ms jwt; issued_at_ms jwt; not_before_ms jwt] ->
        -9223372036854775808 <= ms <= 9223372036854775807.
Proof.
  unfold decode_jwt. set (t := trim_end_by (Z.eqb 92) (trim token)).
  destruct (split_char 46 t) as [|part0 [|part1 [|part2 [|? ?]]]] eqn:Es; try done.
  destruct (base64url_decode part0) as [hb|] eqn:E0; [|done].
  destruct (base64url_decode part1) as [pb|] eqn:E1; [|done]. cbn [mbind option_bind].
  destruct (from_utf8 hb) as [hs|] eqn:Eh; [|done].
  destruct (from_utf8 pb) as [ps|] eqn:Ep; [|done]. cbn [mbind option_bind].
  destruct (from_str hs) as [header|] eqn:Eh'; [|done].
  destruct (from_str ps) as [payload|] eqn:Ep'; [|done]. intros [= <-].
  apply from_utf8_Some in Eh as ->, Ep as ->.
  exists header, payload, part0, part1, part2. split_and!; try done.
  - apply split_char_head in Es as [[? ?]|(s1 & -> & Es)]; [done|].
    apply split_char_head in Es as [[? ?]|(s2 & -> & Es)]; [done|].
    apply split_char_head in Es as [[_ ->]|(s3 & _ & Es)]; [done|].
    by destruct (split_char_cons 46 s3) as (? & ? & ?); congruence.
  - intros ms [[x|] [Hx [= ->]]]%list_elem_of_omap. cbn [expiration_ms issued_at_ms not_before_ms] in Hx.
    assert (Hk : ∃ key, epoch_seconds_to_ms payload key = Some ms) by set_solver.
    destruct Hk as [key Hk]. unfold epoch_seconds_to_ms in Hk.
    destruct (Json.get payload key) as [v|]; [|done]. cbn [mbind option_bind] in Hk.
    destruct (match as_i64 v with Some z => _ | None => _ end) as [secs|]; [|done].
    injection Hk as <-. apply i64_clamp_range.
Qed.
End Jwt.
