(* ===== verification/Gitleaks.v ===== *)
(** * The rules of the secret scan ([src/src/parse/gitleaks.rs])

    From the parsed configuration and its overrides to compiled rules with the keyword
    prefilter.  The [regex], [aho-corasick] and [toml] crates are parameters, and so are the
    texts of the two bundled files.  Spans of a match are byte offsets. *)

From Stdlib Require Import SpecFloat.
From S2P Require Import Prelude Sanitize Net Errors Dns StrIndex Literals.

Definition REGEX_SIZE_LIMIT : Z := 64 * 1024 * 1024.

#[local] Set Warnings "-register-all".

(** The groups of a match: group 0 is the whole match. *)
Definition Groups : Type := list (option (nat * nat)).

Class SpanRegex := {
  Rx : Type;
  rx_new : str -> option Rx;
  rx_new_sized : Z -> str -> option Rx;
  rx_is_match : Rx -> str -> bool;
  captures_iter : Rx -> str -> list Groups;
}.
Class SpanRegexLaws (X : SpanRegex) := {
  captures_whole : ∀ re body g, g ∈ captures_iter re body -> ∃ i j, g !! O = Some (Some (i, j));
  captures_slice : ∀ re body g i j, g ∈ captures_iter re body -> Some (i, j) ∈ g ->
    ∃ m, slice body i j = Some m;
}.

(** [AhoCorasick] with [ascii_case_insensitive] and overlapping matches: the patterns found. *)
Class AcOverlap := {
  Automaton : Type;
  ac_build : list str -> option Automaton;
  overlapping_ids : Automaton -> str -> list nat;
}.
Class AcOverlapLaws (A : AcOverlap) := {
  overlapping_law : ∀ patterns a body id, ac_build patterns = Some a ->
    id ∈ overlapping_ids a body <-> ∃ p, patterns !! id = Some p ∧ occurs p body;
}.

(** [str::to_uppercase]. *)
Class Uppercase := { to_uppercase : str -> str }.

(** ** Raw configuration *)

Record AllowlistRaw := MkAllowlistRaw {
  al_paths : option (list str);
  al_regexes : option (list str);
  al_stopwords : option (list str);
}.
Record RuleAllowlistRaw := MkRuleAllowlistRaw {
  ra_paths : option (list str);
  ra_regexes : option (list str);
  ra_stopwords : option (list str);
  ra_regex_target : option str;
  ra_condition : option str;
}.
Record RuleRaw := MkRuleRaw {
  rr_id : str;
  rr_description : str;
  rr_regex : option str;
  rr_entropy : option spec_float;
  rr_keywords : option (list str);
  rr_secret_group : option Z;
  rr_path : option str;
  rr_allowlists : option (list RuleAllowlistRaw);
}.
(** [AppendOverride]: the rule and the allowlist to append. *)
Record OverridesFile := MkOverrides {
  of_append : option (list (str * RuleAllowlistRaw));
  of_rules : option (list RuleRaw);
}.

(** The shapes of [toml::Value] that are looked at. *)
Inductive Toml := TArray (l : list Toml) | TTable (t : list (str * Toml)) | TOther.

Class TomlLib := {
  toml_parse : str -> result Toml str;
  toml_rule : list (str * Toml) -> option RuleRaw;
  toml_rule_allowlist : list (str * Toml) -> option RuleAllowlistRaw;
  toml_allowlist : Toml -> option AllowlistRaw;
  toml_rules : str -> result (list RuleRaw) str;
  toml_overrides : str -> result OverridesFile str;
}.

(** ** Compiled configuration *)

Inductive AllowlistCondition := Or | And.
#[export] Instance condition_eq_dec : EqDecision AllowlistCondition.
Proof. solve_decision. Defined.

Section Compiled.
Context `{X : SpanRegex} `{A : AcOverlap}.

Record CompiledGlobalAllowlist := MkGlobalAllowlist {
  ga_regexes : list Rx;
  ga_stopwords : list str;
}.
Record CompiledRuleAllowlist := MkRuleAllowlist {
  ca_regexes : list Rx;
  ca_stopwords : list str;
  ca_regex_target : option str;
  ca_condition_and : bool;
  ca_has_paths : bool;
}.
Record CompiledRule := MkRule {
  cr_id : str;
  cr_regex : Rx;
  cr_entropy : option spec_float;
  cr_keywords : option (list str);
  cr_keyword_pattern_ids : option (list nat);
  cr_secret_group : option Z;
  cr_allowlists : list CompiledRuleAllowlist;
  cr_path : option str;
}.
Record GitleaksCompiled := MkGitleaks {
  gl_global_allowlist : CompiledGlobalAllowlist;
  gl_rules : list CompiledRule;
  gl_keyword_prefilter : option Automaton;
}.

Definition matched_pattern_ids (p : Automaton) (body : str) : gset nat :=
  foldl (λ found id, {[id]} ∪ found) ∅ (overlapping_ids p body).

Definition any_id_present (rule_ids : list nat) (matched : gset nat) : bool :=
  existsb (λ id, bool_decide (id ∈ matched)) rule_ids.

Section Compile.
Context `{L : Lowercase} `{Up : Uppercase}.

(** Raw strings with both kinds of quotes: 34 is the double quote. *)
Definition UPSTREAM_TRAILING_BOUNDARY : str :=
  lit "(?:[\x60'" ++ [34] ++ lit "\s;]|\\[nr]|$)".
Definition RELAXED_TRAILING_BOUNDARY : str :=
  lit "(?:[\x60'" ++ [34] ++ lit "\s;&,)\]}></?#]|\\[nr]|$)".

Definition relax_trailing_boundary (pattern : str) : str :=
  replace UPSTREAM_TRAILING_BOUNDARY RELAXED_TRAILING_BOUNDARY pattern.

Definition compile_rule_regex (pattern : str) : option Rx :=
  rx_new_sized REGEX_SIZE_LIMIT (relax_trailing_boundary pattern).

Definition compile_allowlist_regexes (regexes : option (list str)) : list Rx :=
  omap rx_new (default [] regexes).

Definition compile_global_allowlist (raw : option AllowlistRaw) : CompiledGlobalAllowlist :=
  let raw := default (MkAllowlistRaw None None None) raw in
  MkGlobalAllowlist (compile_allowlist_regexes (al_regexes raw)) (default [] (al_stopwords raw)).

Definition parse_condition (condition : option str) : AllowlistCondition :=
  match to_uppercase <$> condition with
  | Some c => if streqb c (lit "AND") || streqb c (lit "&&") then And else Or
  | None => Or
  end.

Definition compile_rule_allowlist (raw : RuleAllowlistRaw) : CompiledRuleAllowlist :=
  MkRuleAllowlist (compile_allowlist_regexes (ra_regexes raw)) (default [] (ra_stopwords raw))
    (ra_regex_target raw) (bool_decide (parse_condition (ra_condition raw) = And))
    (match ra_paths raw with Some p => nonempty p | None => false end).

Definition compiled_rule (r : RuleRaw) (regex : Rx) : CompiledRule :=
  MkRule (rr_id r) regex (rr_entropy r) (map to_lowercase <$> rr_keywords r) None
    (rr_secret_group r) (map compile_rule_allowlist (default [] (rr_allowlists r))) (rr_path r).

Definition push_allowlist (a : CompiledRuleAllowlist) (r : CompiledRule) : CompiledRule :=
  MkRule (cr_id r) (cr_regex r) (cr_entropy r) (cr_keywords r) (cr_keyword_pattern_ids r)
    (cr_secret_group r) (cr_allowlists r ++ [a]) (cr_path r).

(** Replaces the first element that satisfies [P]; [None] when there is none. *)
Fixpoint update_first {T} (P : T -> bool) (f : T -> T) (l : list T) : option (list T) :=
  match l with
  | [] => None
  | x :: l => if P x then Some (f x :: l) else cons x <$> update_first P f l
  end.

(** A same-id entry replaces the rule where it stands. *)
Definition override_rule (rules : list CompiledRule) (r : RuleRaw) : list CompiledRule :=
  match (regex_str ← rr_regex r; rx_new regex_str) with
  | None => rules
  | Some regex =>
      let compiled := compiled_rule r regex in
      default (rules ++ [compiled])
        (update_first (λ existing, streqb (cr_id existing) (rr_id r)) (λ _, compiled) rules)
  end.

Definition append_override (rules : list CompiledRule) (append : str * RuleAllowlistRaw)
  : list CompiledRule :=
  default rules
    (update_first (λ r, streqb (cr_id r) append.1)
       (push_allowlist (compile_rule_allowlist append.2)) rules).

Definition merge_overrides (rules : list CompiledRule) (file : OverridesFile)
  : list CompiledRule :=
  foldl append_override (foldl override_rule rules (default [] (of_rules file)))
    (default [] (of_append file)).

(** ** The keyword prefilter *)

(** [pattern_to_id] and [patterns]. *)
Definition Patterns : Type := gmap str nat * list str.

(** Ids are [u32]: [None] when there is no next one. *)
Definition intern_keyword (p : Patterns) (kw : str) : option (Patterns * nat) :=
  match p.1 !! kw with
  | Some id => Some (p, id)
  | None =>
      let id := length p.2 in
      if u32_max <? Z.of_nat id then None else Some ((<[kw := id]> p.1, p.2 ++ [kw]), id)
  end.

Fixpoint intern_keywords (p : Patterns) (kws : list str) : option (Patterns * list nat) :=
  match kws with
  | [] => Some (p, [])
  | kw :: kws =>
      if negb (nonempty kw) then intern_keywords p kws
      else
        '(p, id) ← intern_keyword p kw;
        '(p, ids) ← intern_keywords p kws;
        Some (p, id :: ids)
  end.

(** [dedup] of neighbours. *)
Fixpoint dedup (l : list nat) : list nat :=
  match l with
  | x :: (y :: _) as r => if (x =? y)%nat then dedup r else x :: dedup r
  | l => l
  end.

Definition set_ids (ids : option (list nat)) (r : CompiledRule) : CompiledRule :=
  MkRule (cr_id r) (cr_regex r) (cr_entropy r) (cr_keywords r) ids (cr_secret_group r)
    (cr_allowlists r) (cr_path r).

(** The loop over the rules; [None] beside the rules when an id did not fit. *)
Fixpoint assign_ids (p : Patterns) (rules : list CompiledRule)
  : list CompiledRule * option Patterns :=
  match rules with
  | [] => ([], Some p)
  | rule :: rules =>
      match cr_keywords rule with
      | None => let (rest, p) := assign_ids p rules in (rule :: rest, p)
      | Some kws =>
          match intern_keywords p kws with
          | None => (rule :: rules, None)
          | Some (p, ids) =>
              let rule :=
                if nonempty ids then set_ids (Some (dedup (sort_by_key Z.of_nat ids))) rule
                else rule in
              let (rest, p) := assign_ids p rules in (rule :: rest, p)
          end
      end
  end.

Definition build_keyword_prefilter (rules : list CompiledRule)
  : list CompiledRule * option Automaton :=
  match assign_ids (∅, []) rules with
  | (rules, None) => (rules, None)
  | (rules, Some (_, patterns)) =>
      if negb (nonempty patterns) then (rules, None)
      else
        match ac_build patterns with
        | Some automaton => (rules, Some automaton)
        | None => (map (set_ids None) rules, None)
        end
  end.

(** ** Loading *)

Context `{T : TomlLib}.

(** [last.allowlists.get_or_insert_with(Vec::new).push(a)] on the last rule. *)
Definition add_raw_allowlist (a : RuleAllowlistRaw) (r : RuleRaw) : RuleRaw :=
  MkRuleRaw (rr_id r) (rr_description r) (rr_regex r) (rr_entropy r) (rr_keywords r)
    (rr_secret_group r) (rr_path r) (Some (default [] (rr_allowlists r) ++ [a])).
Definition set_raw_allowlists (a : list RuleAllowlistRaw) (r : RuleRaw) : RuleRaw :=
  MkRuleRaw (rr_id r) (rr_description r) (rr_regex r) (rr_entropy r) (rr_keywords r)
    (rr_secret_group r) (rr_path r) (Some a).

(** The rules so far, newest first, and the allowlists that wait for a rule. *)
Definition TableState : Type := list RuleRaw * list RuleAllowlistRaw.

Definition take_allowlist (st : TableState) (entry : nat * Toml) : TableState :=
  let (out, pending) := st in
  match entry.2 with
  | TTable t =>
      match toml_rule_allowlist t with
      | None => st
      | Some a =>
          match entry.1, out with
          | O, last :: out => (add_raw_allowlist a last :: out, pending)
          | _, _ => (out, pending ++ [a])
          end
      end
  | _ => st
  end.

Definition take_entry (st : TableState) (entry : str * Toml) : TableState :=
  let (key, val) := entry in
  if streqb key (lit "allowlists") then
    match val with
    | TArray arr => foldl take_allowlist st (imap pair arr)
    | _ => st
    end
  else if negb (match parse_uint u64_max key with Some _ => true | None => false end) then st
  else
    match val with
    | TTable t =>
        match toml_rule t with
        | None => st
        | Some r =>
            match st with
            | (out, first :: pending) => (set_raw_allowlists [first] r :: out, pending)
            | (out, []) => (r :: out, [])
            end
        end
    | _ => st
    end.

Definition rules_from_table (t : list (str * Toml)) : list RuleRaw :=
  reverse (foldl take_entry ([], []) t).1.

Definition toml_get (v : Toml) (key : str) : option Toml :=
  match v with TTable t => snd <$> List.find (λ e, streqb e.1 key) t | _ => None end.

Definition config_failed {B} (context message : str) : result B AnyhowError :=
  Err (MkAnyhow [context] (CMessage message) []).
Definition config_error {B} (message : str) : result B AnyhowError :=
  Err (MkAnyhow [] (CMessage message) []).

Definition raw_rules (toml_str : str) (value : Toml) : result (list RuleRaw) AnyhowError :=
  match toml_get value (lit "rules") with
  | None => config_error (lit "gitleaks.toml must have [rules]")
  | Some (TArray _) =>
      match toml_rules toml_str with
      | Ok rules => Ok rules
      | Err e => config_failed (lit "Failed to parse gitleaks.toml rules") e
      end
  | Some (TTable t) => Ok (rules_from_table t)
  | Some TOther => config_error (lit "gitleaks.toml rules must be array or table")
  end.

Definition compile_rule (r : RuleRaw) : option CompiledRule :=
  regex_str ← rr_regex r; compiled_rule r <$> compile_rule_regex regex_str.

Definition merge_overrides_into_rules (rules : list CompiledRule) (overlay_toml : str)
  : list CompiledRule :=
  match toml_overrides overlay_toml with
  | Ok file => merge_overrides rules file
  | Err _ => rules
  end.

Definition load_compiled (toml_str overlay_toml : str) : result GitleaksCompiled AnyhowError :=
  match toml_parse toml_str with
  | Err e => config_failed (lit "Failed to parse gitleaks.toml") e
  | Ok value =>
      let global_allowlist :=
        compile_global_allowlist (toml_get value (lit "allowlist") ≫= toml_allowlist) in
      match raw_rules toml_str value with
      | Err e => Err e
      | Ok raw =>
          let rules := omap compile_rule raw in
          if negb (nonempty rules) then
            config_error (lit "gitleaks.toml produced no valid rules")
          else
            let rules := merge_overrides_into_rules rules overlay_toml in
            let (rules, keyword_prefilter) := build_keyword_prefilter rules in
            Ok (MkGitleaks global_allowlist rules keyword_prefilter)
      end
  end.
End Compile.
End Compiled.

(** ** Lemmas: the prefilter *)

Lemma elem_of_dedup x l : x ∈ dedup l <-> x ∈ l.
Proof.
  induction l as [|a l IH]; [done|]. destruct l as [|b l]; [done|].
  change (dedup (a :: b :: l)) with (if (a =? b)%nat then dedup (b :: l) else a :: dedup (b :: l)).
  destruct (Nat.eqb_spec a b) as [->|Hn].
  - rewrite IH. set_solver.
  - rewrite !(elem_of_cons _ x a), IH. set_solver.
Qed.

(** Ids and keywords name each other. *)
Definition interned (p : Patterns) : Prop := ∀ kw id, p.1 !! kw = Some id <-> p.2 !! id = Some kw.

Lemma intern_keyword_spec p kw p' id : interned p -> intern_keyword p kw = Some (p', id) ->
  interned p' ∧ p.2 `prefix_of` p'.2 ∧ p'.2 !! id = Some kw.
Proof.
  intros Hi. unfold intern_keyword. destruct (p.1 !! kw) as [id'|] eqn:E.
  { intros [= <- <-]. split_and!; [done|done|by apply Hi]. }
  destruct (_ <? _); [done|]. intros [= <- <-]. cbn [fst snd]. split_and!.
  - intros kw' id. cbn [fst snd]. destruct (decide (kw' = kw)) as [->|Hn].
    + rewrite lookup_insert_eq. split.
      * intros [= <-]. by rewrite list_lookup_middle.
      * intros H. apply lookup_app_Some in H as [H|[Hl H]]; [apply Hi in H; congruence|].
        apply list_lookup_singleton_Some in H as [H _]. f_equal. lia.
    + rewrite lookup_insert_ne by done. rewrite (Hi kw' id). split.
      * intros H. by apply lookup_app_l_Some.
      * intros H. apply lookup_app_Some in H as [H|[_ H]]; [done|].
        apply list_lookup_singleton_Some in H as [_ H]. congruence.
  - by apply prefix_app_r.
  - by rewrite list_lookup_middle.
Qed.

Lemma intern_keywords_spec kws : ∀ p p' ids, interned p -> intern_keywords p kws = Some (p', ids) ->
  interned p' ∧ p.2 `prefix_of` p'.2
  ∧ (∀ id, id ∈ ids <-> ∃ kw, kw ∈ kws ∧ kw <> [] ∧ p'.2 !! id = Some kw)
  ∧ ∀ kw, kw ∈ kws -> kw <> [] -> ∃ id, id ∈ ids ∧ p'.2 !! id = Some kw.
Proof.
  induction kws as [|kw kws IH]; intros p p' ids Hi; cbn [intern_keywords].
  { intros [= <- <-]. split_and!; [done|done|set_solver|set_solver]. }
  destruct (nonempty kw) eqn:En; cbn [negb].
  - destruct (intern_keyword p kw) as [[p1 id]|] eqn:E1; [|done]. cbn [mbind option_bind].
    destruct (intern_keywords p1 kws) as [[p2 ids2]|] eqn:E2; [|done]. intros [= <- <-].
    destruct (intern_keyword_spec _ _ _ _ Hi E1) as (H1 & H2 & H3).
    destruct (IH _ _ _ H1 E2) as (H4 & H5 & H6 & H7).
    assert (H8 : p2.2 !! id = Some kw) by by eapply prefix_lookup_Some.
    split_and!; [done|by etrans| |].
    + intros id'. rewrite elem_of_cons, H6. split.
      * intros [->|(k & Hk & Hne & Hl)].
        -- exists kw. split_and!; [by left|by destruct kw|done].
        -- exists k. split_and!; [by right|done|done].
      * intros (k & [->|Hk]%elem_of_cons & Hne & Hl); [left|right; eauto].
        apply H4 in H8, Hl. congruence.
    + intros k [->|Hk]%elem_of_cons Hne.
      * exists id. split; [by left|done].
      * destruct (H7 k Hk Hne) as (id' & ? & ?). exists id'. split; [by right|done].
  - intros E. destruct (IH _ _ _ Hi E) as (H4 & H5 & H6 & H7).
    assert (kw = []) as -> by by destruct kw. split_and!; [done|done| |].
    + intros id. rewrite H6. split; intros (k & Hk & Hne & Hl).
      * exists k. split_and!; [by right|done|done].
      * apply elem_of_cons in Hk as [->|Hk]; [done|]. eauto.
    + intros k [->|Hk]%elem_of_cons Hne; [done|eauto].
Qed.

Section Prefilter.
Context `{X : SpanRegex} `{A : AcOverlap} {AL : AcOverlapLaws A}.

Definition rule_keywords (r : CompiledRule) : list str := default [] (cr_keywords r).

(** The ids of a rule are those of its keywords; without ids it has none that counts. *)
Definition ids_match (patterns : list str) (r : CompiledRule) : Prop :=
  match cr_keyword_pattern_ids r with
  | Some ids => ids <> []
      ∧ (∀ id, id ∈ ids -> ∃ kw, kw ∈ rule_keywords r ∧ kw <> [] ∧ patterns !! id = Some kw)
      ∧ ∀ kw, kw ∈ rule_keywords r -> kw <> [] -> ∃ id, id ∈ ids ∧ patterns !! id = Some kw
  | None => ∀ kw, kw ∈ rule_keywords r -> kw = []
  end.

(** What the loop leaves of a rule but its ids. *)
Definition same_but_ids (r r' : CompiledRule) : Prop := set_ids None r' = set_ids None r.

Lemma ids_match_grow patterns patterns' r : patterns `prefix_of` patterns' ->
  ids_match patterns r -> ids_match patterns' r.
Proof.
  intros Hp. unfold ids_match. destruct (cr_keyword_pattern_ids r) as [ids|]; [|done].
  intros (H1 & H2 & H3). split_and!; [done| |].
  - intros id Hid. destruct (H2 id Hid) as (kw & ? & ? & ?). exists kw.
    split_and!; try done. by eapply prefix_lookup_Some.
  - intros kw Hk Hne. destruct (H3 kw Hk Hne) as (id & ? & ?). exists id. split; [done|].
    by eapply prefix_lookup_Some.
Qed.

Lemma assign_ids_spec rules : ∀ p rules' p', interned p ->
  Forall (λ r, cr_keyword_pattern_ids r = None) rules ->
  assign_ids p rules = (rules', Some p') ->
  p.2 `prefix_of` p'.2 ∧ Forall2 (λ r r', same_but_ids r r' ∧ ids_match p'.2 r') rules rules'.
Proof.
  induction rules as [|rule rules IH]; intros p rules' p' Hi; cbn [assign_ids].
  { intros _ [= <- <-]. by split; [|constructor]. }
  intros [Hn Hr]%Forall_cons_iff. destruct (cr_keywords rule) as [kws|] eqn:Ek.
  - destruct (intern_keywords p kws) as [[p1 ids]|] eqn:E1; [|done].
    destruct (intern_keywords_spec _ _ _ _ Hi E1) as (H1 & H2 & H3 & H4).
    destruct (assign_ids p1 rules) as [rest o] eqn:E2. intros [= <- ->].
    destruct (IH _ _ _ H1 Hr E2) as [H5 H6]. split; [by etrans|]. constructor; [|done].
    destruct ids as [|i ids'] eqn:Ei; cbn [nonempty].
    + split; [done|]. unfold ids_match, rule_keywords. rewrite Hn, Ek. intros kw Hk. cbn in Hk.
      destruct kw as [|c kw]; [done|]. destruct (H4 (c :: kw) Hk) as (id & Hid & _); [done|].
      by apply elem_of_nil in Hid.
    + rewrite <- Ei in *. split; [done|]. apply (ids_match_grow p1.2); [done|].
      unfold ids_match, rule_keywords. cbn [cr_keyword_pattern_ids cr_keywords set_ids]. rewrite Ek. cbn [default].
      assert (He : ∀ id, id ∈ dedup (sort_by_key Z.of_nat ids) <-> id ∈ ids).
      { intros id. by rewrite elem_of_dedup, sort_by_key_perm. }
      split_and!.
      * intros E. assert (Hx : i ∈ ids) by (rewrite Ei; by left). apply He in Hx.
        rewrite E in Hx. by apply elem_of_nil in Hx.
      * intros id Hid%He. by apply H3.
      * intros kw Hk Hne. destruct (H4 kw Hk Hne) as (id & Hid & ?). exists id.
        split; [by apply He|done].
  - destruct (assign_ids p rules) as [rest o] eqn:E2. intros [= <- ->].
    destruct (IH _ _ _ Hi Hr E2) as [H5 H6]. split; [done|]. constructor; [|done].
    split; [done|]. unfold ids_match, rule_keywords. rewrite Hn, Ek. set_solver.
Qed.

(** Whether the prefilter lets a rule run. *)
Definition gate_open (r : CompiledRule) (matched : option (gset nat)) : bool :=
  match cr_keyword_pattern_ids r, matched with
  | Some ids, Some matched => negb (nonempty ids) || any_id_present ids matched
  | _, _ => true
  end.

Lemma elem_of_matched_ids a body id :
  id ∈ matched_pattern_ids a body <-> id ∈ overlapping_ids a body.
Proof.
  unfold matched_pattern_ids.
  assert (H : ∀ l (acc : gset nat), id ∈ foldl (λ found id, {[id]} ∪ found) acc l <-> id ∈ acc ∨ id ∈ l).
  { induction l as [|x l IH]; intros acc; cbn [foldl]; [set_solver|]. rewrite IH. set_solver. }
  rewrite H. set_solver.
Qed.

Lemma any_id_present_iff ids matched :
  any_id_present ids matched = true <-> ∃ id, id ∈ ids ∧ id ∈ matched.
Proof.
  unfold any_id_present. rewrite existsb_exists. split.
  - intros (id & Hi%list_elem_of_In & Hm%bool_decide_eq_true). eauto.
  - intros (id & Hi & Hm). exists id. split; [by apply list_elem_of_In|by apply bool_decide_eq_true].
Qed.

(** The prefilter lets a rule run exactly on the texts that hold one of its keywords in any
    case; a rule without keywords always runs.  Nothing else of a rule changes. *)
Lemma prefilter_exact rules rules' a :
  Forall (λ r, cr_keyword_pattern_ids r = None) rules ->
  build_keyword_prefilter rules = (rules', Some a) ->
  Forall2 same_but_ids rules rules'
  ∧ ∀ r body, r ∈ rules' ->
      gate_open r (Some (matched_pattern_ids a body)) = true
      <-> (∀ kw, kw ∈ rule_keywords r -> kw = [])
          ∨ ∃ kw, kw ∈ rule_keywords r ∧ kw <> [] ∧ occurs kw body.
Proof.
  intros Hn. unfold build_keyword_prefilter.
  destruct (assign_ids (∅, []) rules) as [rs [[ids patterns]|]] eqn:E; [|done].
  destruct (nonempty patterns); [|done]. cbn [negb].
  destruct (ac_build patterns) as [a'|] eqn:Eb; [|done]. intros [= <- <-].
  apply assign_ids_spec in E as [_ Hf]; [|by intros kw id; cbn; rewrite lookup_empty|done].
  cbn [snd] in Hf. split; [eapply list.Forall2_impl; [exact Hf|]; by intros r r' []|].
  intros r body Hr. assert (Hids : ids_match patterns r).
  { apply list_elem_of_lookup_1 in Hr as [i Hi].
    by destruct (Forall2_lookup_r _ _ _ _ _ Hf Hi) as (? & _ & _ & ?). }
  unfold gate_open. unfold ids_match in Hids.
  destruct (cr_keyword_pattern_ids r) as [l|]; [|by split; [left|]].
  destruct Hids as (Hne & H1 & H2).
  replace (negb (nonempty l)) with false by (by destruct l). cbn [orb].
  rewrite any_id_present_iff. setoid_rewrite elem_of_matched_ids.
  setoid_rewrite (overlapping_law _ _ body _ Eb). split.
  - intros (id & Hid & kw & Hkw & Ho). right. destruct (H1 id Hid) as (kw' & Hk & Hn' & E).
    exists kw'. split_and!; [done|done|congruence].
  - intros [Hall|(kw & Hk & Hn' & Ho)].
    + destruct l as [|id l]; [done|]. destruct (H1 id) as (kw & Hk & Hn' & _); [by left|].
      by destruct Hn'; apply Hall.
    + destruct (H2 kw Hk Hn') as (id & Hid & E). eauto.
Qed.

(** The rules of a configuration have no ids before the prefilter is built. *)
Definition no_ids (r : CompiledRule) : Prop := cr_keyword_pattern_ids r = None.

Section Loaded.
Context `{L : Lowercase} `{Up : Uppercase} `{T : TomlLib}.

Lemma update_first_Forall {V} (P : V -> Prop) Q f l l' :
  (∀ x, P x -> P (f x)) -> Forall P l -> update_first Q f l = Some l' -> Forall P l'.
Proof.
  intros Hf. revert l'. induction l as [|x l IH]; intros l'; cbn [update_first]; [done|].
  intros [Hx Hl]%Forall_cons_iff. destruct (Q x).
  - intros [= <-]. constructor; [by apply Hf|done].
  - destruct (update_first Q f l) as [r|]; [|done]. intros [= <-]. constructor; [done|by apply IH].
Qed.

Lemma override_rule_no_ids rules r : Forall no_ids rules -> Forall no_ids (override_rule rules r).
Proof.
  intros H. unfold override_rule. destruct (regex_str ← rr_regex r; rx_new regex_str); [|done].
  destruct (update_first _ _ rules) as [l|] eqn:E; cbn [default].
  - eapply update_first_Forall; [|done|done]. by intros ? _.
  - apply Forall_app. split; [done|]. by constructor.
Qed.

Lemma append_override_no_ids rules a : Forall no_ids rules -> Forall no_ids (append_override rules a).
Proof.
  intros H. unfold append_override. destruct (update_first _ _ rules) as [l|] eqn:E; [|done].
  eapply update_first_Forall; [|done|done]. by intros [].
Qed.

Lemma foldl_Forall {V W} (P : V -> Prop) (f : list V -> W -> list V) ws : (∀ l w, Forall P l -> Forall P (f l w)) ->
  ∀ l, Forall P l -> Forall P (foldl f l ws).
Proof. intros Hf. induction ws as [|w ws IH]; intros l Hl; [done|]. cbn. by apply IH, Hf. Qed.

(** With a loaded configuration the prefilter lets a rule run exactly on the texts that hold
    one of its keywords in any case, unless the rule has none. *)
Lemma loaded_gate toml overlay config a r body : load_compiled toml overlay = Ok config ->
  gl_keyword_prefilter config = Some a -> r ∈ gl_rules config ->
  gate_open r (Some (matched_pattern_ids a body)) = true
  <-> (∀ kw, kw ∈ rule_keywords r -> kw = [])
      ∨ ∃ kw, kw ∈ rule_keywords r ∧ kw <> [] ∧ occurs kw body.
Proof.
  unfold load_compiled. destruct (toml_parse toml) as [value|]; [|done].
  destruct (raw_rules toml value) as [raw|]; [|done]. destruct (negb _); [done|].
  destruct (build_keyword_prefilter _) as [rules p] eqn:E. intros [= <-]. cbn. intros -> Hr.
  apply prefilter_exact in E as [_ E]; [by apply E|].
  assert (Hraw : Forall no_ids (omap compile_rule raw)).
  { apply List.Forall_forall. intros x Hx%list_elem_of_In%list_elem_of_omap.
    destruct Hx as (y & _ & Hy). unfold compile_rule in Hy.
    destruct (rr_regex y) as [re|]; [|done]. cbn in Hy.
    destruct (compile_rule_regex re); [|done]. by injection Hy as <-. }
  unfold merge_overrides_into_rules, merge_overrides. destruct (toml_overrides overlay); [|done].
  apply foldl_Forall; [intros; by apply append_override_no_ids|].
  apply foldl_Forall; [intros; by apply override_rule_no_ids|done].
Qed.
End Loaded.
End Prefilter.
