(* ===== verification/Secrets.v ===== *)
(** * Exposed secrets ([src/src/parse/secrets.rs])

    The scan of a page body or of a header block with the rules of [Gitleaks].  Offsets are
    bytes; a slice that would panic makes a function return [None]. *)

From Stdlib Require Import SpecFloat.
From S2P Require Import Prelude Sanitize Float Net Json Dns StorageRecord StrIndex.
From S2P Require Import Response Literals Jwt Gitleaks.

Definition CONTEXT_CHARS : nat := 80.
Definition MAX_CONTEXT_BYTES : nat := 1024.
Definition MAX_LINE_WINDOW_BYTES : nat := 512.

(** [f64::log2]. *)
Class Log2 := { log2 : spec_float -> spec_float }.

Definition f64_lt (a b : spec_float) : bool :=
  match SFcompare a b with Some Lt => true | _ => false end.
Definition f64_ge (a b : spec_float) : bool :=
  match SFcompare a b with Some Gt | Some Eq => true | _ => false end.

(** ** Plausibility of a match *)

Definition byte_counts (bytes : list Z) : list Z :=
  foldl (λ counts b, alter (Z.add 1) (Z.to_nat b) counts) (replicate 256 0) bytes.

Definition shannon_entropy `{G : Log2} (s : str) : spec_float :=
  match s with
  | [] => S754_zero false
  | _ =>
      let len := f64_of_int (Z.of_nat (blen s)) in
      foldl (λ entropy c,
          if 0 <? c then
            let p := f64_div (f64_of_int c) len in f64_sub entropy (f64_mul p (log2 p))
          else entropy)
        (S754_zero false) (byte_counts (encode s))
  end.

Definition GENERIC_API_KEY_MIN_ENTROPY : spec_float := f64_of_int 4.
Definition GENERIC_API_KEY_HEX_MIN_ENTROPY : spec_float := f64_div (f64_of_int 35) (f64_of_int 10).
Definition GENERIC_API_KEY_MIN_LEN : nat := 16.
Definition GENERIC_API_KEY_HEX_MIN_LEN : nat := 32.

Definition is_ascii_alphabetic (c : Z) : bool := is_ascii_upper c || is_ascii_lower c.

(** [windows(2)] of the bytes. *)
Fixpoint camel_case_bytes (bytes : list Z) : bool :=
  match bytes with
  | a :: (b :: _) as rest => (is_ascii_lower a && is_ascii_upper b) || camel_case_bytes rest
  | _ => false
  end.
Definition looks_like_camel_case_identifier (s : str) : bool := camel_case_bytes (encode s).

Definition uuid_hyphen (i : nat) : bool :=
  existsb (Nat.eqb i) [8; 13; 18; 23]%nat.

Definition looks_like_hyphenated_uuid (s : str) : bool :=
  let b := encode s in
  if negb (length b =? 36)%nat then false
  else if negb (forallb (λ i, nth i b 0 =? 45) [8; 13; 18; 23]%nat) then false
  else forallb id (imap (λ i c, uuid_hyphen i || is_ascii_hexdigit c) b).

Definition generic_api_key_is_plausible `{G : Log2} (value : str) : bool :=
  let bytes := encode value in
  if (blen value <? GENERIC_API_KEY_MIN_LEN)%nat then false
  else if looks_like_hyphenated_uuid value then false
  else if contains_char 46 value || contains_char 61 value then false
  else if looks_like_camel_case_identifier value then false
  else if negb (forallb (λ b, is_ascii_alphanumeric b || (b =? 45) || (b =? 95) || (b =? 43)
                              || (b =? 47)) bytes) then false
  else if forallb is_ascii_alphabetic bytes then false
  else
    let hex_digits := length (List.filter is_ascii_hexdigit bytes) in
    if (blen value * 4 <=? hex_digits * 5)%nat then
      if (blen value <? GENERIC_API_KEY_HEX_MIN_LEN)%nat then false
      else f64_ge (shannon_entropy value) GENERIC_API_KEY_HEX_MIN_ENTROPY
    else f64_ge (shannon_entropy value) GENERIC_API_KEY_MIN_ENTROPY.

Definition datadog_markers : list str :=
  map lit ["datadog"; "dd_api"; "dd_app"; "ddapikey"; "ddappkey"; "dd_rum"; "dd_logs";
           "dd_client"; "dd_site"]%string.
Definition nearby_text_looks_like_datadog (nearby_text : str) : bool :=
  let lower := to_ascii_lowercase nearby_text in existsb (λ m, contains m lower) datadog_markers.

Definition DISTINCTIVE_USERINFO_PREFIXES : list str :=
  map lit ["ghp_"; "glpat-"; "sk_"; "xox"; "AKIA"]%string.
Definition captured_has_distinctive_userinfo_prefix (value : str) : bool :=
  existsb (λ prefix, starts_with prefix value) DISTINCTIVE_USERINFO_PREFIXES.

(** [s.split(c).next()]. *)
Definition before_char (c : Z) (s : str) : str := default s (head (split_char c s)).

Definition full_match_userinfo_has_colon (full_match : str) : bool :=
  match split_once_str (lit "://") full_match with
  | None => false
  | Some (_, rest) => contains_char 58 (before_char 64 rest)
  end.

Definition userinfo_user_is_mailbox_shaped (full_match : str) : bool :=
  match split_once_str (lit "://") full_match with
  | None => false
  | Some (_, rest) =>
      let user := before_char 58 (before_char 64 rest) in
      match split_once_str (lit "%40") (to_ascii_lowercase user) with
      | None => false
      | Some (local, domain) =>
          nonempty local && contains_char 46 domain
          && forallb (λ b, is_ascii_alphanumeric b || (b =? 46) || (b =? 45)) (encode domain)
      end
  end.

Definition credential_bearing_url_is_plausible (matched_value full_match line_content : str)
  : bool :=
  if captured_has_distinctive_userinfo_prefix matched_value then true
  else if contains (lit "mailto:") (to_ascii_lowercase line_content) then false
  else if userinfo_user_is_mailbox_shaped full_match then false
  else if negb (full_match_userinfo_has_colon full_match) then false
  else true.

Definition web_rule_match_is_plausible_in_context
    (rule_id matched_value nearby_text full_match line_content : str) : bool :=
  if streqb rule_id (lit "datadog-access-token") then nearby_text_looks_like_datadog nearby_text
  else if streqb rule_id (lit "credential-bearing-url") then
    credential_bearing_url_is_plausible matched_value full_match line_content
  else true.

Definition PRIVATE_KEY_MIN_DECODED_BODY : nat := 64.
Definition HTTP_BASIC_MIN_DECODED_LEN : nat := 10.

Definition pem_base64_body (pem : str) : option str :=
  begin ← find (lit "-----BEGIN") pem;
  after_first_dashes ← slice_from pem (begin + 5);
  header_end_rel ← find (lit "-----") after_first_dashes;
  let body_start := (begin + 5 + header_end_rel + 5)%nat in
  rest ← slice_from pem body_start;
  let body_end :=
    default (blen rest)
      (match find (lit "-----END") rest with
       | Some i => Some i
       | None => rfind (lit "KEY-----") rest
       end) in
  raw ← slice_to rest body_end;
  let b64 :=
    List.filter (λ c, is_ascii_alphanumeric c || (c =? 43) || (c =? 47) || (c =? 61)) raw in
  if nonempty b64 then Some b64 else None.

Section Encoded.
Context `{B : Base64}.

Definition pem_decoded_body_len (pem : str) : nat :=
  match pem_base64_body pem with
  | None => O
  | Some b64 =>
      match standard_decode b64 with
      | Some bytes => length bytes
      | None => if (86 <=? blen b64)%nat then (blen b64 * 3 / 4)%nat else O
      end
  end.

Definition private_key_body_is_plausible (pem : str) : bool :=
  (PRIVATE_KEY_MIN_DECODED_BODY <=? pem_decoded_body_len pem)%nat.

Definition decode_http_basic (value : str) : option (list Z) :=
  let trimmed := trim value in
  match standard_decode trimmed with
  | Some bytes => Some bytes
  | None => standard_no_pad_decode trimmed
  end.

Definition placeholder_users : list str :=
  map lit ["user"; "foo"; "bar"; "beep"; "admin"]%string.
Definition placeholder_passes : list str :=
  map lit ["pass"; "password"; "foo"; "bar"; "beep"; "boop"]%string.
Definition http_basic_pair_is_placeholder (user pass : str) : bool :=
  bool_decide (to_ascii_lowercase user ∈ placeholder_users)
  && bool_decide (to_ascii_lowercase pass ∈ placeholder_passes).

Definition http_basic_auth_is_plausible (matched_value : str) : bool :=
  match decode_http_basic matched_value with
  | None => false
  | Some bytes =>
      if (length bytes <? HTTP_BASIC_MIN_DECODED_LEN)%nat then false
      else
        match from_utf8 bytes with
        | None => true
        | Some decoded =>
            match split_once 58 decoded with
            | None => false
            | Some (user, pass) => negb (http_basic_pair_is_placeholder user pass)
            end
        end
  end.

Definition web_rule_match_is_plausible `{G : Log2} (rule_id matched_value : str) : bool :=
  let rule id := streqb rule_id id in
  if rule (lit "generic-api-key") then generic_api_key_is_plausible matched_value
  else if rule (lit "sourcegraph-access-token") then starts_with (lit "sgp_") matched_value
  else if rule (lit "vault-service-token") then
    match strip_prefix (lit "s.") matched_value with
    | Some rest => negb (looks_like_camel_case_identifier rest)
    | None => true
    end
  else if rule (lit "linkedin-client-id") || rule (lit "linkedin-client-secret") then
    let starts_lower :=
      match matched_value with c :: _ => is_ascii_lower c | [] => false end in
    negb (starts_lower && looks_like_camel_case_identifier matched_value)
  else if rule (lit "private-key") then private_key_body_is_plausible matched_value
  else if rule (lit "http-basic-auth") then http_basic_auth_is_plausible matched_value
  else true.
End Encoded.

(** ** Severity *)

Definition critical_rules : list str :=
  map lit ["private-key"; "database-connection-uri"; "jdbc-connection-string";
    "credential-bearing-url"; "slack-bot-token"; "slack-user-token"; "slack-legacy-token";
    "slack-legacy-bot-token"; "github-pat"; "github-fine-grained-pat"; "gitlab-pat";
    "vault-batch-token"; "vault-service-token"]%string.
Definition high_rules : list str :=
  map lit ["aws-access-token"; "http-basic-auth"; "mailchimp-api-key"; "openai-api-key";
    "anthropic-api-key"; "anthropic-admin-api-key"; "sendgrid-api-token"; "twilio-api-key";
    "npm-access-token"; "pypi-upload-token"; "digitalocean-access-token"; "digitalocean-pat";
    "heroku-api-key"; "heroku-api-key-v2"; "flyio-access-token"; "shopify-access-token";
    "shopify-private-app-access-token"; "shopify-shared-secret"; "bitbucket-client-secret";
    "mailgun-private-api-token"; "cloudflare-api-key"; "doppler-api-token"; "plaid-secret-key";
    "plaid-api-token"; "fastly-api-token"]%string.
Definition medium_rules : list str :=
  map lit ["azure-ad-client-secret"; "slack-webhook-url"; "slack-app-token"; "algolia-api-key";
    "datadog-access-token"; "grafana-api-key"; "grafana-cloud-api-token"; "sentry-access-token";
    "linear-api-key"; "generic-api-key"]%string.
Definition low_rules : list str :=
  map lit ["gcp-api-key"; "mapbox-api-token"; "contentful-delivery-api-token"; "jwt";
    "jwt-base64"]%string.

Definition severity_for_unknown_rule_id (rule_id : str) : SecretSeverity :=
  let has p := contains (lit p) rule_id in
  if existsb has ["private-key"; "password"; "client-secret"; "client_secret"]%string then High
  else if existsb has ["token"; "api-key"; "api_key"; "access-key"; "access_key"; "secret";
                       "pat"; "cred"]%string then Medium
  else Low.

Definition severity_for_rule_id (rule_id : str) : SecretSeverity :=
  let among := existsb (streqb rule_id) in
  if among critical_rules then Critical
  else if among high_rules then High
  else if among medium_rules then Medium
  else if among low_rules then Low
  else severity_for_unknown_rule_id rule_id.

Definition algolia_admin_markers : list str :=
  map lit ["admin_key"; "adminkey"; "adminapikey"; "admin_api_key"; "algolia_admin";
           "algoliaadmin"]%string.
Definition algolia_assignment_is_admin (nearby_text : str) : bool :=
  let lower := to_ascii_lowercase nearby_text in
  existsb (λ m, contains m lower) algolia_admin_markers.

Definition severity_for_finding (rule_id line_content nearby_text : str) : SecretSeverity :=
  let severity := severity_for_rule_id rule_id in
  if streqb rule_id (lit "aws-access-token")
     && contains (lit "x-amz-credential=") (to_ascii_lowercase line_content) then Low
  else if streqb rule_id (lit "algolia-api-key")
          && negb (algolia_assignment_is_admin nearby_text) then Low
  else severity.

(** ** Context, line and location of a match *)

(** The line around a match, at most 512 bytes to each side. *)
Definition line_containing (body : str) (start stop : nat) : option str :=
  window_start ← ceil_char (blen body) body (start - MAX_LINE_WINDOW_BYTES);
  let window_end := floor_char body (Nat.min (stop + MAX_LINE_WINDOW_BYTES) (blen body)) in
  before ← slice body window_start start;
  let line_start :=
    match rfind [10] before with
    | None => window_start
    | Some i => (window_start + i + 1)%nat
    end in
  after ← slice body stop window_end;
  let line_end :=
    match find [10] after with
    | None => window_end
    | Some i => (stop + i)%nat
    end in
  slice body line_start line_end.

Definition match_safe_slice (body : str) (start stop : nat) : str :=
  if (start <=? stop)%nat && (stop <=? blen body)%nat && char_boundary body start
     && char_boundary body stop
  then default [] (slice body start stop) else [].

Definition truncate_at_char_boundary (s : str) (max_bytes : nat) : option str :=
  if (blen s <=? max_bytes)%nat then Some s else slice_to s (floor_char s max_bytes).

Definition ELLIPSIS : str := lit "...[truncated]...".

Definition extract_context (body : str) (start stop : nat) : option str :=
  let ctx_start := (start - CONTEXT_CHARS)%nat in
  let ctx_end := Nat.min (stop + CONTEXT_CHARS) (blen body) in
  let safe_start := floor_char body ctx_start in
  let safe_end := default (blen body) (ceil_char (blen body - ctx_end) body ctx_end) in
  raw ← slice body safe_start safe_end;
  if (blen raw <=? MAX_CONTEXT_BYTES)%nat then Some raw
  else
    let prefix := match_safe_slice body safe_start start in
    let suffix := match_safe_slice body stop safe_end in
    let overhead := (blen prefix + blen suffix + blen ELLIPSIS)%nat in
    if (MAX_CONTEXT_BYTES <=? overhead)%nat then truncate_at_char_boundary raw MAX_CONTEXT_BYTES
    else
      let match_budget := (MAX_CONTEXT_BYTES - overhead)%nat in
      let half := (match_budget / 2)%nat in
      match_text ← slice body start stop;
      head ← truncate_at_char_boundary match_text half;
      let tail_start :=
        Nat.max (blen match_text - (match_budget - blen head)) (blen head) in
      let tail_start :=
        default (blen match_text)
          (ceil_char (blen match_text - tail_start) match_text tail_start) in
      tail ← slice_from match_text tail_start;
      Some (prefix ++ head ++ ELLIPSIS ++ tail ++ suffix).

Definition infer_location `{L : Lowercase} (context : str) : str :=
  let ctx := to_lowercase context in
  let has p := contains (lit p) ctx in
  if has "<script"%string || has "</script"%string then lit "inline_script"
  else if has "<!--"%string then lit "html_comment"
  else if has "data-"%string then lit "data_attribute"
  else if existsb has ["?key="; "&key="; "&token="; "?token="]%string then lit "url_parameter"
  else if contains (lit "content=" ++ [34]) ctx || has "content='"%string then lit "meta_tag"
  else lit "html_body".

Definition is_inside_json_ld_script (body : str) (pos : nat) : option bool :=
  before ← slice_to body (Nat.min pos (blen body));
  let lower_before := to_ascii_lowercase before in
  match rfind (lit "<script") lower_before with
  | None => Some false
  | Some script_start =>
      region ← slice_from lower_before script_start;
      if match find (lit "</script") region with
         | Some close => (script_start + close <? pos)%nat
         | None => false
         end then Some false
      else
        let tag_end := default (Nat.min (blen region) 200) (find [62] region) in
        tag ← slice_to region tag_end;
        Some (contains (lit "application/ld+json") tag)
  end.

Definition infer_location_for_body_match `{L : Lowercase} (body : str) (match_start : nat)
    (context : str) : option str :=
  inside ← is_inside_json_ld_script body match_start;
  Some (if inside : bool then lit "json_ld" else infer_location context).

(** ** The scan *)

Definition set_location (location : str) (s : ExposedSecret) : ExposedSecret :=
  MkExposedSecret (xs_secret_type s) (xs_matched_value s) (xs_context s) (xs_severity s) location
    (xs_decoded_jwt s).

Section Scan.
Context `{X : SpanRegex} `{A : AcOverlap} `{B : Base64} `{J : Serde} `{L : Lowercase} `{G : Log2}.

Definition global_allowlist_skips (global : CompiledGlobalAllowlist) (matched_value : str) : bool :=
  existsb (λ re, rx_is_match re matched_value) (ga_regexes global)
  || existsb (λ word, contains word matched_value) (ga_stopwords global).

Definition allowlist_skips (matched_value line_content full_match : str)
    (list : CompiledRuleAllowlist) : bool :=
  let target :=
    match ca_regex_target list with
    | Some t =>
        if streqb t (lit "line") then line_content
        else if streqb t (lit "match") then full_match
        else matched_value
    | None => matched_value
    end in
  if ca_condition_and list then
    if ca_has_paths list then false
    else forallb (λ re, rx_is_match re target) (ca_regexes list)
         && forallb (λ w, contains w target) (ca_stopwords list)
  else existsb (λ re, rx_is_match re target) (ca_regexes list)
       || existsb (λ w, contains w target) (ca_stopwords list).

Definition rule_allowlist_skips (allowlists : list CompiledRuleAllowlist)
    (matched_value line_content full_match : str) : bool :=
  existsb (allowlist_skips matched_value line_content full_match) allowlists.

(** [Match::as_str]: the regex crate reports offsets of characters. *)
Definition as_str_of (body : str) (m : nat * nat) : str := default [] (slice body m.1 m.2).

(** [caps.get(i)] as text. *)
Definition group (body : str) (caps : Groups) (i : nat) : option str :=
  as_str_of body <$> (caps !! i ≫= id).

Fixpoint first_group (body : str) (groups : list (option (nat * nat))) : option str :=
  match groups with
  | [] => None
  | Some m :: groups =>
      if nonempty (as_str_of body m) then Some (as_str_of body m) else first_group body groups
  | None :: groups => first_group body groups
  end.

Definition extract_secret (body : str) (captures : option Groups) (full_match : str)
    (secret_group : option Z) : str :=
  match captures with
  | None => full_match
  | Some caps =>
      let named :=
        n ← secret_group;
        if 0 <? n then group body caps (Z.to_nat n) else None in
      match named with
      | Some s => s
      | None => default full_match (first_group body (tail caps))
      end
  end.

(** Findings so far, newest first, and the pairs seen. *)
Definition ScanState : Type := list ExposedSecret * list (str * str).

(** The guards of a match, in order, up to the surrounding text. *)
Definition value_passes (config : GitleaksCompiled) (rule : CompiledRule) (matched_value : str)
  : bool :=
  if match cr_entropy rule with
     | Some threshold => f64_lt (shannon_entropy matched_value) threshold
     | None => false
     end then false
  else if global_allowlist_skips (gl_global_allowlist config) matched_value then false
  else web_rule_match_is_plausible (cr_id rule) matched_value.

Definition text_passes (rule : CompiledRule) (matched_value context full_match line_content : str)
  : bool :=
  web_rule_match_is_plausible_in_context (cr_id rule) matched_value context full_match line_content
  && negb (rule_allowlist_skips (cr_allowlists rule) matched_value line_content full_match).

Definition decoded_for (rule_id matched_value : str) : option DecodedJwt :=
  if streqb rule_id (lit "jwt") then decode_jwt matched_value
  else if streqb rule_id (lit "jwt-base64") then decode_jwt_base64 matched_value
  else None.

Definition examine_match (config : GitleaksCompiled) (rule : CompiledRule) (body : str)
    (st : ScanState) (cap : Groups) : option ScanState :=
  let (results, seen) := st in
  match cap !! O ≫= id with
  | None => Some st
  | Some (start, stop) =>
      let full_match := as_str_of body (start, stop) in
      let matched_value := extract_secret body (Some cap) full_match (cr_secret_group rule) in
      if negb (value_passes config rule matched_value) then Some st
      else
        context ← extract_context body start stop;
        line_content ← line_containing body start stop;
        if negb (text_passes rule matched_value context full_match line_content) then Some st
        else
          let key := (cr_id rule, matched_value) in
          if bool_decide (key ∈ seen) then Some st
          else
            location ← infer_location_for_body_match body start context;
            let severity := severity_for_finding (cr_id rule) line_content context in
            Some (MkExposedSecret (cr_id rule) matched_value context severity location
                    (decoded_for (cr_id rule) matched_value) :: results, key :: seen)
  end.

(** A loop whose body can panic. *)
Fixpoint each {S T} (f : S -> T -> option S) (s : S) (l : list T) : option S :=
  match l with
  | [] => Some s
  | x :: l => s ← f s x; each f s l
  end.

(** The rule is tried: no path, and the prefilter does not exclude it. *)
Definition rule_runs (matched_keyword_ids : option (gset nat)) (rule : CompiledRule) : bool :=
  match cr_path rule with
  | Some _ => false
  | None => gate_open rule matched_keyword_ids
  end.

Definition examine_rule (config : GitleaksCompiled) (body : str)
    (matched_keyword_ids : option (gset nat)) (st : ScanState) (rule : CompiledRule)
  : option ScanState :=
  if rule_runs matched_keyword_ids rule
  then each (examine_match config rule body) st (captures_iter (cr_regex rule) body)
  else Some st.

Definition detect_exposed_secrets_inner (config : GitleaksCompiled) (body : str)
    (use_prefilter : bool) : option (list ExposedSecret) :=
  let matched_keyword_ids :=
    if use_prefilter then (λ p, matched_pattern_ids p body) <$> gl_keyword_prefilter config
    else None in
  '(results, _) ← each (examine_rule config body matched_keyword_ids) ([], []) (gl_rules config);
  Some (reverse results).

Definition detect_exposed_secrets (config : GitleaksCompiled) (body : str)
  : option (list ExposedSecret) := detect_exposed_secrets_inner config body true.

Definition detect_exposed_secrets_unfiltered (config : GitleaksCompiled) (body : str)
  : option (list ExposedSecret) := detect_exposed_secrets_inner config body false.

Definition detect_exposed_secrets_in_headers (config : GitleaksCompiled) (header_block : str)
  : option (list ExposedSecret) :=
  found ← detect_exposed_secrets_inner config header_block true;
  Some (map (λ secret,
    set_location (if contains (lit "set-cookie:") (to_ascii_lowercase (xs_context secret))
           then lit "set_cookie" else lit "response_header") secret) found).
End Scan.

(** ** Lemmas: the line and the context of a match *)

Definition suffix_at (l a : str) : Prop := ∃ a', a = a' ++ l.
Definition prefix_at (l b : str) : Prop := ∃ b', b = l ++ b'.

(** What is kept of the text before a match, [n] bytes at most. *)
Lemma window_before a r n : ∃ x y, a = x ++ y
  ∧ ceil_char (blen (a ++ r)) (a ++ r) (blen a - n) = Some (blen x) ∧ (blen y <= n)%nat
  ∧ (x = [] ∨ ∃ x' c, x = x' ++ [c] ∧ (n < width c + blen y)%nat).
Proof.
  destruct (ceil_char_spec (a ++ r) (blen a - n) (blen a) (blen (a ++ r))) as (j & Hj & Hb & Hl);
    [apply boundary_prefix|lia|rewrite blen_app; lia|].
  destruct (boundary_cut a r j Hb) as (x & y & -> & ->); [lia|].
  exists x, y. rewrite blen_app in Hl. split_and!; [done|done|lia|].
  destruct x as [|c x _] using rev_ind; [by left|right]. exists x, c. split; [done|].
  pose proof (width_pos c).
  assert (Hw : blen (x ++ [c]) = (blen x + width c)%nat) by (rewrite blen_app, blen_cons, blen_nil; lia).
  pose proof (blen_app (x ++ [c]) y) as Hs.
  destruct (Nat.le_gt_cases (blen ((x ++ [c]) ++ y) - n) (blen x)) as [Hle|]; [|lia].
  destruct (ceil_char_spec (((x ++ [c]) ++ y) ++ r) (blen ((x ++ [c]) ++ y) - n) (blen x)
    (blen (((x ++ [c]) ++ y) ++ r))) as (j' & Hj' & _ & Hl').
  - rewrite <- !app_assoc. apply boundary_prefix.
  - done.
  - rewrite !blen_app. lia.
  - rewrite Hj in Hj'. injection Hj' as <-. lia.
Qed.

(** What is kept of the text after it. *)
Lemma window_after l b n : ∃ x y, b = x ++ y
  ∧ floor_char (l ++ b) (Nat.min (blen l + n) (blen (l ++ b))) = (blen l + blen x)%nat
  ∧ (blen x <= n)%nat ∧ (y = [] ∨ ∃ c y', y = c :: y' ∧ (n < blen x + width c)%nat).
Proof.
  destruct (floor_char_spec (l ++ b) (Nat.min (blen l + n) (blen (l ++ b)))) as (Hb & Hl & Hmax).
  destruct (boundary_cut_r l b _ Hb) as (x & y & -> & Hx).
  { apply Hmax; [rewrite blen_app; lia|apply boundary_prefix]. }
  exists x, y. rewrite Hx in *. split_and!; [done|done|lia|].
  destruct y as [|c y]; [by left|right]. exists c, y. split; [done|].
  destruct (Nat.le_gt_cases (blen x + width c) n) as [Hle|]; [|lia].
  pose proof (width_pos c).
  assert (Hc : char_boundary (l ++ x ++ c :: y) (blen l + blen x + width c) = true).
  { apply boundary_iff. exists (l ++ x ++ [c]), y. rewrite !blen_app, blen_cons, blen_nil.
    split; [by rewrite <- !app_assoc|lia]. }
  specialize (Hmax (blen l + blen x + width c)%nat). rewrite !blen_app, blen_cons in Hmax.
  specialize (Hmax ltac:(lia) Hc). lia.
Qed.

(** The line of a match is the match with the text around it that holds no line break: all of
    it up to a line break, to the end of the body or to the window of 512 bytes. *)
Theorem line_containing_spec a m b : ∃ la lb,
  line_containing (a ++ m ++ b) (blen a) (blen a + blen m) = Some (la ++ m ++ lb)
  ∧ (10 ∉ la) ∧ (10 ∉ lb) ∧ (blen la <= MAX_LINE_WINDOW_BYTES)%nat
  ∧ (blen lb <= MAX_LINE_WINDOW_BYTES)%nat
  ∧ (a = la ∨ ∃ a' c, a = a' ++ c :: la ∧ (c = 10 ∨ (MAX_LINE_WINDOW_BYTES < width c + blen la)%nat))
  ∧ (b = lb ∨ ∃ c b', b = lb ++ c :: b' ∧ (c = 10 ∨ (MAX_LINE_WINDOW_BYTES < blen lb + width c)%nat)).
Proof.
  unfold line_containing. generalize MAX_LINE_WINDOW_BYTES as n. intros n.
  destruct (window_before a (m ++ b) n) as (x & y & -> & -> & Hy & Hx). cbn [mbind option_bind].
  destruct (window_after ((x ++ y) ++ m) b n) as (z & w & -> & Hz & Hzn & Hw).
  rewrite <- blen_app, <- !app_assoc in *. rewrite Hz. clear Hz.
  rewrite (slice_mid x y (m ++ z ++ w)). cbn [mbind option_bind].
  replace (x ++ y ++ m ++ z ++ w) with ((x ++ y ++ m) ++ z ++ w) by by rewrite <- !app_assoc.
  replace (x ++ y ++ m ++ z) with ((x ++ y ++ m) ++ z) by by rewrite <- !app_assoc.
  rewrite slice_mid. cbn [mbind option_bind].
  assert (HL : ∃ ya la, y = ya ++ la ∧ (10 ∉ la)
    ∧ match rfind [10] y with None => blen x | Some i => (blen x + i + 1)%nat end = blen (x ++ ya)
    ∧ (ya = [] ∨ ∃ y', ya = y' ++ [10])).
  { destruct (rfind [10] y) as [i|] eqn:E.
    - apply rfind_char_Some in E as (y1 & y2 & -> & -> & H10).
      exists (y1 ++ [10]), y2. split_and!; [by rewrite <- app_assoc|done| |right; eauto].
      rewrite !blen_app. change (blen [10]) with 1%nat. lia.
    - exists [], y. split_and!; [done|by apply rfind_char_None|by rewrite app_nil_r|by left]. }
  assert (HR : ∃ lb zb, z = lb ++ zb ∧ (10 ∉ lb)
    ∧ match find [10] z with
      | None => blen ((x ++ y ++ m) ++ z)
      | Some i => (blen (x ++ y ++ m) + i)%nat
      end = blen ((x ++ y ++ m) ++ lb)
    ∧ (zb = [] ∨ ∃ z', zb = 10 :: z')).
  { destruct (find [10] z) as [i|] eqn:E.
    - apply find_char_Some in E as (z1 & z2 & -> & -> & H10).
      exists z1, (10 :: z2). split_and!; [done|done|rewrite !blen_app; lia|right; eauto].
    - exists z, []. split_and!; [by rewrite app_nil_r|by apply find_char_None|done|by left]. }
  destruct HL as (ya & la & -> & Hla & HsL & HL), HR as (lb & zb & -> & Hlb & HsR & HR).
  exists la, lb. rewrite HsL, HsR. split_and!.
  - replace ((x ++ (ya ++ la) ++ m) ++ (lb ++ zb) ++ w)
      with ((x ++ ya) ++ (la ++ m ++ lb) ++ zb ++ w) by by rewrite <- !app_assoc.
    replace ((x ++ (ya ++ la) ++ m) ++ lb) with ((x ++ ya) ++ (la ++ m ++ lb))
      by by rewrite <- !app_assoc.
    apply slice_mid.
  - done.
  - done.
  - rewrite blen_app in Hy. lia.
  - rewrite blen_app in Hzn. lia.
  - destruct HL as [->|[y' ->]].
    + destruct Hx as [->|(x' & c & -> & Hc)]; [by left|right].
      exists x', c. rewrite <- app_assoc. split; [done|by right].
    + right. exists (x ++ y'), 10. rewrite <- !app_assoc. split; [done|by left].
  - destruct HR as [->|[z' ->]].
    + destruct Hw as [->|(c & w' & -> & Hc)]; [left; by rewrite !app_nil_r|right].
      exists c, w'. rewrite app_nil_r in *. split; [done|by right].
    + right. exists 10, (z' ++ w). rewrite <- !app_assoc. split; [done|by left].
Qed.

(** The text before a match that its context keeps, and the text after it. *)
Lemma context_before a r n : ∃ x p, a = x ++ p ∧ floor_char (a ++ r) (blen a - n) = blen x
  ∧ (blen p < n + 4)%nat ∧ (x = [] ∨ n <= blen p)%nat.
Proof.
  destruct (floor_char_spec (a ++ r) (blen a - n)) as (Hb & Hl & _).
  pose proof (floor_char_near (a ++ r) (blen a - n)) as Hn. rewrite blen_app in Hn.
  destruct (boundary_cut a r _ Hb) as (x & p & -> & Hx); [lia|]. rewrite Hx in *.
  exists x, p. rewrite blen_app in Hl, Hn. split_and!; [done|done|lia|].
  destruct (decide (n <= blen p)%nat); [by right|left]. apply blen_zero. lia.
Qed.

Lemma context_after l b n : ∃ s y, b = s ++ y
  ∧ default (blen (l ++ b)) (ceil_char (blen (l ++ b) - Nat.min (blen l + n) (blen (l ++ b)))
      (l ++ b) (Nat.min (blen l + n) (blen (l ++ b)))) = (blen l + blen s)%nat
  ∧ (blen s < n + 4)%nat ∧ (y = [] ∨ n <= blen s)%nat.
Proof.
  pose proof (blen_app l b).
  destruct (ceil_char_near (l ++ b) (Nat.min (blen l + n) (blen (l ++ b)))) as (j & Hj & Hb & Hl);
    [lia|]. rewrite Hj. cbn [default].
  destruct (boundary_cut_r l b j Hb) as (s & y & -> & ->); [lia|]. rewrite (blen_app s y) in *.
  exists s, y. split_and!; [done|done|lia|].
  destruct (decide (n <= blen s)%nat); [by right|left]. apply blen_zero. lia.
Qed.

Lemma match_safe_slice_mid a m b : match_safe_slice (a ++ m ++ b) (blen a) (blen (a ++ m)) = m.
Proof.
  unfold match_safe_slice. rewrite slice_mid, boundary_prefix.
  assert (Hb : char_boundary (a ++ m ++ b) (blen (a ++ m)) = true)
    by (rewrite app_assoc; apply boundary_prefix).
  rewrite Hb. rewrite !blen_app.
  destruct (Nat.leb_spec (blen a) (blen a + blen m)); [|lia].
  by destruct (Nat.leb_spec (blen a + blen m) (blen a + (blen m + blen b))); [|lia].
Qed.

Lemma truncate_spec s n : ∃ h t, s = h ++ t ∧ truncate_at_char_boundary s n = Some h
  ∧ (blen h <= n)%nat ∧ (t = [] ∨ n < blen h + 4)%nat.
Proof.
  unfold truncate_at_char_boundary. destruct (Nat.leb_spec (blen s) n).
  { exists s, []. rewrite app_nil_r. split_and!; [done|done|done|by left]. }
  pose proof (floor_char_near s n). destruct (floor_char_spec s n) as (Hb & Hl & _).
  apply boundary_iff in Hb as (h & t & -> & Hh). rewrite Hh in *. exists h, t.
  unfold slice_to. rewrite split_at_app. split_and!; [done|done|done|right; lia].
Qed.

(** The head and the tail of a text that are kept within a budget. *)
Lemma middle_left_out m budget : ∃ h mid t, m = h ++ mid ++ t
  ∧ truncate_at_char_boundary m (budget / 2) = Some h
  ∧ (let tail_start := Nat.max (blen m - (budget - blen h)) (blen h) in
     slice_from m (default (blen m) (ceil_char (blen m - tail_start) m tail_start))) = Some t
  ∧ (blen h + blen t <= budget)%nat.
Proof.
  destruct (truncate_spec m (budget / 2)) as (h & r & -> & Ht & Hh & _).
  pose proof (Nat.Div0.div_le_upper_bound budget 2 budget ltac:(lia)) as Hd.
  pose proof (blen_app h r) as Hb. cbv zeta.
  remember (Nat.max (blen (h ++ r) - (budget - blen h)) (blen h)) as ts eqn:Ets.
  destruct (ceil_char_near (h ++ r) ts) as (j & Ec & Hj & Hl); [lia|].
  destruct (boundary_cut_r h r j Hj) as (mid & t & -> & ->); [lia|].
  exists h, mid, t. rewrite <- Ets, Ec. unfold slice_from. cbn [default id].
  rewrite <- (blen_app h mid), (app_assoc h mid t), split_at_app.
  rewrite (blen_app mid t) in Hb. rewrite <- (app_assoc h mid t). split_and!; [done|done|done|lia].
Qed.

Lemma blen_ellipsis : blen ELLIPSIS = 17%nat.
Proof. reflexivity. Qed.

(** The context of a match never exceeds 1024 bytes and never panics: it is the match with up
    to 83 bytes of text on either side (80 and the rest of a character, or all there is), or,
    when that is too long, the same with the middle of the match left out. *)
Theorem extract_context_spec a m b : ∃ p s c,
  suffix_at p a ∧ (p = a ∨ CONTEXT_CHARS <= blen p)%nat ∧ (blen p < CONTEXT_CHARS + 4)%nat
  ∧ prefix_at s b ∧ (s = b ∨ CONTEXT_CHARS <= blen s)%nat ∧ (blen s < CONTEXT_CHARS + 4)%nat
  ∧ extract_context (a ++ m ++ b) (blen a) (blen a + blen m) = Some c
  ∧ (blen c <= MAX_CONTEXT_BYTES)%nat
  ∧ (c = p ++ m ++ s
     ∨ (MAX_CONTEXT_BYTES < blen (p ++ m ++ s))%nat
       ∧ ∃ h mid t, m = h ++ mid ++ t ∧ c = p ++ h ++ ELLIPSIS ++ t ++ s).
Proof.
  destruct (context_before a (m ++ b) CONTEXT_CHARS) as (x & p & -> & Hx & Hp & Hpx).
  destruct (context_after ((x ++ p) ++ m) b CONTEXT_CHARS) as (s & y & -> & Hy & Hs & Hsy).
  exists p, s. unfold extract_context. cbv zeta.
  rewrite <- (blen_app (x ++ p) m). rewrite <- (app_assoc (x ++ p) m (s ++ y)) in Hy.
  rewrite Hx, Hy. clear Hx Hy.
  rewrite <- (blen_app ((x ++ p) ++ m) s).
  replace ((x ++ p) ++ m ++ s ++ y) with (x ++ (p ++ m ++ s) ++ y) by by rewrite <- !app_assoc.
  replace (((x ++ p) ++ m) ++ s) with (x ++ (p ++ m ++ s)) by by rewrite <- !app_assoc.
  rewrite slice_mid. cbn [mbind option_bind].
  replace (x ++ (p ++ m ++ s) ++ y) with (x ++ p ++ (m ++ s ++ y)) by by rewrite <- !app_assoc.
  rewrite match_safe_slice_mid.
  replace (x ++ p ++ (m ++ s ++ y)) with (((x ++ p) ++ m) ++ s ++ y) by by rewrite <- !app_assoc.
  replace (x ++ p ++ m ++ s) with (((x ++ p) ++ m) ++ s) by by rewrite <- !app_assoc.
  rewrite match_safe_slice_mid.
  replace (((x ++ p) ++ m) ++ s ++ y) with ((x ++ p) ++ m ++ s ++ y) by by rewrite <- !app_assoc.
  rewrite slice_mid. cbn [mbind option_bind].
  assert (Ep : suffix_at p (x ++ p)) by by exists x.
  assert (Es : prefix_at s (s ++ y)) by by exists y.
  assert (Hpx' : p = x ++ p ∨ (CONTEXT_CHARS <= blen p)%nat)
    by (destruct Hpx as [->|]; [by left|by right]).
  assert (Hsy' : s = s ++ y ∨ (CONTEXT_CHARS <= blen s)%nat)
    by (destruct Hsy as [->|]; [left; by rewrite app_nil_r|by right]).
  destruct (Nat.leb_spec (blen (p ++ m ++ s)) MAX_CONTEXT_BYTES) as [Hle|Hgt].
  { exists (p ++ m ++ s). split_and!; try done. by left. }
  destruct (Nat.leb_spec MAX_CONTEXT_BYTES (blen p + blen s + blen ELLIPSIS)) as [Hov|Hov].
  { rewrite blen_ellipsis in Hov. unfold MAX_CONTEXT_BYTES, CONTEXT_CHARS in *. lia. }
  destruct (middle_left_out m (MAX_CONTEXT_BYTES - (blen p + blen s + blen ELLIPSIS)))
    as (h & mid & t & Em & -> & Et & Hl). cbn [mbind option_bind]. cbv zeta in Et. rewrite Et.
  exists (p ++ h ++ ELLIPSIS ++ t ++ s). split_and!; try done.
  - rewrite !blen_app. lia.
  - right. split; [done|]. by exists h, mid, t.
Qed.

(** The lowercased text before an offset, cut at its last [<script]. *)
Definition open_script (before x y : str) : Prop :=
  to_ascii_lowercase before = x ++ y
  ∧ rfind (lit "<script") (to_ascii_lowercase before) = Some (blen x).

(** A tag that is not closed before the offset and has a character across its byte 200. *)
Definition splits_a_character (before : str) : Prop := ∃ x y, open_script before x y
  ∧ contains (lit "</script") y = false ∧ (62 ∉ y) ∧ (200 < blen y)%nat
  ∧ char_boundary y 200 = false.

(** Looking for the enclosing script panics exactly when the tag before the match is still
    open after 200 bytes and byte 200 of it is inside a character. *)
Theorem json_ld_panics_iff before rest :
  is_inside_json_ld_script (before ++ rest) (blen before) = None <-> splits_a_character before.
Proof.
  unfold is_inside_json_ld_script. rewrite blen_app, Nat.min_l, slice_to_prefix by lia.
  cbn [mbind option_bind]. unfold splits_a_character, open_script.
  destruct (rfind (lit "<script") (to_ascii_lowercase before)) as [i|] eqn:Ei;
    [|split; [done|intros (x & y & [_ ?] & _); done]].
  destruct (rfind_Some _ _ _ Ei) as (x & y' & E & ->). rewrite E.
  remember (lit "<script" ++ y') as y eqn:Ey. rewrite slice_from_prefix.
  cbn [mbind option_bind].
  assert (Hu : ∀ x0 y0, (x ++ y = x0 ++ y0 ∧ Some (blen x) = Some (blen x0)) -> y0 = y).
  { intros x0 y0 [E0 [= El]]. destruct (prefixes_ordered _ _ _ _ E0) as (m & -> & ->); [lia|].
    rewrite blen_app in El. by rewrite (blen_zero m) by lia. }
  destruct (find (lit "</script") y) as [close|] eqn:Ec.
  { assert (Hcl : (blen x + close < blen before)%nat).
    { apply find_Some in Ec as (u & v & Eu & ->). rewrite <- (blen_lower before), E, Eu.
      rewrite !blen_app. change (blen (lit "</script")) with 8%nat. lia. }
    apply Nat.ltb_lt in Hcl. rewrite Hcl. split; [done|].
    intros (x0 & y0 & [H0 H1] & Hc & _). rewrite (Hu x0 y0) in Hc by (by split).
    apply find_None in Hc. congruence. }
  destruct (find [62] y) as [k|] eqn:Ek; cbn [default].
  { destruct (find_char_Some _ _ _ Ek) as (u & v & Eu & -> & _). unfold id at 1.
    rewrite Eu at 1. rewrite slice_to_prefix. split; [done|].
    intros (x0 & y0 & H0 & _ & Hn & _). rewrite (Hu x0 y0 H0), Eu in Hn. destruct Hn. set_solver. }
  apply find_None in Ec. apply find_char_None in Ek.
  transitivity (slice_to y (Nat.min (blen y) 200) = None).
  { by destruct (slice_to y (Nat.min (blen y) 200)). }
  rewrite slice_to_boundary. split.
  - intros Hb. exists x, y. destruct (Nat.le_gt_cases (blen y) 200) as [Hle|Hgt].
    + rewrite Nat.min_l, boundary_end in Hb by done. done.
    + rewrite Nat.min_r in Hb by lia. by split_and!.
  - intros (x0 & y0 & H0 & _ & _ & Hlen & Hb). rewrite (Hu x0 y0 H0) in *.
    by rewrite Nat.min_r by lia.
Qed.

(** ** Lemmas: the scan *)

Section ScanLemmas.
Context `{X : SpanRegex} `{A : AcOverlap} `{B : Base64} `{J : Serde} `{L : Lowercase} `{G : Log2}.

Lemma each_inv {S T} (P : S -> Prop) (f : S -> T -> option S) l :
  (∀ s x s', x ∈ l -> P s -> f s x = Some s' -> P s') ->
  ∀ s s', P s -> each f s l = Some s' -> P s'.
Proof.
  induction l as [|x l IH]; intros Hf s s' Hs; cbn [each]; [by intros [= <-]|].
  destruct (f s x) as [s1|] eqn:E; [|done]. cbn [mbind option_bind]. apply IH.
  - intros t0 y t2 Hy. apply Hf. by right.
  - eapply Hf; [by left|done|done].
Qed.

Lemma each_None {S T} (f : S -> T -> option S) l s :
  each f s l = None -> ∃ s' x, x ∈ l ∧ f s' x = None.
Proof.
  revert s. induction l as [|x l IH]; intros s; cbn [each]; [done|].
  destruct (f s x) as [s1|] eqn:E; cbn [mbind option_bind].
  - intros (s' & y & Hy & H)%IH. exists s', y. split; [by right|done].
  - intros _. exists s, x. split; [by left|done].
Qed.

Lemma each_None_at {S T} (f : S -> T -> option S) l s x :
  x ∈ l -> (∀ s', f s' x = None) -> each f s l = None.
Proof.
  intros Hx Hf. revert s. induction Hx as [x l|x y l Hx IH]; intros s; cbn [each].
  - by rewrite Hf.
  - destruct (f s y); [by apply IH|done].
Qed.

Lemma each_ext {S T} (f g : S -> T -> option S) l :
  (∀ s x, x ∈ l -> f s x = g s x) -> ∀ s, each f s l = each g s l.
Proof.
  induction l as [|x l IH]; intros Hf s; cbn [each]; [done|].
  rewrite (Hf s x) by by left. destruct (g s x); [|done]. cbn. apply IH.
  intros t0 y Hy. apply Hf. by right.
Qed.

(** A match that every guard lets through, with its value, context, line and offset. *)
Definition reports (config : GitleaksCompiled) (rule : CompiledRule) (body : str) (cap : Groups)
    (v context line : str) (start : nat) : Prop := ∃ stop,
  cap !! O = Some (Some (start, stop))
  ∧ v = extract_secret body (Some cap) (as_str_of body (start, stop)) (cr_secret_group rule)
  ∧ value_passes config rule v = true
  ∧ extract_context body start stop = Some context
  ∧ line_containing body start stop = Some line
  ∧ text_passes rule v context (as_str_of body (start, stop)) line = true.

Definition finding (rule : CompiledRule) (v context line location : str) : ExposedSecret :=
  MkExposedSecret (cr_id rule) v context (severity_for_finding (cr_id rule) line context) location
    (decoded_for (cr_id rule) v).

Definition secret_key (f : ExposedSecret) : str * str := (xs_secret_type f, xs_matched_value f).

(** A match adds nothing that is seen, and otherwise its finding. *)
Lemma examine_match_cases config rule body res seen cap st' :
  examine_match config rule body (res, seen) cap = Some st' ->
  (st' = (res, seen)
   ∧ ∀ v c l s, reports config rule body cap v c l s -> (cr_id rule, v) ∈ seen)
  ∨ ∃ v c l s loc, reports config rule body cap v c l s ∧ ((cr_id rule, v) ∉ seen)
    ∧ infer_location_for_body_match body s c = Some loc
    ∧ st' = (finding rule v c l loc :: res, (cr_id rule, v) :: seen).
Proof.
  unfold examine_match. destruct (cap !! O) as [[[start stop]|]|] eqn:E0; cbn [mbind option_bind id].
  2,3: intros [= <-]; left; split; [done|]; intros v c l s (stop & E & _); congruence.
  set (v := extract_secret _ _ _ _). destruct (value_passes config rule v) eqn:Ev; cbn [negb].
  2:{ intros [= <-]. left. split; [done|]. intros v' c l s (stop' & E & -> & Hv & _).
      rewrite E0 in E. injection E as <- <-. fold v in Hv. congruence. }
  destruct (extract_context body start stop) as [c|] eqn:Ec; [|done].
  destruct (line_containing body start stop) as [l|] eqn:El; [|done]. cbn [mbind option_bind].
  assert (Hu : ∀ v' c' l' s, reports config rule body cap v' c' l' s ->
    v' = v ∧ text_passes rule v c (as_str_of body (start, stop)) l = true).
  { intros v' c' l' s (stop' & E & -> & Hv & Hc & Hl & Ht). rewrite E0 in E.
    injection E as <- <-. fold v in Hv, Ht. split; [done|congruence]. }
  destruct (text_passes _ _ _ _ _) eqn:Et; cbn [negb].
  2:{ intros [= <-]. left. split; [done|]. intros v' c' l' s H. by destruct (Hu _ _ _ _ H). }
  case_bool_decide as Hs.
  { intros [= <-]. left. split; [done|]. intros v' c' l' s H. by destruct (Hu _ _ _ _ H) as [-> _]. }
  destruct (infer_location_for_body_match body start c) as [loc|] eqn:Eloc; [|done].
  intros [= <-]. right. exists v, c, l, start, loc. split_and!; try done. by exists stop.
Qed.

(** The findings and the pairs seen go together, and each finding has its match. *)
Definition scan_inv (P : ExposedSecret -> Prop) (st : ScanState) : Prop :=
  st.2 = map secret_key st.1 ∧ NoDup st.2 ∧ Forall P st.1.

Definition found_by (config : GitleaksCompiled) (body : str) (ids : option (gset nat))
    (f : ExposedSecret) : Prop := ∃ rule cap v c l s loc,
  rule ∈ gl_rules config ∧ rule_runs ids rule = true
  ∧ cap ∈ captures_iter (cr_regex rule) body ∧ reports config rule body cap v c l s
  ∧ infer_location_for_body_match body s c = Some loc ∧ f = finding rule v c l loc.

Lemma examine_match_inv config rule body ids st cap st' :
  rule ∈ gl_rules config -> rule_runs ids rule = true ->
  cap ∈ captures_iter (cr_regex rule) body -> scan_inv (found_by config body ids) st ->
  examine_match config rule body st cap = Some st' -> scan_inv (found_by config body ids) st'.
Proof.
  intros Hr Hi Hc Hs E. destruct st as [res seen].
  destruct (examine_match_cases _ _ _ _ _ _ _ E) as [[-> _]|(v & c & l & s & loc & H1 & H2 & H3 & ->)];
    [done|]. destruct Hs as (E1 & Hn & Hf). cbn [fst snd] in *. split_and!; cbn [fst snd].
  - cbn [map]. by rewrite <- E1.
  - by constructor.
  - constructor; [|done]. by exists rule, cap, v, c, l, s, loc.
Qed.

(** What is seen stays seen. *)
Lemma examine_match_seen config rule body st cap st' k :
  examine_match config rule body st cap = Some st' ->
  (k ∈ st.2 ∨ ∃ v c l s, reports config rule body cap v c l s ∧ k = (cr_id rule, v)) -> k ∈ st'.2.
Proof.
  intros E. destruct st as [res seen].
  destruct (examine_match_cases _ _ _ _ _ _ _ E) as [[-> H]|(v & c & l & s & loc & H1 & _ & _ & ->)];
    cbn [fst snd].
  - intros [Hk|(v & c & l & s & H1 & ->)]; [done|eauto].
  - intros [Hk|(v' & c' & l' & s' & (st1 & E1 & -> & _) & ->)]; [by right|].
    destruct H1 as (st2 & E2 & -> & _). rewrite E1 in E2. injection E2 as -> ->. by left.
Qed.

Lemma each_seen {T} (f : ScanState -> T -> option ScanState) (Q : T -> str * str -> Prop) l :
  (∀ st x st' k, f st x = Some st' -> (k ∈ st.2 ∨ Q x k) -> k ∈ st'.2) ->
  ∀ st st' k, each f st l = Some st' -> (k ∈ st.2 ∨ ∃ x, x ∈ l ∧ Q x k) -> k ∈ st'.2.
Proof.
  intros Hf. induction l as [|x l IH]; intros st st' k; cbn [each].
  { intros [= <-] [?|(x & Hx & _)]; [done|by apply elem_of_nil in Hx]. }
  destruct (f st x) as [st1|] eqn:E; [|done]. cbn [mbind option_bind]. intros E1 Hk.
  apply (IH st1); [done|]. destruct Hk as [Hk|(y & [->|Hy]%elem_of_cons & HQ)].
  - left. eapply Hf; [done|by left].
  - left. eapply Hf; [done|by right].
  - right. eauto.
Qed.

Lemma found_context {XL : SpanRegexLaws X} config body ids f : found_by config body ids f ->
  (blen (xs_context f) <= MAX_CONTEXT_BYTES)%nat.
Proof.
  intros (rule & cap & v & c & l & start & loc & _ & _ & Hc & (stop & E & _ & _ & Ec & _) & _ & ->).
  cbn [xs_context finding]. destruct (captures_slice (cr_regex rule) body cap start stop Hc) as [m Em].
  { by apply list_elem_of_lookup_2 in E. }
  apply slice_Some in Em as (a & b & -> & -> & ->).
  destruct (extract_context_spec a m b) as (p & s & c' & _ & _ & _ & _ & _ & _ & Ec' & Hb & _).
  rewrite Ec in Ec'. by injection Ec' as ->.
Qed.

(** C29: The scan reports exactly the matches that pass every guard, each pair of rule and value
    once, with the context (at most 1024 bytes), severity and place of a match that has that
    value. *)
Theorem scan_findings {XL : SpanRegexLaws X} config body use_prefilter found :
  detect_exposed_secrets_inner config body use_prefilter = Some found ->
  let ids := if use_prefilter then (λ p, matched_pattern_ids p body) <$> gl_keyword_prefilter config
             else None in
  NoDup (map secret_key found) ∧ Forall (found_by config body ids) found
  ∧ Forall (λ f, (blen (xs_context f) <= MAX_CONTEXT_BYTES)%nat) found
  ∧ ∀ rule cap v c l s, rule ∈ gl_rules config -> rule_runs ids rule = true ->
      cap ∈ captures_iter (cr_regex rule) body -> reports config rule body cap v c l s ->
      (cr_id rule, v) ∈ map secret_key found.
Proof.
  unfold detect_exposed_secrets_inner.
  set (ids := if use_prefilter then _ else _). intros E. cbv zeta.
  destruct (each _ _ _) as [[res seen]|] eqn:Ee; [|done]. injection E as <-.
  assert (Hi : scan_inv (found_by config body ids) (res, seen)).
  { eapply (each_inv (scan_inv _)); [| |exact Ee].
    - intros st rule st' Hr Hs. unfold examine_rule. destruct (rule_runs ids rule) eqn:Er.
      + intros E. eapply (each_inv (scan_inv _)); [| |exact E]; [|done].
        intros st1 cap st2 Hc H1 H2. by eapply examine_match_inv.
      + by intros [= <-].
    - split_and!; [done|constructor|constructor]. }
  destruct Hi as (Es & Hn & Hf). cbn [fst snd] in *.
  assert (Er : map secret_key (reverse res) = reverse seen) by (rewrite Es; apply fmap_reverse).
  rewrite Er. split_and!.
  - by rewrite reverse_Permutation.
  - by apply Forall_reverse.
  - apply Forall_reverse. eapply List.Forall_impl; [|exact Hf]. apply found_context.
  - intros rule cap v c l s Hr Hi Hc H. apply elem_of_reverse.
    apply (each_seen _ (λ r k, rule_runs ids r = true ∧ ∃ cap, cap ∈ captures_iter (cr_regex r) body
      ∧ ∃ v c l s, reports config r body cap v c l s ∧ k = (cr_id r, v))) with (2 := Ee).
    + intros st r st' k. unfold examine_rule. destruct (rule_runs ids r).
      * intros E1 Hk. eapply each_seen; [|exact E1|].
        -- intros st1 cap1 st2 k1. apply examine_match_seen.
        -- destruct Hk as [Hk|(_ & cap1 & ? & ?)]; [by left|right; eauto].
      * intros [= <-] [Hk|[? _]]; done.
    + right. exists rule. split; [done|]. split; [done|]. exists cap. split; [done|].
      by exists v, c, l, s.
Qed.

(** Every match starts and ends between characters, so only the search for an enclosing script
    before a match that passes the guards can panic. *)
Lemma examine_match_panics {XL : SpanRegexLaws X} config rule body st cap :
  cap ∈ captures_iter (cr_regex rule) body ->
  examine_match config rule body st cap = None ->
  ∃ v context line before rest,
    reports config rule body cap v context line (blen before)
    ∧ body = before ++ rest ∧ splits_a_character before.
Proof.
  intros Hc. destruct st as [res seen]. unfold examine_match.
  destruct (cap !! O) as [[[start stop]|]|] eqn:E0; cbn [mbind option_bind id]; [|done..].
  destruct (value_passes _ _ _) eqn:Ev; [|done]. cbn [negb].
  destruct (captures_slice (cr_regex rule) body cap start stop Hc) as [m Em].
  { by apply list_elem_of_lookup_2 in E0. }
  apply slice_Some in Em as (a & b & -> & -> & ->).
  destruct (extract_context_spec a m b) as (p & s & c & _ & _ & _ & _ & _ & _ & Ec & _).
  destruct (line_containing_spec a m b) as (la & lb & El & _).
  rewrite Ec, El. cbn [mbind option_bind].
  destruct (text_passes _ _ _ _ _) eqn:Et; [|done]. cbn [negb]. case_bool_decide; [done|].
  unfold infer_location_for_body_match.
  destruct (is_inside_json_ld_script (a ++ m ++ b) (blen a)) as [inside|] eqn:Ej; [done|].
  intros _. apply json_ld_panics_iff in Ej.
  eexists _, c, _, a, (m ++ b). split; [|by split]. eexists. split; [exact E0|].
  split; [reflexivity|]. split; [exact Ev|]. split; [exact Ec|]. split; [exact El|exact Et].
Qed.

Lemma scan_panics_at {XL : SpanRegexLaws X} config body use_prefilter :
  detect_exposed_secrets_inner config body use_prefilter = None ->
  let ids := if use_prefilter then (λ p, matched_pattern_ids p body) <$> gl_keyword_prefilter config
             else None in
  ∃ rule cap v context line before rest,
    rule ∈ gl_rules config ∧ rule_runs ids rule = true ∧ cap ∈ captures_iter (cr_regex rule) body
    ∧ reports config rule body cap v context line (blen before)
    ∧ body = before ++ rest ∧ splits_a_character before.
Proof.
  unfold detect_exposed_secrets_inner. intros E. cbn zeta in *. set (ids := if use_prefilter then _ else _) in *.
  destruct (each _ _ _) as [[res seen]|] eqn:Ee; [done|].
  apply each_None in Ee as (st & rule & Hr & Ee). unfold examine_rule in Ee.
  destruct (rule_runs ids rule) eqn:Ei; [|done].
  apply each_None in Ee as (st1 & cap & Hc & Ee).
  destruct (examine_match_panics _ _ _ _ _ Hc Ee) as (v & c & l & before & rest & H).
  by exists rule, cap, v, c, l, before, rest.
Qed.

Lemma scan_returns {XL : SpanRegexLaws X} config body use_prefilter :
  (∀ before rest, body = before ++ rest -> ~ splits_a_character before) ->
  ∃ found, detect_exposed_secrets_inner config body use_prefilter = Some found.
Proof.
  intros Hs. destruct (detect_exposed_secrets_inner _ _ _) eqn:E; [eauto|].
  apply scan_panics_at in E as (r & cap & v & c & l & before & rest & _ & _ & _ & _ & Eb & H).
  by destruct (Hs before rest Eb).
Qed.

(** C31: The scan panics only at a match that passes every guard and has, in the text before it, a
    script tag that is still open after 200 bytes with a character across that byte. *)
Theorem scan_panics_only_in_open_tags {XL : SpanRegexLaws X} config body use_prefilter :
  detect_exposed_secrets_inner config body use_prefilter = None ->
  let ids := if use_prefilter then (λ p, matched_pattern_ids p body) <$> gl_keyword_prefilter config
             else None in
  ∃ rule cap v context line before rest,
    rule ∈ gl_rules config ∧ rule_runs ids rule = true ∧ cap ∈ captures_iter (cr_regex rule) body
    ∧ reports config rule body cap v context line (blen before)
    ∧ body = before ++ rest ∧ splits_a_character before.
Proof. apply scan_panics_at. Qed.

(** Pages of ASCII text never make the scan panic. *)
Theorem ascii_scan_returns {XL : SpanRegexLaws X} config body use_prefilter :
  Forall (λ c, is_ascii c = true) body ->
  ∃ found, detect_exposed_secrets_inner config body use_prefilter = Some found.
Proof.
  intros Ha. apply scan_returns. intros before rest -> (x & y & [E _] & _ & _ & Hl & Hb).
  apply Forall_app in Ha as [Ha _].
  assert (Hy : Forall (λ c, width c = 1%nat) y).
  { apply (Forall_app _ x). rewrite <- E. unfold to_ascii_lowercase.
    apply List.Forall_map. eapply List.Forall_impl; [|exact Ha]. intros c Hc.
    rewrite width_lower. unfold is_ascii in Hc. unfold width, encode_char. by rewrite Hc. }
  rewrite <- not_true_iff_false in Hb. apply Hb, boundary_iff.
  exists (take 200 y), (drop 200 y). rewrite take_drop. split; [done|].
  assert (Hw : ∀ s, Forall (λ c, width c = 1%nat) s -> blen s = length s).
  { intros s Hs. induction Hs as [|c s Hc Hs IH]; [done|]. rewrite blen_cons, Hc, IH. done. }
  rewrite Hw by by apply Forall_take. rewrite (Hw y Hy) in Hl. rewrite length_take. lia.
Qed.

Context {AL : AcOverlapLaws A}.

(** C30: The prefilter is a shortcut only: with a loaded configuration in which every rule that
    matches the body has one of its keywords there, the findings are those of all rules. *)
Theorem prefilter_equivalence `{Up : Uppercase} `{T : TomlLib} toml overlay config body :
  load_compiled toml overlay = Ok config ->
  (∀ r, r ∈ gl_rules config -> cr_path r = None -> captures_iter (cr_regex r) body <> [] ->
     (∀ kw, kw ∈ rule_keywords r -> kw = [])
     ∨ ∃ kw, kw ∈ rule_keywords r ∧ kw <> [] ∧ occurs kw body) ->
  detect_exposed_secrets config body = detect_exposed_secrets_unfiltered config body.
Proof.
  intros Hload Hk. unfold detect_exposed_secrets, detect_exposed_secrets_unfiltered,
    detect_exposed_secrets_inner.
  destruct (gl_keyword_prefilter config) as [a|] eqn:Ea; [|done]. cbn [fmap option_fmap option_map].
  rewrite (each_ext (examine_rule config body (Some (matched_pattern_ids a body)))
    (examine_rule config body None)); [done|].
  intros st r Hr. unfold examine_rule, rule_runs. destruct (cr_path r) eqn:Ep; [done|].
  replace (gate_open r None) with true by (unfold gate_open; by destruct (cr_keyword_pattern_ids r)).
  destruct (gate_open r _) eqn:Eg; [done|].
  destruct (captures_iter (cr_regex r) body) as [|cap caps] eqn:Ec; [done|].
  assert (Hg : gate_open r (Some (matched_pattern_ids a body)) = true).
  { apply (loaded_gate toml overlay config a r body Hload Ea Hr). apply Hk; [done|done|]. by rewrite Ec. }
  congruence.
Qed.

(** The scan of a header block finds what the scan of the same text finds; only the location is
    another, and it says whether the text around the match has a cookie header. *)
Theorem header_findings config block :
  (λ found, map (set_location []) found)
    <$> detect_exposed_secrets_in_headers config block
  = (λ found, map (set_location []) found) <$> detect_exposed_secrets config block
  ∧ ∀ found f, detect_exposed_secrets_in_headers config block = Some found -> f ∈ found ->
      xs_location f = if contains (lit "set-cookie:") (to_ascii_lowercase (xs_context f))
                      then lit "set_cookie" else lit "response_header".
Proof.
  unfold detect_exposed_secrets_in_headers, detect_exposed_secrets.
  destruct (detect_exposed_secrets_inner config block true) as [found|]; [|by split].
  cbn [mbind option_bind fmap option_fmap option_map]. split.
  - f_equal. rewrite map_map. by apply map_ext.
  - intros found' f [= <-] Hf. apply list_elem_of_In, in_map_iff in Hf as (x & <- & _). done.
Qed.
End ScanLemmas.

(** ** Witnesses: literal rules *)

Module DemoScan.
#[local] Existing Instance Net.Demo.ascii_lowercase.
#[local] Existing Instance DemoSerde.serde.

Definition first_match (pat body : str) : list Groups :=
  match find pat body with Some i => [[Some (i, (i + blen pat)%nat)]] | None => [] end.
#[local] Instance regex : SpanRegex := {|
  Rx := str; rx_new := Some; rx_new_sized := λ _, Some;
  rx_is_match := contains; captures_iter := first_match;
|}.
#[local] Instance regex_laws : SpanRegexLaws regex.
Proof.
  split; cbn; unfold first_match; intros re body g; destruct (find re body) as [i|] eqn:E.
  - intros ->%list_elem_of_singleton. eauto.
  - by intros ?%elem_of_nil.
  - intros i' j ->%list_elem_of_singleton [= -> ->]%list_elem_of_singleton.
    apply find_Some in E as (a & b & -> & ->). exists re. apply slice_app.
  - by intros ? ? ?%elem_of_nil.
Defined.

#[local] Instance automaton : AcOverlap := {|
  Automaton := list str; ac_build := Some;
  overlapping_ids := λ a body, List.filter (λ i,
    match a !! i with
    | Some p => contains (to_ascii_lowercase p) (to_ascii_lowercase body)
    | None => false
    end) (seq 0 (length a));
|}.
#[local] Instance automaton_laws : AcOverlapLaws automaton.
Proof.
  split. intros patterns a body id [= <-]. cbn [overlapping_ids automaton].
  rewrite list_elem_of_In, filter_In, in_seq. split.
  - intros [_ H]. destruct (patterns !! id) as [p|]; [|done]. exists p. split; [done|].
    apply contains_iff in H as (x & y & E). unfold to_ascii_lowercase in E.
    apply map_eq_app in E as (l1 & l2 & -> & _ & E). apply map_eq_app in E as (l3 & l4 & -> & E & _).
    by exists l1, l3, l4.
  - intros (p & Hp & x & w & y & -> & E). rewrite Hp.
    split; [apply lookup_lt_Some in Hp; lia|]. apply contains_iff.
    exists (to_ascii_lowercase x), (to_ascii_lowercase y). unfold to_ascii_lowercase in *.
    by rewrite !map_app, E.
Defined.

#[local] Instance engines : Base64 := {|
  standard_decode := λ _, None; standard_no_pad_decode := λ _, None;
  url_safe_decode := λ _, None; url_safe_no_pad_decode := λ _, None;
|}.
#[local] Instance logarithm : Log2 := {| log2 := id |}.
#[local] Instance upper : Uppercase := {| to_uppercase := to_ascii_uppercase |}.

Definition rule (id regex keyword : string) : RuleRaw :=
  MkRuleRaw (lit id) [] (Some (lit regex)) None (Some [lit keyword]) None None None.
#[local] Instance files : TomlLib := {|
  toml_parse := λ _, Ok (TTable [(lit "rules", TArray [])]);
  toml_rule := λ _, None; toml_rule_allowlist := λ _, None; toml_allowlist := λ _, None;
  toml_rules := λ _, Ok [rule "github-pat" "ghp_12345" "ghp_"; rule "other" "key=" "secret"];
  toml_overrides := λ _, Err [];
|}.
Definition loaded : GitleaksCompiled :=
  match load_compiled [] [] with
  | Ok config => config
  | Err _ => MkGitleaks (MkGlobalAllowlist [] []) [] None
  end.
Definition page : str := lit "<p>token GHP_ ghp_12345</p>".

Definition page_finding : ExposedSecret :=
  MkExposedSecret (lit "github-pat") (lit "ghp_12345") page Critical (lit "html_body") None.
Lemma page_scanned : detect_exposed_secrets loaded page = Some [page_finding].
Proof. vm_compute. reflexivity. Qed.

Lemma prefilter_equivalence_witness :
  load_compiled [] [] = Ok loaded
  ∧ detect_exposed_secrets_unfiltered loaded page = Some [page_finding].
Proof.
  assert (Hl : load_compiled [] [] = Ok loaded)
    by (vm_cast_no_check (@eq_refl (result GitleaksCompiled Errors.AnyhowError) (Ok loaded))).
  split; [exact Hl|]. rewrite <- page_scanned. symmetry.
  apply (prefilter_equivalence [] []); [exact Hl|].
  intros r Hr _ Hc. right. exists (lit "ghp_").
  assert (Hrules : gl_rules loaded = take 1 (gl_rules loaded) ++ drop 1 (gl_rules loaded))
    by (symmetry; apply take_drop).
  rewrite Hrules in Hr. apply elem_of_app in Hr as [Hr|Hr].
  - apply list_elem_of_singleton in Hr as ->. split_and!; [by apply list_elem_of_singleton|done|].
    exists (lit "<p>token "), (lit "GHP_"), (lit " ghp_12345</p>"). vm_compute. done.
  - apply list_elem_of_singleton in Hr as ->. destruct Hc. vm_compute. reflexivity.
Defined.

Lemma scan_findings_witness :
  detect_exposed_secrets_inner loaded page true = Some [page_finding]
  ∧ NoDup (map secret_key [page_finding]).
Proof.
  split; [vm_compute; reflexivity|].
  apply (scan_findings loaded page true [page_finding]). vm_compute. reflexivity.
Defined.

(** An unclosed tag of nine ASCII and then two-byte characters: byte 200 is inside one. *)
Definition open_tag_page : str := lit "<script  " ++ repeat 233 100 ++ lit "ghp_12345".
Lemma scan_panics_only_in_open_tags_witness :
  ∃ rule before rest, rule ∈ gl_rules loaded ∧ open_tag_page = before ++ rest
    ∧ splits_a_character before.
Proof.
  destruct (scan_panics_only_in_open_tags loaded open_tag_page true)
    as (rule & cap & v & c & l & before & rest & Hr & _ & _ & _ & Eb & Hs);
    [vm_compute; reflexivity|].
  by exists rule, before, rest.
Defined.

Lemma ascii_scan_returns_witness :
  Forall (λ c, is_ascii c = true) page
  ∧ ∃ found, detect_exposed_secrets_inner loaded page false = Some found.
Proof.
  assert (Ha : Forall (λ c, is_ascii c = true) page)
    by (apply List.Forall_forall, forallb_forall; vm_compute; reflexivity).
  split; [exact Ha|]. by apply (ascii_scan_returns loaded page false).
Defined.
End DemoScan.
