(* ===== verification/Cdn.v ===== *)
(** * CDN detection ([src/src/fetch/cdn.rs])

    The function reads two hash maps by scanning them for a name without regard to case.
    Here it is compared with what the response said: the maps are the headers captured by
    [Response.captured], whose names never coincide up to case, so the order in which a
    map is scanned does not matter. *)

From S2P Require Import Prelude Net Redirects Response.

Section Cdn.
Context `{Hi : HashIter}.

Definition header_value (headers : gmap str str) (name : str) : option str :=
  snd <$> List.find (λ kv, eq_ignore_ascii_case kv.1 name) (hash_iter headers).

(** [detect_from_headers] over the lookup it uses. *)
Definition detect_from (value : str -> option str) : option str :=
  let present (name : string) : bool := bool_decide (is_Some (value (lit name))) in
  if present "cf-ray" || present "cf-cache-status" then Some (lit "cloudflare")
  else if match value (lit "x-served-by") with
          | Some v => contains (lit "cache-") (to_ascii_lowercase v)
          | None => false
          end || present "fastly-io-info" then Some (lit "fastly")
  else if present "x-amz-cf-id" || present "x-amz-cf-pop" then Some (lit "cloudfront")
  else if present "x-azure-ref" || present "x-msedge-ref" then Some (lit "azure")
  else if present "x-akamai-request-id" || present "akamai-grn" then Some (lit "akamai")
  else if present "x-vercel-id" || present "x-vercel-cache" then Some (lit "vercel")
  else if present "x-nf-request-id" then Some (lit "netlify")
  else if present "x-github-request-id" then Some (lit "github_pages")
  else
    let by_server :=
      server ← value (lit "server");
      let lower := to_ascii_lowercase server in
      if contains (lit "cloudflare") lower then Some (lit "cloudflare")
      else if contains (lit "netlify") lower then Some (lit "netlify") else None in
    match by_server with
    | Some provider => Some provider
    | None =>
        via ← value (lit "via");
        let lower := to_ascii_lowercase via in
        if contains (lit "cloudfront") lower then Some (lit "cloudfront")
        else if contains (lit "varnish") lower && present "x-served-by" then Some (lit "fastly")
        else None
    end.

Definition detect_from_headers (headers : gmap str str) : option str :=
  detect_from (header_value headers).

Definition DNS_RULES : list (str * str) :=
  map (λ r, (lit r.1, lit r.2))
    [("cloudflare", "cloudflare"); ("cdn.cloudflare.net", "cloudflare"); ("fastly", "fastly");
     ("fastly.net", "fastly"); ("cloudfront.net", "cloudfront"); ("akamai", "akamai");
     ("akamaiedge", "akamai"); ("edgekey.net", "akamai"); ("azureedge.net", "azure");
     ("trafficmanager.net", "azure"); ("vercel-dns", "vercel"); ("vercel.app", "vercel");
     ("netlify", "netlify"); ("github.io", "github_pages"); ("googleusercontent", "google");
     ("ghs.google", "google"); ("awsdns", "aws_dns")]%string.

Definition detect_from_dns_blob (json : option str) : option str :=
  json ← json;
  let blob := to_ascii_lowercase json in
  snd <$> List.find (λ rule, contains rule.1 blob) DNS_RULES.

Definition detect_cdn_provider (http_headers security_headers : gmap str str)
    (cname_chain_json nameservers_json : option str) : option str :=
  match (match detect_from_headers http_headers with
         | Some p => Some p
         | None => detect_from_headers security_headers
         end) with
  | Some provider => Some provider
  | None =>
      match detect_from_dns_blob cname_chain_json with
      | Some provider => Some provider
      | None => detect_from_dns_blob nameservers_json
      end
  end.
End Cdn.

(** ** Captured headers *)

Lemma captured_lookup names headers n :
  captured names headers !! n
  = if bool_decide (n ∈ names) then default [] <$> get n headers else None.
Proof.
  unfold captured.
  enough (H : ∀ (m : gmap str str),
    foldl (λ m name, match get name headers with
                     | Some value => <[name := default [] value]> m
                     | None => m
                     end) m names !! n
    = if bool_decide (n ∈ names)
      then match get n headers with Some v => Some (default [] v) | None => m !! n end
      else m !! n).
  { rewrite H, lookup_empty. case_bool_decide; [|done]. by destruct (get n headers). }
  induction names as [|name names IH]; intros m; [done|]. cbn [foldl]. rewrite IH.
  destruct (decide (n = name)) as [->|Hn].
  - rewrite (bool_decide_eq_true_2 (name ∈ name :: names)) by (apply elem_of_cons; by left).
    destruct (get name headers); rewrite ?lookup_insert_eq; by case_bool_decide.
  - rewrite (bool_decide_ext (n ∈ name :: names) (n ∈ names))
      by (rewrite elem_of_cons; split; [by intros [|]|by right]).
    by destruct (get name headers); rewrite ?lookup_insert_ne.
Qed.

(** What a response says of a header, if the header is one of the captured ones. *)
Definition received (names : list str) (headers : list (str * option str)) (name : str)
  : option str :=
  if existsb (eq_ignore_ascii_case name) names then default [] <$> get name headers else None.

Lemma find_unique {A} (f : A -> bool) l x :
  x ∈ l -> f x = true -> (∀ y, y ∈ l -> f y = true -> y = x) -> List.find f l = Some x.
Proof.
  induction l as [|y l IH]; [by rewrite elem_of_nil|].
  intros Hx Hf Hu. cbn. destruct (f y) eqn:Ey.
  - by rewrite (Hu y) by first [done | apply elem_of_cons; by left].
  - apply elem_of_cons in Hx as [->|Hx]; [congruence|].
    apply IH; [done|done|]. intros z Hz. apply Hu, elem_of_cons. by right.
Qed.

Lemma find_none_iff {A} (f : A -> bool) l : List.find f l = None <-> ∀ y, y ∈ l -> f y = false.
Proof.
  induction l as [|y l IH]; cbn; [split; [by intros _ ? ?%elem_of_nil|done]|].
  destruct (f y) eqn:Ey.
  - split; [done|]. intros H. rewrite H in Ey; [done|]. apply elem_of_cons. by left.
  - rewrite IH. split; intros H z Hz; [apply elem_of_cons in Hz as [->|Hz]; auto|].
    apply H, elem_of_cons. by right.
Qed.

(** A lookup in captured headers does not depend on the order of the map. *)
Lemma header_value_captured `{Hi : HashIter} `{!HashIterLaws Hi} names headers name :
  NoDup (map to_ascii_lowercase names) ->
  header_value (captured names headers) name = received names headers name.
Proof.
  intros Hnd. unfold header_value, received.
  assert (Huniq : ∀ a b, a ∈ names -> b ∈ names ->
                    to_ascii_lowercase a = to_ascii_lowercase b -> a = b).
  { clear -Hnd. induction names as [|n names IH]; intros a b; [by rewrite elem_of_nil|].
    cbn in Hnd. apply list.NoDup_cons in Hnd as [Hn Hnd]. rewrite !elem_of_cons.
    intros [->|Ha] [->|Hb] E; try done; [| |by apply IH].
    - exfalso. apply Hn. rewrite E. by apply list_elem_of_fmap_2.
    - exfalso. apply Hn. rewrite <- E. by apply list_elem_of_fmap_2. }
  destruct (existsb (eq_ignore_ascii_case name) names) eqn:Ex.
  - apply existsb_exists in Ex as (n & Hn%list_elem_of_In & En). apply eq_ignore_ascii_case_iff in En.
    unfold get. rewrite En.
    assert (Hlook : captured names headers !! n = default [] <$> get n headers).
    { by rewrite captured_lookup, bool_decide_eq_true_2. }
    assert (Hkey : ∀ kv, kv ∈ hash_iter (captured names headers) ->
                     eq_ignore_ascii_case kv.1 name = true -> kv.1 = n).
    { intros [k v] Hin%elem_of_hash_iter E. apply eq_ignore_ascii_case_iff in E. cbn [fst] in E |- *.
      rewrite captured_lookup in Hin. case_bool_decide; [|done].
      apply Huniq; [done..|congruence]. }
    unfold get in Hlook.
    destruct (header_get (to_ascii_lowercase n) headers) as [v|]; cbn in Hlook |- *.
    + rewrite (find_unique _ _ (n, default [] v)); [done| | |].
      * by apply elem_of_hash_iter.
      * by apply eq_ignore_ascii_case_iff.
      * intros [k w] Hin E. pose proof (Hkey _ Hin E) as Hk. cbn in Hk. subst k.
        apply elem_of_hash_iter in Hin. congruence.
    + replace (List.find _ _) with (@None (str * str)); [done|]. symmetry.
      apply find_none_iff. intros [k w] Hin. apply not_true_iff_false. intros E.
      pose proof (Hkey _ Hin E) as Hk. cbn in Hk. subst k.
      apply elem_of_hash_iter in Hin. congruence.
  - replace (List.find _ _) with (@None (str * str)); [done|]. symmetry. apply find_none_iff.
    intros [k w] Hin%elem_of_hash_iter. apply not_true_iff_false. cbn [fst]. intros E.
    rewrite captured_lookup in Hin. case_bool_decide; [|done].
    enough (existsb (eq_ignore_ascii_case name) names = true) by congruence.
    apply existsb_exists. exists k. split; [by apply list_elem_of_In|].
    apply eq_ignore_ascii_case_iff in E. by apply eq_ignore_ascii_case_iff.
Qed.

Lemma captured_names_distinct :
  NoDup (map to_ascii_lowercase HTTP_HEADERS) ∧ NoDup (map to_ascii_lowercase SECURITY_HEADERS).
Proof. split; apply (bool_decide_unpack _); vm_compute; done. Qed.

Lemma detect_from_ext f g : (∀ name, f name = g name) -> detect_from f = detect_from g.
Proof. intros E. unfold detect_from. by rewrite !E. Qed.

Lemma detect_from_nothing : detect_from (λ _, None) = None.
Proof. vm_compute. reflexivity. Qed.

Lemma received_absent names headers name :
  existsb (eq_ignore_ascii_case name) names = false -> received names headers name = None.
Proof. unfold received. by intros ->. Qed.

Lemma detect_from_security headers : detect_from (received SECURITY_HEADERS headers) = None.
Proof.
  unfold detect_from. rewrite !(received_absent SECURITY_HEADERS) by (vm_compute; reflexivity).
  vm_compute. reflexivity.
Qed.

Lemma captured_irrelevant names headers name value :
  existsb (streqb name) (map to_ascii_lowercase names) = false ->
  captured names ((name, value) :: headers) = captured names headers.
Proof.
  intros Hn. apply map_eq. intros n. rewrite !captured_lookup.
  case_bool_decide as Hin; [|done]. unfold get, header_get. cbn [List.find fst].
  destruct (streqb name (to_ascii_lowercase n)) eqn:E; [|done]. exfalso.
  enough (existsb (streqb name) (map to_ascii_lowercase names) = true) by congruence.
  apply existsb_exists. exists (to_ascii_lowercase n). split; [|done].
  apply in_map. by apply list_elem_of_In.
Qed.

Lemma detect_http_headers `{Hi : HashIter} `{!HashIterLaws Hi} headers :
  detect_from_headers (extract_http_headers headers) = detect_from (received HTTP_HEADERS headers).
Proof.
  apply detect_from_ext. intros name. apply header_value_captured, captured_names_distinct.
Qed.

Lemma detect_security_headers `{Hi : HashIter} `{!HashIterLaws Hi} headers :
  detect_from_headers (extract_security_headers headers) = None.
Proof.
  rewrite <- (detect_from_security headers). apply detect_from_ext. intros name.
  apply header_value_captured, captured_names_distinct.
Qed.

(** The provider of a response is read off its captured headers, then its CNAME chain, then
    its nameservers, whatever the order of the maps.  The captured headers contain neither
    [x-github-request-id] nor [akamai-grn]: a response that has them is classified as if it
    had not, although the detector tests for both. *)
Theorem cdn_provider_of_response `{Hi : HashIter} `{!HashIterLaws Hi} headers cname nameservers :
  let detect h := detect_cdn_provider (extract_http_headers h) (extract_security_headers h)
                    cname nameservers in
  detect headers
  = match detect_from (received HTTP_HEADERS headers) with
    | Some p => Some p
    | None => match detect_from_dns_blob cname with
              | Some p => Some p
              | None => detect_from_dns_blob nameservers
              end
    end
  ∧ (∀ v, detect ((lit "x-github-request-id", v) :: headers) = detect headers)
  ∧ (∀ v, detect ((lit "akamai-grn", v) :: headers) = detect headers).
Proof.
  cbn zeta. split; [|split].
  - unfold detect_cdn_provider. rewrite detect_http_headers, detect_security_headers.
    by destruct (detect_from (received HTTP_HEADERS headers)).
  - intros v. unfold extract_http_headers, extract_security_headers.
    by rewrite !captured_irrelevant by (vm_compute; reflexivity).
  - intros v. unfold extract_http_headers, extract_security_headers.
    by rewrite !captured_irrelevant by (vm_compute; reflexivity).
Qed.

Module DemoCdn.
#[local] Existing Instance listing.

Lemma cdn_provider_of_response_witness :
  let detect h := detect_cdn_provider (extract_http_headers h) (extract_security_headers h)
                    None (Some (lit "[ns1.vercel-dns.com.]")) in
  let varnish := [(lit "via", Some (lit "1.1 Varnish")); (lit "x-served-by", Some [])] in
  detect varnish = Some (lit "fastly")
  ∧ detect [] = Some (lit "vercel")
  ∧ detect ((lit "x-github-request-id", Some (lit "1")) :: []) = Some (lit "vercel").
Proof.
  pose proof listing_laws. cbn zeta. split; [|split].
  - destruct (cdn_provider_of_response
                [(lit "via", Some (lit "1.1 Varnish")); (lit "x-served-by", Some [])] None
                (Some (lit "[ns1.vercel-dns.com.]"))) as [E _].
    cbn zeta in E. etransitivity; [exact E|]. vm_compute. reflexivity.
  - vm_compute. reflexivity.
  - destruct (cdn_provider_of_response [] None (Some (lit "[ns1.vercel-dns.com.]")))
      as (_ & E & _).
    cbn zeta in E. etransitivity; [exact (E (Some (lit "1")))|]. vm_compute. reflexivity.
Defined.
End DemoCdn.
