(* ===== verification/Scripts.v ===== *)
(** * External scripts ([src/src/fetch/external_scripts.rs])

    Which of the scripts of a page are fetched and what is read from them.  A request that
    fails or times out is [None]; the requests of [join_all] are sent in list order.  The
    secret detector of [parse/secrets.rs] is a parameter; a blocking task that panics is not
    modelled, nor are the timings. *)

From S2P Require Import Prelude Sanitize Net Security Redirects Dns Domain Response.
From S2P Require Import ExportRow Satellites StorageRecord Secrets.

Definition MAX_SCRIPT_FETCH_PER_PAGE : nat := 10.
Definition MAX_SCRIPT_BODY_BYTES : nat := Z.to_nat (1024 * 1024).
#[global] Opaque MAX_SCRIPT_BODY_BYTES.

Definition KNOWN_THIRD_PARTY_SCRIPT_HOST_SUFFIXES : list str :=
  map lit ["js.stripe.com"; "consent.cookiebot.com"; "assets.squarespace.com";
    "www.google-analytics.com"; "www.googletagmanager.com"; "connect.facebook.net";
    "maps.googleapis.com"; "cdn.jsdelivr.net"; "cdnjs.cloudflare.com"; "unpkg.com";
    "ajax.googleapis.com"; "fast.wistia.com"; "hcaptcha.com"; "www.google.com";
    "imasdk.googleapis.com"; "static.cloudflareinsights.com"; "cdn.weglot.com"]%string.

(** A set of keys seen so far and the values pushed for the new ones. *)
Definition push_unseen {K V : Type} `{Countable K} (key : K) (value : V)
    (st : gset K * list V) : gset K * list V :=
  if bool_decide (key ∈ st.1) then st else ({[key]} ∪ st.1, st.2 ++ [value]).

Definition is_known_third_party_script_host (host : str) : bool :=
  let host := to_ascii_lowercase (trim_end_by (Z.eqb 46) host) in
  existsb (λ suffix,
    streqb host suffix
    || match strip_suffix suffix host with
       | Some prefix => ends_with (lit ".") prefix
       | None => false
       end) KNOWN_THIRD_PARTY_SCRIPT_HOST_SUFFIXES.

Section Hosts.
Context `{U : UrlLib} `{L : Lowercase} `{P : Psl}.

Definition host_of_url (url : str) : option str :=
  u ← url_parse url; to_lowercase <$> url_host_str u.

Definition resolve_script_url (page_url src : str) : option str :=
  let trimmed := trim src in
  if negb (nonempty trimmed) then None
  else
    match url_parse trimmed with
    | Some abs => Some (url_to_string abs)
    | None => base ← url_parse page_url; url_to_string <$> url_join base trimmed
    end.

Definition is_first_party_script (page_url script_url : str) : bool :=
  match host_of_url page_url with
  | None => false
  | Some page_host =>
      match host_of_url script_url with
      | None => false
      | Some script_host =>
          if is_known_third_party_script_host script_host then false
          else if streqb page_host script_host then true
          else
            match root_domain page_host with
            | None => false
            | Some page_root =>
                match root_domain script_host with
                | None => false
                | Some script_root => eq_ignore_ascii_case page_root script_root
                end
            end
      end
  end.

Definition collect_script_host (page_url src : str) (st : gset str * list ScriptHostInfo)
  : gset str * list ScriptHostInfo :=
  match resolve_script_url page_url src with
  | None => st
  | Some abs =>
      match host_of_url abs with
      | None => st
      | Some host =>
          push_unseen host
            (MkScriptHostInfo host (root_domain host) (is_first_party_script page_url abs)) st
      end
  end.

Definition collect_script_hosts (page_url : str) (script_sources : list str)
  : list ScriptHostInfo :=
  (foldl (λ st src, collect_script_host page_url src st) (∅, []) script_sources).2.
End Hosts.

Record ExternalScriptScanResult := MkScriptScan {
  es_secrets : list ExposedSecret;
  es_eligible : Z;
  es_scanned : Z;
  es_script_bodies_text : str;
}.
Definition no_script_scan : ExternalScriptScanResult := MkScriptScan [] 0 0 [].

Definition is_success (status : Z) : bool := (200 <=? status) && (status <? 300).
(** [u32::try_from(n).unwrap_or(u32::MAX)]. *)
Definition clamp_u32 (n : nat) : Z := Z.min u32_max (Z.of_nat n).

Section Scan.
Context `{U : UrlLib} `{L : Lowercase} `{P : Psl} `{E : EncodingRs}.
Context {S : Type} (send : S -> str -> S * option Response).
Context (detect_exposed_secrets : str -> option (list ExposedSecret)).

Definition eligible_scripts (page_url : str) (script_sources : list str)
    (allow_localhost : bool) : list str :=
  List.filter (is_first_party_script page_url)
    (List.filter (λ abs, allow_localhost || is_ok (validate_url_safe abs))
       (List.filter (λ abs, starts_with (lit "http://") abs || starts_with (lit "https://") abs)
          (omap (resolve_script_url page_url) script_sources))).

Definition fetch_script_body (st : S) (url : str) : S * option str :=
  match send st url with
  | (st, None) => (st, None)
  | (st, Some resp) =>
      if negb (is_success (status resp)) then (st, None)
      else
        let content_type := mjoin (get (lit "content-type") (resp_headers resp)) in
        match stream_bytes_with_limit resp MAX_SCRIPT_BODY_BYTES Truncate with
        | Ok streamed => (st, Some (decode_body (into_bytes streamed) content_type false))
        | Err _ => (st, None)
        end
  end.

Fixpoint fetch_all (st : S) (urls : list str) : S * list (str * str) :=
  match urls with
  | [] => (st, [])
  | url :: urls =>
      let (st, body) := fetch_script_body st url in
      let (st, rest) := fetch_all st urls in
      (st, match body with Some body => (url, body) :: rest | None => rest end)
  end.

(** The scan of the bodies; a panic in one of them ends the task. *)
Fixpoint script_secrets (owned : list (str * str)) : option (list ExposedSecret) :=
  match owned with
  | [] => Some []
  | (url, body) :: owned =>
      found ← detect_exposed_secrets body;
      rest ← script_secrets owned;
      Some (map (set_location (lit "external_script:" ++ url)) found ++ rest)
  end.

Definition analyse_scripts (owned : list (str * str)) : list ExposedSecret * str :=
  match script_secrets owned with
  | Some all_secrets =>
      (all_secrets, join [10] (map to_lowercase (List.filter nonempty (map snd owned))))
  | None => ([], [])
  end.

Definition scan_external_scripts (st : S) (page_url : str) (script_sources : list str)
    (allow_localhost : bool) : S * ExternalScriptScanResult :=
  if negb (nonempty script_sources) then (st, no_script_scan)
  else
    let eligible := eligible_scripts page_url script_sources allow_localhost in
    let resolved := take MAX_SCRIPT_FETCH_PER_PAGE eligible in
    if negb (nonempty resolved) then (st, MkScriptScan [] (clamp_u32 (length eligible)) 0 [])
    else
      let (st, owned) := fetch_all st resolved in
      let (all_secrets, script_bodies_text) := analyse_scripts owned in
      (st, MkScriptScan all_secrets (clamp_u32 (length eligible)) (clamp_u32 (length owned))
             script_bodies_text).
End Scan.

(** ** Lemmas *)

(** Pushing keyed values: one value per key, each from the input, and no key is lost. *)
Lemma push_unseen_fold {K V : Type} `{Countable K} (key : V -> K) (l : list (K * V)) :
  Forall (λ kv, key kv.2 = kv.1) l ->
  let out := (foldl (λ st kv, push_unseen kv.1 kv.2 st) (∅ : gset K, []) l).2 in
  NoDup (map key out) ∧ (∀ v, v ∈ out -> (key v, v) ∈ l) ∧ (∀ k, k ∈ l.*1 -> k ∈ map key out).
Proof.
  intros Hkeys. cbn zeta.
  enough (Hgen : ∀ pre st,
    NoDup (map key st.2) -> (∀ v, v ∈ st.2 -> (key v, v) ∈ pre ++ l) ->
    (∀ k, k ∈ pre.*1 -> k ∈ map key st.2) -> (∀ k, k ∈ st.1 <-> k ∈ map key st.2) ->
    let out := (foldl (λ st kv, push_unseen kv.1 kv.2 st) st l).2 in
    NoDup (map key out) ∧ (∀ v, v ∈ out -> (key v, v) ∈ pre ++ l)
    ∧ (∀ k, k ∈ (pre ++ l).*1 -> k ∈ map key out)).
  { apply (Hgen [] (∅, [])); cbn; [constructor|by intros ? ?%elem_of_nil|done|].
    intros k. rewrite elem_of_empty, elem_of_nil. done. }
  induction l as [|[k v] l IH]; intros pre st Hnd Hsub Hpre Hseen; cbn zeta.
  { cbn. rewrite app_nil_r in *. done. }
  apply Forall_cons_iff in Hkeys as [Hk Hkeys]. cbn in Hk.
  cbn [foldl]. replace (pre ++ (k, v) :: l) with ((pre ++ [(k, v)]) ++ l) in *
    by (by rewrite <- app_assoc).
  unfold push_unseen at 2 4 6. cbn [fst snd]. case_bool_decide as Hin.
  - apply (IH Hkeys (pre ++ [(k, v)])); [done|done| |done].
    intros k'. rewrite fmap_app, elem_of_app. intros [Hp|Hp]; [by apply Hpre|].
    apply list_elem_of_singleton in Hp as ->. by apply Hseen.
  - apply (IH Hkeys (pre ++ [(k, v)])); cbn.
    + rewrite map_app. apply list.NoDup_app. split; [done|]. split; [|apply NoDup_singleton].
      intros k' Hk' Hs. apply list_elem_of_singleton in Hs. apply Hin, Hseen. congruence.
    + intros w. rewrite elem_of_app. intros [Hw|Hw]; [by apply Hsub|].
      apply list_elem_of_singleton in Hw as ->. rewrite Hk. set_solver.
    + intros k'. rewrite fmap_app, map_app, !elem_of_app. intros [Hp|Hp]; [left; by apply Hpre|].
      right. cbn in Hp |- *. by rewrite Hk.
    + intros k'. rewrite map_app, elem_of_app, elem_of_union, elem_of_singleton, Hseen. cbn.
      rewrite list_elem_of_singleton, Hk. tauto.
Qed.

Section HostTheorems.
Context `{U : UrlLib} `{L : Lowercase} `{P : Psl}.

Definition script_host (page_url src : str) : option (str * ScriptHostInfo) :=
  abs ← resolve_script_url page_url src;
  host ← host_of_url abs;
  Some (host, MkScriptHostInfo host (root_domain host) (is_first_party_script page_url abs)).

Lemma collect_script_hosts_items page_url sources :
  collect_script_hosts page_url sources
  = (foldl (λ st kv, push_unseen kv.1 kv.2 st) (∅ : gset str, [])
       (omap (script_host page_url) sources)).2.
Proof.
  unfold collect_script_hosts. f_equal. generalize (∅ : gset str, @nil ScriptHostInfo).
  induction sources as [|src sources IH]; intros st; [done|].
  cbn [foldl omap list_omap]. unfold collect_script_host, script_host.
  destruct (resolve_script_url page_url src) as [abs|]; [|apply IH]. cbn [mbind option_bind].
  destruct (host_of_url abs) as [host|]; [|apply IH]. cbn [mbind option_bind foldl]. apply IH.
Qed.

(** The hosts of the scripts of a page are listed once each, with the party and the
    registrable domain of one of the scripts they serve. *)
Lemma collect_script_hosts_spec page_url sources :
  let out := collect_script_hosts page_url sources in
  NoDup (map sh_host out)
  ∧ (∀ i, i ∈ out -> ∃ src, src ∈ sources ∧ script_host page_url src = Some (sh_host i, i))
  ∧ (∀ src h i, src ∈ sources -> script_host page_url src = Some (h, i) -> h ∈ map sh_host out).
Proof.
  cbn zeta. rewrite collect_script_hosts_items.
  destruct (push_unseen_fold sh_host (omap (script_host page_url) sources)) as (Hnd & Hin & Hall).
  { apply list.Forall_forall. intros [h i] (src & _ & Hs)%list_elem_of_omap.
    unfold script_host in Hs.
    destruct (resolve_script_url page_url src) as [abs|]; [|done]. cbn in Hs.
    destruct (host_of_url abs) as [host|]; [|done]. by injection Hs as <- <-. }
  split; [done|split].
  - intros i Hi. apply Hin in Hi. by apply list_elem_of_omap in Hi.
  - intros src h i Hsrc Hs. apply Hall. apply list_elem_of_fmap. exists (h, i). split; [done|].
    apply list_elem_of_omap. by exists src.
Qed.

Lemma first_party_host page_url script_url :
  is_first_party_script page_url script_url = true ->
  ∃ page_host script_host,
    host_of_url page_url = Some page_host ∧ host_of_url script_url = Some script_host
    ∧ is_known_third_party_script_host script_host = false
    ∧ (page_host = script_host
       ∨ ∃ p s, root_domain page_host = Some p ∧ root_domain script_host = Some s
                ∧ to_ascii_lowercase p = to_ascii_lowercase s).
Proof.
  unfold is_first_party_script. destruct (host_of_url page_url) as [ph|]; [|done].
  destruct (host_of_url script_url) as [sh|]; [|done].
  destruct (is_known_third_party_script_host sh) eqn:Ek; [done|]. intros H.
  exists ph, sh. do 3 (split; [done|]).
  destruct (streqb ph sh) eqn:Ee; [left; by apply bool_decide_eq_true in Ee|right].
  destruct (root_domain ph) as [p|]; [|done]. destruct (root_domain sh) as [s|]; [|done].
  apply eq_ignore_ascii_case_iff in H. by exists p, s.
Qed.
End HostTheorems.

Section ScanTheorems.
Context `{U : UrlLib} `{L : Lowercase} `{P : Psl} `{E : EncodingRs}.
Context {S : Type} (send : S -> str -> S * option Response).
Context (detect_exposed_secrets : str -> option (list ExposedSecret)).

Lemma fetch_script_body_sends st url : (fetch_script_body send st url).1 = (send st url).1.
Proof.
  unfold fetch_script_body. destruct (send st url) as [st' [resp|]]; [|done].
  destruct (negb _); [done|]. by destruct (stream_bytes_with_limit _ _ _).
Qed.

Lemma fetch_all_requests urls : ∀ st,
  (fetch_all send st urls).1 = foldl (λ st url, (send st url).1) st urls
  ∧ (length (fetch_all send st urls).2 <= length urls)%nat
  ∧ Forall (λ e, e.1 ∈ urls) (fetch_all send st urls).2.
Proof.
  induction urls as [|url urls IH]; intros st; [split; [done|]; split; [cbn; lia|constructor]|].
  cbn [fetch_all foldl]. pose proof (fetch_script_body_sends st url) as Hs.
  destruct (fetch_script_body send st url) as [st' body]. cbn [fst] in Hs. subst st'.
  destruct (IH (send st url).1) as (H1 & H2 & H3).
  destruct (fetch_all send (send st url).1 urls) as [st1 rest]. cbn [fst snd] in *.
  assert (Hr : Forall (λ e : str * str, e.1 ∈ url :: urls) rest).
  { eapply Forall_impl; [|exact H3]. intros e He. apply elem_of_cons. by right. }
  split; [done|]. destruct body; cbn [length]; (split; [lia|]); [|done].
  constructor; [apply elem_of_cons; by left|done].
Qed.

(** The body of the [i]-th request, on the state the requests before it left. *)
Definition body_of_request (st : S) (urls : list str) (i : nat) (url : str) : option str :=
  (fetch_script_body send (foldl (λ st url, (send st url).1) st (take i urls)) url).2.

Lemma fetch_all_bodies urls : ∀ st,
  Forall (λ e, ∃ i, urls !! i = Some e.1 ∧ body_of_request st urls i e.1 = Some e.2)
    (fetch_all send st urls).2.
Proof.
  induction urls as [|url urls IH]; intros st; [constructor|]. cbn [fetch_all].
  pose proof (fetch_script_body_sends st url) as Hs.
  destruct (fetch_script_body send st url) as [st' body] eqn:Eb. cbn [fst] in Hs. subst st'.
  specialize (IH (send st url).1).
  destruct (fetch_all send (send st url).1 urls) as [st1 rest]. cbn [fst snd] in *.
  assert (Hrest : Forall (λ e, ∃ i, (url :: urls) !! i = Some e.1
                            ∧ body_of_request st (url :: urls) i e.1 = Some e.2) rest).
  { eapply List.Forall_impl; [|exact IH]. intros e (i & Hi & He). by exists (Datatypes.S i). }
  destruct body as [body|]; [|exact Hrest]. constructor; [|exact Hrest].
  exists O. split; [done|]. unfold body_of_request. cbn [take foldl fst snd]. by rewrite Eb.
Qed.

Lemma script_secrets_located owned found : script_secrets detect_exposed_secrets owned = Some found ->
  Forall (λ s, ∃ e f x, e ∈ owned ∧ detect_exposed_secrets e.2 = Some f ∧ x ∈ f
                        ∧ s = set_location (lit "external_script:" ++ e.1) x) found.
Proof.
  revert found. induction owned as [|[url body] owned IH]; intros found; cbn [script_secrets].
  { intros [= <-]. constructor. }
  destruct (detect_exposed_secrets body) as [f|] eqn:Ef; [|done]. cbn [mbind option_bind].
  destruct (script_secrets detect_exposed_secrets owned) as [rest|]; [|done]. intros [= <-].
  apply Forall_app. split.
  - apply List.Forall_map, List.Forall_forall. intros x Hx.
    exists (url, body), f, x. split; [by left|]. split; [exact Ef|]. split; [|reflexivity].
    by apply list_elem_of_In.
  - eapply List.Forall_impl; [|by apply IH]. intros s (e & f' & x & He & Hd & Hx & Hl).
    exists e, f', x. by split; [right|].
Qed.

Definition script_request_ok (page_url : str) (allow_localhost : bool) (url : str) : Prop :=
  (starts_with (lit "http://") url = true ∨ starts_with (lit "https://") url = true)
  ∧ (allow_localhost = true ∨ validate_url_safe url = Ok tt)
  ∧ is_first_party_script page_url url = true.

Lemma eligible_ok page_url sources allow :
  Forall (script_request_ok page_url allow) (eligible_scripts page_url sources allow).
Proof.
  apply List.Forall_forall. intros url. unfold eligible_scripts. rewrite !filter_In.
  intros (((_ & Hs) & Hv) & Hf). apply orb_true_iff in Hs, Hv. split; [done|]. split; [|done].
  destruct Hv as [Hv|Hv]; [by left|right]. by destruct (validate_url_safe url) as [[]|].
Qed.

(** C25: The requests a page causes: at most ten, each over http(s), accepted by the SSRF check
    unless local hosts are allowed, and to a first party of the page.  Nothing else is sent,
    the counters are in order, and every secret was found in the body that the request it
    names brought back. *)
Theorem script_requests_safe st page_url sources allow :
  let requests := take MAX_SCRIPT_FETCH_PER_PAGE (eligible_scripts page_url sources allow) in
  let (st', r) := scan_external_scripts send detect_exposed_secrets st page_url sources allow in
  st' = foldl (λ st url, (send st url).1) st requests
  ∧ (length requests <= 10)%nat
  ∧ Forall (script_request_ok page_url allow) requests
  ∧ 0 <= es_scanned r <= es_eligible r
  ∧ Forall (λ s, ∃ i url body found secret,
        requests !! i = Some url ∧ body_of_request st requests i url = Some body
        ∧ detect_exposed_secrets body = Some found ∧ secret ∈ found
        ∧ s = set_location (lit "external_script:" ++ url) secret)
      (es_secrets r).
Proof.
  cbn zeta. unfold scan_external_scripts.
  destruct sources as [|src sources].
  { cbn. repeat (split; [first [done|lia|constructor]|]). constructor. }
  cbn [nonempty negb]. pose proof (eligible_ok page_url (src :: sources) allow) as Hok.
  generalize dependent (eligible_scripts page_url (src :: sources) allow). intros l Hok.
  assert (Hlen : (length (take MAX_SCRIPT_FETCH_PER_PAGE l) <= 10)%nat).
  { rewrite length_take. unfold MAX_SCRIPT_FETCH_PER_PAGE. lia. }
  assert (Htake : Forall (script_request_ok page_url allow) (take MAX_SCRIPT_FETCH_PER_PAGE l)).
  { by apply Forall_take. }
  assert (Hle : (length (take MAX_SCRIPT_FETCH_PER_PAGE l) <= length l)%nat).
  { rewrite length_take. lia. }
  generalize dependent (take MAX_SCRIPT_FETCH_PER_PAGE l). intros requests Hlen Htake Hle.
  assert (Hc : ∀ n, 0 <= clamp_u32 n) by (intros n; unfold clamp_u32, u32_max; lia).
  destruct requests as [|url requests]; cbn [nonempty negb].
  { split; [done|]. split; [done|]. split; [done|]. split; [cbn; split; [done|apply Hc]|constructor]. }
  destruct (fetch_all_requests (url :: requests) st) as (H1 & H2 & _).
  pose proof (fetch_all_bodies (url :: requests) st) as H3.
  destruct (fetch_all send st (url :: requests)) as [st' owned]. cbn [fst snd] in *.
  assert (Hf : Forall (λ s, ∃ i u body found secret,
      (url :: requests) !! i = Some u ∧ body_of_request st (url :: requests) i u = Some body
      ∧ detect_exposed_secrets body = Some found ∧ secret ∈ found
      ∧ s = set_location (lit "external_script:" ++ u) secret)
    (analyse_scripts detect_exposed_secrets owned).1).
  { unfold analyse_scripts.
    destruct (script_secrets detect_exposed_secrets owned) as [found|] eqn:Ef; [|constructor].
    apply script_secrets_located in Ef. eapply List.Forall_impl; [|exact Ef].
    intros s (e & f & x & He & Hd & Hx & Hl). rewrite List.Forall_forall in H3.
    destruct (H3 e) as (i & Hi & Hb); [by apply list_elem_of_In|].
    by exists i, e.1, e.2, f, x. }
  destruct (analyse_scripts detect_exposed_secrets owned) as [all_secrets text].
  split; [done|]. split; [done|]. split; [done|].
  split; [cbn [es_scanned es_eligible]; unfold clamp_u32, u32_max; lia|done].
Qed.
End ScanTheorems.
