(* ===== verification/WellKnown.v ===== *)
(** * security.txt and robots.txt ([src/src/fetch/well_known.rs])

    The two files of the origin of a page and their line format.  A request that fails or
    times out is [None]; the two fetches of the [join!] run one after the other. *)

From S2P Require Import Prelude Net Redirects Dns Satellites Response.

Definition MAX_WELL_KNOWN_BODY : nat := Z.to_nat (64 * 1024).
#[global] Opaque MAX_WELL_KNOWN_BODY.

Record WellKnownData := MkWellKnown {
  wk_security_txt : option SecurityTxtData;
  wk_robots_txt : option RobotsTxtData;
}.

(** [Url::port]: the port when it is not the default of the scheme. *)
Class UrlPort (U : UrlLib) := { url_port : Url -> option Z }.

(** ** The line format *)

(** A line [name: value] that is neither blank nor a comment and has a value. *)
Definition field_line (line : str) : option (str * str) :=
  let line := trim line in
  if negb (nonempty line) || starts_with (lit "#") line then None
  else
    '(field, value) ← split_once 58 line;
    let value := trim value in
    if negb (nonempty value) then None else Some (to_ascii_lowercase (trim field), value).

Definition ROBOTS_DIRECTIVES : list str :=
  map lit ["user-agent"; "disallow"; "allow"; "sitemap"; "crawl-delay"]%string.

Definition parse_robots_directives (body : str) : list (str * str) :=
  List.filter (λ d, existsb (streqb d.1) ROBOTS_DIRECTIVES) (omap field_line (lines body)).

(** The arms of the [match] on the field name. *)
Definition apply_security_field (data : SecurityTxtData) (field : str * str) : SecurityTxtData :=
  let '(MkSecurityTxt url status contacts expires encryption acks langs canonical policy hiring
          raw) := data in
  let (name, value) := field in
  if streqb name (lit "contact") then
    MkSecurityTxt url status (contacts ++ [value]) expires encryption acks langs canonical policy
      hiring raw
  else if streqb name (lit "expires") then
    MkSecurityTxt url status contacts (Some value) encryption acks langs canonical policy hiring
      raw
  else if streqb name (lit "encryption") then
    MkSecurityTxt url status contacts expires (encryption ++ [value]) acks langs canonical policy
      hiring raw
  else if streqb name (lit "acknowledgments") || streqb name (lit "acknowledgements") then
    MkSecurityTxt url status contacts expires encryption (acks ++ [value]) langs canonical policy
      hiring raw
  else if streqb name (lit "preferred-languages") then
    MkSecurityTxt url status contacts expires encryption acks (Some value) canonical policy
      hiring raw
  else if streqb name (lit "canonical") then
    MkSecurityTxt url status contacts expires encryption acks langs (canonical ++ [value]) policy
      hiring raw
  else if streqb name (lit "policy") then
    MkSecurityTxt url status contacts expires encryption acks langs canonical (policy ++ [value])
      hiring raw
  else if streqb name (lit "hiring") then
    MkSecurityTxt url status contacts expires encryption acks langs canonical policy
      (hiring ++ [value]) raw
  else data.

Definition parse_security_txt (url : str) (status : Z) (body : str) : SecurityTxtData :=
  foldl apply_security_field (MkSecurityTxt url status [] None [] [] None [] [] [] body)
    (omap field_line (lines body)).

(** ** The fetches *)

Section Fetch.
Context `{U : UrlLib} `{UP : !UrlPort U}.
Context {S : Type} (send : S -> str -> S * option Response).

(** [Response::bytes]: the whole body, or nothing when reading fails. *)
Definition response_bytes (r : Response) : option (list Z) :=
  match read_failure (resp_chunks r) with
  | None => Some (readable (resp_chunks r))
  | Some _ => None
  end.

Definition fetch_text (st : S) (url : str) : S * option (Z * str) :=
  match send st url with
  | (st, None) => (st, None)
  | (st, Some response) =>
      (st, bytes ← response_bytes response;
           Some (status response, from_utf8_lossy (take MAX_WELL_KNOWN_BODY bytes)))
  end.

Definition fetch_security_txt_one (st : S) (url : str) : S * option SecurityTxtData :=
  match fetch_text st url with
  | (st, Some (status, body)) =>
      if negb ((200 <=? status) && (status <? 300)) || negb (nonempty (trim body))
      then (st, None) else (st, Some (parse_security_txt url status body))
  | (st, None) => (st, None)
  end.

Fixpoint fetch_security_txt (st : S) (urls : list str) : S * option SecurityTxtData :=
  match urls with
  | [] => (st, None)
  | url :: urls =>
      match fetch_security_txt_one st url with
      | (st, Some data) => (st, Some data)
      | (st, None) => fetch_security_txt st urls
      end
  end.

Definition fetch_robots_txt (st : S) (url : str) : S * option RobotsTxtData :=
  match fetch_text st url with
  | (st, Some (status, body)) =>
      if status =? 404 then (st, None)
      else (st, Some (MkRobotsTxt status body (parse_robots_directives body)))
  | (st, None) => (st, None)
  end.

Definition origin_root (url : Url) : option str :=
  let scheme := url_scheme url in
  if negb (streqb scheme (lit "http")) && negb (streqb scheme (lit "https")) then None
  else
    host ← url_host_str url;
    Some (match url_port url with
          | Some port => scheme ++ lit "://" ++ host ++ lit ":" ++ dec port
          | None => scheme ++ lit "://" ++ host
          end).

Definition fetch_well_known (st : S) (final_url : str) : S * WellKnownData :=
  match url_parse final_url with
  | None => (st, MkWellKnown None None)
  | Some base =>
      match origin_root base with
      | None => (st, MkWellKnown None None)
      | Some origin =>
          let (st, security_txt) :=
            fetch_security_txt st
              [origin ++ lit "/.well-known/security.txt"; origin ++ lit "/security.txt"] in
          let (st, robots_txt) := fetch_robots_txt st (origin ++ lit "/robots.txt") in
          (st, MkWellKnown security_txt robots_txt)
      end
  end.
End Fetch.

(** ** Lemmas *)

Lemma split_char_terminated c ls :
  Forall (λ l, c ∉ l) ls -> split_char c (concat (map (λ l, l ++ [c]) ls)) = ls ++ [[]].
Proof.
  induction ls as [|l ls IH]; [done|]. intros [Hl Hls]%Forall_cons_iff. cbn [map concat].
  rewrite <- app_assoc. cbn [app]. rewrite split_char_app_sep by done. by rewrite IH.
Qed.

Lemma line_end_id l : trim l = l -> line_end l = l.
Proof.
  intros El. unfold line_end. destruct (strip_suffix [13] l) as [r|] eqn:E; [|done].
  apply strip_suffix_Some in E as ->. exfalso.
  pose proof (trim_by_trimmed is_whitespace (r ++ [13])) as [_ H]. fold (trim (r ++ [13])) in H.
  rewrite El, reverse_snoc in H. done.
Qed.

Lemma lines_terminated ls :
  Forall (λ l, (10 ∉ l) ∧ trim l = l) ls -> lines (concat (map (λ l, l ++ [10]) ls)) = ls.
Proof.
  intros H. unfold lines. rewrite split_char_terminated by (eapply Forall_impl; [|exact H]; by intros l []).
  rewrite removelast_last, list.last_snoc, app_nil_r.
  induction H as [|l ls [_ Hl] _ IH]; [done|]. cbn [map]. by rewrite IH, line_end_id.
Qed.

Lemma elem_of_removelast {A} (x : A) l : x ∈ removelast l -> x ∈ l.
Proof.
  induction l as [|a l IH]; [done|]. cbn. destruct l as [|b l]; [by intros ?%elem_of_nil|].
  intros [->|H]%elem_of_cons; [by left|]. right. by apply IH.
Qed.

Lemma lines_no_break s l : l ∈ lines s -> 10 ∉ l.
Proof.
  pose proof (proj1 (list.Forall_forall _ _) (split_char_pieces 10 s)) as H.
  unfold lines. intros [Hl|Hl]%elem_of_app.
  - apply list_elem_of_fmap in Hl as (p & -> & Hp%elem_of_removelast). specialize (H p Hp).
    unfold line_end. destruct (strip_suffix [13] p) as [r|] eqn:E; [|done].
    apply strip_suffix_Some in E as ->. rewrite elem_of_app in H. naive_solver.
  - destruct (list.last (split_char 10 s)) as [[|x p]|] eqn:E; try by apply elem_of_nil in Hl.
    apply list_elem_of_singleton in Hl as ->. apply H. by apply last_Some_elem_of.
Qed.

Lemma elem_of_trim x s : x ∈ trim s -> x ∈ s.
Proof. destruct (trim_sub is_whitespace s) as (a & b & E). unfold trim. intros Hx. rewrite E. set_solver. Qed.

(** What a parsed line gives: the value is trimmed, not empty and on one line. *)
Lemma field_line_value s line d :
  line ∈ lines s -> field_line line = Some d -> d.2 <> [] ∧ trim d.2 = d.2 ∧ (10 ∉ d.2).
Proof.
  intros Hl%lines_no_break. unfold field_line.
  destruct (negb _ || _); [done|].
  destruct (split_once 58 (trim line)) as [[f v]|] eqn:E; cbn [mbind option_bind]; [|done].
  destruct (trim v) as [|x w] eqn:Ev; [done|]. intros [= <-]. cbn [snd]. rewrite <- Ev.
  split_and!; [by rewrite Ev|apply trim_trim|]. intros H%elem_of_trim.
  apply split_once_Some in E as [E _]. apply Hl, elem_of_trim. rewrite E. set_solver.
Qed.

(** A directive as the parser gives it, and the line that stands for it. *)
Definition wf_directive (d : str * str) : Prop :=
  d.1 ∈ ROBOTS_DIRECTIVES ∧ d.2 <> [] ∧ trim d.2 = d.2 ∧ (10 ∉ d.2).

Definition render_directive (d : str * str) : str := d.1 ++ lit ": " ++ d.2.
Definition render_robots (ds : list (str * str)) : str :=
  concat (map (λ l, l ++ [10]) (map render_directive ds)).

Lemma existsb_directive f : existsb (streqb f) ROBOTS_DIRECTIVES = true <-> f ∈ ROBOTS_DIRECTIVES.
Proof.
  rewrite existsb_exists. setoid_rewrite streqb_eq. setoid_rewrite <- list_elem_of_In. naive_solver.
Qed.

(** A name that reads back as itself: lower case, trimmed, no colon, not a comment. *)
Definition plain_name (f : str) : bool :=
  match f with
  | [] => false
  | x :: _ =>
      negb (is_whitespace x) && negb (x =? 35)
      && forallb (λ c, negb (c =? 58) && negb (c =? 10)) f
      && streqb (trim f) f && streqb (to_ascii_lowercase f) f
  end.

Lemma directives_plain f : f ∈ ROBOTS_DIRECTIVES -> plain_name f = true.
Proof.
  assert (H : forallb plain_name ROBOTS_DIRECTIVES = true) by reflexivity.
  rewrite forallb_forall in H. intros Hf%list_elem_of_In. by apply H.
Qed.

Lemma trim_space s : trim (32 :: s) = trim s.
Proof. done. Qed.

Lemma render_trimmed d : plain_name d.1 = true -> d.2 <> [] -> trim d.2 = d.2 ->
  trim (render_directive d) = render_directive d.
Proof.
  destruct d as [[|x f] v]; [done|]. unfold render_directive. cbn [fst snd plain_name].
  rewrite !andb_true_iff. intros [[[[Hx _] _] _] _] Hv Ev. apply trim_by_id. split.
  - cbn. by apply negb_true_iff.
  - pose proof (trim_by_trimmed is_whitespace v) as [_ H]. fold (trim v) in H. rewrite Ev in H.
    rewrite !reverse_app. destruct (reverse v) as [|y r] eqn:Er; [|exact H].
    apply (f_equal reverse) in Er. by rewrite reverse_involutive in Er.
Qed.

Lemma field_line_render d : plain_name d.1 = true -> d.2 <> [] -> trim d.2 = d.2 ->
  field_line (render_directive d) = Some d.
Proof.
  intros Hp Hv Ev. unfold field_line. rewrite render_trimmed by done. revert Hp.
  destruct d as [[|x f] v]; [done|]. unfold render_directive. cbn [fst snd plain_name] in *.
  rewrite !andb_true_iff. intros [[[[_ Hx] Hf] Ef%streqb_eq] El%streqb_eq].
  assert (Hs : starts_with (lit "#") ((x :: f) ++ lit ": " ++ v) = false).
  { apply negb_true_iff in Hx. rewrite Z.eqb_sym in Hx.
    unfold starts_with. change (lit "#") with [35]. cbn [app strip_prefix]. by rewrite Hx. }
  rewrite Hs. cbn [app nonempty negb orb].
  replace (split_once 58 (x :: f ++ lit ": " ++ v)) with (Some (x :: f, 32 :: v)).
  - cbn [mbind option_bind]. rewrite trim_space, Ev.
    destruct v as [|y v]; [done|]. cbn [nonempty negb]. by rewrite Ef, El.
  - symmetry. apply (split_once_app 58 (x :: f)). intros Hc.
    rewrite forallb_forall in Hf. apply list_elem_of_In, Hf in Hc. done.
Qed.

Lemma robots_lines ds : Forall wf_directive ds -> lines (render_robots ds) = map render_directive ds.
Proof.
  intros H. apply lines_terminated. rewrite List.Forall_map. eapply Forall_impl; [|exact H].
  intros [f v] (Hf%directives_plain & Hv & Ev & Hn). split; [|by apply render_trimmed].
  unfold render_directive. cbn [fst snd] in *. rewrite !elem_of_app. intros [Hc|[Hc|Hc]]; [|by vm_compute in Hc; set_solver|done].
  destruct f as [|x f]; [done|]. unfold plain_name in Hf. rewrite !andb_true_iff in Hf.
  destruct Hf as [[[_ Hf] _] _]. rewrite forallb_forall in Hf.
  apply list_elem_of_In, Hf in Hc. done.
Qed.

Lemma parse_render_robots ds : Forall wf_directive ds ->
  parse_robots_directives (render_robots ds) = ds.
Proof.
  intros H. unfold parse_robots_directives. rewrite robots_lines by done.
  induction H as [|d ds (Hf & Hv & Ev & _) _ IH]; [done|]. cbn [map].
  rewrite omap_cons, field_line_render by eauto using directives_plain. cbn [List.filter].
  by rewrite (proj2 (existsb_directive d.1) Hf), IH.
Qed.

Lemma parse_robots_wf body : Forall wf_directive (parse_robots_directives body).
Proof.
  apply list.Forall_forall. unfold parse_robots_directives. intros d [Hd Hf]%list_elem_of_In%filter_In.
  apply list_elem_of_In, list_elem_of_omap in Hd as (l & Hl & Ed).
  split; [by apply existsb_directive|]. by eapply field_line_value.
Qed.

(** C33: Parsing robots.txt and writing the directives back lose nothing: a rendered list of
    directives reads back as itself, what the parser keeps of any body is such a list, and a
    rewritten body parses like the original. *)
Theorem robots_roundtrip :
  (∀ ds, Forall wf_directive ds -> parse_robots_directives (render_robots ds) = ds)
  ∧ (∀ body, Forall wf_directive (parse_robots_directives body))
  ∧ ∀ body, parse_robots_directives (render_robots (parse_robots_directives body))
            = parse_robots_directives body.
Proof.
  split_and!; eauto using parse_render_robots, parse_robots_wf.
Qed.

(** ** security.txt: fields repeat, a later [Expires] replaces an earlier one. *)

(** The values of the fields of that name, in the order of the file. *)
Definition values_of (names : list str) (fields : list (str * str)) : list str :=
  map snd (List.filter (λ d, existsb (streqb d.1) names) fields).

Lemma values_of_cons names d fields :
  values_of names (d :: fields)
  = (if existsb (streqb d.1) names then [d.2] else []) ++ values_of names fields.
Proof. unfold values_of. cbn. by destruct (existsb _ names). Qed.

Definition security_txt_spec (data : SecurityTxtData) (fields : list (str * str))
  : SecurityTxtData := {|
  st_source_url := st_source_url data;
  st_http_status := st_http_status data;
  st_contacts := st_contacts data ++ values_of [lit "contact"] fields;
  st_expires := match list.last (values_of [lit "expires"] fields) with
                | Some v => Some v | None => st_expires data end;
  st_encryption := st_encryption data ++ values_of [lit "encryption"] fields;
  st_acknowledgments := st_acknowledgments data
    ++ values_of [lit "acknowledgments"; lit "acknowledgements"] fields;
  st_preferred_languages :=
    match list.last (values_of [lit "preferred-languages"] fields) with
    | Some v => Some v | None => st_preferred_languages data end;
  st_canonical := st_canonical data ++ values_of [lit "canonical"] fields;
  st_policy := st_policy data ++ values_of [lit "policy"] fields;
  st_hiring := st_hiring data ++ values_of [lit "hiring"] fields;
  st_raw_body := st_raw_body data |}.

Lemma security_fields_fold fields : ∀ data,
  foldl apply_security_field data fields = security_txt_spec data fields.
Proof.
  induction fields as [|[name value] fields IH]; intros [u st c e en ak l ca po hi raw].
  - unfold security_txt_spec. cbn. by rewrite !app_nil_r.
  - cbn [foldl]. rewrite IH. unfold security_txt_spec.
    rewrite !values_of_cons. cbn [fst snd existsb]. unfold apply_security_field.
    repeat match goal with
    | |- context [streqb name ?n] =>
        destruct (streqb name n) eqn:Hn; [apply streqb_eq in Hn; subst name|clear Hn]
    end; cbn -[lit values_of list.last];
    repeat (change (streqb (lit ?a) (lit ?b)) with false); cbn [orb app];
    rewrite ?list.last_cons, <- ?app_assoc; cbn [app]; f_equal;
    by repeat case_match; simplify_eq.
Qed.

(** What is read from a security.txt: every field of the RFC that may repeat keeps its
    values in the order of the file (both spellings of the acknowledgements field in one
    list), the last value of the two single ones wins, other fields are dropped, and the
    body is kept whole. *)
Theorem security_txt_fields url status body :
  let fields := omap field_line (lines body) in
  parse_security_txt url status body
  = {| st_source_url := url; st_http_status := status;
       st_contacts := values_of [lit "contact"] fields;
       st_expires := list.last (values_of [lit "expires"] fields);
       st_encryption := values_of [lit "encryption"] fields;
       st_acknowledgments := values_of [lit "acknowledgments"; lit "acknowledgements"] fields;
       st_preferred_languages := list.last (values_of [lit "preferred-languages"] fields);
       st_canonical := values_of [lit "canonical"] fields;
       st_policy := values_of [lit "policy"] fields;
       st_hiring := values_of [lit "hiring"] fields;
       st_raw_body := body |}.
Proof.
  unfold parse_security_txt. rewrite security_fields_fold. unfold security_txt_spec.
  cbn -[lit values_of list.last field_line]. f_equal; by case_match.
Qed.

(** ** What is requested *)

(** A client that writes down the URLs it is asked for. *)
Definition logged {S R} (send : S -> str -> S * R) (st : S * list str) (url : str)
  : (S * list str) * R :=
  let (st', r) := send st.1 url in ((st', st.2 ++ [url]), r).

Lemma logged_eq {S R} (send : S -> str -> S * R) st log url :
  logged send (st, log) url = (((send st url).1, log ++ [url]), (send st url).2).
Proof. unfold logged. cbn [fst snd]. by destruct (send st url). Qed.

Section Requests.
Context `{U : UrlLib} `{UP : !UrlPort U}.
Context {S : Type} (send : S -> str -> S * option Response).

Lemma fetch_text_logged st log url :
  (fetch_text (logged send) (st, log) url).1.2 = log ++ [url].
Proof. unfold fetch_text, logged. cbn [fst snd]. by destruct (send st url) as [st' [r|]]. Qed.

(** One security.txt is one request; what it gives names its URL and was a success. *)
Lemma security_one_logged st log url :
  let r := fetch_security_txt_one (logged send) (st, log) url in
  r.1.2 = log ++ [url]
  ∧ ∀ data, r.2 = Some data ->
      st_source_url data = url ∧ 200 <= st_http_status data < 300 ∧ trim (st_raw_body data) <> [].
Proof.
  pose proof (fetch_text_logged st log url) as Hl. unfold fetch_security_txt_one.
  destruct (fetch_text _ _ _) as [st' [[status body]|]]; cbn [fst snd] in *; [|done].
  destruct (negb _ || _) eqn:E; cbn [fst snd]; [done|]. split; [done|]. intros data [= <-].
  rewrite security_txt_fields. cbn [st_source_url st_http_status st_raw_body].
  apply orb_false_iff in E as [E1%negb_false_iff E2%negb_false_iff]. split; [done|]. split; [lia|].
  by destruct (trim body).
Qed.

Lemma robots_logged st log url :
  (fetch_robots_txt (logged send) (st, log) url).1.2 = log ++ [url].
Proof.
  pose proof (fetch_text_logged st log url) as Hl. unfold fetch_robots_txt.
  destruct (fetch_text _ _ _) as [st' [[status body]|]]; cbn [fst snd] in *; [|done].
  by destruct (status =? 404).
Qed.

(** The well-known fetches of a page stay on its origin: nothing is requested for a URL that
    is not http(s) or has no host; otherwise [/.well-known/security.txt], then
    [/security.txt] only when the first gave no file, then [/robots.txt], and nothing else.
    A security.txt that is reported was served with a 2xx status by the URL it names. *)
Theorem well_known_requests st final_url :
  let r := fetch_well_known (logged send) (st, []) final_url in
  match url_parse final_url ≫= origin_root with
  | None => r = ((st, []), MkWellKnown None None)
  | Some origin =>
      let first := origin ++ lit "/.well-known/security.txt" in
      let second := origin ++ lit "/security.txt" in
      let robots := origin ++ lit "/robots.txt" in
      match wk_security_txt r.2 with
      | Some data =>
          (r.1.2 = [first; robots] ∧ st_source_url data = first
           ∨ r.1.2 = [first; second; robots] ∧ st_source_url data = second)
          ∧ 200 <= st_http_status data < 300 ∧ trim (st_raw_body data) <> []
      | None => r.1.2 = [first; second; robots]
      end
  end.
Proof.
  unfold fetch_well_known. destruct (url_parse final_url) as [base|]; cbn [mbind option_bind]; [|done].
  destruct (origin_root base) as [origin|]; [|done]. cbv zeta.
  generalize (origin ++ lit "/.well-known/security.txt") as a.
  generalize (origin ++ lit "/security.txt") as b. generalize (origin ++ lit "/robots.txt") as c.
  intros c b a. cbn [fetch_security_txt].
  pose proof (security_one_logged st [] a) as [Ha Hda]. cbv zeta in Ha, Hda.
  destruct (fetch_security_txt_one _ _ a) as [[st1 l1] [d|]]; cbn [fst snd] in *; subst l1.
  - pose proof (robots_logged st1 [a] c) as Hc. change ([] ++ [a]) with [a].
    destruct (fetch_robots_txt _ _ c) as [st2 r2]. cbn [fst snd wk_security_txt] in *.
    destruct (Hda d eq_refl) as (H1 & H2 & H3). auto.
  - pose proof (security_one_logged st1 [a] b) as [Hb Hdb]. cbv zeta in Hb, Hdb.
    change ([] ++ [a]) with [a].
    destruct (fetch_security_txt_one _ _ b) as [[st2 l2] o]; cbn [fst snd] in *; subst l2.
    pose proof (robots_logged st2 ([a] ++ [b]) c) as Hc.
    destruct o as [d|]; destruct (fetch_robots_txt _ _ c) as [st3 r3];
      cbn [fst snd wk_security_txt] in *; [|done].
    destruct (Hdb d eq_refl) as (H1 & H2 & H3). auto.
Qed.
End Requests.
