(* ===== verification/Favicon.v ===== *)
(** * Favicons ([src/src/fetch/favicon.rs])

    Where the icon of a page is looked for, the redirects followed to it and its hash.  The
    base64 encoder and MurmurHash3 are parameters; a request that fails or times out is
    [None].  The [Err] of [fetch_favicon_bytes] is never built and is left out. *)

From S2P Require Import Prelude Sanitize Net Security Redirects Dns StorageRecord Response Scripts.
From S2P Require Import WellKnown.

Definition MAX_FAVICON_REDIRECTS : nat := 5.
Definition MAX_FAVICON_SIZE : nat := Z.to_nat (50 * 1024).
#[global] Opaque MAX_FAVICON_SIZE.

Class FaviconLib := {
  base64_standard : list Z -> str;
  murmur3_32 : list Z -> Z;
}.

(** RFC 4648 with padding: four characters, none a line feed, for every started group of
    three bytes, and groups are encoded one by one. *)
Class FaviconLibLaws (F : FaviconLib) := {
  base64_length : ∀ b, length (base64_standard b) = (4 * ((length b + 2) / 3))%nat;
  base64_app : ∀ a b, (length a mod 3 = 0)%nat ->
    base64_standard (a ++ b) = base64_standard a ++ base64_standard b;
  base64_no_newline : ∀ b, 10 ∉ base64_standard b;
}.

Section Hash.
Context `{F : FaviconLib}.

(** The loop over [chars().enumerate()]: a line feed after every 76th character. *)
Fixpoint wrap_lines (i : nat) (s : str) : str :=
  match s with
  | [] => []
  | ch :: s => ch :: (if ((i + 1) mod 76 =? 0)%nat then 10 :: wrap_lines (S i) s
                      else wrap_lines (S i) s)
  end.

Definition shodan_format (base64_str : str) : str :=
  let formatted := wrap_lines 0 base64_str in
  if ends_with [10] formatted then formatted else formatted ++ [10].

Definition compute_shodan_favicon_hash (raw_bytes : list Z) : Z :=
  as_i32 (murmur3_32 (Sanitize.encode (shodan_format (base64_standard raw_bytes)))).
End Hash.

Section Fetch.
Context `{U : UrlLib} `{UP : !UrlPort U} `{L : Lowercase} `{F : FaviconLib}.
Context {S : Type} (send : S -> str -> S * option Response).

Definition is_redirection (status : Z) : bool := (300 <=? status) && (status <? 400).

(** What one response of the loop leads to. *)
Inductive FaviconStep := Follow (next_url : str) | Done (bytes : option (list Z)).

Definition favicon_body (response : Response) (max_size : nat) : option (list Z) :=
  if negb (is_success (status response)) then None
  else
    match stream_bytes_with_limit response max_size Abort with
    | Ok streamed =>
        let buf := into_bytes streamed in if nonempty buf then Some buf else None
    | Err _ => None
    end.

Definition favicon_step (current_url : str) (max_size : nat) (response : Response)
  : FaviconStep :=
  match (if is_redirection (status response) then location response else None) with
  | Some value =>
      let location_str := trim (default [] value) in
      if negb (nonempty location_str) then Done None
      else
        match (base ← url_parse current_url; url_to_string <$> url_join base location_str) with
        | None => Done None
        | Some next_url =>
            if is_ok (validate_url_safe next_url) then Follow next_url else Done None
        end
  | None => Done (favicon_body response max_size)
  end.

(** The loop [for _ in 0..=MAX_FAVICON_REDIRECTS]. *)
Fixpoint favicon_loop (requests : nat) (max_size : nat) (st : S) (current_url : str)
  : S * option (list Z) :=
  match requests with
  | O => (st, None)
  | Datatypes.S requests =>
      match send st current_url with
      | (st, None) => (st, None)
      | (st, Some response) =>
          match favicon_step current_url max_size response with
          | Follow next_url => favicon_loop requests max_size st next_url
          | Done bytes => (st, bytes)
          end
      end
  end.

Definition fetch_favicon_bytes (st : S) (url : str) (max_size : nat) : S * option (list Z) :=
  favicon_loop (Datatypes.S MAX_FAVICON_REDIRECTS) max_size st url.

Definition resolve_favicon_url (href base_url : str) : option str :=
  if starts_with (lit "http://") href || starts_with (lit "https://") href then Some href
  else
    match strip_prefix (lit "//") href with
    | Some path => Some (lit "https://" ++ path)
    | None => base ← url_parse base_url; url_to_string <$> url_join base href
    end.

Definition fallback_favicon_url (final_url : str) : option str :=
  u ← url_parse final_url;
  let scheme := url_scheme u in
  if negb (streqb scheme (lit "http")) && negb (streqb scheme (lit "https")) then None
  else
    let host := default [] (url_host_str u) in
    Some (match url_port u with
          | Some port => scheme ++ lit "://" ++ host ++ lit ":" ++ dec port ++ lit "/favicon.ico"
          | None => scheme ++ lit "://" ++ host ++ lit "/favicon.ico"
          end).

Definition favicon_target (favicon_href : option str) (final_url : str) : option str :=
  match favicon_href with
  | Some href => resolve_favicon_url href final_url
  | None => fallback_favicon_url final_url
  end.

Definition fetch_and_hash_favicon (st : S) (favicon_href : option str) (final_url : str)
  : S * option FaviconData :=
  match favicon_target favicon_href final_url with
  | None => (st, None)
  | Some favicon_url =>
      match fetch_favicon_bytes st favicon_url MAX_FAVICON_SIZE with
      | (st, Some bytes) => (st, Some (MkFavicon favicon_url (compute_shodan_favicon_hash bytes)))
      | (st, None) => (st, None)
      end
  end.
End Fetch.

(** ** The hash is that of Python's [base64.encodebytes] *)

Section HashLemmas.
Context `{F : FaviconLib} {FL : FaviconLibLaws F}.

(** The reference: 57 bytes a line, each encoded on its own and closed by a line feed. *)
Fixpoint byte_lines (fuel : nat) (bytes : list Z) : list (list Z) :=
  match fuel, bytes with
  | O, _ | _, [] => []
  | S fuel, _ => take 57 bytes :: byte_lines fuel (drop 57 bytes)
  end.
Definition encodebytes (bytes : list Z) : str :=
  concat (map (λ line, base64_standard line ++ [10]) (byte_lines (length bytes) bytes)).

Lemma mod_succ_lt i : ((i mod 76) + 1 < 76)%nat -> ((i + 1) mod 76 = i mod 76 + 1)%nat.
Proof. intros H. rewrite (Nat.Div0.add_mod i 1), (Nat.mod_small 1 76) by lia. by apply Nat.mod_small. Qed.

Lemma mod_succ_wrap i : ((i mod 76) + 1 = 76)%nat -> ((i + 1) mod 76 = 0)%nat.
Proof. intros H. by rewrite (Nat.Div0.add_mod i 1), (Nat.mod_small 1 76), H by lia. Qed.

Lemma wrap_lines_short s : ∀ i, (i mod 76 + length s < 76)%nat -> wrap_lines i s = s.
Proof.
  induction s as [|x s IH]; intros i Hi; [done|]. cbn [wrap_lines length] in *.
  destruct s as [|y s]; cbn [length] in *.
  - rewrite mod_succ_lt by lia. destruct (Nat.eqb_spec (i mod 76 + 1) 0); [lia|done].
  - rewrite mod_succ_lt by lia. destruct (Nat.eqb_spec (i mod 76 + 1) 0); [lia|].
    rewrite IH; [done|]. rewrite <- Nat.add_1_r, mod_succ_lt; lia.
Qed.

Lemma wrap_lines_full l s : ∀ i, l <> [] -> (i mod 76 + length l = 76)%nat ->
  wrap_lines i (l ++ s) = l ++ 10 :: wrap_lines (i + length l) s.
Proof.
  induction l as [|x l IH]; intros i Hl Hi; [done|]. cbn [wrap_lines length app] in *.
  destruct l as [|y l].
  - cbn [length app] in *. rewrite mod_succ_wrap by lia. by rewrite <- Nat.add_1_r.
  - rewrite mod_succ_lt by (cbn [length] in *; lia).
    destruct (Nat.eqb_spec (i mod 76 + 1) 0); [lia|].
    rewrite IH; [|done|rewrite <- Nat.add_1_r, mod_succ_lt; cbn [length] in *; lia].
    by replace (S i + length (y :: l))%nat with (i + S (length (y :: l)))%nat by lia.
Qed.

Lemma wrap_lines_shift s : ∀ i, wrap_lines (i + 76) s = wrap_lines i s.
Proof.
  induction s as [|x s IH]; intros i; [done|]. cbn [wrap_lines].
  replace (i + 76 + 1)%nat with (i + 1 + 1 * 76)%nat by lia. rewrite Nat.Div0.mod_add.
  by rewrite (IH (S i) : wrap_lines (S (i + 76)) s = _).
Qed.

Lemma shodan_format_short s : 10 ∉ s -> (length s < 76)%nat -> shodan_format s = s ++ [10].
Proof.
  intros Hs Hl. unfold shodan_format. rewrite wrap_lines_short by (rewrite Nat.Div0.mod_0_l; lia).
  destruct (ends_with [10] s) eqn:E; [|done]. apply ends_with_iff in E as [r ->].
  exfalso. apply Hs. set_solver.
Qed.

Lemma shodan_format_line l s : length l = 76%nat ->
  shodan_format (l ++ s) = l ++ 10 :: (if nonempty s then shodan_format s else []).
Proof.
  intros Hl. unfold shodan_format.
  rewrite wrap_lines_full by first [by intros ->|by rewrite Hl].
  rewrite Hl, wrap_lines_shift. destruct s as [|x s].
  - cbn [wrap_lines nonempty]. replace (ends_with [10] (l ++ [10])) with true; [done|].
    symmetry. apply ends_with_iff. by eexists.
  - cbn [nonempty]. set (w := wrap_lines 0 (x :: s)).
    replace (ends_with [10] (l ++ 10 :: w)) with (ends_with [10] w).
    + destruct (ends_with [10] w); [done|]. by rewrite <- app_assoc.
    + assert (Hw : w <> []) by (by unfold w).
      destruct (exists_last Hw) as (w' & y & ->). apply eq_iff_eq_true. rewrite !ends_with_iff.
      split; intros [r Hr].
      * exists (l ++ 10 :: r). rewrite Hr. by rewrite <- app_assoc.
      * exists w'. change (l ++ 10 :: w' ++ [y]) with (l ++ (10 :: w') ++ [y]) in Hr.
        rewrite app_assoc in Hr. by apply app_inj_tail in Hr as [_ ->].
Qed.

Lemma byte_lines_S fuel bytes : bytes <> [] ->
  byte_lines (S fuel) bytes = take 57 bytes :: byte_lines fuel (drop 57 bytes).
Proof. by destruct bytes. Qed.

Lemma shodan_format_encodebytes : ∀ fuel bytes, (length bytes <= fuel)%nat -> bytes <> [] ->
  shodan_format (base64_standard bytes)
  = concat (map (λ line, base64_standard line ++ [10]) (byte_lines fuel bytes)).
Proof.
  induction fuel as [|fuel IH]; intros bytes Hf Hb.
  { destruct bytes; [done|]. cbn in Hf. lia. }
  rewrite byte_lines_S by done. cbn [map concat].
  assert (Hpos : (0 < length bytes)%nat) by (destruct bytes; [done|cbn; lia]).
  pose proof (base64_length bytes) as Hlen. pose proof (base64_no_newline bytes) as Hn.
  destruct (le_lt_dec (length bytes) 57) as [Hs|Hs].
  - rewrite take_ge, drop_ge by lia. replace (byte_lines fuel []) with (@nil (list Z)) by by destruct fuel.
    cbn [map concat]. rewrite app_nil_r.
    destruct (Nat.eq_dec (length (base64_standard bytes)) 76%nat) as [H76|H76].
    + rewrite <- (app_nil_r (base64_standard bytes)) at 1. by rewrite shodan_format_line.
    + apply shodan_format_short; [done|].
      assert ((length bytes + 2) / 3 <= 59 / 3)%nat by (apply Nat.Div0.div_le_mono; lia).
      change (59 / 3)%nat with 19%nat in *. lia.
  - rewrite <- (take_drop 57 bytes) at 1.
    rewrite base64_app by (rewrite length_take, Nat.min_l by lia; done).
    assert (Hd : drop 57 bytes <> []).
    { intros Hd. apply (f_equal length) in Hd. rewrite length_drop in Hd. cbn in Hd. lia. }
    rewrite shodan_format_line by (rewrite base64_length, length_take, Nat.min_l by lia; done).
    destruct (base64_standard (drop 57 bytes)) as [|x l] eqn:El.
    + pose proof (base64_length (drop 57 bytes)) as H. rewrite El, length_drop in H. cbn [length] in H.
      assert (3 / 3 <= (length bytes - 57 + 2) / 3)%nat by (apply Nat.Div0.div_le_mono; lia).
      change (3 / 3)%nat with 1%nat in *. lia.
    + cbn [nonempty]. rewrite <- El, IH by first [done|rewrite length_drop; lia].
      by rewrite <- app_assoc.
Qed.

(** The hash of a favicon is MurmurHash3 of what Python's [base64.encodebytes] gives for its
    bytes, as a signed 32-bit number. *)
Theorem shodan_hash_is_encodebytes bytes : bytes <> [] ->
  compute_shodan_favicon_hash bytes = as_i32 (murmur3_32 (Sanitize.encode (encodebytes bytes)))
  ∧ -2147483648 <= compute_shodan_favicon_hash bytes <= i32_max.
Proof.
  intros Hb. unfold compute_shodan_favicon_hash, encodebytes.
  rewrite <- shodan_format_encodebytes by done. split; [done|]. unfold as_i32, i32_max.
  pose proof (Z.mod_pos_bound
    (murmur3_32 (Sanitize.encode (shodan_format (base64_standard bytes))) + 2147483648)
    4294967296 eq_refl). lia.
Qed.
End HashLemmas.

(** ** What is requested *)

Section Requests.
Context `{U : UrlLib} `{UP : !UrlPort U} `{L : Lowercase} `{F : FaviconLib}.
Context {S : Type} (send : S -> str -> S * option Response).

Lemma favicon_step_safe current max_size response next :
  favicon_step current max_size response = Follow next -> validate_url_safe next = Ok tt.
Proof.
  unfold favicon_step. destruct (if is_redirection _ then _ else _) as [value|]; [|done].
  destruct (negb _); [done|].
  destruct (base ← url_parse current; _) as [u|]; [|done].
  destruct (validate_url_safe u) as [[]|] eqn:E; cbn [is_ok]; [|done]. by intros [= <-].
Qed.

Lemma favicon_step_body current max_size response bytes :
  favicon_step current max_size response = Done (Some bytes) ->
  is_success (status response) = true ∧ bytes <> [] ∧ (length bytes <= max_size)%nat
  ∧ bytes = readable (resp_chunks response).
Proof.
  unfold favicon_step. destruct (if is_redirection _ then _ else _) as [value|].
  { destruct (negb _); [done|]. destruct (base ← url_parse current; _); [|done].
    by destruct (is_ok _). }
  intros [= E]. unfold favicon_body in E. destruct (is_success _); [|done]. cbn [negb] in E.
  unfold stream_bytes_with_limit in E.
  pose proof (stream_loop_spec max_size Abort (resp_chunks response) []) as Hs.
  cbn [length app] in Hs. specialize (Hs ltac:(lia)). unfold stream_spec in Hs.
  destruct (Nat.leb_spec (length (readable (resp_chunks response))) max_size) as [Hl|_];
    [|by rewrite Hs in E].
  rewrite Hs in E. destruct (read_failure (resp_chunks response)); [done|].
  cbn [into_bytes] in E. destruct (readable (resp_chunks response)) as [|b bs]; [done|].
  by injection E as <-.
Qed.

(** The bytes are the whole body of the last response, a success within the limit. *)
Definition served (max_size : nat) (url : str) (bytes : list Z) : Prop :=
  ∃ st response, (send st url).2 = Some response ∧ is_success (status response) = true
    ∧ bytes <> [] ∧ (length bytes <= max_size)%nat ∧ bytes = readable (resp_chunks response).

Lemma last_cons_default {A} (x d : A) l : List.last (x :: l) d = List.last l x.
Proof.
  revert x d. induction l as [|y l IH]; intros x d; [done|].
  change (List.last (x :: y :: l) d) with (List.last (y :: l) d). by rewrite !IH.
Qed.

Lemma favicon_loop_S {S'} (send' : S' -> str -> S' * option Response) n max_size st current :
  favicon_loop send' (Datatypes.S n) max_size st current
  = match send' st current with
    | (st, None) => (st, None)
    | (st, Some response) =>
        match favicon_step current max_size response with
        | Follow next_url => favicon_loop send' n max_size st next_url
        | Done bytes => (st, bytes)
        end
    end.
Proof. done. Qed.

(** What the loop asks for after its first URL, and what it returns. *)
Lemma favicon_loop_logged max_size requests : ∀ st log current,
  let r := favicon_loop (logged send) (Datatypes.S requests) max_size (st, log) current in
  ∃ followed, r.1.2 = log ++ current :: followed ∧ (length followed <= requests)%nat
    ∧ Forall (λ url, validate_url_safe url = Ok tt) followed
    ∧ ∀ bytes, r.2 = Some bytes -> served max_size (List.last followed current) bytes.
Proof.
  induction requests as [|requests IH]; intros st log current; cbv zeta;
    rewrite favicon_loop_S, logged_eq; destruct (send st current) as [st' [response|]] eqn:Er; cbn [fst snd];
    try (exists []; split_and!; cbn [fst snd length]; [done|lia|constructor|done]).
  - exists []. destruct (favicon_step current max_size response) as [next|o] eqn:Es;
      cbn [favicon_loop fst snd length]; (split_and!; [done|lia|by constructor|]).
    + done.
    + intros bytes ->. exists st, response. cbn [List.last]. rewrite Er. split; [done|].
      by eapply favicon_step_body.
  - destruct (favicon_step current max_size response) as [next|o] eqn:Es.
    + destruct (IH st' (log ++ [current]) next) as (followed & Hl & Hn & Hf & Hb).
      exists (next :: followed). rewrite Hl. split_and!; [by rewrite <- app_assoc|cbn; lia| |].
      * constructor; [by eapply favicon_step_safe|done].
      * intros bytes H. rewrite last_cons_default. by apply Hb.
    + exists []. split_and!; cbn [fst snd length]; [done|lia|constructor|].
      intros bytes ->. exists st, response. cbn [List.last]. rewrite Er. split; [done|].
      by eapply favicon_step_body.
Qed.

(** Looking for a favicon asks for at most six URLs, every one after the first passes the
    SSRF guard, and what is reported is the hash of a whole non-empty body within the limit
    under the URL first asked for.  That first URL is not checked: an icon link that starts
    with [http://] or [https://] is requested as the page wrote it, whatever it names. *)
Theorem favicon_requests st favicon_href final_url :
  let r := fetch_and_hash_favicon (logged send) (st, []) favicon_href final_url in
  match favicon_target favicon_href final_url with
  | None => r = ((st, []), None)
  | Some first =>
      ∃ followed, r.1.2 = first :: followed ∧ (length followed <= 5)%nat
      ∧ Forall (λ url, validate_url_safe url = Ok tt) followed
      ∧ (∀ f, r.2 = Some f -> ∃ bytes,
           served MAX_FAVICON_SIZE (List.last followed first) bytes
           ∧ f = MkFavicon first (compute_shodan_favicon_hash bytes))
      ∧ ∀ href, favicon_href = Some href ->
          starts_with (lit "http://") href || starts_with (lit "https://") href = true ->
          first = href
  end.
Proof.
  unfold fetch_and_hash_favicon. destruct (favicon_target favicon_href final_url) as [first|] eqn:Et;
    [|done]. cbv zeta. unfold fetch_favicon_bytes.
  destruct (favicon_loop_logged MAX_FAVICON_SIZE MAX_FAVICON_REDIRECTS st [] first)
    as (followed & Hl & Hn & Hf & Hb).
  destruct (favicon_loop _ _ _ _ first) as [[st' log] o]; cbn [fst snd] in *.
  exists followed. split_and!; [by destruct o| |done| |].
  - exact Hn.
  - destruct o as [bytes|]; [|done]. intros f [= <-]. eauto.
  - intros href -> Hs. cbn [favicon_target] in Et. unfold resolve_favicon_url in Et.
    rewrite Hs in Et. by injection Et.
Qed.
End Requests.

(** ** A concrete encoder *)

Module DemoFavicon.
Definition base64_char (i : Z) : Z :=
  if i <? 26 then 65 + i else if i <? 52 then 71 + i else if i <? 62 then i - 4
  else if i =? 62 then 43 else 47.

Definition sextets (n : Z) : str :=
  map (λ k, base64_char (Z.land (Z.shiftr n k) 63)) [18; 12; 6; 0].

Fixpoint base64 (b : list Z) : str :=
  match b with
  | x :: y :: z :: b => sextets (65536 * x + 256 * y + z) ++ base64 b
  | [x; y] => take 3 (sextets (65536 * x + 256 * y)) ++ [61]
  | [x] => take 2 (sextets (65536 * x)) ++ [61; 61]
  | [] => []
  end.

(** FNV-1a stands for the hash function. *)
Definition fnv (b : list Z) : Z :=
  foldl (λ h x, (Z.lxor h x * 16777619) mod 4294967296) 2166136261 b.

#[local] Instance lib : FaviconLib := {| base64_standard := base64; murmur3_32 := fnv |}.

Lemma by_threes (P : list Z -> Prop) :
  P [] -> (∀ x, P [x]) -> (∀ x y, P [x; y]) -> (∀ x y z b, P b -> P (x :: y :: z :: b)) -> ∀ b, P b.
Proof.
  intros H0 H1 H2 H3. fix IH 1. intros [|x [|y [|z b]]]; [done..|]. apply H3, IH.
Qed.

Lemma sextets_no_newline n : 10 ∉ sextets n.
Proof.
  unfold sextets. intros [k [Hk _]]%list_elem_of_fmap. revert Hk. unfold base64_char.
  assert (0 <= Z.land (Z.shiftr n k) 63) by (apply Z.land_nonneg; lia).
  repeat case_match; lia.
Qed.

Lemma prefix_no_newline k n : 10 ∉ take k (sextets n).
Proof.
  intros H. apply (sextets_no_newline n). rewrite <- (take_drop k (sextets n)). set_solver.
Qed.

#[local] Instance laws : FaviconLibLaws lib.
Proof.
  split; cbn [base64_standard lib].
  - apply by_threes; [done..|]. intros x y z b IH. cbn [base64]. rewrite length_app, IH.
    replace (length (x :: y :: z :: b) + 2)%nat with (length b + 2 + 1 * 3)%nat by (cbn; lia).
    rewrite Nat.div_add by lia. cbn [sextets map length]. lia.
  - intros a b. revert a. apply (by_threes (λ a, (length a mod 3 = 0)%nat -> base64 (a ++ b) = base64 a ++ base64 b));
      [done..|]. intros x y z a IH Ha. cbn [base64 app]. rewrite IH; [by rewrite app_assoc|].
    revert Ha. replace (length (x :: y :: z :: a)) with (length a + 1 * 3)%nat by (cbn; lia).
    by rewrite Nat.Div0.mod_add.
  - apply by_threes; cbn [base64].
    + apply not_elem_of_nil.
    + intros x [H|H]%elem_of_app; [by apply prefix_no_newline in H|set_solver].
    + intros x y [H|H]%elem_of_app; [by apply prefix_no_newline in H|set_solver].
    + intros x y z b IH [H|H]%elem_of_app; [by apply sextets_no_newline in H|done].
Qed.

(** Sixty bytes make two lines. *)
Lemma shodan_hash_witness :
  let icon := repeat 77 60 in
  let line := concat (repeat (lit "TU1N") 19) in
  compute_shodan_favicon_hash icon
  = as_i32 (fnv (line ++ [10] ++ lit "TU1N" ++ [10]))
  ∧ -2147483648 <= compute_shodan_favicon_hash icon <= i32_max.
Proof.
  destruct (shodan_hash_is_encodebytes (repeat 77 60)) as [E B]; [discriminate|].
  split; [etransitivity; [exact E|vm_compute; reflexivity]|exact B].
Defined.

#[local] Existing Instance Net.Demo.urls.
#[local] Existing Instance Net.Demo.ascii_lowercase.
#[local] Instance port : UrlPort Net.Demo.urls := {| url_port := λ _, None |}.

Definition metadata : str := lit "http://169.254.169.254/latest".
Definition redirecting : str := lit "http://a.example/icon".
(** A server whose icon redirects to the metadata service; the latter answers. *)
Definition serve (st : unit) (url : str) : unit * option Response :=
  (st, Some (if streqb url redirecting
             then MkResponse 302 url HTTP_11 [(lit "location", Some metadata)] None []
             else MkResponse 200 url HTTP_11 [] None [Ok [1]; Ok [2]])).

(** The address that a redirect may not name is requested when the page itself names it. *)
Lemma favicon_requests_witness :
  is_ok (validate_url_safe metadata) = false
  ∧ (fetch_and_hash_favicon (logged serve) (tt, []) (Some redirecting) redirecting).1.2
    = [redirecting]
  ∧ ∃ followed, (fetch_and_hash_favicon (logged serve) (tt, []) (Some metadata) redirecting).1.2
    = metadata :: followed ∧ (length followed <= 5)%nat.
Proof.
  split; [vm_compute; reflexivity|]. split; [vm_compute; reflexivity|].
  destruct (favicon_requests serve tt (Some metadata) redirecting) as (followed & H & Hn & _).
  exists followed. split; [exact H|exact Hn].
Defined.
End DemoFavicon.
