(* ===== verification/Whois.v ===== *)
(** * WHOIS ([src/src/whois/*.rs], [utils/cache.rs])

    From the answer of the [whois-service] crate to the stored result, and the cache on
    disk in front of the lookup.  Date parsing of [chrono], the JSON codec of a cache entry
    and the file system are parameters; of the crate's response there are the fields that
    are read.  A [DateTime] and a [SystemTime] are their nanoseconds since the epoch. *)

From S2P Require Import Prelude Sanitize Errors Dns StorageRecord.

Definition CACHE_TTL_SECS : Z := 7 * 24 * 60 * 60.
Definition MAX_WHOIS_CACHE_ENTRIES : Z := 50000.
Definition MAX_WHOIS_RAW_TEXT_SIZE : nat := Z.to_nat (256 * 1024).
#[global] Opaque MAX_WHOIS_RAW_TEXT_SIZE.
Definition MAX_WHOIS_CACHE_FILE_SIZE : Z := 512 * 1024.
Definition ENFORCE_INTERVAL_WHEN_OVER_LIMIT : Z := 1000.
Definition nanos_per_sec : Z := 1000000000.

(** ** parse.rs *)

Inductive LookupStatus := Found | RateLimited | NotFound.

Record ParsedWhoisPayload := MkParsedWhois {
  pw_registrar : option str;
  pw_creation_date : option str;
  pw_expiration_date : option str;
  pw_updated_date : option str;
  pw_name_servers : list str;
  pw_status : list str;
}.

Record WhoisResponse := MkWhoisResponse {
  raw_data : str;
  parsed_data : option ParsedWhoisPayload;
  lookup_status : LookupStatus;
}.

Record WhoisPayload := MkWhoisPayload {
  wp_raw_text : str;
  wp_parsed : option ParsedWhoisPayload;
}.

Definition bound_raw_text (raw_text : str) : str :=
  if (length (encode raw_text) <=? MAX_WHOIS_RAW_TEXT_SIZE)%nat then raw_text
  else
    from_utf8_lossy (truncate_utf8_with_suffix (encode raw_text) MAX_WHOIS_RAW_TEXT_SIZE
                       (encode (lit "... (truncated raw WHOIS response)"))).

Definition payload_of_response (response : WhoisResponse) : WhoisPayload :=
  MkWhoisPayload (bound_raw_text (raw_data response)) (parsed_data response).

(** [find_map] over an iterator. *)
Definition find_map {A B} (f : A -> option B) (l : list A) : option B := head (omap f l).

Definition labelled_value (trimmed label : str) : option str :=
  '(field_name, value) ← split_once 58 trimmed;
  if negb (eq_ignore_ascii_case (trim field_name) label) then None
  else let value := trim value in if nonempty value then Some value else None.

Definition extract_raw_field (raw_text : str) (labels : list str) : option str :=
  find_map (λ line, let trimmed := trim line in find_map (labelled_value trimmed) labels)
    (lines raw_text).

Definition is_ascii_alphabetic (c : Z) : bool := is_ascii_upper c || is_ascii_lower c.

Definition iso_alpha2_country (value : option str) : option str :=
  value ← value;
  let trimmed := trim value in
  if (length (encode trimmed) =? 2)%nat && forallb is_ascii_alphabetic trimmed
  then Some (to_ascii_uppercase trimmed) else None.

Definition is_privacy_org_prose (value : str) : bool :=
  let upper := to_ascii_uppercase value in
  contains (lit "REDACT") upper || contains (lit "PRIVACY PROTECTION") upper
  || contains (lit "WHOIS PRIVACY") upper || contains (lit "FOR PRIVACY") upper
  || contains (lit "DATA PROTECTED") upper || streqb upper (lit "PRIVACY")
  || streqb upper (lit "REDACTED").

Definition sanitize_registrant_org (value : option str) : option str :=
  value ← value;
  let trimmed := trim value in
  if negb (nonempty trimmed) || is_privacy_org_prose trimmed then None else Some trimmed.

Definition set_registrant (result : WhoisResult) (country org : option str) : WhoisResult := {|
  wr_creation_date := wr_creation_date result;
  wr_expiration_date := wr_expiration_date result;
  wr_updated_date := wr_updated_date result;
  wr_registrar := wr_registrar result;
  wr_registrant_country := iso_alpha2_country country;
  wr_registrant_org := sanitize_registrant_org org;
  wr_status := wr_status result;
  wr_nameservers := wr_nameservers result;
  wr_raw_text := wr_raw_text result |}.

Definition ORG_LABELS : list str :=
  map lit ["Registrant Organization"; "Registrant Org"; "Registrant organisation"]%string.
Definition COUNTRY_LABELS : list str :=
  map lit ["Registrant Country"; "Registrant Country Code"]%string.

Definition enrich_result_from_raw_text (result : WhoisResult) : WhoisResult :=
  match wr_raw_text result with
  | None => set_registrant result (wr_registrant_country result) (wr_registrant_org result)
  | Some raw_text =>
      let org := match wr_registrant_org result with
                 | None => extract_raw_field raw_text ORG_LABELS
                 | some => some
                 end in
      let country := match wr_registrant_country result with
                     | None => extract_raw_field raw_text COUNTRY_LABELS
                     | some => some
                     end in
      set_registrant result country org
  end.

(** [parse_from_str] with a date and a format: of [DateTime], [NaiveDateTime] (taken as
    UTC) and [NaiveDate] (a number of days); [from_timestamp] with seconds and nanoseconds. *)
Class ChronoDates := {
  datetime_from_str : str -> str -> option Z;
  naive_datetime_from_str : str -> str -> option Z;
  naive_date_from_str : str -> str -> option Z;
  datetime_from_rfc3339 : str -> option Z;
  from_timestamp : Z -> Z -> option Z;
}.

(** A date holds some range of seconds, with any number of nanoseconds below one second. *)
Class ChronoDatesLaws (C : ChronoDates) := {
  representable : Z -> bool;
  from_timestamp_law : ∀ secs nanos, 0 <= nanos < nanos_per_sec ->
    from_timestamp secs nanos
    = if representable secs then Some (secs * nanos_per_sec + nanos) else None;
}.

(** [timestamp]: whole seconds, rounded down. *)
Definition timestamp (dt : Z) : Z := dt / nanos_per_sec.

Section Parse.
Context `{C : ChronoDates}.

Definition DATE_FORMATS : list str :=
  map lit ["%Y-%m-%dT%H:%M:%S%.fZ"; "%Y-%m-%dT%H:%M:%SZ"; "%Y-%m-%d %H:%M:%S"; "%Y-%m-%d";
    "%d-%b-%Y"; "%d/%m/%Y"]%string.

Definition parse_with_format (date_str format : str) : option Z :=
  match datetime_from_str date_str format with
  | Some dt => Some dt
  | None =>
      match naive_datetime_from_str date_str format with
      | Some dt => Some dt
      | None => (λ days, days * 86400 * nanos_per_sec) <$> naive_date_from_str date_str format
      end
  end.

Definition parse_date_string (date_str : str) : option Z :=
  find_map (parse_with_format date_str) DATE_FORMATS.

Definition parse_whois_date (date_str : str) : option Z :=
  dt ← (match parse_date_string date_str with
        | Some dt => Some dt
        | None => datetime_from_rfc3339 date_str
        end);
  if timestamp dt =? 0 then None else Some dt.

Definition convert_payload (payload : WhoisPayload) : WhoisResult :=
  enrich_result_from_raw_text
    match wp_parsed payload with
    | None => MkWhoisResult None None None None None None [] [] (Some (wp_raw_text payload))
    | Some parsed =>
        MkWhoisResult (pw_creation_date parsed ≫= parse_whois_date)
          (pw_expiration_date parsed ≫= parse_whois_date)
          (pw_updated_date parsed ≫= parse_whois_date) (pw_registrar parsed) None None
          (pw_status parsed) (pw_name_servers parsed) (Some (wp_raw_text payload))
    end.

Definition convert_parsed_data (response : WhoisResponse) : WhoisResult :=
  convert_payload (payload_of_response response).
End Parse.

(** ** types.rs *)

Record WhoisCacheResult := MkCacheResult {
  cr_creation_date : option Z;
  cr_expiration_date : option Z;
  cr_updated_date : option Z;
  cr_registrar : option str;
  cr_registrant_country : option str;
  cr_registrant_org : option str;
  cr_status : option (list str);
  cr_nameservers : option (list str);
  cr_raw_text : option str;
}.

Record WhoisCacheEntry := MkCacheEntry {
  ce_result : WhoisCacheResult;
  ce_cached_at : Z;
  ce_domain : str;
}.

Definition vec_to_opt (v : list str) : option (list str) := if nonempty v then Some v else None.

Definition cache_of_result (result : WhoisResult) : WhoisCacheResult :=
  MkCacheResult (timestamp_millis <$> wr_creation_date result)
    (timestamp_millis <$> wr_expiration_date result)
    (timestamp_millis <$> wr_updated_date result) (wr_registrar result)
    (wr_registrant_country result) (wr_registrant_org result) (vec_to_opt (wr_status result))
    (vec_to_opt (wr_nameservers result)) (wr_raw_text result).

Section Types.
Context `{C : ChronoDates}.

Definition ms_to_dt (ms : Z) : option Z := from_timestamp (ms / 1000) (ms mod 1000 * 1000000).

Definition result_of_cache (cache : WhoisCacheResult) : WhoisResult :=
  MkWhoisResult (cr_creation_date cache ≫= ms_to_dt) (cr_expiration_date cache ≫= ms_to_dt)
    (cr_updated_date cache ≫= ms_to_dt) (cr_registrar cache) (cr_registrant_country cache)
    (cr_registrant_org cache) (default [] (cr_status cache)) (default [] (cr_nameservers cache))
    (cr_raw_text cache).
End Types.

(** ** utils/cache.rs and cache.rs *)

(** A path is its parent directory and its file name. *)
Definition Path : Type := str * str.

(** [Path::extension] of a file name: what follows the last dot, if that is not its start. *)
Definition extension (file_name : str) : option str :=
  match split_once 46 (reverse file_name) with
  | Some (ext, _ :: _) => Some (reverse ext)
  | _ => None
  end.

(** The calls on files; an [io::Error] is its text.  A listing gives the modification time of
    each entry where it can be read. *)
Class Fs (D : Type) := {
  fs_try_exists : D -> Path -> result bool str;
  fs_len : D -> Path -> result Z str;
  fs_read_to_string : D -> Path -> result str str;
  fs_exists : D -> Path -> bool;
  fs_create_dir_all : D -> str -> D * result unit str;
  fs_write : D -> Path -> str -> D * result unit str;
  fs_rename : D -> Path -> Path -> D * result unit str;
  fs_remove_file : D -> Path -> D * result unit str;
  fs_read_dir : D -> str -> result (list (Path * option Z)) str;
}.

(** What a working file system promises about the contents [file d] of its files. *)
Class FsLaws {D} (F : Fs D) := {
  file : D -> Path -> option str;
  fs_try_exists_law : ∀ d p b, fs_try_exists d p = Ok b -> b = bool_decide (is_Some (file d p));
  fs_read_law : ∀ d p content, fs_read_to_string d p = Ok content -> file d p = Some content;
  fs_len_law : ∀ d p n, fs_len d p = Ok n ->
    ∃ content, file d p = Some content ∧ n = Z.of_nat (length (encode content));
  fs_create_law : ∀ d dir p, file (fs_create_dir_all d dir).1 p = file d p;
  fs_write_law : ∀ d p content, (fs_write d p content).2 = Ok tt ->
    file (fs_write d p content).1 p = Some content;
  fs_rename_law : ∀ d p q content, (fs_rename d p q).2 = Ok tt -> file d p = Some content ->
    file (fs_rename d p q).1 q = Some content;
  fs_rename_failed : ∀ d p q e, (fs_rename d p q).2 = Err e ->
    file (fs_rename d p q).1 p = file d p;
  fs_remove_other : ∀ d p q, p <> q -> file (fs_remove_file d p).1 q = file d q;
}.

(** [serde_json] on a cache entry. *)
Class EntryCodec := {
  entry_to_json : WhoisCacheEntry -> result str str;
  entry_of_json : str -> result WhoisCacheEntry str;
}.
Class EntryCodecLaws (J : EntryCodec) := {
  entry_roundtrip : ∀ e text, entry_to_json e = Ok text -> entry_of_json text = Ok e;
}.

Definition io_failed {A} (context message : str) : result A AnyhowError :=
  Err (MkAnyhow [context] (CMessage message) []).

Definition with_io {A} (context : str) (r : result A str) : result A AnyhowError :=
  match r with Ok a => Ok a | Err e => io_failed context e end.

Definition duration_exceeds_ttl (age ttl_secs : Z) : bool := ttl_secs <=? age / nanos_per_sec.

Section Cache.
Context `{C : ChronoDates} `{F : Fs D} `{J : EntryCodec}.

Definition write_atomic (d : D) (path : Path) (content : str) : D * result unit str :=
  let (parent, file_name) := path in
  match fs_create_dir_all d parent with
  | (d, Err e) => (d, Err e)
  | (d, Ok _) =>
      let temp_path := (parent, lit "." ++ file_name ++ lit ".tmp") in
      match fs_write d temp_path content with
      | (d, Err e) => (d, Err e)
      | (d, Ok _) =>
          match fs_rename d temp_path path with
          | (d, Ok _) => (d, Ok tt)
          | (d, Err error) =>
              if fs_exists d path then
                match fs_remove_file d path with
                | (d, Err e) => (d, Err e)
                | (d, Ok _) => fs_rename d temp_path path
                end
              else (d, Err error)
          end
      end
  end.

Definition cache_file (cache_path domain : str) : Path :=
  (cache_path, replace (lit ".") (lit "_") domain ++ lit ".json").

Definition load (now : Z) (d : D) (cache_path domain : str)
  : D * result (option WhoisCacheEntry) AnyhowError :=
  let cache_file := cache_file cache_path domain in
  match fs_try_exists d cache_file with
  | Ok true =>
      match fs_len d cache_file with
      | Err e => (d, io_failed (lit "Failed to stat cache file") e)
      | Ok len =>
          if MAX_WHOIS_CACHE_FILE_SIZE <? len then ((fs_remove_file d cache_file).1, Ok None)
          else
            match fs_read_to_string d cache_file with
            | Err e => (d, io_failed (lit "Failed to read cache file") e)
            | Ok content =>
                match entry_of_json content with
                | Err e => (d, io_failed (lit "Failed to parse cache file") e)
                | Ok entry =>
                    let age := Z.max 0 (now - ce_cached_at entry) in
                    if duration_exceeds_ttl age CACHE_TTL_SECS
                    then ((fs_remove_file d cache_file).1, Ok None)
                    else (d, Ok (Some entry))
                end
            end
      end
  | Ok false | Err _ => (d, Ok None)
  end.

(** The [.json] entries of a listing, a missing modification time as the epoch. *)
Definition json_entries (listing : list (Path * option Z)) : list (Path * Z) :=
  map (λ e, (e.1, default 0 e.2))
    (List.filter (λ e, bool_decide (extension e.1.2 = Some (lit "json"))) listing).

(** The oldest entries above the limit. *)
Definition to_evict (max_entries : Z) (entries : list (Path * Z)) : list (Path * Z) :=
  take (Z.to_nat (Z.of_nat (length entries) - max_entries)) (sort_by_key snd entries).

Definition enforce_cache_limit (max_entries : Z) (d : D) (cache_path : str)
  : D * result unit AnyhowError :=
  match fs_read_dir d cache_path with
  | Err e => (d, io_failed (lit "Failed to read cache directory") e)
  | Ok listing =>
      let entries := json_entries listing in
      if Z.of_nat (length entries) <=? max_entries then (d, Ok tt)
      else (foldl (λ d e, (fs_remove_file d e.1).1) d (to_evict max_entries entries), Ok tt)
  end.

(** The count of a save, [WHOIS_SAVE_COUNT] after it: the first save of the process takes the
    number of files over. *)
Definition count_save (d : D) (cache_path : str) (saves : Z) : Z * Z :=
  let count := saves + 1 in
  if count =? 1 then
    let existing := match fs_read_dir d cache_path with
                    | Ok listing => Z.of_nat (length listing)
                    | Err _ => 0
                    end in
    if 1 <? existing then (existing, existing) else (count, wrap_u64 (saves + 1))
  else (count, wrap_u64 (saves + 1)).

Definition should_enforce (max_entries count : Z) : bool :=
  let over_limit := max_entries <=? count in
  let first_time_over := over_limit && (sat_sub count max_entries <=? 1) in
  let interval_hit :=
    over_limit && (max_entries <? count)
    && ((count - max_entries - 1) mod ENFORCE_INTERVAL_WHEN_OVER_LIMIT =? 0) in
  (count =? 1) || first_time_over || interval_hit.

(** The state is the file system and [WHOIS_SAVE_COUNT]. *)
Definition save (max_entries now : Z) (w : D * Z) (cache_path domain : str)
    (result : WhoisResult) : (D * Z) * Prelude.result unit AnyhowError :=
  let (d, saves) := w in
  match fs_create_dir_all d cache_path with
  | (d, Err e) => ((d, saves), io_failed (lit "Failed to create cache directory") e)
  | (d, Ok _) =>
      match entry_to_json (MkCacheEntry (cache_of_result result) now domain) with
      | Err e => ((d, saves), io_failed (lit "Failed to serialize cache entry") e)
      | Ok content =>
          match write_atomic d (cache_file cache_path domain) content with
          | (d, Err e) => ((d, saves), io_failed (lit "Failed to write cache file") e)
          | (d, Ok _) =>
              let (count, saves) := count_save d cache_path saves in
              if should_enforce max_entries count then
                let (d, r) := enforce_cache_limit max_entries d cache_path in ((d, saves), r)
              else ((d, saves), Ok tt)
          end
      end
  end.

(** ** mod.rs *)

Definition whois_result_is_usable (result : WhoisResult) : bool :=
  match wr_registrar result with Some s => nonempty s | None => false end
  || match wr_raw_text result with Some s => nonempty (trim s) | None => false end.

Definition lookup_status_is_cacheable (status : LookupStatus) : bool :=
  match status with Found => true | RateLimited | NotFound => false end.

(** A lookup that times out is [None]; creating the client is a part of it.  [now] is the
    time of the load, [later] that of the save. *)
Context {S : Type} (lookup : S -> str -> S * option (result WhoisResponse AnyhowError)).

Definition lookup_and_save (later : Z) (w : D * Z) (st : S) (cache_path domain : str)
  : (D * Z) * S * result (option WhoisResult) AnyhowError :=
  match lookup st domain with
  | (st, None) | (st, Some (Err _)) => (w, st, Ok None)
  | (st, Some (Ok response)) =>
      if negb (lookup_status_is_cacheable (lookup_status response)) then (w, st, Ok None)
      else
        let result := convert_parsed_data response in
        if negb (whois_result_is_usable result) then (w, st, Ok None)
        else
          match save MAX_WHOIS_CACHE_ENTRIES later w cache_path domain result with
          | (w, Err e) => (w, st, Err e)
          | (w, Ok _) => (w, st, Ok (Some result))
          end
  end.

Definition cached_result (entry : WhoisCacheEntry) : WhoisResult :=
  enrich_result_from_raw_text (result_of_cache (ce_result entry)).

Definition lookup_whois_with_lookup (now later : Z) (w : D * Z) (st : S)
    (cache_path domain : str) : (D * Z) * S * result (option WhoisResult) AnyhowError :=
  let (d, saves) := w in
  match load now d cache_path domain with
  | (d, Err e) => ((d, saves), st, Err e)
  | (d, Ok cached) =>
      match (entry ← cached;
             let result := cached_result entry in
             if whois_result_is_usable result then Some result else None) with
      | Some result => ((d, saves), st, Ok (Some result))
      | None => lookup_and_save later (d, saves) st cache_path domain
      end
  end.
End Cache.

(** ** Lemmas: parsing *)

Lemma length_encode_le s : (length s <= length (encode s))%nat.
Proof.
  induction s as [|c s IH]; [done|]. rewrite encode_cons, length_app. cbn [length].
  pose proof (encode_char_pos c). lia.
Qed.

Lemma alphabetic_upper c : is_ascii_alphabetic c = true -> is_ascii_upper (ascii_upper c) = true.
Proof.
  unfold is_ascii_alphabetic, ascii_upper, is_ascii_upper, is_ascii_lower.
  destruct ((97 <=? c) && (c <=? 122)) eqn:E; lia.
Qed.

Lemma upper_fixed s : forallb is_ascii_upper s = true ->
  to_ascii_uppercase s = s ∧ trim s = s ∧ forallb is_ascii_alphabetic s = true
  ∧ length (encode s) = length s.
Proof.
  intros Hs. rewrite forallb_forall in Hs.
  assert (Hc : ∀ c, c ∈ s -> 65 <= c <= 90).
  { intros c Hc%list_elem_of_In%Hs. unfold is_ascii_upper in Hc. lia. }
  split_and!.
  - unfold to_ascii_uppercase. rewrite <- (map_id s) at 2. apply map_ext_in.
    intros c Hi%list_elem_of_In%Hc. unfold ascii_upper, is_ascii_lower.
    by replace ((97 <=? c) && (c <=? 122)) with false by lia.
  - apply trim_by_none, list.Forall_forall. intros c Hi%Hc. unfold is_whitespace. lia.
  - apply forallb_forall. intros c Hi%Hs. unfold is_ascii_alphabetic. by rewrite Hi.
  - apply length_encode_ascii, forallb_forall. intros c Hi%list_elem_of_In%Hc. unfold is_ascii. lia.
Qed.

(** Two upper-case letters. *)
Definition alpha2 (c : str) : Prop := length c = 2%nat ∧ forallb is_ascii_upper c = true.

Lemma iso_alpha2 value c : iso_alpha2_country value = Some c -> alpha2 c.
Proof.
  destruct value as [v|]; [|done]. cbn. destruct (_ =? 2)%nat eqn:El; [|done].
  destruct (forallb is_ascii_alphabetic (trim v)) eqn:Ea; [|done]. intros [= <-].
  apply Nat.eqb_eq in El. rewrite length_encode_ascii in El.
  - split; [by unfold to_ascii_uppercase; rewrite length_map|].
    unfold to_ascii_uppercase. rewrite forallb_map. revert Ea. apply forallb_impl.
    apply alphabetic_upper.
  - revert Ea. apply forallb_impl. intros x. unfold is_ascii_alphabetic, is_ascii_upper, is_ascii_lower, is_ascii. lia.
Qed.

Lemma iso_idem c : alpha2 c -> iso_alpha2_country (Some c) = Some c.
Proof.
  intros [Hl Hc]. destruct (upper_fixed c Hc) as (Hu & Ht & Ha & He).
  cbn. by rewrite Ht, He, Hl, Ha, Hu.
Qed.

(** A name worth keeping: trimmed, not empty, no redaction notice. *)
Definition clean_org (o : str) : Prop := trim o = o ∧ o <> [] ∧ is_privacy_org_prose o = false.

Lemma sanitize_org value o : sanitize_registrant_org value = Some o -> clean_org o.
Proof.
  destruct value as [v|]; [|done]. unfold sanitize_registrant_org. cbn [mbind option_bind].
  destruct (trim v) as [|x w] eqn:Ev; [done|]. cbn [nonempty negb orb]. rewrite <- Ev.
  destruct (is_privacy_org_prose (trim v)) eqn:Ep; [done|]. intros [= <-].
  split_and!; [apply trim_trim|by rewrite Ev|done].
Qed.

Lemma sanitize_idem o : clean_org o -> sanitize_registrant_org (Some o) = Some o.
Proof.
  intros (Ht & Hn & Hp). unfold sanitize_registrant_org. cbn [mbind option_bind].
  rewrite Ht, Hp. by destruct o.
Qed.

(** On a result without registrant, enriching again changes nothing. *)
Lemma enrich_idem result :
  wr_registrant_country result = None -> wr_registrant_org result = None ->
  enrich_result_from_raw_text (enrich_result_from_raw_text result)
  = enrich_result_from_raw_text result.
Proof.
  destruct result as [c e u r cn o s n raw]. cbn. intros -> ->.
  destruct raw as [raw|]; [|done]. unfold enrich_result_from_raw_text, set_registrant.
  cbn -[ORG_LABELS COUNTRY_LABELS iso_alpha2_country sanitize_registrant_org]. f_equal.
  - destruct (iso_alpha2_country (extract_raw_field raw COUNTRY_LABELS)) as [x|] eqn:E; [|exact E].
    by eapply iso_idem, iso_alpha2.
  - destruct (sanitize_registrant_org (extract_raw_field raw ORG_LABELS)) as [x|] eqn:E; [|exact E].
    by eapply sanitize_idem, sanitize_org.
Qed.

Lemma find_map_Some {A B} (f : A -> option B) l b : find_map f l = Some b -> ∃ a, a ∈ l ∧ f a = Some b.
Proof.
  unfold find_map. intros H. assert (Hb : b ∈ omap f l).
  { destruct (omap f l) as [|x r]; [done|]. injection H as ->. by left. }
  by apply list_elem_of_omap in Hb.
Qed.

Section ParseTheorems.
Context `{C : ChronoDates}.

(** What [convert_payload] enriches. *)
Definition converted (payload : WhoisPayload) : WhoisResult :=
  match wp_parsed payload with
  | None => MkWhoisResult None None None None None None [] [] (Some (wp_raw_text payload))
  | Some parsed =>
      MkWhoisResult (pw_creation_date parsed ≫= parse_whois_date)
        (pw_expiration_date parsed ≫= parse_whois_date)
        (pw_updated_date parsed ≫= parse_whois_date) (pw_registrar parsed) None None
        (pw_status parsed) (pw_name_servers parsed) (Some (wp_raw_text payload))
  end.

Lemma converted_bare payload :
  wr_registrant_country (converted payload) = None ∧ wr_registrant_org (converted payload) = None
  ∧ wr_raw_text (converted payload) = Some (wp_raw_text payload).
Proof. unfold converted. by destruct (wp_parsed payload). Qed.

Lemma parse_whois_date_not_epoch s t : parse_whois_date s = Some t -> timestamp t <> 0.
Proof.
  unfold parse_whois_date. destruct (match parse_date_string s with Some dt => _ | None => _ end)
    as [dt|]; [|done]. cbn. destruct (Z.eqb_spec (timestamp dt) 0); [done|]. by intros [= <-].
Qed.

Lemma bound_raw_text_spec raw : forallb char_ok raw = true ->
  (length (encode (bound_raw_text raw)) <= MAX_WHOIS_RAW_TEXT_SIZE)%nat
  ∧ ∃ k j, bound_raw_text raw
           = take k raw ++ take j (lit "... (truncated raw WHOIS response)").
Proof.
  intros Hr. unfold bound_raw_text.
  destruct (Nat.leb_spec (length (encode raw)) MAX_WHOIS_RAW_TEXT_SIZE) as [Hle|_].
  { split; [done|]. exists (length raw), 0%nat. by rewrite take_ge, app_nil_r. }
  set (suf := lit "... (truncated raw WHOIS response)").
  assert (Hsuf : forallb char_ok suf = true) by by vm_compute.
  destruct (truncate_with_suffix_prefix raw MAX_WHOIS_RAW_TEXT_SIZE suf) as (k & j & E & Hl);
    [by apply char_scalar..|].
  rewrite E in Hl. rewrite E, from_utf8_lossy_encode; [by split; [|exists k, j]|].
  rewrite forallb_app. apply andb_true_iff.
  split; apply forallb_forall; intros c Hc;
    [apply (proj1 (forallb_forall _ _) Hr)|apply (proj1 (forallb_forall _ _) Hsuf)];
    apply list_elem_of_In in Hc; apply list_elem_of_In;
    [rewrite <- (take_drop k raw)|rewrite <- (take_drop j suf)]; set_solver.
Qed.

Definition wr_dates (r : WhoisResult) : list Z :=
  omap id [wr_creation_date r; wr_expiration_date r; wr_updated_date r].

(** What a lookup stores is clean whatever the registry sent: the country is two upper-case
    letters or absent, the organisation is trimmed, not empty and no redaction notice or
    absent, no date lies in the first second of 1970, and the raw text is a prefix of what
    was sent with at most a truncation mark, within 256 KiB; the registrar, the status values
    and the nameservers are those of the crate. *)
Theorem whois_result_clean response : forallb char_ok (raw_data response) = true ->
  let r := convert_parsed_data response in
  (∀ c, wr_registrant_country r = Some c -> alpha2 c)
  ∧ (∀ o, wr_registrant_org r = Some o -> clean_org o)
  ∧ (∀ t, t ∈ wr_dates r -> timestamp t <> 0)
  ∧ (∃ raw k j, wr_raw_text r = Some raw
      ∧ raw = take k (raw_data response) ++ take j (lit "... (truncated raw WHOIS response)")
      ∧ (length (encode raw) <= MAX_WHOIS_RAW_TEXT_SIZE)%nat)
  ∧ wr_registrar r = parsed_data response ≫= pw_registrar
  ∧ wr_status r = default [] (pw_status <$> parsed_data response)
  ∧ wr_nameservers r = default [] (pw_name_servers <$> parsed_data response).
Proof.
  intros Hr. cbv zeta. unfold convert_parsed_data, convert_payload.
  fold (converted (payload_of_response response)).
  destruct (converted_bare (payload_of_response response)) as (_ & _ & Hraw).
  unfold enrich_result_from_raw_text. rewrite Hraw. unfold set_registrant, wr_dates.
  cbn [wr_registrant_country wr_registrant_org wr_creation_date wr_expiration_date
       wr_updated_date wr_raw_text wr_registrar wr_status wr_nameservers].
  split; [by intros c; apply iso_alpha2|]. split; [by intros o; apply sanitize_org|].
  split; [|split].
  - intros t [[u|] [Hu [= ->]]]%list_elem_of_omap.
    assert (Hd : ∃ s : option str, s ≫= parse_whois_date = Some t).
    { revert Hu. unfold converted. destruct (wp_parsed _) as [p|]; cbn; rewrite !elem_of_cons, elem_of_nil;
        [|by intros [?|[?|[?|?]]]]. intros [H|[H|[H|[]]]]; rewrite H; eauto. }
    destruct Hd as ([s|] & Hd); [|done]. by apply parse_whois_date_not_epoch in Hd.
  - rewrite Hraw. cbn [payload_of_response wp_raw_text].
    destruct (bound_raw_text_spec _ Hr) as (Hl & k & j & E). by exists (bound_raw_text (raw_data response)), k, j.
  - unfold converted, payload_of_response. cbn. by destruct (parsed_data response).
Qed.
End ParseTheorems.

(** ** Lemmas: the cache entry *)

Section CacheTypes.
Context `{C : ChronoDates} {CL : ChronoDatesLaws C}.

Definition floor_ms (t : Z) : Z := t / 1000000 * 1000000.
Definition floor_dates (r : WhoisResult) : WhoisResult :=
  MkWhoisResult (floor_ms <$> wr_creation_date r) (floor_ms <$> wr_expiration_date r)
    (floor_ms <$> wr_updated_date r) (wr_registrar r) (wr_registrant_country r)
    (wr_registrant_org r) (wr_status r) (wr_nameservers r) (wr_raw_text r).

Lemma ms_to_dt_floor t : representable (timestamp t) = true ->
  ms_to_dt (timestamp_millis t) = Some (floor_ms t).
Proof.
  unfold ms_to_dt, timestamp_millis, timestamp, floor_ms. intros Hr.
  pose proof (Z.mod_pos_bound (t / 1000000) 1000 eq_refl).
  assert (E : t / 1000000 / 1000 = t / nanos_per_sec) by (rewrite Z.div_div by lia; done).
  rewrite from_timestamp_law by (unfold nanos_per_sec; lia). rewrite E, Hr, <- E. f_equal.
  unfold nanos_per_sec. pose proof (Z.div_mod (t / 1000000) 1000 ltac:(lia)). lia.
Qed.

Lemma floor_ms_millis t : timestamp_millis (floor_ms t) = timestamp_millis t.
Proof. unfold timestamp_millis, floor_ms. by rewrite Z.div_mul. Qed.

Lemma default_vec_to_opt v : default [] (vec_to_opt v) = v.
Proof. by destruct v. Qed.

Lemma date_roundtrip (o : option Z) : (∀ t, o = Some t -> representable (timestamp t) = true) ->
  (timestamp_millis <$> o) ≫= ms_to_dt = floor_ms <$> o.
Proof. destruct o as [t|]; [|done]. intros H. cbn. by rewrite ms_to_dt_floor by eauto. Qed.

Definition dates_representable (r : WhoisResult) : Prop :=
  ∀ t, t ∈ wr_dates r -> representable (timestamp t) = true.

(** A result goes through the cache unchanged but for the dates, which lose what is below a
    millisecond, rounded down also before 1970; a second pass changes nothing more. *)
Theorem whois_cache_roundtrip r : dates_representable r ->
  result_of_cache (cache_of_result r) = floor_dates r
  ∧ cache_of_result (floor_dates r) = cache_of_result r.
Proof.
  intros Hd. assert (Ho : ∀ o, o ∈ [wr_creation_date r; wr_expiration_date r; wr_updated_date r] ->
    ∀ t, o = Some t -> representable (timestamp t) = true).
  { intros o Ho t ->. apply Hd, list_elem_of_omap. by exists (Some t). }
  split.
  - unfold result_of_cache, cache_of_result, floor_dates. cbn.
    rewrite !default_vec_to_opt. rewrite !date_roundtrip by (apply Ho; set_solver). done.
  - unfold cache_of_result, floor_dates. cbn. f_equal; rewrite <- option_fmap_compose;
      (apply option_fmap_ext; intros t; apply floor_ms_millis).
Qed.

Lemma floor_enrich r :
  floor_dates (enrich_result_from_raw_text r) = enrich_result_from_raw_text (floor_dates r).
Proof.
  destruct r as [c e u g cn o s n [raw|]]; [|done].
  unfold enrich_result_from_raw_text. cbn -[ORG_LABELS COUNTRY_LABELS]. by destruct cn, o.
Qed.

Lemma floor_converted_stable response :
  let r := convert_parsed_data response in
  enrich_result_from_raw_text (floor_dates r) = floor_dates r.
Proof.
  cbv zeta. unfold convert_parsed_data, convert_payload. fold (converted (payload_of_response response)).
  destruct (converted_bare (payload_of_response response)) as (Hc & Ho & _).
  rewrite floor_enrich. by apply enrich_idem.
Qed.
End CacheTypes.

(** ** Lemmas: the cache on disk *)

Lemma lookup_sorted_le {A} (key : A -> Z) l a b n :
  StronglySorted (λ x y, key x <= key y) l -> a ∈ take n l -> b ∈ drop n l -> key a <= key b.
Proof.
  intros Hs. revert n. induction Hs as [|x l Hs IH Hx]; intros n Ha Hb.
  - rewrite take_nil in Ha. by apply elem_of_nil in Ha.
  - destruct n as [|n]; [by apply elem_of_nil in Ha|]. cbn [take drop] in *.
    apply elem_of_cons in Ha as [->|Ha]; [|by eapply IH].
    rewrite list.Forall_forall in Hx. apply Hx. rewrite <- (take_drop n l). set_solver.
Qed.

Section CacheTheorems.
Context `{C : ChronoDates} `{F : Fs D} {FL : FsLaws F} `{J : EntryCodec} {JL : EntryCodecLaws J}.

Lemma remove_all_other evicted : ∀ d p, p ∉ evicted.*1 ->
  file (foldl (λ d (e : Path * Z), (fs_remove_file d e.1).1) d evicted) p = file d p.
Proof.
  induction evicted as [|e l IH]; intros d p Hp; [done|]. cbn in *.
  apply not_elem_of_cons in Hp as [H1 H2]. rewrite IH by done. by apply fs_remove_other.
Qed.

Lemma json_entry_extension listing e : e ∈ json_entries listing -> extension e.1.2 = Some (lit "json").
Proof.
  unfold json_entries. intros (x & -> & Hx)%list_elem_of_fmap.
  apply list_elem_of_In, filter_In in Hx as [_ Hx]. by apply bool_decide_eq_true in Hx.
Qed.

Lemma evict_split max entries :
  to_evict max entries ++ drop (Z.to_nat (Z.of_nat (length entries) - max)) (sort_by_key snd entries)
  ≡ₚ entries.
Proof. unfold to_evict. rewrite take_drop. apply sort_by_key_perm. Qed.

(** The limit on the number of cache files: files other than [.json] files of the directory
    are never removed; when there are more entries than allowed exactly the excess is
    removed, and no entry that stays is older than one that goes. *)
Theorem eviction_keeps_newest max d cache_path listing :
  0 <= max -> fs_read_dir d cache_path = Ok listing ->
  let entries := json_entries listing in
  ∃ evicted kept,
    evicted ++ kept ≡ₚ entries
    ∧ Z.of_nat (length kept) = Z.min max (Z.of_nat (length entries))
    ∧ (∀ e k, e ∈ evicted -> k ∈ kept -> e.2 <= k.2)
    ∧ (∀ e, e ∈ evicted -> extension e.1.2 = Some (lit "json"))
    ∧ (enforce_cache_limit max d cache_path).2 = Ok tt
    ∧ ∀ p, p ∉ evicted.*1 ->
        file (enforce_cache_limit max d cache_path).1 p = file d p.
Proof.
  intros Hm Hl. cbv zeta. set (entries := json_entries listing).
  set (n := Z.to_nat (Z.of_nat (length entries) - max)).
  exists (to_evict max entries), (drop n (sort_by_key snd entries)).
  assert (Hp : to_evict max entries ++ drop n (sort_by_key snd entries) ≡ₚ entries)
    by apply evict_split.
  split; [exact Hp|]. split.
  { rewrite length_drop, (Permutation_length (sort_by_key_perm snd entries)). lia. }
  split; [intros e k; apply lookup_sorted_le, sort_by_key_sorted|]. split.
  { intros e He. apply (json_entry_extension listing). fold entries. rewrite <- Hp. set_solver. }
  unfold enforce_cache_limit. rewrite Hl. fold entries.
  destruct (Z.leb_spec (Z.of_nat (length entries)) max); cbn [fst snd]; [done|].
  split; [done|]. intros p Hn. by apply remove_all_other.
Qed.

(** No entry of the directory is as recent as the file at [path]. *)
Definition newest (d : D) (cache_path : str) (path : Path) : Prop :=
  ∀ listing, fs_read_dir d cache_path = Ok listing ->
    NoDup (json_entries listing).*1
    ∧ ∀ m e, (path, m) ∈ json_entries listing -> e ∈ json_entries listing ->
        e.1 <> path -> e.2 < m.

Lemma newest_kept max d cache_path path :
  1 <= max -> newest d cache_path path ->
  file (enforce_cache_limit max d cache_path).1 path = file d path.
Proof.
  intros Hm Hn. unfold enforce_cache_limit.
  destruct (fs_read_dir d cache_path) as [listing|] eqn:El; [|done].
  destruct (Hn listing El) as [Hd Ho]. set (entries := json_entries listing) in *.
  destruct (Z.leb_spec (Z.of_nat (length entries)) max) as [|Hlt]; cbn [fst]; [done|].
  apply remove_all_other. intros ([p m] & Ep & He)%list_elem_of_fmap. cbn in Ep. subst p.
  pose proof (evict_split max entries) as Hp.
  set (kept := drop (Z.to_nat (Z.of_nat (length entries) - max)) (sort_by_key snd entries)) in *.
  assert (Hk : ∃ k, k ∈ kept).
  { destruct kept as [|k l] eqn:Ek; [|exists k; by left]. apply (f_equal length) in Ek.
    unfold kept in Ek. rewrite length_drop, (Permutation_length (sort_by_key_perm snd entries)) in Ek.
    cbn in Ek. lia. }
  destruct Hk as [k Hk].
  assert (m <= k.2) by (apply (lookup_sorted_le snd (sort_by_key snd entries) (path, m) k
    (Z.to_nat (Z.of_nat (length entries) - max))); [apply sort_by_key_sorted|exact He|exact Hk]).
  rewrite <- Hp, fmap_app in Hd. apply list.NoDup_app in Hd as (_ & Hdis & _).
  assert (Hne : k.1 <> path).
  { intros E. apply (Hdis path); [by apply (list_elem_of_fmap_2 fst _ (path, m))|].
    rewrite <- E. by apply (list_elem_of_fmap_2 fst). }
  assert ((path, m) ∈ entries) by (rewrite <- Hp; set_solver).
  assert (k ∈ entries) by (rewrite <- Hp; set_solver).
  assert (k.2 < m) by eauto. lia.
Qed.

Lemma write_atomic_written d path content d' :
  write_atomic d path content = (d', Ok tt) -> file d' path = Some content.
Proof.
  destruct path as [dir name]. unfold write_atomic.
  destruct (fs_create_dir_all d dir) as [d1 [[]|]] eqn:E1; [|done].
  set (temp := (dir, _ ++ _ ++ _)). set (path := (dir, name)).
  pose proof (fs_write_law d1 temp content) as Hw.
  destruct (fs_write d1 temp content) as [d2 [[]|]] eqn:E2; [|done].
  cbn [fst snd] in Hw. specialize (Hw eq_refl).
  assert (Htp : temp <> path).
  { unfold temp, path. intros [= E]. apply (f_equal length) in E.
    revert E. cbn [app lit map String.list_ascii_of_string length]. rewrite length_app. lia. }
  pose proof (fs_rename_law d2 temp path content) as Hr.
  pose proof (fs_rename_failed d2 temp path) as Hf.
  destruct (fs_rename d2 temp path) as [d3 [[]|e]] eqn:E3.
  { intros [= <-]. by apply Hr. }
  cbn [fst snd] in Hf. specialize (Hf e eq_refl). destruct (fs_exists d3 path); [|done].
  pose proof (fs_remove_other d3 path temp ltac:(done)) as Ho.
  destruct (fs_remove_file d3 path) as [d4 [[]|]]; [|done]. cbn [fst] in Ho. intros E.
  pose proof (fs_rename_law d4 temp path content) as Hr'. rewrite E in Hr'. apply Hr'; [done|].
  by rewrite Ho, Hf.
Qed.

(** A save that succeeds leaves the entry under the name of the domain, provided nothing in
    the directory is as recent. *)
Lemma save_written max now d n cache_path domain result w' :
  1 <= max ->
  (∀ d' text, entry_to_json (MkCacheEntry (cache_of_result result) now domain) = Ok text ->
     write_atomic (fs_create_dir_all d cache_path).1 (cache_file cache_path domain) text
     = (d', Ok tt) -> newest d' cache_path (cache_file cache_path domain)) ->
  save max now (d, n) cache_path domain result = (w', Ok tt) ->
  ∃ text, entry_to_json (MkCacheEntry (cache_of_result result) now domain) = Ok text
          ∧ file w'.1 (cache_file cache_path domain) = Some text.
Proof.
  intros Hm Hnew. unfold save.
  destruct (fs_create_dir_all d cache_path) as [d1 [[]|]]; [|done]. cbn [fst] in Hnew.
  destruct (entry_to_json _) as [text|] eqn:Et; [|done].
  destruct (write_atomic d1 _ text) as [d2 [[]|]] eqn:Ew; [|done].
  specialize (Hnew d2 text eq_refl Ew). apply write_atomic_written in Ew.
  destruct (count_save d2 cache_path n) as [count saves].
  destruct (should_enforce max count); [|by intros [= <-]; eauto].
  pose proof (newest_kept max d2 cache_path _ Hm Hnew) as Hk.
  destruct (enforce_cache_limit max d2 cache_path) as [d3 r]. intros [= <- ->]. cbn [fst] in *.
  exists text. split; [done|]. by rewrite Hk.
Qed.

(** Loading what is there: the entry when it is within the size and the age. *)
Lemma load_present now d cache_path domain text entry :
  file d (cache_file cache_path domain) = Some text ->
  is_ok (fs_try_exists d (cache_file cache_path domain)) = true ->
  is_ok (fs_len d (cache_file cache_path domain)) = true ->
  is_ok (fs_read_to_string d (cache_file cache_path domain)) = true ->
  Z.of_nat (length (encode text)) <= MAX_WHOIS_CACHE_FILE_SIZE ->
  entry_of_json text = Ok entry ->
  now - ce_cached_at entry < CACHE_TTL_SECS * nanos_per_sec ->
  load now d cache_path domain = (d, Ok (Some entry)).
Proof.
  intros Hf He Hl Hr Hs Hj Ha. unfold load. set (p := cache_file cache_path domain) in *.
  destruct (fs_try_exists d p) as [b|] eqn:Ee; [|done].
  apply fs_try_exists_law in Ee. rewrite Hf in Ee. cbn in Ee. subst b.
  destruct (fs_len d p) as [len|] eqn:El; [|done].
  apply fs_len_law in El as (c & Hc & ->). rewrite Hf in Hc. injection Hc as <-.
  destruct (Z.ltb_spec MAX_WHOIS_CACHE_FILE_SIZE (Z.of_nat (length (encode text)))); [lia|].
  destruct (fs_read_to_string d p) as [c|] eqn:Er; [|done].
  apply fs_read_law in Er. rewrite Hf in Er. injection Er as <-. rewrite Hj.
  unfold duration_exceeds_ttl.
  destruct (Z.leb_spec CACHE_TTL_SECS (Z.max 0 (now - ce_cached_at entry) / nanos_per_sec)) as [Hd|];
    [|done].
  assert (Z.max 0 (now - ce_cached_at entry) / nanos_per_sec < CACHE_TTL_SECS)
    by (apply Z.div_lt_upper_bound; unfold nanos_per_sec, CACHE_TTL_SECS in *; lia).
  lia.
Qed.
End CacheTheorems.

(** ** Lookups *)

Section LookupTheorems.
Context `{C : ChronoDates} {CL : ChronoDatesLaws C} `{F : Fs D} {FL : FsLaws F} `{J : EntryCodec}
  {JL : EntryCodecLaws J}.
Context {S : Type} (lookup : S -> str -> S * option (result WhoisResponse AnyhowError)).

Lemma load_error_stable now d cache_path domain d' e :
  load now d cache_path domain = (d', Err e) ->
  d' = d ∧ ∀ now', load now' d cache_path domain = (d, Err e).
Proof.
  unfold load. set (p := cache_file cache_path domain).
  destruct (fs_try_exists d p) as [[]|]; try done.
  destruct (fs_len d p) as [len|]; [|by intros [= <- <-]].
  destruct (MAX_WHOIS_CACHE_FILE_SIZE <? len); [done|].
  destruct (fs_read_to_string d p) as [content|]; [|by intros [= <- <-]].
  destruct (entry_of_json content) as [entry|]; [|by intros [= <- <-]].
  by destruct (duration_exceeds_ttl _ _).
Qed.

Lemma lookup_and_save_ok later w st cache_path domain w' st' r :
  lookup_and_save lookup later w st cache_path domain = (w', st', Ok (Some r)) ->
  whois_result_is_usable r = true ∧ (∃ response, r = convert_parsed_data response)
  ∧ save MAX_WHOIS_CACHE_ENTRIES later w cache_path domain r = (w', Ok tt).
Proof.
  unfold lookup_and_save. destruct (lookup st domain) as [st1 [[response|]|]]; try done.
  destruct (negb (lookup_status_is_cacheable _)); [done|].
  destruct (whois_result_is_usable (convert_parsed_data response)) eqn:Eu; [|done]. cbn [negb].
  destruct (save _ _ _ _ _ _) as [w1 [[]|]] eqn:Es; [|done]. intros [= <- <- <-]. eauto.
Qed.

Lemma usable_floor r : whois_result_is_usable (floor_dates r) = whois_result_is_usable r.
Proof. done. Qed.

(** C34: What a lookup found is not asked for again.  A lookup missed the cache, gave a result and
    wrote its entry, as the newest entry of the directory (so that the eviction after the write
    keeps it), of at most [MAX_WHOIS_CACHE_FILE_SIZE] bytes (a larger file is deleted when it is
    read), with dates that a timestamp can hold.  Then every lookup of the domain less than seven
    days after the entry was written, on any disk that still has the entry's file as it was written
    and lets it be found, measured and read, gives that result with its dates rounded down to
    milliseconds, asks nobody and leaves the disk and the save counters as they are. *)
Theorem cached_lookup_hits now later d n st cache_path domain d0 w1 st1 r now2 later2 d2 n2 st2 :
  let entry_file := cache_file cache_path domain in
  load now d cache_path domain = (d0, Ok None) ->
  lookup_whois_with_lookup lookup now later (d, n) st cache_path domain = (w1, st1, Ok (Some r)) ->
  (∀ d' text, write_atomic (fs_create_dir_all d0 cache_path).1 entry_file text = (d', Ok tt) ->
     newest d' cache_path entry_file) ->
  (∀ text, entry_to_json (MkCacheEntry (cache_of_result r) later domain) = Ok text ->
     Z.of_nat (length (encode text)) <= MAX_WHOIS_CACHE_FILE_SIZE) ->
  dates_representable r ->
  now2 - later < CACHE_TTL_SECS * nanos_per_sec ->
  file d2 entry_file = file w1.1 entry_file ->
  is_ok (fs_try_exists d2 entry_file) = true ->
  is_ok (fs_len d2 entry_file) = true ->
  is_ok (fs_read_to_string d2 entry_file) = true ->
  lookup_whois_with_lookup lookup now2 later2 (d2, n2) st2 cache_path domain
  = ((d2, n2), st2, Ok (Some (floor_dates r))).
Proof.
  intros entry_file Hmiss Hfirst Hnew Hs Hd Ha Hsame He Hl Hr.
  unfold lookup_whois_with_lookup in Hfirst.
  rewrite Hmiss in Hfirst. cbn [mbind option_bind] in Hfirst.
  apply lookup_and_save_ok in Hfirst as (Hu & [response ->] & Hsave).
  apply save_written in Hsave as (text & Et & Hf); [|done|by intros d' t _; apply Hnew].
  unfold entry_file in *. rewrite <- Hsame in Hf. unfold lookup_whois_with_lookup.
  rewrite (load_present now2 d2 cache_path domain text _ Hf He Hl Hr (Hs text Et)
             (entry_roundtrip _ _ Et) Ha).
  cbn [mbind option_bind]. unfold cached_result. cbn [ce_result].
  destruct (whois_cache_roundtrip _ Hd) as [-> _].
  by rewrite floor_converted_stable, usable_floor, Hu.
Qed.

(** A failure of the registry is never an error: an error comes from reading the cache, in
    which case nobody was asked, nothing on disk changed, and every further lookup of the
    domain fails the same way; or from writing a usable result, which is then lost. *)
Theorem whois_errors_are_cache_errors now later d n st cache_path domain w' st' e :
  lookup_whois_with_lookup lookup now later (d, n) st cache_path domain = (w', st', Err e) ->
  (w' = (d, n) ∧ st' = st
   ∧ ∀ now2 later2 st2, lookup_whois_with_lookup lookup now2 later2 w' st2 cache_path domain
                        = (w', st2, Err e))
  ∨ ∃ response d0, lookup st domain = (st', Some (Ok response))
      ∧ lookup_status response = Found
      ∧ whois_result_is_usable (convert_parsed_data response) = true
      ∧ save MAX_WHOIS_CACHE_ENTRIES later (d0, n) cache_path domain (convert_parsed_data response)
        = (w', Err e).
Proof.
  unfold lookup_whois_with_lookup at 1.
  destruct (load now d cache_path domain) as [d0 [cached|e0]] eqn:El.
  - destruct (entry ← cached; _) as [r|]; [done|]. unfold lookup_and_save.
    destruct (lookup st domain) as [st1 [[response|]|]]; try done.
    destruct (lookup_status response) eqn:Els; cbn [lookup_status_is_cacheable negb]; try done.
    destruct (whois_result_is_usable (convert_parsed_data response)) eqn:Eu; [|done]. cbn [negb].
    destruct (save _ _ _ _ _ _) as [w1 [[]|e1]] eqn:Es; [done|]. intros [= <- <- <-].
    right. exists response, d0. by rewrite Es.
  - intros [= <- <- <-]. apply load_error_stable in El as [-> El]. left. split_and!; [done|done|].
    intros now2 later2 st2. unfold lookup_whois_with_lookup. by rewrite El.
Qed.
End LookupTheorems.

(** ** A concrete disk *)

Module DemoWhois.
#[local] Instance chrono : ChronoDates := {|
  datetime_from_str := λ s _, parse_uint u64_max s;
  naive_datetime_from_str := λ _ _, None;
  naive_date_from_str := λ _ _, None;
  datetime_from_rfc3339 := λ _, None;
  from_timestamp := λ secs nanos,
    if (Z.abs secs <=? 8210266876799) && (0 <=? nanos) && (nanos <? nanos_per_sec)
    then Some (secs * nanos_per_sec + nanos) else None |}.
#[local] Instance chrono_laws : ChronoDatesLaws chrono.
Proof.
  refine {| representable := λ secs, Z.abs secs <=? 8210266876799 |}.
  intros secs nanos Hn. cbn [from_timestamp chrono].
  replace (0 <=? nanos) with true by lia. replace (nanos <? nanos_per_sec) with true by lia.
  by rewrite !andb_true_r.
Defined.

(** Files with their modification times, and the time of the next write. *)
Definition Files : Type := list (Path * (str * Z)).
Definition Disk : Type := Files * Z.
Definition find_file (l : Files) (p : Path) : option (str * Z) :=
  snd <$> List.find (λ e, bool_decide (e.1 = p)) l.
Definition without (l : Files) (p : Path) : Files :=
  List.filter (λ e, negb (bool_decide (e.1 = p))) l.

Lemma find_file_cons p f l : find_file ((p, f) :: l) p = Some f.
Proof. unfold find_file. cbn. by rewrite bool_decide_eq_true_2. Qed.

Lemma find_file_without l p q : p <> q -> find_file (without l p) q = find_file l q.
Proof.
  intros Hn. unfold find_file, without. induction l as [|[p' f] l IH]; [done|]. cbn.
  destruct (decide (p' = p)) as [->|H1].
  - rewrite (bool_decide_eq_true_2 (p = p)), (bool_decide_eq_false_2 (p = q)) by done. exact IH.
  - rewrite (bool_decide_eq_false_2 (p' = p)) by done. cbn. by destruct (bool_decide (p' = q)).
Qed.

Definition absent {A} : result A str := Err (lit "not found").
Definition disk_remove (d : Disk) (p : Path) : Disk * result unit str :=
  match find_file d.1 p with Some _ => ((without d.1 p, d.2), Ok tt) | None => (d, absent) end.
Definition disk_rename (d : Disk) (p q : Path) : Disk * result unit str :=
  match find_file d.1 p with
  | Some f => (((q, f) :: without (without d.1 p) q, d.2), Ok tt)
  | None => (d, absent)
  end.

#[local] Instance fs : Fs Disk := {|
  fs_try_exists := λ d p, Ok (bool_decide (is_Some (find_file d.1 p)));
  fs_len := λ d p, match find_file d.1 p with
                   | Some f => Ok (Z.of_nat (length (Sanitize.encode f.1))) | None => absent end;
  fs_read_to_string := λ d p, match find_file d.1 p with Some f => Ok f.1 | None => absent end;
  fs_exists := λ d p, bool_decide (is_Some (find_file d.1 p));
  fs_create_dir_all := λ d _, (d, Ok tt);
  fs_write := λ d p content, (((p, (content, d.2)) :: without d.1 p, d.2 + 1), Ok tt);
  fs_rename := disk_rename;
  fs_remove_file := disk_remove;
  fs_read_dir := λ d dir,
    Ok (map (λ e, (e.1, Some e.2.2)) (List.filter (λ e, streqb e.1.1 dir) d.1)) |}.

#[local] Instance fs_laws : FsLaws fs.
Proof.
  refine {| file := λ (d : Disk) p, fst <$> find_file d.1 p |}; cbn [fst snd fs_try_exists fs_len
    fs_read_to_string fs_create_dir_all fs_write fs_rename fs_remove_file fs]; intros *.
  - intros [= <-]. apply bool_decide_ext. by rewrite fmap_is_Some.
  - destruct (find_file d.1 p); [|done]. by intros [= <-].
  - destruct (find_file d.1 p) as [f|]; [|done]. intros [= <-]. by exists f.1.
  - done.
  - intros _. by rewrite find_file_cons.
  - unfold disk_rename. destruct (find_file d.1 p) as [f|]; [|done]. cbn [fst fmap option_fmap option_map].
    intros _ [= <-]. by rewrite find_file_cons.
  - unfold disk_rename. destruct (find_file d.1 p) as [f|] eqn:E; cbn; [done|]. by rewrite E.
  - intros Hn. unfold disk_remove. destruct (find_file d.1 p); [|done]. cbn [fst].
    by rewrite find_file_without.
Defined.

(** A codec: tags and lengths before the values. *)
Class Wire (A : Type) := {
  ser : A -> list Z;
  des : list Z -> option (A * list Z);
  des_ser : ∀ a r, des (ser a ++ r) = Some (a, r);
}.
#[local] Instance wire_Z : Wire Z.
Proof.
  refine {| ser := λ z, [z]; des := λ l, match l with z :: r => Some (z, r) | [] => None end |}.
  done.
Defined.
#[local] Instance wire_prod {A B} `{Wire A} `{Wire B} : Wire (A * B).
Proof.
  refine {| ser := λ p, ser p.1 ++ ser p.2;
            des := λ l, '(a, r) ← des l; '(b, r) ← des r; Some ((a, b), r) |}.
  intros [a b] r. rewrite <- app_assoc, des_ser. cbn. by rewrite des_ser.
Defined.
#[local] Instance wire_option {A} `{Wire A} : Wire (option A).
Proof.
  refine {| ser := λ o, match o with Some a => 1 :: ser a | None => [0] end;
            des := λ l, match l with
                        | 1 :: r => '(a, r) ← des r; Some (Some a, r)
                        | _ :: r => Some (None, r)
                        | [] => None end |}.
  intros [a|] r; [|done]. cbn. by rewrite des_ser.
Defined.
Fixpoint des_list {A} `{Wire A} (n : nat) (l : list Z) : option (list A * list Z) :=
  match n with
  | O => Some ([], l)
  | S n => '(a, r) ← des l; '(x, r) ← des_list n r; Some (a :: x, r)
  end.
#[local] Instance wire_list {A} `{Wire A} : Wire (list A).
Proof.
  refine {| ser := λ x, Z.of_nat (length x) :: concat (map ser x);
            des := λ l, match l with n :: r => des_list (Z.to_nat n) r | [] => None end |}.
  intros x r. cbn [app]. rewrite Nat2Z.id. induction x as [|a x IH]; [done|].
  cbn [length des_list map concat]. rewrite <- app_assoc, des_ser. cbn. by rewrite IH.
Defined.

Definition Fields : Type :=
  option Z * option Z * option Z * option str * option str * option str
  * option (list str) * option (list str) * option str * Z * str.
Definition fields (e : WhoisCacheEntry) : Fields :=
  let r := ce_result e in
  (cr_creation_date r, cr_expiration_date r, cr_updated_date r, cr_registrar r,
   cr_registrant_country r, cr_registrant_org r, cr_status r, cr_nameservers r, cr_raw_text r,
   ce_cached_at e, ce_domain e).
Definition of_fields (f : Fields) : WhoisCacheEntry :=
  let '(a, b, c, d, e, g, h, i, j, k, l) := f in
  MkCacheEntry (MkCacheResult a b c d e g h i j) k l.
#[local] Instance codec : EntryCodec := {|
  entry_to_json := λ e, Ok (ser (fields e));
  entry_of_json := λ s, match des (A := Fields) s with
                        | Some (f, []) => Ok (of_fields f) | _ => absent end |}.
#[local] Instance codec_laws : EntryCodecLaws codec.
Proof.
  split. intros e text E. cbn [entry_to_json codec] in E.
  assert (Ht : ser (fields e) ++ [] = text) by (rewrite app_nil_r; congruence).
  cbn [entry_of_json codec]. rewrite <- Ht, des_ser. by destruct e as [[]].
Qed.

Definition dir : str := lit "c".
Definition domain : str := lit "a.example".
Definition response : WhoisResponse :=
  MkWhoisResponse (lit "Registrant Organization: Redacted for privacy" ++ [10]
                   ++ lit " registrant country : us ")
    (Some (MkParsedWhois (Some (lit "R")) (Some (lit "1700000000123456789")) (Some (lit "0")) None
             [lit "ns1"] [])) Found.
Definition ask (calls : nat) (_ : str) : nat * option (result WhoisResponse AnyhowError) :=
  (S calls, Some (Ok response)).
Definition empty_disk : Disk := ([], 0).

Definition found : WhoisResult :=
  MkWhoisResult (Some 1700000000123456789) None None (Some (lit "R")) (Some (lit "US")) None []
    [lit "ns1"] (Some (raw_data response)).

Lemma whois_result_clean_witness :
  forallb char_ok (raw_data response) = true ∧ convert_parsed_data response = found
  ∧ ∀ c, wr_registrant_country (convert_parsed_data response) = Some c -> alpha2 c.
Proof.
  assert (H : forallb char_ok (raw_data response) = true) by (vm_compute; reflexivity).
  split; [exact H|]. split; [vm_compute; reflexivity|].
  exact (proj1 (whois_result_clean response H)).
Defined.

Definition old : WhoisResult := MkWhoisResult (Some (-1500001)) None None None None None [] [] None.
Lemma whois_cache_roundtrip_witness :
  dates_representable old
  ∧ result_of_cache (cache_of_result old)
    = MkWhoisResult (Some (-2000000)) None None None None None [] [] None.
Proof.
  assert (H : dates_representable old).
  { intros t Ht. apply list_elem_of_singleton in Ht. subst t. vm_compute. reflexivity. }
  split; [exact H|]. destruct (whois_cache_roundtrip old H) as [E _].
  etransitivity; [exact E|vm_compute; reflexivity].
Defined.

Definition crowded : Disk :=
  ([((dir, lit "x.json"), ([1], 3)); ((dir, lit "y.json"), ([2], 7));
                ((dir, lit "z.json"), ([3], 5)); ((dir, lit "old.tmp"), ([4], 1))], 8).

(** One entry may stay: the newest; the other file is not touched. *)
Lemma eviction_keeps_newest_witness :
  let d := (enforce_cache_limit 1 crowded dir).1 in
  file d (dir, lit "y.json") = Some [2] ∧ file d (dir, lit "old.tmp") = Some [4]
  ∧ file d (dir, lit "x.json") = None ∧ file d (dir, lit "z.json") = None
  ∧ (enforce_cache_limit 1 crowded dir).2 = Ok tt.
Proof.
  cbv zeta. split; [vm_compute; reflexivity|]. split; [vm_compute; reflexivity|].
  split; [vm_compute; reflexivity|]. split; [vm_compute; reflexivity|].
  assert (H : ∃ listing, fs_read_dir crowded dir = Ok listing)
    by (eexists; vm_compute; reflexivity).
  destruct H as [listing H].
  destruct (eviction_keeps_newest 1 crowded dir listing ltac:(lia) H)
    as (evicted & kept & _ & _ & _ & _ & E & _).
  exact E.
Defined.

Definition first_lookup : (Disk * Z) * nat * result (option WhoisResult) AnyhowError :=
  lookup_whois_with_lookup ask 5 6 (empty_disk, 0) 0%nat dir domain.

(** The entry of another domain is written in between; the second lookup does not ask: its counter
    stays what it was. *)
Definition between : Disk * Z :=
  (lookup_whois_with_lookup ask 500 501 first_lookup.1.1 1%nat dir (lit "other.example")).1.1.
Lemma cached_lookup_hits_witness :
  first_lookup.2 = Ok (Some found) ∧ first_lookup.1.2 = 1%nat
  ∧ bool_decide (between.1 = first_lookup.1.1.1) = false
  ∧ lookup_whois_with_lookup ask 1000 1001 between 7%nat dir domain
    = (between, 7%nat, Ok (Some (floor_dates found))).
Proof.
  split; [vm_compute; reflexivity|]. split; [vm_compute; reflexivity|].
  split; [vm_compute; reflexivity|].
  pose proof (cached_lookup_hits ask 5 6 empty_disk 0 0%nat dir domain empty_disk
    first_lookup.1.1 1%nat found 1000 1001 between.1 between.2 7%nat) as H.
  rewrite <- surjective_pairing in H. apply H; clear H.
  1,2,6,7,8,9,10: vm_compute; reflexivity.
  - intros d' text E%(f_equal fst) listing Hl. cbn [snd fst] in E.
    apply (f_equal (λ r, match r with Ok l => json_entries l | Err _ => [] end)) in Hl.
    assert (Hj : json_entries listing = [(cache_file dir domain, 0)]).
    { etransitivity; [symmetry; exact Hl|]. rewrite <- E. vm_compute. reflexivity. }
    clear E Hl. rewrite Hj.
    split; [apply NoDup_singleton|].
    intros m e _ He%list_elem_of_singleton Hne. subst e. by destruct Hne.
  - intros text E. assert (Ht : text = match entry_to_json (MkCacheEntry (cache_of_result found) 6 domain)
      with Ok t => t | Err _ => [] end) by (rewrite E; reflexivity).
    rewrite Ht. vm_compute. discriminate.
  - intros t Ht%list_elem_of_singleton. subst t. vm_compute. reflexivity.
Defined.

(** A file that does not parse: nobody is asked. *)
Definition corrupted : Disk := ([(cache_file dir domain, ([88], 0))], 1).
Definition parse_failed : AnyhowError :=
  MkAnyhow [lit "Failed to parse cache file"] (CMessage (lit "not found")) [].
Lemma whois_errors_are_cache_errors_witness :
  lookup_whois_with_lookup ask 5 6 (corrupted, 0) 0%nat dir domain
  = ((corrupted, 0), 0%nat, Err parse_failed)
  ∧ lookup_whois_with_lookup ask 900 901 (corrupted, 0) 4%nat dir domain
    = ((corrupted, 0), 4%nat, Err parse_failed).
Proof.
  assert (E : lookup_whois_with_lookup ask 5 6 (corrupted, 0) 0%nat dir domain
    = ((corrupted, 0), 0%nat, Err parse_failed)) by (vm_compute; reflexivity).
  split; [exact E|].
  destruct (whois_errors_are_cache_errors ask 5 6 corrupted 0 0%nat dir domain
              (corrupted, 0) 0%nat parse_failed E) as [(_ & _ & H)|(r & d0 & H & _)].
  - apply H.
  - discriminate H.
Defined.
End DemoWhois.
