(* ===== verification/Ruleset.v ===== *)
(** * Loading the fingerprint ruleset ([src/src/fingerprint/ruleset/])

    The catalog of technologies is merged from the GitHub directories, a URL or a local path,
    topped with the rules that are compiled in, kept in a cache directory for seven days and
    held in a global cell.  The network, the file system, the text form of JSON and SHA-256
    are parameters; paths are those of Unix. *)

From S2P Require Import Prelude Sanitize Net Security Redirects Errors Retry ExportRow Dns StrIndex.
From S2P Require Import Domain Response Scripts WellKnown Whois Patterns Literals Json Models.

Definition CACHE_SCHEMA_VERSION : str := lit "4".
Definition MIN_FULL_TECHNOLOGIES : Z := 1000.
Definition MAX_RULESET_DOWNLOAD_SIZE : Z := 10 * 1024 * 1024.
Definition FINGERPRINT_CACHE_TTL_SECS : Z := 7 * 24 * 60 * 60.
Definition DEFAULT_FINGERPRINTS_URLS : list str :=
  map lit ["https://raw.githubusercontent.com/enthec/webappanalyzer/main/src/technologies";
           "https://raw.githubusercontent.com/HTTPArchive/wappalyzer/main/src/technologies"]%string.

(** ** Paths ([std::path])

    A path is compared by its components: empty ones and dots are dropped, except a leading
    dot. *)

Definition components (path : str) : bool * list str :=
  let keep := List.filter (λ s, nonempty s && negb (streqb s (lit "."))) in
  (starts_with (lit "/") path,
   match split_char 47 path with
   | s :: rest => if streqb s (lit ".") then s :: keep rest else keep (s :: rest)
   | [] => []
   end).

Definition of_components (c : bool * list str) : str :=
  (if c.1 then lit "/" else []) ++ ExportRow.join (lit "/") c.2.

Definition parent (path : str) : option str :=
  match components path with
  | (_, []) => None
  | (root, cs) => Some (of_components (root, removelast cs))
  end.

Definition file_name (path : str) : option str :=
  match list.last (components path).2 with
  | Some c => if streqb c (lit ".") || streqb c (lit "..") then None else Some c
  | None => None
  end.

Definition path_extension (path : str) : option str := file_name path ≫= extension.

Definition has_json_extension (path : str) : bool :=
  match path_extension path with
  | Some ext => eq_ignore_ascii_case ext (lit "json")
  | None => false
  end.

Definition path_join (dir name : str) : str :=
  if starts_with (lit "/") name then name
  else if nonempty dir && negb (ends_with (lit "/") dir) then dir ++ lit "/" ++ name
  else dir ++ name.

(** A path as the directory and the entry in it that the calls on files take. *)
Definition entry_of (path : str) : Path :=
  (default [] (parent path), default [] (list.last (components path).2)).

(** ** cache_paths.rs *)

(** [env] is the value of [DOMAIN_STATUS_CACHE_DIR], [platform] the directory of the [dirs]
    crate. *)
Definition resolve_cache_root (explicit env platform : option str) : str :=
  match explicit with
  | Some path => path
  | None =>
      match (match env with
             | Some path => let trimmed := trim path in if nonempty trimmed then Some trimmed else None
             | None => None
             end) with
      | Some path => path
      | None => path_join (default (lit ".") platform) (lit "domain_status")
      end
  end.

Definition fingerprints_dir (root : str) : str := path_join root (lit "fingerprints").
Definition geoip_dir (root : str) : str := path_join root (lit "geoip").
Definition whois_dir (root : str) : str := path_join root (lit "whois").
Definition user_agent_dir (root : str) : str := path_join root (lit "user_agent").

(** ** mod.rs: names and labels *)

Section Names.
Context `{H : HttpLib}.

Definition fingerprint_cache_key (sources : list str) : str :=
  match sources with
  | [] => lit "default-schema" ++ CACHE_SCHEMA_VERSION
  | [source] => sha256_hex (Sanitize.encode (CACHE_SCHEMA_VERSION ++ [10] ++ source))
  | _ => sha256_hex (Sanitize.encode (CACHE_SCHEMA_VERSION ++ [10] ++ ExportRow.join [10] sources))
  end.
End Names.

Definition fingerprint_source_label (sources : list str) : str :=
  match sources with [source] => source | _ => ExportRow.join [10] sources end.

Definition is_default_remote_source (source : str) : bool :=
  forallb (λ url, contains url source) DEFAULT_FINGERPRINTS_URLS.

Definition technology_count (techs : gmap str Technology) : Z := Z.of_nat (size techs).

Definition ruleset_quality_label (ruleset : FingerprintRuleset) : str :=
  if streqb (md_version (metadata ruleset)) (lit "bundled-minimal")
     || contains (lit "vendored") (md_source (metadata ruleset))
  then lit "degraded: bundled-minimal"
  else if MIN_FULL_TECHNOLOGIES <=? technology_count (technologies ruleset) then lit "full"
  else if is_default_remote_source (md_source (metadata ruleset)) then lit "thin"
  else lit "explicit".

Definition ruleset_identity_summary (ruleset : FingerprintRuleset) : str :=
  lit "Fingerprint ruleset: " ++ dec (technology_count (technologies ruleset))
  ++ lit " technologies, source=" ++ replace [10] (lit " + ") (md_source (metadata ruleset))
  ++ lit ", version=" ++ md_version (metadata ruleset) ++ lit ", "
  ++ ruleset_quality_label ruleset.

Definition catalog_is_complete (successful_sources expected tech_count : Z) : bool :=
  (successful_sources =? expected) && (MIN_FULL_TECHNOLOGIES <=? tech_count).

Definition is_github_rate_limit_error (err : str) : bool :=
  contains (lit "rate limit") (to_ascii_lowercase err).

(** The failed sources and their errors, in a message. *)
Definition failed_sources (failures : list (str * str)) : str :=
  match failures with
  | [] => []
  | _ => lit " Failed sources:"
         ++ concat (map (λ f, lit " [" ++ f.1 ++ lit ": " ++ f.2 ++ lit "]") failures)
  end.

Definition catalog_unavailable_error (failures : list (str * str)) : AnyhowError :=
  MkAnyhow [] (CMessage (
    lit "Full fingerprint catalog unavailable. Refusing to start a scan with an incomplete "
    ++ lit "technology ruleset. Retry when GitHub is reachable, pass --fingerprints, or "
    ++ lit "--allow-degraded-fingerprints for the vendored subset."
    ++ failed_sources failures
    ++ (if existsb (λ f, is_github_rate_limit_error f.2) failures
        then lit " GITHUB_TOKEN is optional rate-limit headroom (60 " ++ [8594]
             ++ lit " 5000 requests/hour)."
        else [])
    ++ (if existsb (λ f, contains (lit "401") f.2
                         || contains (lit "bad credentials") (to_ascii_lowercase f.2)) failures
        then lit " GITHUB_TOKEN was rejected (401). Unset it or use a valid token."
        else []))) [].

(** The text that [announce_degraded_fingerprints] logs and prints. *)
Definition announce_degraded_fingerprints (failures : list (str * str)) (tech_count : Z) : str :=
  lit "Full fingerprint catalog unavailable; using bundled-minimal (" ++ dec tech_count
  ++ lit " technologies). Technology detection will under-count versus Enthec + HTTPArchive. "
  ++ lit "Retry when GitHub is reachable, or pass --fingerprints."
  ++ failed_sources failures
  ++ (if existsb (λ f, is_github_rate_limit_error f.2) failures
      then lit " GITHUB_TOKEN is optional rate-limit headroom (60 " ++ [8594]
           ++ lit " 5000 requests/hour), not required for the full catalog."
      else []).

(** ** mod.rs: what is kept of a technology *)

Definition is_script_id_js_key (key : str) : bool :=
  let k := trim key in
  if negb (nonempty k) then false
  else starts_with (lit "__") k || contains (lit "DATA") (to_ascii_uppercase k).

Definition no_entries {A} (m : gmap str A) : bool := (size m =? 0)%nat.

Definition is_js_only_technology (tech : Technology) : bool :=
  negb (no_entries (js tech)) && no_entries (headers tech) && no_entries (cookies tech)
  && no_entries (meta tech) && negb (nonempty (script tech)) && negb (nonempty (scripts tech))
  && negb (nonempty (html tech)) && negb (nonempty (url tech)) && no_entries (dns tech)
  && negb (nonempty (cert_issuer tech)).

Definition prune_technology_for_static_detection (tech : Technology) : option Technology :=
  let was_js_only := is_js_only_technology tech in
  let js' : gmap str str :=
    (λ _, []) <$> filter (λ e : str * str, is_script_id_js_key e.1 = true) (js tech) in
  let tech := MkTechnology (cats tech) [] (headers tech) (cookies tech) (meta tech) (script tech)
                (scripts tech) (html tech) (url tech) (dns tech) (cert_issuer tech) js'
                (implies tech) (excludes tech) (requires tech) (requires_category tech) in
  if was_js_only && no_entries js' then None else Some tech.

Section Merge.
Context `{L : Lowercase} `{I : HashIter}.

(** Keys that become equal in lower case: the one iterated last stays. *)
Definition lowercase_keys (m : gmap str str) : gmap str str :=
  foldl (λ m e, <[to_lowercase e.1 := e.2]> m) ∅ (hash_iter m).

Definition ingest_technology (tech : Technology) : option Technology :=
  prune_technology_for_static_detection
    (MkTechnology (cats tech) (website tech) (lowercase_keys (headers tech))
       (lowercase_keys (cookies tech)) (meta tech) (script tech) (scripts tech) (html tech)
       (url tech) (dns tech) (cert_issuer tech) (js tech) (implies tech) (excludes tech)
       (requires tech) (requires_category tech)).

(** The loop that adds the technologies of a source to those of the sources before. *)
Definition merge_technologies (all techs : gmap str Technology) : gmap str Technology :=
  foldl (λ all e, match ingest_technology e.2 with Some tech => <[e.1 := tech]> all | None => all end)
    all (hash_iter techs).

Definition apply_first_party_overlay (techs : gmap str Technology)
  : result (gmap str Technology) AnyhowError :=
  match de_technologies OVERLAY_JSON with
  | None => Err (MkAnyhow [lit "Failed to parse fingerprint overlay.json"] (CMessage []) [])
  | Some overlay => Ok (merge_technologies techs overlay)
  end.

(** The prepared patterns and the literal index are computed from the result on use; the [expect]
    on the construction of the index is left out (see [Literals.finish]). *)
Definition finish_ruleset (ruleset : FingerprintRuleset) : result FingerprintRuleset AnyhowError :=
  match apply_first_party_overlay (technologies ruleset) with
  | Err e => Err e
  | Ok techs => Ok (MkRuleset techs (categories ruleset) (metadata ruleset))
  end.

(** The categories whose key is a number, by number. *)
Definition category_names (categories_map : gmap str Category) : gmap Z str :=
  foldl (λ m e, match parse_uint u32_max e.1 with Some id => <[id := c_name e.2]> m | None => m end)
    ∅ (hash_iter categories_map).

(** [SystemTime::now()] is [now]. *)
Definition load_vendored_ruleset (now : Z) : result FingerprintRuleset AnyhowError :=
  match de_technologies VENDORED_TECHNOLOGIES_JSON with
  | None => Err (MkAnyhow [lit "Failed to parse vendored technologies.json"] (CMessage []) [])
  | Some techs =>
      match de_categories VENDORED_CATEGORIES_JSON with
      | None => Err (MkAnyhow [lit "Failed to parse vendored categories.json"] (CMessage []) [])
      | Some categories_map =>
          Ok (MkRuleset techs (category_names categories_map)
                (MkMetadata (lit "vendored:assets/fingerprints") (lit "bundled-minimal") now))
      end
  end.

Definition vendored_or_err (now : Z) (allow_degraded : bool) (source_failures : list (str * str))
  : result FingerprintRuleset AnyhowError :=
  if negb allow_degraded then Err (catalog_unavailable_error source_failures)
  else match load_vendored_ruleset now with
       | Err e => Err e
       | Ok vendored =>
           finish_ruleset (MkRuleset (omap ingest_technology (technologies vendored))
                             (categories vendored) (metadata vendored))
       end.
End Merge.

(** ** Parameters *)

(** The text form of JSON: parsing up to the type that is read, printing, and the form [serde]
    gives a [SystemTime]. *)
Class RulesetJson := {
  read_json : str -> option Value;
  json_error : str -> str;
  print_json : Value -> option str;
  ser_time : Z -> option Value;
  de_time : Value -> option Z;
}.
Class RulesetJsonLaws (J : RulesetJson) := {
  read_print : ∀ v text, plain_doc v = true -> print_json v = Some text -> read_json text = Some v;
  time_roundtrip : ∀ t v, ser_time t = Some v -> plain_doc v = true ∧ de_time v = Some t;
}.

(** The calls on directories: the entries read before the first error, and that error. *)
Class DirFs (D : Type) := {
  fs_is_dir : D -> str -> bool;
  fs_entries : D -> str -> result (list Path * option str) str;
  fs_remove_dir_all : D -> str -> D * result unit str;
}.

(** A request is sent with the client that refuses private addresses or with a plain one. *)
Inductive ClientKind := SsrfSafeClient | PlainClient.
Record Request := MkRequest {
  rq_client : ClientKind;
  rq_url : str;
  rq_headers : list (str * str);
}.

Class RulesetNet := {
  init_resolver : result unit AnyhowError;
  build_ssrf_client : result unit str;
  build_plain_client : result unit str;
  response_text : Response -> result str str;
  github_token_var : option str;
  warn_enabled : bool;
}.

Definition plain_error (message : str) : AnyhowError := MkAnyhow [] (CMessage message) [].

(** ** local.rs, categories.rs, cache.rs: files *)

Section Files.
Context `{F : Fs D} `{FD : !DirFs D} `{J : RulesetJson} `{I : HashIter}.

(** [serde_json::from_str] with the context that the callers give it. *)
Definition parse_json {A} (de : Value -> option A) (context text : str) : result A AnyhowError :=
  match read_json text ≫= de with
  | Some a => Ok a
  | None => Err (MkAnyhow [context] (CMessage (json_error text)) [])
  end.

(** A file of a directory that cannot be read or parsed is left out. *)
Definition extend_from_file (d : D) (all : gmap str Technology) (file_path : Path)
  : gmap str Technology :=
  if bool_decide (extension file_path.2 = Some (lit "json")) then
    match fs_read_to_string d file_path with
    | Ok content => match read_json content ≫= de_technologies with
                    | Some techs => techs ∪ all
                    | None => all
                    end
    | Err _ => all
    end
  else all.

Definition load_from_path (d : D) (path : str) : result (gmap str Technology) AnyhowError :=
  if fs_is_dir d path then
    match fs_entries d path with
    | Err e | Ok (_, Some e) => Err (plain_error e)
    | Ok (entries, None) => Ok (foldl (extend_from_file d) ∅ entries)
    end
  else
    match fs_read_to_string d (entry_of path) with
    | Err e => Err (plain_error e)
    | Ok content => parse_json de_technologies (lit "Failed to parse technologies JSON") content
    end.

Definition categories_from_json (text : str) : result (gmap Z str) AnyhowError :=
  match parse_json de_categories (lit "Failed to parse categories JSON") text with
  | Err e => Err e
  | Ok categories_map => Ok (category_names categories_map)
  end.

Definition load_categories_from_path (d : D) (path : str) : result (gmap Z str) AnyhowError :=
  let categories_path : option Path :=
    if fs_is_dir d path then
      match parent path with
      | Some p => Some (p, lit "categories.json")
      | None => Some (path, lit "categories.json")
      end
    else p ← parent path; Some (p, lit "categories.json") in
  match categories_path with
  | None =>
      Err (plain_error (lit "Cannot determine categories.json path. Checked: parent directory of '"
             ++ path ++ lit "'. Ensure categories.json exists in the expected location."))
  | Some categories_path =>
      if negb (fs_exists d categories_path) then
        Err (plain_error (lit "categories.json not found at "
               ++ path_join categories_path.1 categories_path.2))
      else
        match fs_read_to_string d categories_path with
        | Err e => Err (plain_error e)
        | Ok content => categories_from_json content
        end
  end.

(** *** Metadata *)

Definition ser_metadata (m : FingerprintMetadata) : option Value :=
  t ← ser_time (md_last_updated m);
  Some (Object [(lit "source", of_str (md_source m)); (lit "version", of_str (md_version m));
                (lit "last_updated", t)]).

Definition metadata_fields (field : Fields) : option FingerprintMetadata :=
  source ← field _ 0%nat ["source"%string] de_string None;
  version ← field _ 1%nat ["version"%string] de_string None;
  last_updated ← field _ 2%nat ["last_updated"%string] de_time None;
  Some (MkMetadata source version last_updated).

Definition de_metadata (v : Value) : option FingerprintMetadata := de_struct 3 metadata_fields v.

(** *** utils/cache.rs *)

Definition cache_ttl_exceeded (now last_updated ttl_secs : Z) (expire_on_clock_skew : bool) : bool :=
  if last_updated <=? now then duration_exceeds_ttl (now - last_updated) ttl_secs
  else expire_on_clock_skew.

(** *** The cache *)

Definition cached_categories (d : D) (categories_path : Path) : gmap Z str :=
  if fs_exists d categories_path then
    match fs_read_to_string d categories_path with
    | Ok categories_json => default ∅ (read_json categories_json ≫= de_names)
    | Err _ => ∅
    end
  else ∅.

Definition load_from_cache (now : Z) (d : D) (cache_dir cache_key expected_sources : str)
  : result FingerprintRuleset AnyhowError :=
  let cache_subdir := path_join cache_dir cache_key in
  let metadata_path := (cache_subdir, lit "metadata.json") in
  let technologies_path := (cache_subdir, lit "technologies.json") in
  let categories_path := (cache_subdir, lit "categories.json") in
  if negb (fs_exists d metadata_path) || negb (fs_exists d technologies_path) then
    Err (plain_error (lit "Cache not found at " ++ cache_subdir ++ lit " for sources: "
           ++ expected_sources))
  else
    match fs_read_to_string d metadata_path with
    | Err e => Err (plain_error e)
    | Ok metadata_json =>
        match read_json metadata_json ≫= de_metadata with
        | None => Err (plain_error (json_error metadata_json))
        | Some metadata =>
            if negb (streqb (md_source metadata) expected_sources) then
              Err (plain_error (lit "Cache source mismatch: expected '" ++ expected_sources
                     ++ lit "', got '" ++ md_source metadata ++ lit "'"))
            else if cache_ttl_exceeded now (md_last_updated metadata) FINGERPRINT_CACHE_TTL_SECS false
            then Err (plain_error (lit "Cache expired for sources: " ++ expected_sources))
            else
              match fs_read_to_string d technologies_path with
              | Err e => Err (plain_error e)
              | Ok technologies_json =>
                  match read_json technologies_json ≫= de_technologies with
                  | None => Err (plain_error (json_error technologies_json))
                  | Some technologies =>
                      Ok (MkRuleset technologies (cached_categories d categories_path) metadata)
                  end
              end
        end
    end.

(** Best effort: a directory that cannot be removed is left. *)
Definition prune_superseded_fingerprint_dirs (d : D) (cache_dir keep_key : str) : D :=
  match fs_entries d cache_dir with
  | Err _ => d
  | Ok (entries, _) =>
      foldl (λ d entry,
        let path := path_join entry.1 entry.2 in
        if negb (fs_is_dir d path) then d
        else if streqb entry.2 keep_key then d
        else (fs_remove_dir_all d path).1) d entries
  end.

(** [to_string_pretty] and [write_atomic]. *)
Definition write_json (d : D) (path : Path) (v : option Value) : D * result unit AnyhowError :=
  match v ≫= print_json with
  | None => (d, Err (plain_error (lit "serialization failed")))
  | Some json =>
      match write_atomic d path json with
      | (d, Err e) => (d, Err (plain_error e))
      | (d, Ok _) => (d, Ok tt)
      end
  end.

Definition save_to_cache (ruleset : FingerprintRuleset) (d : D) (cache_dir cache_key : str)
  : D * result unit AnyhowError :=
  let cache_subdir := path_join cache_dir cache_key in
  match fs_create_dir_all d cache_subdir with
  | (d, Err e) => (d, Err (plain_error e))
  | (d, Ok _) =>
      match write_json d (cache_subdir, lit "metadata.json") (ser_metadata (metadata ruleset)) with
      | (d, Err e) => (d, Err e)
      | (d, Ok _) =>
          match write_json d (cache_subdir, lit "technologies.json")
                  (Some (ser_technologies (technologies ruleset))) with
          | (d, Err e) => (d, Err e)
          | (d, Ok _) =>
              match write_json d (cache_subdir, lit "categories.json")
                      (Some (ser_names (categories ruleset))) with
              | (d, Err e) => (d, Err e)
              | (d, Ok _) => (prune_superseded_fingerprint_dirs d cache_dir cache_key, Ok tt)
              end
          end
      end
  end.
End Files.

(** ** github/, fetch.rs, categories.rs: the network *)

Section Network.
Context `{J : RulesetJson} `{N : RulesetNet} `{I : HashIter} `{H : HttpLib}.
Context `{U : UrlLib} `{L : Lowercase} `{T : IpText}.
Context {S : Type} (send : S -> Request -> S * result Response str).

Definition GITHUB_API_USER_AGENT : str := lit "domain-status/0.2.1".

Definition github_token : option str :=
  match github_token_var with Some t => if nonempty t then Some t else None | None => None end.

Definition status_text (status : Z) : str :=
  dec status ++ lit " " ++ default (lit "<unknown status code>") (canonical_reason status).

Definition build_download_client : result unit AnyhowError :=
  match init_resolver with
  | Err e => Err (with_context (lit "Failed to initialize DNS resolver for download") e)
  | Ok _ =>
      match build_ssrf_client with
      | Err e => Err (with_context (lit "Failed to build SSRF-safe download client") (plain_error e))
      | Ok _ => Ok tt
      end
  end.

Definition api_headers : list (str * str) :=
  [(lit "Accept", lit "application/vnd.github.v3+json"); (lit "User-Agent", GITHUB_API_USER_AGENT)].

Definition github_api_get (client : ClientKind) (st : S) (url : str) : S * result Response str :=
  let authorization := match github_token with
                       | Some token => [(lit "Authorization", lit "Bearer " ++ token)]
                       | None => []
                       end in
  match send st (MkRequest client url (api_headers ++ authorization)) with
  | (st, Err e) => (st, Err e)
  | (st, Ok response) =>
      if (status response =? 401) && bool_decide (is_Some github_token) then
        send st (MkRequest client url api_headers)
      else (st, Ok response)
  end.

(** *** github/commit.rs *)

Definition commit_fields (field : Fields) : option str :=
  field _ 0%nat ["sha"%string] de_string None.
Definition de_commits (v : Value) : option (list str) := de_vec (de_struct 1 commit_fields) v.

Definition commits_url (repo_path : str) : option str :=
  let parts := split_char 47 repo_path in
  if (length parts <? 7)%nat then None
  else
    owner ← parts !! 3%nat; repo ← parts !! 4%nat;
    let path := ExportRow.join (lit "/") (drop 6 parts) in
    Some (lit "https://api.github.com/repos/" ++ owner ++ lit "/" ++ repo ++ lit "/commits?path="
          ++ path ++ lit "&per_page=1").

(** The warning about a response that cannot be parsed quotes its first 200 bytes: [None] is
    the panic of that slice. *)
Definition commit_sha (text : str) : option (option str) :=
  match read_json text ≫= de_commits with
  | Some commits => Some (head commits)
  | None =>
      if warn_enabled then
        match slice_to text (Nat.min (blen text) 200) with
        | Some _ => Some None
        | None => None
        end
      else Some None
  end.

Definition get_latest_commit_sha (st : S) (repo_path : str) : S * option (option str) :=
  match commits_url repo_path with
  | None => (st, Some None)
  | Some api_url =>
      match build_plain_client with
      | Err _ => (st, Some None)
      | Ok _ =>
          match github_api_get PlainClient st api_url with
          | (st, Err _) => (st, Some None)
          | (st, Ok resp) =>
              if negb (is_success (status resp)) then (st, Some None)
              else match response_text resp with
                   | Err _ => (st, Some None)
                   | Ok text => (st, commit_sha text)
                   end
          end
      end
  end.

(** *** github/directory.rs *)

Record FileEntry := MkFileEntry { fe_name : str; fe_download_url : option str; fe_file_type : str }.

Definition de_option_string (v : Value) : option (option str) :=
  match v with Null => Some None | Str s => Some (Some s) | _ => None end.
Definition file_entry_fields (field : Fields) : option FileEntry :=
  name ← field _ 0%nat ["name"%string] de_string None;
  download_url ← field _ 1%nat ["download_url"%string] de_option_string (Some None);
  file_type ← field _ 2%nat ["type"%string] de_string None;
  Some (MkFileEntry name download_url file_type).
Definition de_file_entries (v : Value) : option (list FileEntry) :=
  de_vec (de_struct 3 file_entry_fields) v.

Definition contents_url (dir_url : str) : result (str * str) AnyhowError :=
  if contains (lit "raw.githubusercontent.com") dir_url then
    let parts := split_char 47 dir_url in
    if (7 <=? length parts)%nat then
      let part i := default [] (parts !! i) in
      let constructed_url :=
        lit "https://api.github.com/repos/" ++ part 3%nat ++ lit "/" ++ part 4%nat
        ++ lit "/contents/" ++ ExportRow.join (lit "/") (drop 6 parts) in
      match validate_url_safe constructed_url with
      | Err e => Err (with_context (lit "Unsafe GitHub API URL constructed: " ++ constructed_url)
                        (unsafe_url_error constructed_url e))
      | Ok _ => Ok (constructed_url, part 5%nat)
      end
    else
      Err (plain_error (lit "Invalid GitHub URL format. Expected: "
             ++ lit "'https://raw.githubusercontent.com/owner/repo/branch/path', got: '"
             ++ dir_url ++ lit "'"))
  else
    match validate_url_safe dir_url with
    | Err e => Err (with_context (lit "Unsafe GitHub API URL: " ++ dir_url)
                      (unsafe_url_error dir_url e))
    | Ok _ => Ok (dir_url, lit "main")
    end.

Definition listing_error (status : Z) (error_text : str) : AnyhowError :=
  if (status =? 403) && contains (lit "rate limit") error_text then
    plain_error (lit "GitHub API rate limit exceeded. "
      ++ lit "Unauthenticated requests are limited to 60 requests/hour. "
      ++ lit "To increase the limit to 5000 requests/hour, set the GITHUB_TOKEN environment variable. "
      ++ lit "Get a token at: https://github.com/settings/tokens "
      ++ lit "(no special permissions needed for public repositories). "
      ++ lit "Alternatively, use a cached ruleset or wait before retrying. "
      ++ lit "Error: " ++ status_text status ++ lit " - " ++ error_text)
  else
    plain_error (lit "Failed to fetch directory listing: " ++ status_text status ++ lit " - "
                 ++ error_text).

(** The files that a task is spawned for. *)
Definition downloadable (file : FileEntry) : option str :=
  if streqb (fe_file_type file) (lit "file") && has_json_extension (fe_name file) then
    download_url ← fe_download_url file;
    if negb (is_ok (validate_url_safe download_url)) then None
    else if negb (starts_with (lit "https://raw.githubusercontent.com/") download_url) then None
    else Some download_url
  else None.

Definition download_file (st : S) (download_url : str) : S * option (gmap str Technology) :=
  match send st (MkRequest SsrfSafeClient download_url []) with
  | (st, Err _) => (st, None)
  | (st, Ok resp) =>
      (st,
       if negb (is_success (status resp)) then None
       else if match resp_content_length resp with
               | Some content_length => MAX_RULESET_DOWNLOAD_SIZE <? content_length
               | None => false
               end then None
       else match response_text resp with
            | Err _ => None
            | Ok text =>
                if MAX_RULESET_DOWNLOAD_SIZE <? Z.of_nat (blen text) then None
                else read_json text ≫= de_technologies
            end)
  end.

(** The tasks run concurrently; their results are merged in the order in which they were
    spawned, the order of the requests here. *)
Fixpoint download_files (st : S) (urls : list str) (all : gmap str Technology)
  : S * gmap str Technology :=
  match urls with
  | [] => (st, all)
  | url :: urls =>
      let (st, techs) := download_file st url in
      download_files st urls (default ∅ techs ∪ all)
  end.

Definition fetch_from_github_directory (st : S) (dir_url : str)
  : S * result (gmap str Technology) AnyhowError :=
  match contents_url dir_url with
  | Err e => (st, Err e)
  | Ok (api_url, branch) =>
      match github_api_get SsrfSafeClient st (api_url ++ lit "?ref=" ++ branch) with
      | (st, Err e) => (st, Err (plain_error e))
      | (st, Ok response) =>
          if negb (is_success (status response)) then
            let error_text := match response_text response with
                              | Ok text => text
                              | Err _ => lit "Unknown error"
                              end in
            (st, Err (listing_error (status response) error_text))
          else
            match response_text response with
            | Err e => (st, Err (plain_error e))
            | Ok json_text =>
                match parse_json de_file_entries (lit "Failed to parse GitHub API response")
                        json_text with
                | Err e => (st, Err e)
                | Ok entries =>
                    let (st, techs) := download_files st (omap downloadable entries) ∅ in
                    (st, Ok techs)
                end
            end
      end
  end.

(** *** fetch.rs *)

(** The size is checked once the whole body has been read. *)
Definition fetch_single_file_with_size_limit (url : str) (st : S)
  : S * result (gmap str Technology) AnyhowError :=
  match send st (MkRequest SsrfSafeClient url []) with
  | (st, Err e) => (st, Err (plain_error e))
  | (st, Ok response) =>
      (st,
       if negb (is_success (status response)) then
         Err (plain_error (lit "Failed to fetch " ++ url ++ lit ": " ++ status_text (status response)))
       else
         and_then (reject_if_content_length_exceeds response MAX_RULESET_DOWNLOAD_SIZE
                     (lit "Ruleset file")) (λ _,
         match read_failure (resp_chunks response) with
         | Some e => Err (plain_error e)
         | None =>
             let bytes := readable (resp_chunks response) in
             if MAX_RULESET_DOWNLOAD_SIZE <? Z.of_nat (length bytes) then
               Err (plain_error (lit "Ruleset file too large: " ++ dec (Z.of_nat (length bytes))
                      ++ lit " bytes (max: " ++ dec MAX_RULESET_DOWNLOAD_SIZE ++ lit " bytes)"))
             else
               match from_utf8 bytes with
               | None => Err (MkAnyhow [lit "Ruleset file contains invalid UTF-8"] (CMessage []) [])
               | Some json_text =>
                   parse_json de_technologies (lit "Failed to parse technologies JSON") json_text
               end
         end))
  end.

Definition fetch_from_url (st : S) (url : str) : S * result (gmap str Technology) AnyhowError :=
  match validate_url_safe url with
  | Err e => (st, Err (with_context (lit "Unsafe ruleset URL rejected: " ++ url)
                         (unsafe_url_error url e)))
  | Ok _ =>
      match build_download_client with
      | Err e => (st, Err e)
      | Ok _ =>
          if contains (lit "raw.githubusercontent.com") url && negb (has_json_extension url)
          then fetch_from_github_directory st url
          else
            let '(st, r, _) :=
              with_network_download_retry (plain_error (lit "no attempt"))
                (fetch_single_file_with_size_limit url) 1 st in
            (st, r)
      end
  end.

(** *** categories.rs *)

Definition trim_slashes (s : str) : str := trim_end_by (Z.eqb 47) s.

Definition categories_url (url : str) : str :=
  if contains (lit "raw.githubusercontent.com") url && negb (has_json_extension url) then
    let trimmed := trim_slashes url in
    if ends_with (lit "/technologies") trimmed then
      trim_slashes (take (length trimmed - 12) trimmed) ++ lit "/categories.json"
    else trimmed ++ lit "/../categories.json"
  else if has_json_extension url then
    ExportRow.join (lit "/") (removelast (split_char 47 url) ++ [lit "categories.json"])
  else trim_slashes url ++ lit "/../categories.json".

Definition fetch_categories_from_url (st : S) (url : str) : S * result (gmap Z str) AnyhowError :=
  match build_plain_client with
  | Err e => (st, Err (plain_error e))
  | Ok _ =>
      match send st (MkRequest PlainClient (categories_url url) []) with
      | (st, Err e) => (st, Err (plain_error e))
      | (st, Ok response) =>
          (st,
           if negb (is_success (status response)) then
             Err (plain_error (lit "Failed to fetch categories: " ++ status_text (status response)))
           else match response_text response with
                | Err e => Err (plain_error e)
                | Ok json_text => categories_from_json json_text
                end)
      end
  end.

(** ** mod.rs: merging the sources *)

Context `{F : Fs D} `{FD : !DirFs D}.

Record MergeState := MkMerge {
  all_technologies : gmap str Technology;
  all_categories : gmap Z str;
  versions : list str;
  successful_sources : Z;
  source_failures : list (str * str);
}.

Definition is_url (source : str) : bool :=
  starts_with (lit "http://") source || starts_with (lit "https://") source.

Definition fetch_technologies (d : D) (st : S) (source : str)
  : S * result (gmap str Technology) AnyhowError :=
  if is_url source then fetch_from_url st source else (st, load_from_path d source).

Definition fetch_categories (d : D) (st : S) (source : str) : S * gmap Z str :=
  let (st, r) := if is_url source then fetch_categories_from_url st source
                 else (st, load_categories_from_path d source) in
  (st, match r with Ok names => names | Err _ => ∅ end).

(** One turn of the loop; [None] when it panics. *)
Definition merge_source (d : D) (st : S) (ms : MergeState) (source : str) : S * option MergeState :=
  match fetch_technologies d st source with
  | (st, Err e) =>
      (st, Some (MkMerge (all_technologies ms) (all_categories ms) (versions ms)
                   (successful_sources ms) (source_failures ms ++ [(source, error_to_string e)])))
  | (st, Ok technologies) =>
      let all := merge_technologies (all_technologies ms) technologies in
      let (st, names) := fetch_categories d st source in
      let names := names ∪ all_categories ms in
      let merged versions :=
        MkMerge all names versions (successful_sources ms + 1) (source_failures ms) in
      if contains (lit "github.com") source || contains (lit "raw.githubusercontent.com") source then
        match get_latest_commit_sha st source with
        | (st, None) => (st, None)
        | (st, Some None) => (st, Some (merged (versions ms)))
        | (st, Some (Some sha)) => (st, Some (merged (versions ms ++ [source ++ lit ":" ++ sha])))
        end
      else (st, Some (merged (versions ms)))
  end.

Fixpoint merge_sources (d : D) (st : S) (ms : MergeState) (sources : list str)
  : S * option MergeState :=
  match sources with
  | [] => (st, Some ms)
  | source :: sources =>
      match merge_source d st ms source with
      | (st, None) => (st, None)
      | (st, Some ms) => merge_sources d st ms sources
      end
  end.

Definition no_sources : MergeState := MkMerge ∅ ∅ [] 0 [].

(** The files and the network after it, and the outcome, [None] being a panic. *)
Definition fetch_ruleset_from_multiple_sources (now : Z) (d : D) (st : S) (sources : list str)
    (cache_dir cache_key : str) (explicit allow_degraded : bool)
  : D * S * option (result FingerprintRuleset AnyhowError) :=
  match merge_sources d st no_sources sources with
  | (st, None) => (d, st, None)
  | (st, Some ms) =>
      if successful_sources ms =? 0 then
        (d, st, Some (vendored_or_err now allow_degraded (source_failures ms)))
      else
        let version := if nonempty (versions ms) then ExportRow.join (lit ";") (versions ms)
                       else lit "unknown" in
        let metadata := MkMetadata (fingerprint_source_label sources) version now in
        match finish_ruleset (MkRuleset (all_technologies ms) (all_categories ms) metadata) with
        | Err e => (d, st, Some (Err e))
        | Ok ruleset =>
            let tech_count := technology_count (technologies ruleset) in
            if negb explicit
               && negb (catalog_is_complete (successful_sources ms) (Z.of_nat (length sources))
                          tech_count)
            then
              (d, st, Some (if negb allow_degraded
                            then Err (catalog_unavailable_error (source_failures ms))
                            else Ok ruleset))
            else if explicit || (MIN_FULL_TECHNOLOGIES <=? tech_count) then
              match save_to_cache ruleset d cache_dir cache_key with
              | (d, Err e) => (d, st, Some (Err e))
              | (d, Ok _) => (d, st, Some (Ok ruleset))
              end
            else (d, st, Some (Ok ruleset))
        end
  end.

(** ** mod.rs: init_ruleset

    [cell] is [RULESET]; the directory is the argument or the default one. *)

Definition cached_ruleset (now : Z) (d : D) (explicit : bool) (cache_path cache_key expected : str)
  : option (result FingerprintRuleset AnyhowError) :=
  match load_from_cache now d cache_path cache_key expected with
  | Err _ => None
  | Ok ruleset =>
      match finish_ruleset ruleset with
      | Err e => Some (Err e)
      | Ok ruleset =>
          if explicit || (MIN_FULL_TECHNOLOGIES <=? technology_count (technologies ruleset))
          then Some (Ok ruleset) else None
      end
  end.

Definition ruleset_sources (fingerprints_source : option str) : list str :=
  match fingerprints_source with Some source => [source] | None => DEFAULT_FINGERPRINTS_URLS end.

(** What a caller that holds the lock does when the cell is empty. *)
Definition load_ruleset (now : Z) (d : D) (st : S) (fingerprints_source : option str)
    (cache_path : str) (allow_degraded : bool)
  : D * S * option (result FingerprintRuleset AnyhowError) :=
  let explicit := bool_decide (is_Some fingerprints_source) in
  let sources := ruleset_sources fingerprints_source in
  let cache_key := fingerprint_cache_key sources in
  let expected_sources := fingerprint_source_label sources in
  match cached_ruleset now d explicit cache_path cache_key expected_sources with
  | Some r => (d, st, Some r)
  | None =>
      fetch_ruleset_from_multiple_sources now d st sources cache_path cache_key explicit
        allow_degraded
  end.

Definition init_ruleset (now : Z) (cell : option FingerprintRuleset) (d : D) (st : S)
    (fingerprints_source : option str) (cache_path : str) (allow_degraded : bool)
  : option FingerprintRuleset * D * S * option (result FingerprintRuleset AnyhowError) :=
  match cell with
  | Some cached => (cell, d, st, Some (Ok cached))
  | None =>
      match load_ruleset now d st fingerprints_source cache_path allow_degraded with
      | (d, st, Some (Ok ruleset)) => (Some ruleset, d, st, Some (Ok ruleset))
      | (d, st, r) => (cell, d, st, r)
      end
  end.
End Network.

(** ** Lemmas: technologies *)

Section TechnologyLemmas.
Context `{L : Lowercase} `{I : HashIter} `{!HashIterLaws I}.

Lemma ingest_wf tech tech' :
  ingest_technology tech = Some tech' -> wf_technology tech -> wf_technology tech'.
Proof.
  unfold ingest_technology, prune_technology_for_static_detection. case_match; [done|].
  by intros [= <-].
Qed.

(** Merging keeps what a source says over what the sources before it said, where it says
    anything that can be matched. *)
Lemma merge_technologies_lookup all techs name :
  merge_technologies all techs !! name
  = match techs !! name ≫= ingest_technology with Some tech => Some tech | None => all !! name end.
Proof.
  destruct (hash_iter_listed techs) as [Hn E]. rewrite <- E at 2. clear E.
  unfold merge_technologies. revert all Hn. generalize (hash_iter techs) as l.
  induction l as [|[k tech] l IH]; intros all Hn; cbn; [by rewrite lookup_empty|].
  cbn in Hn. apply list.NoDup_cons in Hn as [Hk Hn]. rewrite IH by exact Hn.
  destruct (decide (k = name)) as [->|Hne].
  - rewrite lookup_insert_eq, (not_elem_of_list_to_map_1 _ _ Hk). cbn.
    by destruct (ingest_technology tech); rewrite ?lookup_insert_eq.
  - rewrite lookup_insert_ne by done. destruct (_ ≫= ingest_technology); [done|].
    destruct (ingest_technology tech); rewrite ?lookup_insert_ne by done; done.
Qed.

Lemma merge_technologies_union all techs :
  merge_technologies all techs = omap ingest_technology techs ∪ all.
Proof.
  apply map_eq. intros name. rewrite merge_technologies_lookup, lookup_union, lookup_omap.
  by destruct (techs !! name ≫= ingest_technology), (all !! name).
Qed.

Definition overlay : gmap str Technology := default ∅ (de_technologies OVERLAY_JSON).

Lemma overlay_applied techs :
  apply_first_party_overlay techs = Ok (omap ingest_technology overlay ∪ techs).
Proof.
  unfold apply_first_party_overlay, overlay. destruct overlay_reads as [o E]. rewrite E. cbn [default].
  by rewrite merge_technologies_union.
Qed.

(** Every load path ends with the overlay, and a ruleset that has it stays what it is. *)
Lemma finish_ruleset_Ok rs :
  finish_ruleset rs
  = Ok (MkRuleset (omap ingest_technology overlay ∪ technologies rs) (categories rs) (metadata rs)).
Proof. unfold finish_ruleset. by rewrite overlay_applied. Qed.

Lemma finish_ruleset_idempotent rs rs' : finish_ruleset rs = Ok rs' -> finish_ruleset rs' = Ok rs'.
Proof.
  rewrite !finish_ruleset_Ok. intros [= <-]. cbn [technologies categories metadata].
  by rewrite (assoc_L (∪)), (idemp_L (∪)).
Qed.

Definition wf_technologies (techs : gmap str Technology) : Prop :=
  map_Forall (λ _, wf_technology) techs.

Lemma wf_union a b : wf_technologies a -> wf_technologies b -> wf_technologies (a ∪ b).
Proof. apply map_Forall_union_2. Qed.

Lemma wf_omap_ingest techs : wf_technologies techs -> wf_technologies (omap ingest_technology techs).
Proof.
  intros Hw k t Ht. rewrite lookup_omap in Ht. destruct (techs !! k) as [t0|] eqn:E; [|done].
  cbn in Ht. eapply ingest_wf; [exact Ht|exact (Hw k t0 E)].
Qed.

Lemma wf_merge all techs :
  wf_technologies all -> wf_technologies techs -> wf_technologies (merge_technologies all techs).
Proof. rewrite merge_technologies_union. auto using wf_union, wf_omap_ingest. Qed.

Lemma wf_finish rs rs' :
  wf_technologies (technologies rs) -> finish_ruleset rs = Ok rs' -> wf_technologies (technologies rs').
Proof.
  rewrite finish_ruleset_Ok. intros Hw [= <-]. apply wf_union; [|exact Hw].
  apply wf_omap_ingest. unfold overlay. destruct (de_technologies OVERLAY_JSON) as [o|] eqn:E; [|done].
  by apply de_technologies_wf in E.
Qed.
End TechnologyLemmas.

(** ** Lemmas: the cache directory *)

(** What a working file system promises besides [FsLaws]: calls leave other files alone, a
    directory lists its own entries, and removing one removes what is below it only. *)
Class DirFsLaws {D} (F : Fs D) (FD : DirFs D) (FL : FsLaws F) := {
  fs_write_other : ∀ d p q content, p <> q -> file (fs_write d p content).1 q = file d q;
  fs_rename_other : ∀ d p q r, r <> p -> r <> q -> file (fs_rename d p q).1 r = file d r;
  fs_entries_law : ∀ d dir l e, fs_entries d dir = Ok (l, e) ->
    Forall (λ p : Path, p.1 = dir ∧ 47 ∉ p.2) l;
  fs_remove_dir_law : ∀ d dir (p : Path),
    p.1 <> dir -> starts_with (dir ++ lit "/") p.1 = false ->
    file (fs_remove_dir_all d dir).1 p = file d p;
}.

(** A key is one component of a path. *)
Definition plain_key (key : str) : Prop := 47 ∉ key.

Lemma path_join_plain dir : ∃ pre, ∀ key, plain_key key -> path_join dir key = pre ++ key.
Proof.
  exists (if nonempty dir && negb (ends_with (lit "/") dir) then dir ++ lit "/" else dir).
  intros key Hk. unfold path_join.
  assert (starts_with (lit "/") key = false) as ->.
  { apply not_true_is_false. intros [r ->]%starts_with_iff. apply Hk. by left. }
  destruct (_ && _); [by rewrite <- app_assoc|done].
Qed.

Lemma other_directory dir key name :
  plain_key key -> plain_key name -> name <> key ->
  path_join dir key <> path_join dir name
  ∧ starts_with (path_join dir name ++ lit "/") (path_join dir key) = false.
Proof.
  intros Hk Hn Hne. destruct (path_join_plain dir) as [pre Hp]. rewrite !Hp by done. split.
  - by intros ?%app_inv_head.
  - apply not_true_is_false. intros [r E]%starts_with_iff.
    rewrite <- !app_assoc in E. apply app_inv_head in E. apply Hk. rewrite E. set_solver.
Qed.

Section CacheLemmas.
Context `{F : Fs D} `{FD : !DirFs D} `{FL : !FsLaws F} `{!DirFsLaws F FD FL}.
Context `{J : RulesetJson} `{!RulesetJsonLaws J} `{I : HashIter} `{!HashIterLaws I}.

Lemma write_atomic_other d path content q d' :
  q.1 <> path.1 ∨ q.2 <> path.2 ∧ q.2 <> lit "." ++ path.2 ++ lit ".tmp" ->
  (write_atomic d path content).1 = d' -> file d' q = file d q.
Proof.
  destruct path as [dir name]. cbn [fst snd]. intros Hq <-. unfold write_atomic.
  pose proof (fs_create_law d dir q) as H1.
  destruct (fs_create_dir_all d dir) as [d1 [[]|]]; cbn [fst] in H1 |- *; [|exact H1].
  set (temp := (dir, _ ++ _ ++ _)). set (path := (dir, name)).
  assert (Ht : temp <> q) by (intros <-; cbn in Hq; intuition).
  assert (Hp : path <> q) by (intros <-; cbn in Hq; intuition).
  pose proof (fs_write_other d1 temp q content Ht) as H2.
  destruct (fs_write d1 temp content) as [d2 [[]|]]; cbn [fst] in H2 |- *; [|congruence].
  pose proof (fs_rename_other d2 temp path q ltac:(done) ltac:(done)) as H3.
  destruct (fs_rename d2 temp path) as [d3 [[]|e]]; cbn [fst] in H3 |- *; [congruence|].
  destruct (fs_exists d3 path); cbn [fst]; [|congruence].
  pose proof (fs_remove_other d3 path q Hp) as H4.
  destruct (fs_remove_file d3 path) as [d4 [[]|]]; cbn [fst] in H4 |- *; [|congruence].
  pose proof (fs_rename_other d4 temp path q ltac:(done) ltac:(done)). congruence.
Qed.

Lemma prune_keeps d cache_dir key (p : Path) :
  plain_key key -> p.1 = path_join cache_dir key ->
  file (prune_superseded_fingerprint_dirs d cache_dir key) p = file d p.
Proof.
  intros Hk Hp. unfold prune_superseded_fingerprint_dirs.
  destruct (fs_entries d cache_dir) as [[l e]|] eqn:El; [|done]. apply fs_entries_law in El.
  revert d. induction El as [|[dir name] l [Hd Hn] _ IH]; intros d; [done|]. cbn [foldl fst snd].
  cbn [fst snd] in Hd, Hn. subst dir. rewrite IH.
  destruct (fs_is_dir d _); cbn [negb]; [|done].
  destruct (streqb name key) eqn:E; [done|].
  assert (Hne : name <> key)
      by (intros ->; by rewrite (proj2 (streqb_eq key key) eq_refl) in E).
  destruct (other_directory cache_dir key name Hk Hn Hne) as [H1 H2].
  apply fs_remove_dir_law; rewrite Hp; done.
Qed.

Lemma write_json_written d path v d' :
  write_json d path v = (d', Ok tt) ->
  ∃ x text, v = Some x ∧ print_json x = Some text ∧ file d' path = Some text
  ∧ ∀ q, q.1 <> path.1 ∨ q.2 <> path.2 ∧ q.2 <> lit "." ++ path.2 ++ lit ".tmp" ->
      file d' q = file d q.
Proof.
  unfold write_json. destruct v as [x|]; [|done]. cbn [mbind option_bind].
  destruct (print_json x) as [text|] eqn:Et; [|done].
  destruct (write_atomic d path text) as [d1 [[]|]] eqn:Ew; [|done]. intros [= <-].
  exists x, text. split_and!; [done|exact Et|by eapply write_atomic_written|].
  intros q Hq. eapply write_atomic_other; [exact Hq|]. by rewrite Ew.
Qed.

(** *** What was written can be read *)

Lemma plain_doc_map {A} (ser : A -> Value) (m : gmap str A) :
  map_Forall (λ _ a, plain_doc (ser a) = true) m -> plain_doc (ser_map ser m) = true.
Proof.
  intros Hm. cbn. apply forallb_forall. intros [k v] Hin.
  apply in_map_iff in Hin as ([k' a] & [= <- <-] & Hin%list_elem_of_In%elem_of_hash_iter).
  exact (Hm k' a Hin).
Qed.

Lemma plain_doc_ids l : Forall is_u32 l -> plain_doc (of_vec of_int l) = true.
Proof.
  intros Hl. cbn. apply forallb_forall. intros v (z & <- & Hz)%in_map_iff.
  rewrite List.Forall_forall in Hl. specialize (Hl z Hz). unfold is_u32, u32_max in Hl.
  cbn. unfold u64_max. lia.
Qed.

Lemma plain_doc_strings l : plain_doc (ser_strings l) = true.
Proof. cbn. apply forallb_forall. by intros v (s & <- & _)%in_map_iff. Qed.

Lemma plain_doc_technology t : wf_technology t -> plain_doc (ser_technology t) = true.
Proof.
  intros [Hc Hr].
  assert (Ht : ∀ m : gmap str str, plain_doc (ser_map of_str m) = true)
    by (intros m; by apply plain_doc_map).
  assert (Hm : ∀ m : gmap str (list str), plain_doc (ser_map ser_strings m) = true)
    by (intros m; apply plain_doc_map; intros k l _; apply plain_doc_strings).
  unfold ser_technology, of_str. cbn [plain_doc forallb].
  rewrite !Ht, !Hm, !plain_doc_strings, !plain_doc_ids by done. reflexivity.
Qed.

Lemma plain_doc_technologies techs :
  wf_technologies techs -> plain_doc (ser_technologies techs) = true.
Proof. intros Hw. apply plain_doc_map. intros k t Ht. apply plain_doc_technology, (Hw k t Ht). Qed.

Lemma read_metadata m v : ser_metadata m = Some v -> plain_doc v = true ∧ de_metadata v = Some m.
Proof.
  unfold ser_metadata. destruct (ser_time _) as [t|] eqn:Et; [|done]. intros [= <-].
  apply time_roundtrip in Et as [Hp Ht]. split; [by cbn; rewrite Hp|].
  transitivity (u ← de_time t; Some (MkMetadata (md_source m) (md_version m) u)); [reflexivity|].
  rewrite Ht. by destruct m.
Qed.

Lemma u32_key_dec n : is_u32 n -> u32_key (dec n) = Some n.
Proof.
  intros Hn. unfold u32_key. rewrite parse_uint_dec by exact Hn.
  by rewrite (proj2 (streqb_eq (dec n) (dec n)) eq_refl).
Qed.

Definition wf_names (names : gmap Z str) : Prop := map_Forall (λ id _, is_u32 id) names.

Lemma de_names_go (l : list (Z * str)) (m0 : gmap Z str) :
  Forall (λ e, is_u32 e.1) l -> NoDup l.*1 -> (∀ k, k ∈ l.*1 -> m0 !! k = None) ->
  foldl (λ r e, r ← r; k ← u32_key e.1; a ← de_string e.2; Some (<[k := a]> r)) (Some m0)
    (map (λ e, (dec e.1, of_str e.2)) l)
  = Some (list_to_map l ∪ m0).
Proof.
  intros Hl. revert m0. induction Hl as [|[k a] l Hk Hl IH]; intros m0 Hn H0.
  - cbn. by rewrite (left_id_L ∅ (∪)).
  - cbn [map foldl fst snd mbind option_bind] in *. rewrite u32_key_dec by exact Hk.
    cbn [mbind option_bind de_string as_str of_str]. cbn [fmap list_fmap fst] in Hn, H0.
    apply list.NoDup_cons in Hn as [Hk' Hn]. rewrite IH; [|exact Hn|].
    + f_equal. cbn. rewrite <- insert_union_l, <- insert_union_r; [done|].
      by apply not_elem_of_list_to_map_1.
    + intros k' Hin. rewrite lookup_insert_ne; [|by intros ->]. apply H0. by right.
Qed.

Lemma dec_inj a b : is_u32 a -> is_u32 b -> dec a = dec b -> a = b.
Proof. intros Ha Hb E. apply (f_equal u32_key) in E. rewrite !u32_key_dec in E by done. congruence. Qed.

Lemma names_listed (names : gmap Z str) :
  wf_names names ->
  ∃ l, hash_iter (kmap dec names : gmap str str) = map (λ e, (dec e.1, e.2)) l
       ∧ l ≡ₚ map_to_list names.
Proof.
  intros Hw. pose proof (hash_iter_perm _ (kmap dec names : gmap str str)) as Hp.
  assert (Hn : NoDup (map (λ e : Z * str, (dec e.1, e.2)) (map_to_list names)).*1).
  { rewrite <- list_fmap_compose. change (NoDup ((λ e : Z * str, dec e.1) <$> map_to_list names)).
    apply NoDup_fmap_2_strong; [|apply NoDup_map_to_list].
    intros [a x] [b y] Ha%elem_of_map_to_list Hb%elem_of_map_to_list E. cbn in E.
    assert (a = b) as -> by (apply dec_inj; [exact (Hw _ _ Ha)|exact (Hw _ _ Hb)|exact E]).
    congruence. }
  assert (Hp' : hash_iter (kmap dec names : gmap str str)
                ≡ₚ map (λ e : Z * str, (dec e.1, e.2)) (map_to_list names)).
  { rewrite Hp. unfold kmap. etransitivity; [|apply (map_to_list_to_map _ Hn)].
    f_equiv. f_equal. }
  apply Permutation_map_inv in Hp' as (l & El & Hl). exists l. by split.
Qed.

Lemma read_names names :
  wf_names names -> plain_doc (ser_names names) = true ∧ de_names (ser_names names) = Some names.
Proof.
  intros Hw. split; [by apply plain_doc_map|].
  destruct (names_listed names Hw) as (l & El & Hl). unfold ser_names, ser_map. rewrite El, map_map.
  cbn [de_names]. transitivity (Some (list_to_map l ∪ ∅ : gmap Z str)).
  - apply de_names_go; [| |done].
    + apply List.Forall_forall. intros [k a] Hin%list_elem_of_In. rewrite Hl in Hin.
      apply elem_of_map_to_list in Hin. exact (Hw k a Hin).
    + rewrite Hl. apply NoDup_fst_map_to_list.
  - rewrite (right_id_L ∅ (∪)). f_equal. rewrite <- (list_to_map_to_list names).
    apply list_to_map_proper; [|exact Hl]. rewrite Hl. apply NoDup_fst_map_to_list.
Qed.

Definition cache_files (cache_dir key : str) : list Path :=
  map (λ name, (path_join cache_dir key, lit name))
    ["metadata.json"; "technologies.json"; "categories.json"]%string.

Definition readable_files (d : D) (cache_dir key : str) : Prop :=
  Forall (λ p, fs_exists d p = true ∧ is_ok (fs_read_to_string d p) = true)
    (cache_files cache_dir key).

Definition wf_ruleset (rs : FingerprintRuleset) : Prop :=
  wf_technologies (technologies rs) ∧ wf_names (categories rs).

Lemma saved_files rs d cache_dir key d' :
  plain_key key -> save_to_cache rs d cache_dir key = (d', Ok tt) ->
  let holds name v :=
    ∃ x text, v = Some x ∧ print_json x = Some text
              ∧ file d' (path_join cache_dir key, lit name) = Some text in
  holds "metadata.json"%string (ser_metadata (metadata rs))
  ∧ holds "technologies.json"%string (Some (ser_technologies (technologies rs)))
  ∧ holds "categories.json"%string (Some (ser_names (categories rs))).
Proof.
  intros Hk. unfold save_to_cache.
  destruct (fs_create_dir_all d _) as [d0 [[]|]]; [|done].
  destruct (write_json d0 _ _) as [d1 [[]|]] eqn:E1; [|done].
  destruct (write_json d1 _ _) as [d2 [[]|]] eqn:E2; [|done].
  destruct (write_json d2 _ _) as [d3 [[]|]] eqn:E3; [|done]. intros [= <-].
  apply write_json_written in E1 as (x1 & t1 & V1 & P1 & F1 & _), E2 as (x2 & t2 & V2 & P2 & F2 & O2),
    E3 as (x3 & t3 & V3 & P3 & F3 & O3).
  assert (Hkeep : ∀ p : Path, p.1 = path_join cache_dir key ->
            file (prune_superseded_fingerprint_dirs d3 cache_dir key) p = file d3 p)
    by (intros; by apply prune_keeps).
  split_and!; eexists _, _; (split_and!; [eassumption|eassumption|]); rewrite Hkeep by done;
    [rewrite O3, O2|rewrite O3|]; try done; right; split; done.
Qed.

Lemma readable_read d p text : is_ok (fs_read_to_string d p) = true -> file d p = Some text ->
  fs_read_to_string d p = Ok text.
Proof.
  intros Hr Hf. destruct (fs_read_to_string d p) as [content|e] eqn:E; [|done].
  apply fs_read_law in E. congruence.
Qed.

Lemma saved_ruleset_loads rs d cache_dir key d' now :
  wf_ruleset rs -> plain_key key -> save_to_cache rs d cache_dir key = (d', Ok tt) ->
  readable_files d' cache_dir key ->
  cache_ttl_exceeded now (md_last_updated (metadata rs)) FINGERPRINT_CACHE_TTL_SECS false = false ->
  load_from_cache now d' cache_dir key (md_source (metadata rs)) = Ok rs.
Proof.
  intros [Ht Hn] Hk Hs Hr Hage.
  destruct (saved_files rs d cache_dir key d' Hk Hs)
    as ((x1 & t1 & V1 & P1 & F1) & (x2 & t2 & V2 & P2 & F2) & (x3 & t3 & V3 & P3 & F3)).
  injection V2 as <-. injection V3 as <-.
  apply read_metadata in V1 as [Q1 R1]. destruct (read_names _ Hn) as [Q3 R3].
  pose proof (plain_doc_technologies _ Ht) as Q2. pose proof (de_ser_technologies _ Ht) as R2.
  apply read_print in P1, P2, P3; [|done..].
  unfold readable_files, cache_files in Hr. cbn [map] in Hr.
  inversion Hr as [|? ? [X1 Y1] Hr1]; subst. inversion Hr1 as [|? ? [X2 Y2] Hr2]; subst.
  inversion Hr2 as [|? ? [X3 Y3] _]; subst. clear Hr Hr1 Hr2.
  eapply readable_read in Y1, Y2, Y3; [|eassumption..].
  unfold load_from_cache, cached_categories. rewrite X1, X2, X3, Y1, Y2, Y3, P1, P2, P3.
  cbn [negb orb mbind option_bind]. rewrite R1, R2, R3, (proj2 (streqb_eq _ _) eq_refl), Hage.
  cbn [negb default]. by destruct rs.
Qed.
End CacheLemmas.

(** ** Lemmas: what the sources give is well formed *)

Lemma parsed_u32 s n : parse_uint u32_max s = Some n -> is_u32 n.
Proof. intros Hn. split; [by eapply parse_uint_nonneg|by eapply parse_uint_bounds]. Qed.

Section SourceLemmas.
Context `{J : RulesetJson} `{I : HashIter} `{!HashIterLaws I}.

Lemma wf_category_names m : wf_names (category_names m).
Proof.
  unfold category_names. assert (H0 : wf_names ∅) by done. revert H0.
  generalize (∅ : gmap Z str) as acc. generalize (hash_iter m) as l.
  induction l as [|[k c] l IH]; intros acc Ha; [exact Ha|]. cbn [foldl fst snd]. apply IH.
  destruct (parse_uint u32_max k) as [n|] eqn:En; [|exact Ha].
  apply map_Forall_insert_2; [by eapply parsed_u32|exact Ha].
Qed.

Lemma wf_de_names v m : de_names v = Some m -> wf_names m.
Proof.
  destruct v as [| | | | |l]; try done. cbn [de_names].
  assert (Hgo : ∀ m0, wf_names m0 ->
    foldl (λ r e, r ← r; k ← u32_key e.1; a ← de_string e.2; Some (<[k := a]> r)) (Some m0) l
    = Some m -> wf_names m); [|by apply Hgo].
  assert (Hnone : ∀ l : list (str * Value),
    foldl (λ r e, r ← r; k ← u32_key e.1; a ← de_string e.2; Some (<[k := a]> r)) None l
    <> (Some m : option (gmap Z str))) by (clear; induction l; [done|exact IHl]).
  induction l as [|[k x] l IH]; intros m0 H0; cbn [foldl fst snd]; [by intros [= <-]|].
  cbn [mbind option_bind]. destruct (u32_key k) as [n|] eqn:En; cbn [mbind option_bind].
  - destruct (de_string x) as [a|]; cbn [mbind option_bind]; [|by intros ?%Hnone].
    apply IH. apply map_Forall_insert_2; [|exact H0].
    unfold u32_key in En. destruct (parse_uint u32_max k) as [n'|] eqn:Ek; [|done].
    destruct (streqb _ _); [|done]. injection En as <-. by eapply parsed_u32.
  - by intros ?%Hnone.
Qed.

Lemma wf_read text techs : read_json text ≫= de_technologies = Some techs -> wf_technologies techs.
Proof. destruct (read_json text) as [v|]; [|done]. apply de_technologies_wf. Qed.

Lemma wf_parse_json context text techs :
  parse_json de_technologies context text = Ok techs -> wf_technologies techs.
Proof.
  unfold parse_json. destruct (_ ≫= _) as [t|] eqn:E; [|done]. intros [= <-]. by eapply wf_read.
Qed.

Lemma wf_categories_json text m : categories_from_json text = Ok m -> wf_names m.
Proof.
  unfold categories_from_json. destruct (parse_json _ _ _); [|done]. intros [= <-].
  apply wf_category_names.
Qed.

Context `{N : RulesetNet} `{H : HttpLib} `{U : UrlLib} `{L : Lowercase} `{T : IpText}.
Context {S : Type} (send : S -> Request -> S * result Response str).

Lemma wf_download_file st url techs :
  (download_file send st url).2 = Some techs -> wf_technologies techs.
Proof.
  unfold download_file. destruct (send _ _) as [st' [resp|]]; [|done]. cbn [snd].
  destruct (negb (is_success _)); [done|].
  destruct (match resp_content_length resp with Some _ => _ | None => _ end); [done|].
  destruct (response_text resp); [|done]. destruct (_ <? _); [done|]. apply wf_read.
Qed.

Lemma wf_download_files urls st all :
  wf_technologies all -> wf_technologies (download_files send st urls all).2.
Proof.
  revert st all. induction urls as [|url urls IH]; intros st all Ha; [exact Ha|]. cbn [download_files].
  pose proof (wf_download_file st url) as Hd. destruct (download_file send st url) as [st' r].
  apply IH, wf_union; [|exact Ha]. destruct r as [t|]; [by apply Hd|done].
Qed.

Lemma download_loop_Ok {A E} (no_attempts : E) (op : S -> S * result A E) base todo attempt last st
    slept st' a slept' :
  download_loop no_attempts op base todo attempt last st slept = (st', Ok a, slept') ->
  ∃ st0, (op st0).2 = Ok a.
Proof.
  revert attempt last st slept. induction todo as [|todo IH]; intros attempt last st slept; [done|].
  cbn [download_loop]. destruct (op st) as [st1 [x|e]] eqn:E1.
  - intros [= _ <- _]. exists st. by rewrite E1.
  - apply IH.
Qed.

Lemma wf_fetch_from_url st url techs :
  (fetch_from_url send st url).2 = Ok techs -> wf_technologies techs.
Proof.
  unfold fetch_from_url. destruct (validate_url_safe url); [|done].
  destruct build_download_client; [|done]. destruct (_ && _).
  - unfold fetch_from_github_directory. destruct (contents_url url) as [[api branch]|]; [|done].
    destruct (github_api_get _ _ _ _) as [st1 [resp|]]; [|done].
    destruct (negb (is_success _)); [done|]. destruct (response_text resp) as [text|]; [|done].
    destruct (parse_json de_file_entries _ _) as [entries|]; [|done].
    pose proof (wf_download_files (omap downloadable entries) st1 ∅ ltac:(done)) as Hw.
    destruct (download_files _ _ _ _) as [st2 t]. by intros [= <-].
  - destruct (with_network_download_retry _ _ _ _) as [[st1 r] slept] eqn:Er. cbn [snd]. intros ->.
    apply download_loop_Ok in Er as [st0 E0]. revert E0. unfold fetch_single_file_with_size_limit.
    destruct (send _ _) as [st2 [resp|]]; [|done]. cbn [snd]. case_match; [done|].
    unfold and_then. case_match; [|done]. case_match; [done|]. case_match; [done|]. case_match; [|done].
    apply wf_parse_json.
Qed.

Context `{F : Fs D} `{FD : !DirFs D}.

Lemma wf_load_from_path d path techs : load_from_path d path = Ok techs -> wf_technologies techs.
Proof.
  unfold load_from_path. destruct (fs_is_dir d path).
  - destruct (fs_entries d path) as [[entries [e|]]|]; [done| |done]. intros [= <-].
    assert (H0 : wf_technologies ∅) by done. revert H0. generalize (∅ : gmap str Technology) as all.
    induction entries as [|p entries IH]; intros all Ha; [exact Ha|]. cbn [foldl]. apply IH.
    unfold extend_from_file. case_match; [|exact Ha]. case_match; [|exact Ha].
    case_match eqn:Er; [|exact Ha]. apply wf_union; [by eapply wf_read|exact Ha].
  - destruct (fs_read_to_string _ _); [apply wf_parse_json|done].
Qed.

Lemma wf_fetch_technologies d st source techs :
  (fetch_technologies send d st source).2 = Ok techs -> wf_technologies techs.
Proof.
  unfold fetch_technologies.
  destruct (is_url source); [apply wf_fetch_from_url|apply wf_load_from_path].
Qed.

Lemma wf_fetch_categories d st source : wf_names (fetch_categories send d st source).2.
Proof.
  unfold fetch_categories.
  set (r := if is_url source then _ else _). assert (Hr : ∀ m, r.2 = Ok m -> wf_names m).
  { intros m. subst r. destruct (is_url source).
    - unfold fetch_categories_from_url. destruct build_plain_client; [|done].
      destruct (send _ _) as [st' [resp|]]; [|done]. cbn [snd]. destruct (negb _); [done|].
      destruct (response_text resp); [|done]. apply wf_categories_json.
    - unfold load_categories_from_path. cbn [snd].
      destruct (if fs_is_dir d source then _ else _); [|done].
      destruct (negb _); [done|]. destruct (fs_read_to_string _ _); [|done]. apply wf_categories_json. }
  destruct r as [st' [m|e]]; cbn [snd] in *; [by apply Hr|done].
Qed.

Definition wf_merge_state (ms : MergeState) : Prop :=
  wf_technologies (all_technologies ms) ∧ wf_names (all_categories ms).

Lemma wf_merge_sources d st ms sources st' ms' :
  wf_merge_state ms -> merge_sources send d st ms sources = (st', Some ms') -> wf_merge_state ms'.
Proof.
  revert st ms. induction sources as [|source sources IH]; intros st ms [Ht Hn];
    cbn [merge_sources]; [by intros [= _ <-]|].
  unfold merge_source. pose proof (wf_fetch_technologies d st source) as Hw.
  destruct (fetch_technologies send d st source) as [st1 [techs|e]]; cbn [snd] in Hw; [|by apply IH].
  specialize (Hw techs eq_refl). pose proof (wf_fetch_categories d st1 source) as Hc.
  destruct (fetch_categories send d st1 source) as [st2 names]. cbn [snd] in Hc.
  assert (Hm : ∀ v, wf_merge_state (MkMerge (merge_technologies (all_technologies ms) techs)
                 (names ∪ all_categories ms) v (successful_sources ms + 1) (source_failures ms))).
  { intros v. split; [by apply wf_merge|by apply map_Forall_union_2]. }
  destruct (_ || _); [|apply IH, Hm].
  destruct (get_latest_commit_sha send st2 source) as [st3 [[sha|]|]]; [| |done]; apply IH, Hm.
Qed.
End SourceLemmas.

(** ** Theorems *)

(** The digest is bytes. *)
Class HttpLibLaws (H : HttpLib) := {
  sha256_bytes : ∀ data, Forall (λ b, 0 <= b <= 255) (sha256 data);
}.

Lemma hex_plain bytes : Forall (λ b, 0 <= b <= 255) bytes -> plain_key (hex_encode_lower bytes).
Proof.
  intros Hb. unfold plain_key, hex_encode_lower. induction Hb as [|b bytes Hb _ IH]; [set_solver|].
  cbn [map concat]. rewrite elem_of_app. intros [Hin|?]; [|done].
  assert (Hd : ∀ n, 0 <= n -> 47 <> hex_digit n) by (intros n Hn; unfold hex_digit; case_match; lia).
  assert (0 <= Z.shiftr b 4) by (apply Z.shiftr_nonneg; lia).
  assert (0 <= Z.land b 15) by (apply Z.land_nonneg; lia).
  rewrite elem_of_cons, list_elem_of_singleton in Hin.
  destruct Hin as [Hin|Hin]; revert Hin; by apply Hd.
Qed.

Section Theorems.
Context `{F : Fs D} `{FD : !DirFs D} `{FL : !FsLaws F} `{!DirFsLaws F FD FL}.
Context `{J : RulesetJson} `{!RulesetJsonLaws J} `{I : HashIter} `{!HashIterLaws I}.
Context `{N : RulesetNet} `{H : HttpLib} `{!HttpLibLaws H} `{U : UrlLib} `{L : Lowercase} `{T : IpText}.
Context {S : Type} (send : S -> Request -> S * result Response str).

Lemma cache_key_plain sources : plain_key (fingerprint_cache_key sources).
Proof.
  unfold fingerprint_cache_key. destruct sources as [|a [|b l]].
  - intros Hin. apply list_elem_of_In in Hin. vm_compute in Hin. intuition congruence.
  - apply hex_plain, sha256_bytes.
  - apply hex_plain, sha256_bytes.
Qed.

Lemma loaded_from_cache now later d cache_path key expected rs :
  load_from_cache now d cache_path key expected = Ok rs ->
  md_source (metadata rs) = expected
  ∧ (cache_ttl_exceeded later (md_last_updated (metadata rs)) FINGERPRINT_CACHE_TTL_SECS false
     = false ->
     load_from_cache later d cache_path key expected = Ok rs).
Proof.
  unfold load_from_cache. destruct (_ || _); [done|].
  destruct (fs_read_to_string d _) as [text|]; [|done].
  destruct (read_json text ≫= de_metadata) as [m|]; [|done].
  destruct (streqb (md_source m) expected) eqn:Es; cbn [negb]; [|done]. apply streqb_eq in Es.
  destruct (cache_ttl_exceeded now _ _ _); [done|].
  destruct (fs_read_to_string d _) as [text'|]; [|done].
  destruct (read_json text' ≫= de_technologies) as [t|]; [|done]. intros [= <-]. cbn [metadata].
  split; [exact Es|]. by intros ->.
Qed.

(** A fetch that is not degraded has saved what it returns. *)
Lemma fetched_is_saved now d st sources cache_path key explicit d' st' rs :
  fetch_ruleset_from_multiple_sources send now d st sources cache_path key explicit false
  = (d', st', Some (Ok rs)) ->
  save_to_cache rs d cache_path key = (d', Ok tt) ∧ wf_ruleset rs ∧ finish_ruleset rs = Ok rs
  ∧ md_source (metadata rs) = fingerprint_source_label sources
  ∧ (explicit || (MIN_FULL_TECHNOLOGIES <=? technology_count (technologies rs))) = true.
Proof.
  unfold fetch_ruleset_from_multiple_sources.
  destruct (merge_sources send d st no_sources sources) as [st1 [ms|]] eqn:Em; [|done].
  apply wf_merge_sources in Em as [Ht Hn]; [|by split].
  destruct (successful_sources ms =? 0); [done|].
  set (raw := MkRuleset _ _ _).
  destruct (finish_ruleset raw) as [rs0|] eqn:Ef; [|done].
  assert (Hw : wf_ruleset rs0).
  { split; [by eapply wf_finish, Ef|]. rewrite finish_ruleset_Ok in Ef. by injection Ef as <-. }
  assert (Hsrc : md_source (metadata rs0) = fingerprint_source_label sources).
  { rewrite finish_ruleset_Ok in Ef. by injection Ef as <-. }
  apply finish_ruleset_idempotent in Ef.
  destruct (negb explicit && _) eqn:Ec; [done|].
  destruct (explicit || _) eqn:Ee.
  - destruct (save_to_cache rs0 d cache_path key) as [d1 [[]|]] eqn:Es; [|done].
    intros [= <- _ <-]. split_and!; try done; apply Hw.
  - exfalso. apply orb_false_iff in Ee as [-> Ee]. cbn [negb andb] in Ec.
    unfold catalog_is_complete in Ec. rewrite Ee, andb_false_r in Ec. done.
Qed.

Lemma cached_ruleset_again now later d explicit cache_path key expected rs :
  cached_ruleset now d explicit cache_path key expected = Some (Ok rs) ->
  cache_ttl_exceeded later (md_last_updated (metadata rs)) FINGERPRINT_CACHE_TTL_SECS false = false ->
  cached_ruleset later d explicit cache_path key expected = Some (Ok rs)
  ∧ md_source (metadata rs) = expected
  ∧ (explicit || (MIN_FULL_TECHNOLOGIES <=? technology_count (technologies rs))) = true.
Proof.
  unfold cached_ruleset. destruct (load_from_cache now _ _ _ _) as [r0|] eqn:El; [|done].
  apply (loaded_from_cache now later) in El as [Hsrc Hlater].
  rewrite finish_ruleset_Ok. destruct (explicit || _) eqn:Ee; [|done]. intros [= <-].
  cbn [metadata technologies] in *. intros Hage. rewrite (Hlater Hage), finish_ruleset_Ok.
  cbn [metadata technologies]. rewrite Ee. by split_and!.
Qed.

(** C36: The ruleset a start has obtained, not a degraded one, is what a later start within seven
    days gets: from the directory, without a request, whatever the network has become. *)
Theorem next_start_uses_cache now d st source cache_path cell d' st' rs :
  init_ruleset send now None d st source cache_path false = (cell, d', st', Some (Ok rs)) ->
  readable_files d' cache_path (fingerprint_cache_key (ruleset_sources source)) ->
  ∀ later S2 (send2 : S2 -> Request -> S2 * result Response str) st2 allow,
    later - md_last_updated (metadata rs) < FINGERPRINT_CACHE_TTL_SECS * nanos_per_sec ->
    init_ruleset send2 later None d' st2 source cache_path allow = (Some rs, d', st2, Some (Ok rs)).
Proof.
  intros Hi Hr later S2 send2 st2 allow Hage.
  assert (Ht : cache_ttl_exceeded later (md_last_updated (metadata rs)) FINGERPRINT_CACHE_TTL_SECS false
               = false).
  { unfold cache_ttl_exceeded, duration_exceeds_ttl. case_match; [|done].
    apply Z.leb_gt, Z.div_lt_upper_bound; [done|lia]. }
  unfold init_ruleset, load_ruleset in *.
  set (key := fingerprint_cache_key _) in *. set (expected := fingerprint_source_label _) in *.
  set (explicit := bool_decide _) in *.
  assert (Hc : cached_ruleset later d' explicit cache_path key expected = Some (Ok rs)).
  { destruct (cached_ruleset now d explicit cache_path key expected) as [r|] eqn:Ec.
    - assert (d' = d ∧ r = Ok rs) as [-> ->] by (destruct r as [r0|]; by simplify_eq).
      by eapply cached_ruleset_again.
    - destruct (fetch_ruleset_from_multiple_sources _ _ _ _ _ _ _ _ _) as [[d1 st1] r] eqn:Ef.
      assert (d' = d1 ∧ r = Some (Ok rs)) as [-> ->] by (destruct r as [[r0|]|]; by simplify_eq).
      apply fetched_is_saved in Ef as (Hs & Hw & Hf & Hsrc & Hfull).
      unfold cached_ruleset, expected. rewrite <- Hsrc.
      rewrite (saved_ruleset_loads rs d) by first [done|apply cache_key_plain].
      by rewrite Hf, Hfull. }
  by rewrite Hc.
Qed.

(** C37: With the default sources a start has the full catalog, or it was told to do with less and
    then keeps nothing in the cache. *)
Theorem default_catalog_full now d st cache_path allow cell d' st' rs :
  init_ruleset send now None d st None cache_path allow = (cell, d', st', Some (Ok rs)) ->
  MIN_FULL_TECHNOLOGIES <= technology_count (technologies rs)
  ∧ md_source (metadata rs) = fingerprint_source_label DEFAULT_FINGERPRINTS_URLS
  ∨ allow = true ∧ d' = d.
Proof.
  unfold init_ruleset, load_ruleset, ruleset_sources.
  set (key := fingerprint_cache_key _). set (expected := fingerprint_source_label _).
  change (bool_decide (is_Some None)) with false.
  destruct (cached_ruleset now d false cache_path key expected) as [r|] eqn:Ec.
  - destruct r as [r0|]; [|by intros [= ]]. intros [= _ <- _ <-]. left.
    unfold cached_ruleset in Ec. destruct (load_from_cache _ _ _ _ _) as [r1|] eqn:El; [|done].
    apply (loaded_from_cache now now) in El as [Hsrc _]. rewrite finish_ruleset_Ok in Ec.
    destruct (false || _) eqn:Ee; [|done]. injection Ec as <-. split; [|exact Hsrc].
    by apply Z.leb_le.
  - destruct (fetch_ruleset_from_multiple_sources _ _ _ _ _ _ _ _ _) as [[d1 st1] r] eqn:Ef.
    intros Hr.
    assert (d' = d1 ∧ r = Some (Ok rs)) as [-> ->] by (destruct r as [[r0|]|]; by simplify_eq).
    destruct allow.
    + revert Ef. unfold fetch_ruleset_from_multiple_sources.
      destruct (merge_sources _ _ _ _ _) as [st2 [ms|]]; [|done].
      generalize (vendored_or_err now true (source_failures ms)) as v. intros v.
      destruct (successful_sources ms =? 0); [by intros [= <- _ _]; right|].
      destruct (finish_ruleset _) as [rs0|] eqn:Ef0; [|done].
      rewrite finish_ruleset_Ok in Ef0. injection Ef0 as Ef0.
      destruct (negb false && _); [by intros [= <- _ _]; right|].
      destruct (false || _) eqn:Ee; [|by intros [= <- _ _]; right].
      destruct (save_to_cache _ _ _ _) as [d2 [[]|]]; [|done]. intros [= _ _ <-]. left.
      split; [by apply Z.leb_le|by rewrite <- Ef0].
    + apply fetched_is_saved in Ef as (_ & _ & _ & Hsrc & Hfull). left. split; [|exact Hsrc].
      by apply Z.leb_le.
Qed.

Lemma get_latest_commit_sha_panics st source :
  (get_latest_commit_sha send st source).2 = None ->
  warn_enabled = true
  ∧ ∃ text, read_json text ≫= de_commits = None
            ∧ char_boundary text (Nat.min (blen text) 200) = false.
Proof.
  unfold get_latest_commit_sha. destruct (commits_url source) as [url|]; [|done].
  destruct build_plain_client; [|done].
  destruct (github_api_get send PlainClient st url) as [st1 [resp|]]; [|done].
  destruct (negb _); [done|]. destruct (response_text resp) as [text|]; [|done]. cbn [snd].
  unfold commit_sha. destruct (read_json text ≫= de_commits) as [l|] eqn:El; [done|].
  destruct warn_enabled; [|done].
  destruct (slice_to text (Nat.min (blen text) 200)) eqn:Es; [done|]. intros _. split; [done|].
  exists text. split; [exact El|]. by apply slice_to_boundary.
Qed.

Lemma merge_sources_panic d st ms sources :
  (merge_sources send d st ms sources).2 = None ->
  ∃ st source, (get_latest_commit_sha send st source).2 = None.
Proof.
  revert st ms. induction sources as [|source sources IH]; intros st ms; [done|].
  cbn [merge_sources]. unfold merge_source.
  destruct (fetch_technologies send d st source) as [st1 [techs|]]; [|apply IH].
  destruct (fetch_categories send d st1 source) as [st2 names].
  destruct (_ || _); [|apply IH].
  destruct (get_latest_commit_sha send st2 source) as [st3 [[sha|]|]] eqn:E; [apply IH..|].
  intros _. exists st2, source. by rewrite E.
Qed.

(** Loading panics only when warnings are logged: the text of a response that is not a list of
    commits is then quoted up to byte 200.  (The panic of the literal automaton, left out of
    [finish_ruleset], is not an outcome here.) *)
Theorem loading_panics_only now cell d st source cache_path allow :
  (init_ruleset send now cell d st source cache_path allow).2 = None ->
  warn_enabled = true
  ∧ ∃ text, read_json text ≫= de_commits = None ∧ (200 < blen text)%nat
            ∧ char_boundary text 200 = false.
Proof.
  unfold init_ruleset, load_ruleset. destruct cell as [rs|]; [done|].
  destruct (cached_ruleset _ _ _ _ _ _) as [[rs|]|]; [done..|].
  destruct (fetch_ruleset_from_multiple_sources _ _ _ _ _ _ _ _ _) as [[d1 st1] r] eqn:Ef.
  destruct r as [[rs|]|]; [done..|]. intros _. revert Ef.
  unfold fetch_ruleset_from_multiple_sources.
  pose proof (merge_sources_panic d st no_sources (ruleset_sources source)) as Hp.
  destruct (merge_sources _ _ _ _ _) as [st2 [ms|]].
  { destruct (successful_sources ms =? 0); [discriminate|].
    destruct (finish_ruleset _); [|discriminate].
    destruct (negb _ && _); [discriminate|]. destruct (_ || _); [|discriminate].
    destruct (save_to_cache _ _ _ _) as [d2 []]; discriminate. }
  intros _. destruct (Hp eq_refl) as (st3 & src & Hn).
  apply get_latest_commit_sha_panics in Hn as (Hw & text & Ht & Hb). split; [exact Hw|].
  exists text. assert ((200 < blen text)%nat).
  { destruct (Nat.le_gt_cases (blen text) 200) as [Hle|]; [|done].
    rewrite Nat.min_l, boundary_end in Hb by done. done. }
  rewrite Nat.min_r in Hb by lia. done.
Qed.
End Theorems.

(** ** Theorems: the requests *)

(** A technology file is asked for at an address that passed the SSRF check, a listing at
    such an address with a branch; the rest are the categories beside a checked source and
    the commits of a repository.  The token is sent to the API of GitHub only. *)
Section Requests.
Context `{F : Fs D} `{FD : !DirFs D}.
Context `{J : RulesetJson} `{N : RulesetNet} `{I : HashIter} `{H : HttpLib}.
Context `{U : UrlLib} `{L : Lowercase} `{T : IpText}.

Definition github_api : str := lit "https://api.github.com/repos/".

Definition permitted (sources : list str) (rq : Request) : Prop :=
  (match rq_client rq with
   | SsrfSafeClient =>
       ∃ checked, validate_url_safe checked = Ok tt
         ∧ (rq_url rq = checked ∨ ∃ branch, rq_url rq = checked ++ lit "?ref=" ++ branch)
   | PlainClient =>
       ∃ source, source ∈ sources
         ∧ (validate_url_safe source = Ok tt ∧ rq_url rq = categories_url source
            ∨ commits_url source = Some (rq_url rq))
   end)
  ∧ (is_Some (List.find (λ h, streqb h.1 (lit "Authorization")) (rq_headers rq)) ->
     starts_with github_api (rq_url rq) = true).

Context {S : Type} (send : S -> Request -> S * result Response str) (sources : list str).
Context (Inv : S -> Prop).
Context (send_keeps : ∀ st rq, Inv st -> permitted sources rq -> Inv (send st rq).1).

Lemma api_get_keeps client st url :
  Inv st -> permitted sources (MkRequest client url []) -> starts_with github_api url = true ->
  Inv (github_api_get send client st url).1.
Proof.
  intros Hi [Hc _] Hs. unfold github_api_get.
  assert (Hp : ∀ headers, permitted sources (MkRequest client url headers)) by (intros; by split).
  pose proof (send_keeps st _ Hi (Hp (api_headers ++ match github_token with
    | Some token => [(lit "Authorization", lit "Bearer " ++ token)] | None => [] end))) as H1.
  destruct (send st _) as [st1 [resp|]]; [|exact H1]. cbn [fst] in H1.
  destruct (_ && _); [|exact H1]. by apply send_keeps.
Qed.

Lemma download_keeps st url :
  Inv st -> validate_url_safe url = Ok tt -> Inv (download_file send st url).1.
Proof.
  intros Hi Hv. unfold download_file.
  pose proof (send_keeps st (MkRequest SsrfSafeClient url []) Hi) as H1.
  destruct (send st _) as [st1 [resp|]]; cbn [fst] in *; apply H1; (split; [|by intros [? ?]]);
    exists url; auto.
Qed.

Lemma downloads_keep urls st all :
  Inv st -> Forall (λ url, validate_url_safe url = Ok tt) urls ->
  Inv (download_files send st urls all).1.
Proof.
  intros Hi Hv. revert st all Hi. induction Hv as [|url urls Hu _ IH]; intros st all Hi; [exact Hi|].
  cbn [download_files]. pose proof (download_keeps st url Hi Hu) as H1.
  destruct (download_file send st url) as [st1 r]. by apply IH.
Qed.

Lemma contents_url_checked dir_url api branch :
  contains (lit "raw.githubusercontent.com") dir_url = true ->
  contents_url dir_url = Ok (api, branch) ->
  validate_url_safe api = Ok tt ∧ starts_with github_api api = true.
Proof.
  unfold contents_url. intros ->. destruct (7 <=? _)%nat; [|done].
  destruct (validate_url_safe _) as [[]|] eqn:Ev; [|done]. intros [= <- <-]. split; [exact Ev|].
  apply starts_with_iff. unfold github_api. by eexists.
Qed.

Lemma downloadable_checked file url : downloadable file = Some url -> validate_url_safe url = Ok tt.
Proof.
  unfold downloadable. destruct (_ && _); [|done]. destruct (fe_download_url file) as [u|]; [|done].
  cbn [mbind option_bind]. destruct (validate_url_safe u) as [[]|] eqn:Ev; cbn [is_ok negb]; [|done].
  destruct (negb _); [done|]. by intros [= <-].
Qed.

Lemma directory_keeps st url :
  contains (lit "raw.githubusercontent.com") url = true ->
  Inv st -> Inv (fetch_from_github_directory send st url).1.
Proof.
  intros Hraw Hi. unfold fetch_from_github_directory.
  destruct (contents_url url) as [[api branch]|] eqn:Ec; [|exact Hi].
  apply contents_url_checked in Ec as [Hv Hs]; [|exact Hraw].
  assert (Hs' : starts_with github_api (api ++ lit "?ref=" ++ branch) = true).
  { apply starts_with_iff in Hs as [r ->]. rewrite <- app_assoc. apply starts_with_app. }
  assert (Hg : Inv (github_api_get send SsrfSafeClient st (api ++ lit "?ref=" ++ branch)).1).
  { apply api_get_keeps; [exact Hi| |exact Hs']. split; [|by intros [? ?]].
    exists api. split; [exact Hv|]. right. by exists branch. }
  destruct (github_api_get _ _ _ _) as [st1 [resp|]]; [|exact Hg]. cbn [fst] in Hg.
  destruct (negb _); [exact Hg|]. destruct (response_text resp); [|exact Hg].
  destruct (parse_json _ _ _) as [entries|]; [|exact Hg].
  assert (Hd : Inv (download_files send st1 (omap downloadable entries) ∅).1).
  { apply downloads_keep; [exact Hg|]. apply List.Forall_forall.
    intros u (file & _ & Hu)%list_elem_of_In%list_elem_of_omap. by eapply downloadable_checked. }
  by destruct (download_files _ _ _ _).
Qed.

Lemma download_loop_keeps {A E} (no_attempts : E) (op : S -> S * result A E) base todo attempt last st
    slept :
  (∀ st, Inv st -> Inv (op st).1) -> Inv st ->
  Inv (download_loop no_attempts op base todo attempt last st slept).1.1.
Proof.
  intros Hop. revert attempt last st slept.
  induction todo as [|todo IH]; intros attempt last st slept Hi; [exact Hi|].
  cbn [download_loop]. pose proof (Hop st Hi) as H1. destruct (op st) as [st1 [x|e]]; [exact H1|].
  by apply IH.
Qed.

Lemma fetch_from_url_keeps st url : Inv st -> Inv (fetch_from_url send st url).1.
Proof.
  intros Hi. unfold fetch_from_url.
  destruct (validate_url_safe url) as [[]|] eqn:Ev; [|exact Hi].
  destruct build_download_client; [|exact Hi].
  destruct (contains _ url) eqn:Ec; cbn [andb].
  1: destruct (negb _); [by apply directory_keeps|].
  all: unfold with_network_download_retry;
    pose proof (download_loop_keeps (plain_error (lit "no attempt"))
      (fetch_single_file_with_size_limit send url) 1 MAX_NETWORK_DOWNLOAD_RETRIES 1 None st []) as Hl;
    destruct (download_loop _ _ _ _ _ _ _ _) as [[st1 r] slept]; apply Hl; [|exact Hi];
    intros st0 H0; unfold fetch_single_file_with_size_limit;
    pose proof (send_keeps st0 (MkRequest SsrfSafeClient url []) H0) as H1;
    destruct (send st0 _) as [st2 [resp|]]; cbn [fst] in *; apply H1; (split; [|by intros [? ?]]);
    exists url; auto.
Qed.

Lemma categories_keep d st source :
  Inv st -> source ∈ sources -> (is_url source = true -> validate_url_safe source = Ok tt) ->
  Inv (fetch_categories send d st source).1.
Proof.
  intros Hi Hin Hv. unfold fetch_categories. destruct (is_url source) eqn:Eu; [|exact Hi].
  unfold fetch_categories_from_url. destruct build_plain_client; [|exact Hi].
  pose proof (send_keeps st (MkRequest PlainClient (categories_url source) []) Hi) as H1.
  destruct (send st _) as [st1 [resp|]]; cbn [fst] in *; apply H1; (split; [|by intros [? ?]]);
    exists source; auto.
Qed.

Lemma commit_keeps st source :
  Inv st -> source ∈ sources -> Inv (get_latest_commit_sha send st source).1.
Proof.
  intros Hi Hin. unfold get_latest_commit_sha.
  destruct (commits_url source) as [url|] eqn:Ec; [|exact Hi].
  destruct build_plain_client; [|exact Hi].
  assert (Hg : Inv (github_api_get send PlainClient st url).1).
  { apply api_get_keeps; [exact Hi| |].
    - split; [|by intros [? ?]]. exists source. auto.
    - revert Ec. unfold commits_url. destruct (_ <? _)%nat; [done|].
      destruct (_ !! 3%nat); [|done]. destruct (_ !! 4%nat); [|done]. intros [= <-].
      apply starts_with_iff. unfold github_api. by eexists. }
  destruct (github_api_get _ _ _ _) as [st1 [resp|]]; [|exact Hg].
  destruct (negb _); [exact Hg|]. by destruct (response_text resp).
Qed.

Lemma merge_sources_keep d st ms todo :
  (∀ source, source ∈ todo -> source ∈ sources) -> Inv st ->
  Inv (merge_sources send d st ms todo).1.
Proof.
  revert st ms. induction todo as [|source todo IH]; intros st ms Hsub Hi; [exact Hi|].
  assert (Hsub' : ∀ source, source ∈ todo -> source ∈ sources) by (intros; apply Hsub; by right).
  assert (Hin : source ∈ sources) by (apply Hsub; by left).
  cbn [merge_sources]. unfold merge_source.
  assert (Hf : Inv (fetch_technologies send d st source).1).
  { unfold fetch_technologies. destruct (is_url source); [by apply fetch_from_url_keeps|exact Hi]. }
  assert (Hv : is_ok (fetch_technologies send d st source).2 = true -> is_url source = true ->
               validate_url_safe source = Ok tt).
  { unfold fetch_technologies, fetch_from_url. intros Hok Hu. rewrite Hu in Hok.
    by destruct (validate_url_safe source) as [[]|]. }
  destruct (fetch_technologies send d st source) as [st1 [techs|]]; cbn [fst snd] in *; [|by apply IH].
  pose proof (categories_keep d st1 source Hf Hin (Hv eq_refl)) as Hc.
  destruct (fetch_categories send d st1 source) as [st2 names]. cbn [fst] in Hc.
  destruct (_ || _); [|by apply IH].
  pose proof (commit_keeps st2 source Hc Hin) as Hs.
  destruct (get_latest_commit_sha send st2 source) as [st3 [[sha|]|]]; cbn [fst] in Hs;
    [by apply IH..|exact Hs].
Qed.
End Requests.

Section RequestLog.
Context `{F : Fs D} `{FD : !DirFs D}.
Context `{J : RulesetJson} `{N : RulesetNet} `{I : HashIter} `{H : HttpLib}.
Context `{U : UrlLib} `{L : Lowercase} `{T : IpText}.
Context {S : Type} (send : S -> Request -> S * result Response str).

(** The client with the list of its requests. *)
Definition recording (st : S * list Request) (rq : Request)
  : (S * list Request) * result Response str :=
  let (s, r) := send st.1 rq in ((s, st.2 ++ [rq]), r).

(** C38: Every request of a start is permitted: a technology file is asked for at an address that
    passed the SSRF check, the plain client is used for categories and commits only, and the
    token is sent to the API of GitHub only. *)
Theorem ruleset_requests_permitted now cell d st source cache_path allow :
  Forall (permitted (ruleset_sources source))
    (init_ruleset recording now cell d (st, []) source cache_path allow).1.2.2.
Proof.
  set (Inv := λ st : S * list Request, Forall (permitted (ruleset_sources source)) st.2).
  assert (Hkeep : ∀ st rq, Inv st -> permitted (ruleset_sources source) rq ->
            Inv (recording st rq).1).
  { intros [s l] rq Hi Hp. unfold recording. cbn [fst snd]. destruct (send s rq) as [s' r].
    apply Forall_app. by split; [|apply Forall_singleton]. }
  change (Inv (init_ruleset recording now cell d (st, []) source cache_path allow).1.2).
  assert (H0 : Inv (st, [])) by constructor.
  unfold init_ruleset, load_ruleset. destruct cell as [rs|]; [exact H0|].
  destruct (cached_ruleset _ _ _ _ _ _) as [[rs|]|]; [exact H0..|].
  unfold fetch_ruleset_from_multiple_sources.
  pose proof (merge_sources_keep recording (ruleset_sources source) Inv Hkeep d (st, []) no_sources
                (ruleset_sources source) ltac:(done) H0) as Hm.
  destruct (merge_sources _ _ _ _ _) as [st1 [ms|]]; cbn [fst] in Hm; [|exact Hm].
  destruct (successful_sources ms =? 0); [by destruct (vendored_or_err _ _ _)|].
  destruct (finish_ruleset _); [|exact Hm].
  destruct (negb _ && _); [by destruct (negb allow)|].
  destruct (_ || _); [|exact Hm]. by destruct (save_to_cache _ _ _ _) as [d2 []].
Qed.
End RequestLog.

(** ** A start from a file of rules *)

Module DemoRuleset.
Import DemoSerde DemoWhois.
#[local] Existing Instance DemoWhois.fs.
#[local] Existing Instance DemoWhois.fs_laws.
#[local] Existing Instance listing.
#[local] Existing Instance listing_laws.
#[local] Existing Instance Net.Demo.urls.
#[local] Existing Instance Net.Demo.ascii_lowercase.

Definition below (dir : str) (p : Path) : bool :=
  streqb p.1 dir || starts_with (dir ++ lit "/") p.1.

(** The entry of a directory that leads to a file. *)
Definition child (dir : str) (p : Path) : option Path :=
  if streqb p.1 dir then Some p
  else rest ← strip_prefix (dir ++ lit "/") p.1; Some (dir, default [] (head (split_char 47 rest))).

#[local] Instance dirs : DirFs Disk := {|
  fs_is_dir := λ d dir, existsb (below dir) (map fst d.1);
  fs_entries := λ d dir,
    Ok (List.filter (λ p, negb (contains_char 47 p.2)) (omap (child dir) (map fst d.1)), None);
  fs_remove_dir_all := λ d dir, ((List.filter (λ e, negb (below dir e.1)) d.1, d.2), Ok tt) |}.

Lemma find_file_filter l (keep : Path -> bool) p :
  keep p = true -> find_file (List.filter (λ e : Path * (str * Z), keep e.1) l) p = find_file l p.
Proof.
  intros Hk. unfold find_file. induction l as [|[q f] l IH]; [done|]. cbn.
  destruct (decide (q = p)) as [->|Hn].
  - rewrite Hk. cbn. by rewrite bool_decide_eq_true_2.
  - rewrite (bool_decide_eq_false_2 (q = p)) by done. destruct (keep q); [|exact IH]. cbn.
    by rewrite bool_decide_eq_false_2.
Qed.

#[local] Instance dirs_laws : DirFsLaws fs dirs fs_laws.
Proof.
  split; cbn [fs_write fs_rename fs_entries fs_remove_dir_all fs dirs file fs_laws fst snd].
  - intros d p q content Hn. unfold find_file. cbn. rewrite bool_decide_eq_false_2 by done.
    f_equal. by apply find_file_without.
  - intros d p q r Hp Hq. unfold disk_rename. destruct (find_file d.1 p) as [f|]; [|done]. cbn [fst].
    f_equal. unfold find_file at 1. cbn. rewrite bool_decide_eq_false_2 by done.
    change (find_file (without (without d.1 p) q) r = find_file d.1 r).
    by rewrite !find_file_without by done.
  - intros d folder l e [= <- <-]. apply List.Forall_forall. intros p [Hin Hs]%filter_In. split.
    + apply list_elem_of_In, list_elem_of_omap in Hin as (q & _ & Hc). unfold child in Hc.
      destruct (streqb q.1 _) eqn:Eq; [apply streqb_eq in Eq; by injection Hc as <-|].
      destruct (strip_prefix _ _); [|done]. cbn in Hc. by injection Hc as <-.
    + apply negb_true_iff in Hs. unfold contains_char in Hs. intros Hin'%list_elem_of_In.
      apply not_true_iff_false in Hs. apply Hs, existsb_exists. exists 47.
      split; [done|apply Z.eqb_refl].
  - intros d folder p H1 H2. f_equal.
    apply (find_file_filter d.1 (λ q, negb (below folder q)) p).
    unfold below. rewrite H2, orb_false_r. apply negb_true_iff, not_true_iff_false.
    by intros ?%streqb_eq.
Qed.

#[local] Instance json : RulesetJson := {|
  read_json := from_str; json_error := λ _, lit "invalid JSON"; print_json := to_json_string;
  ser_time := λ t, if (0 <=? t) && (t <=? u64_max) then Some (of_int t) else None;
  de_time := λ v, match v with Num (Int t) => Some t | _ => None end |}.
#[local] Instance json_laws : RulesetJsonLaws json.
Proof.
  split; cbn [read_json print_json ser_time de_time json].
  - intros v text Hp [= <-]. by apply from_tokens.
  - intros t v. destruct (0 <=? t) eqn:E1, (t <=? u64_max) eqn:E2; cbn; try done. intros [= <-].
    split; [|done]. cbn. rewrite E2. lia.
Qed.

#[local] Instance http : HttpLib := {|
  canonical_reason := λ _, None; sha256 := map (λ b, b mod 256) |}.
#[local] Instance http_laws : HttpLibLaws http.
Proof.
  split. intros data. cbn. apply Forall_map, List.Forall_forall. intros b _.
  pose proof (Z.mod_pos_bound b 256). lia.
Qed.
#[local] Instance ip_text : IpText := {| ip_to_string := λ _, []; ip_parse := λ _, None |}.

#[local] Instance net : RulesetNet := {|
  init_resolver := Ok tt; build_ssrf_client := Ok tt; build_plain_client := Ok tt;
  response_text := λ r, Ok (readable (resp_chunks r)); github_token_var := Some (lit "token");
  warn_enabled := true |}.

Definition text_of (v : Value) : str := default [] (to_json_string v).
Definition reply (status : Z) (url text : str) : Response :=
  MkResponse status url HTTP_11 [] None [Ok text].

(** The listing names one file, which is gone; the commits come as a page of another kind,
    with a euro sign across byte 200. *)
Definition odd_page : str := repeat 97 199 ++ [8364; 97].
Definition github (st : unit) (rq : Request) : unit * result Response str :=
  let url := rq_url rq in
  (tt, Ok (if contains (lit "/contents/") url then
             reply 200 url (text_of (Arr [Object [
               (lit "name", Str (lit "a.json")); (lit "type", Str (lit "file"));
               (lit "download_url", Str (lit "https://raw.githubusercontent.com/o/r/main/t/a.json"))]]))
           else if contains (lit "/commits?") url then reply 200 url odd_page
           else reply 404 url [])).

Definition rules_path : option str := Some (lit "rules.json").
Definition disk : Disk :=
  ([(([], lit "rules.json"),
     (text_of (Object [(lit "Nginx",
        Object [(lit "headers", Object [(lit "Server", Str (lit "nginx"))])])]), 0));
    ((lit "cache/old", lit "metadata.json"), ([], 0))], 1).

Definition first_start := init_ruleset github 0 None disk tt rules_path (lit "cache") false.
Definition day : Z := 24 * 60 * 60 * nanos_per_sec.

(** The file and the overlay, the header in lower case; the superseded directory is gone. *)
Example first_start_loads :
  match first_start with
  | (_, d, _, Some (Ok rs)) =>
      size (technologies rs) = 3%nat
      ∧ (headers <$> technologies rs !! lit "Nginx") = Some {[ lit "server" := lit "nginx" ]}
      ∧ map (λ e, e.1.1) d.1 = [lit "cache/" ++ fingerprint_cache_key [lit "rules.json"];
                                lit "cache/" ++ fingerprint_cache_key [lit "rules.json"];
                                lit "cache/" ++ fingerprint_cache_key [lit "rules.json"]; []]
  | _ => False
  end.
Proof. vm_compute. split_and!; reflexivity. Qed.

Definition ok_of (r : option (result FingerprintRuleset AnyhowError)) : option FingerprintRuleset :=
  match r with Some (Ok rs) => Some rs | _ => None end.

Lemma first_start_ok : is_Some (ok_of first_start.2).
Proof. apply reads_some. vm_compute. reflexivity. Qed.

Definition readable (d : Disk) : bool :=
  forallb (λ p, fs_exists d p && is_ok (fs_read_to_string d p))
    (cache_files (lit "cache") (fingerprint_cache_key [lit "rules.json"])).

Lemma first_start_facts :
  (readable first_start.1.1.2, md_last_updated ∘ metadata <$> ok_of first_start.2) = (true, Some 0).
Proof. vm_compute. reflexivity. Qed.

Definition unreachable (st : unit) (_ : Request) : unit * result Response str := (st, Err (lit "down")).

(** The next day the same ruleset comes from the cache, though GitHub and the file are gone. *)
Lemma next_start_uses_cache_witness :
  ∃ d rs, first_start.1.1.2 = d ∧ first_start.2 = Some (Ok rs)
    ∧ init_ruleset unreachable day None d tt rules_path (lit "cache") false
      = (Some rs, d, tt, Some (Ok rs)).
Proof.
  destruct first_start as [[[cell d] []] r] eqn:E. exists d.
  pose proof first_start_facts as Hf. rewrite E in Hf. cbn [fst snd] in Hf.
  apply pair_equal_spec in Hf as [Hd Hu].
  destruct r as [[rs|]|]; [|done..]. injection Hu as Hu. exists rs.
  split; [done|]. split; [done|].
  apply (next_start_uses_cache github 0 disk tt rules_path (lit "cache") cell d tt rs E).
  - apply List.Forall_forall. intros p Hp. apply andb_true_iff.
    unfold readable in Hd. rewrite forallb_forall in Hd. by apply Hd.
  - cbn in Hu. rewrite Hu. reflexivity.
Defined.

(** Told to do with less, a start without a network gets the rules that are compiled in and
    leaves the files alone. *)
Definition degraded_start := init_ruleset unreachable 0 None disk tt None (lit "cache") true.

Lemma degraded_start_facts :
  (degraded_start.1.1.2, (λ rs, (technology_count (technologies rs) <? MIN_FULL_TECHNOLOGIES,
                                ruleset_quality_label rs)) <$> ok_of degraded_start.2)
  = (disk, Some (true, lit "degraded: bundled-minimal")).
Proof. vm_compute. reflexivity. Qed.

Lemma default_catalog_full_witness :
  ∃ cell d st rs, degraded_start = (cell, d, st, Some (Ok rs))
    ∧ technology_count (technologies rs) < MIN_FULL_TECHNOLOGIES ∧ d = disk.
Proof.
  destruct degraded_start as [[[cell d] st] r] eqn:E.
  pose proof degraded_start_facts as Hf. rewrite E in Hf. cbn [fst snd] in Hf.
  apply pair_equal_spec in Hf as [_ Hr]. destruct r as [[rs|]|]; [|done..].
  apply (inj Some), pair_equal_spec in Hr as [Hr _]. exists cell, d, st, rs.
  apply Z.ltb_lt in Hr. split; [done|]. split; [exact Hr|].
  destruct (default_catalog_full unreachable 0 disk tt (lit "cache") true cell d st rs E)
    as [[Hfull _]|[_ Hd]]; [lia|exact Hd].
Defined.

(** A directory none of whose files can be had counts as a source that was merged. *)
Definition directory : str := lit "https://raw.githubusercontent.com/o/r/main/t".
Example empty_directory_is_a_success :
  match fetch_technologies github disk tt directory with
  | (_, Ok techs) => techs = ∅
  | (_, Err _) => False
  end.
Proof. vm_compute. reflexivity. Qed.

Lemma loading_panics_only_witness :
  (init_ruleset github 0 None disk tt (Some directory) (lit "cache") false).2 = None
  ∧ ∃ text, (200 < blen text)%nat ∧ char_boundary text 200 = false.
Proof.
  assert (H : (init_ruleset github 0 None disk tt (Some directory) (lit "cache") false).2 = None)
    by (vm_compute; reflexivity).
  split; [exact H|].
  destruct (loading_panics_only github 0 None disk tt (Some directory) (lit "cache") false H)
    as (_ & text & _ & Hl & Hb).
  exists text. split; [exact Hl|exact Hb].
Defined.

(** [categories.json] is looked for beside a directory of rules, not in it, where it is read
    as a file of technologies. *)
Definition rules_dir : Disk :=
  ([((lit "rules", lit "categories.json"),
     (text_of (Object [(lit "1", Object [(lit "name", Str (lit "CMS"))])]), 0))], 1).
Example categories_beside_the_directory :
  is_ok (load_categories_from_path rules_dir (lit "rules")) = false
  ∧ match load_from_path rules_dir (lit "rules") with
    | Ok techs => techs = {[ lit "1" := empty_technology ]}
    | Err _ => False
    end.
Proof. vm_compute. split; reflexivity. Qed.

(** Only what is not a script id is dropped of the [js] keys. *)
Example script_ids :
  map is_script_id_js_key [lit "__NEXT_DATA__"; lit "jQuery"; lit "dataLayer"]
  = [true; false; true].
Proof. reflexivity. Qed.
End DemoRuleset.
