(* ===== verification/RulesetInit.v ===== *)
(** * Concurrent callers of [init_ruleset] ([src/src/fingerprint/ruleset/mod.rs])

    A caller reads the cell; when it is empty it takes the lock, reads the cell again and
    loads ([Ruleset.load_ruleset]).  The steps of the callers interleave; what a load returns
    is arbitrary. *)

From S2P Require Import Prelude.

Section Init.
Context {R E : Type}.

Inductive Caller :=
  | Begin                       (* before the first read of the cell *)
  | Waiting                     (* for [RULESET_INIT] *)
  | Locked                      (* before the second read *)
  | Loading                     (* from the cache or the sources *)
  | Loaded (ruleset : R)        (* before the write of the cell *)
  | Returned (r : result R E).

Record Global := MkGlobal {
  cell : option R;
  callers : list Caller;
}.

Definition holds_lock (c : Caller) : bool :=
  match c with Locked | Loading | Loaded _ => true | _ => false end.

(** The state of caller [i]. *)
Definition moves (g : Global) (i : nat) (cell' : option R) (c' : Caller) : Global :=
  MkGlobal cell' (<[i := c']> (callers g)).

Inductive init_step (g : Global) : Global -> Prop :=
  | fast_path i r : callers g !! i = Some Begin -> cell g = Some r ->
      init_step g (moves g i (cell g) (Returned (Ok r)))
  | go_waiting i : callers g !! i = Some Begin -> cell g = None ->
      init_step g (moves g i (cell g) Waiting)
  | take_lock i : callers g !! i = Some Waiting ->
      forallb (λ c, negb (holds_lock c)) (callers g) = true ->
      init_step g (moves g i (cell g) Locked)
  | found i r : callers g !! i = Some Locked -> cell g = Some r ->
      init_step g (moves g i (cell g) (Returned (Ok r)))
  | start_load i : callers g !! i = Some Locked -> cell g = None ->
      init_step g (moves g i (cell g) Loading)
  | load_failed i e : callers g !! i = Some Loading ->
      init_step g (moves g i (cell g) (Returned (Err e)))
  | load_done i r : callers g !! i = Some Loading ->
      init_step g (moves g i (cell g) (Loaded r))
  | publish i r : callers g !! i = Some (Loaded r) ->
      init_step g (moves g i (Some r) (Returned (Ok r))).

Definition start (n : nat) : Global := MkGlobal None (replicate n Begin).

Definition reachable (n : nat) : Global -> Prop := rtc init_step (start n).

(** *** Invariant *)

Record Inv (g : Global) : Prop := {
  inv_returned : ∀ i r, callers g !! i = Some (Returned (Ok r)) -> cell g = Some r;
  inv_lock : ∀ i j c c', callers g !! i = Some c -> callers g !! j = Some c' ->
    holds_lock c = true -> holds_lock c' = true -> i = j;
  inv_empty : ∀ i c, callers g !! i = Some c -> c = Loading ∨ (∃ r, c = Loaded r) ->
    cell g = None;
}.

Lemma start_inv n : Inv (start n).
Proof.
  split; cbn.
  - intros i r [? _]%lookup_replicate_1. congruence.
  - intros i j c c' [-> _]%lookup_replicate_1. done.
  - intros i c [-> _]%lookup_replicate_1 [?|[? ?]]; congruence.
Qed.
Lemma moved g i cell' c' c0 j c :
  callers g !! i = Some c0 ->
  callers (moves g i cell' c') !! j = Some c <->
  (j = i ∧ c = c') ∨ (j <> i ∧ callers g !! j = Some c).
Proof.
  intros Hi. unfold moves. cbn [callers]. rewrite list_lookup_insert_Some.
  apply lookup_lt_Some in Hi. naive_solver.
Qed.

(** A move that keeps the cell and does not take the lock. *)
Lemma quiet_move g i c0 c' :
  Inv g -> callers g !! i = Some c0 ->
  (holds_lock c' = true -> holds_lock c0 = true) ->
  (∀ r, c' = Returned (Ok r) -> cell g = Some r) ->
  (c' = Loading ∨ (∃ r, c' = Loaded r) -> cell g = None) ->
  Inv (moves g i (cell g) c').
Proof.
  intros [H1 H2 H3] Hi Hl Hr He. split; cbn [cell].
  - intros j r [[-> Er]|[_ Er]]%(moved _ _ _ _ _ _ _ Hi); [by apply Hr|by apply (H1 j)].
  - intros j k c c1 Hj Hk Lc Lc1.
    apply (moved _ _ _ _ _ _ _ Hi) in Hj as [[-> ->]|[Nj Hj]], Hk as [[-> ->]|[Nk Hk]];
      [done| | |by eapply H2].
    + exact (H2 i k c0 c1 Hi Hk (Hl Lc) Lc1).
    + exact (H2 j i c c0 Hj Hi Lc (Hl Lc1)).
  - intros j c [[-> ->]|[_ Hj]]%(moved _ _ _ _ _ _ _ Hi) Hc; [by apply He|by apply (H3 j c)].
Qed.

Lemma step_inv g g' : Inv g -> init_step g g' -> Inv g'.
Proof.
  intros HI Hs. destruct Hs as [i r Hi Hc|i Hi Hc|i Hi Hfree|i r Hi Hc|i Hi Hc|i e Hi|i r Hi|i r Hi];
    try (eapply quiet_move; [exact HI|exact Hi|naive_solver..]).
  - destruct HI as [H1 H2 H3]. rewrite forallb_forall in Hfree.
    assert (Hn : ∀ j c, callers g !! j = Some c -> holds_lock c = false).
    { intros j c Hj. apply negb_true_iff, Hfree, list_elem_of_In. by eapply list_elem_of_lookup_2. }
    split; cbn [cell].
    + intros j r [[-> Er]|[_ Er]]%(moved _ _ _ _ _ _ _ Hi); [done|by apply (H1 j)].
    + intros j k c c' Hj Hk Lc Lc'.
      apply (moved _ _ _ _ _ _ _ Hi) in Hj as [[-> ->]|[Nj Hj]], Hk as [[-> ->]|[Nk Hk]]; [done|..].
      * by rewrite (Hn k c' Hk) in Lc'.
      * by rewrite (Hn j c Hj) in Lc.
      * by rewrite (Hn j c Hj) in Lc.
    + intros j c [[-> ->]|[_ Hj]]%(moved _ _ _ _ _ _ _ Hi) Hc; [naive_solver|by apply (H3 j c)].
  - pose proof (inv_empty _ HI i _ Hi) as He.
    eapply quiet_move; [exact HI|exact Hi|naive_solver..].
  - pose proof (inv_empty _ HI i _ Hi ltac:(naive_solver)) as He. destruct HI as [H1 H2 H3].
    split; cbn [cell].
    + intros j r' [[-> Er]|[_ Er]]%(moved _ _ _ _ _ _ _ Hi); [by injection Er as ->|].
      apply H1 in Er. congruence.
    + intros j k c c' Hj Hk Lc Lc'.
      apply (moved _ _ _ _ _ _ _ Hi) in Hj as [[-> ->]|[Nj Hj]], Hk as [[-> ->]|[Nk Hk]]; try done.
      by eapply H2.
    + intros j c [[-> ->]|[Nj Hj]]%(moved _ _ _ _ _ _ _ Hi) Hc; [naive_solver|].
      exfalso. apply Nj. eapply H2; [exact Hj|exact Hi|naive_solver|done].
Qed.

Lemma reachable_inv n g : reachable n g -> Inv g.
Proof.
  intros Hr. assert (Hs : Inv (start n)) by apply start_inv. revert Hs.
  induction Hr as [|g1 g2 g3 H12 _ IH]; [done|]. intros HI. apply IH. by eapply step_inv.
Qed.

(** *** Progress and termination *)

Definition steps_left (c : Caller) : nat :=
  match c with
  | Begin => 5 | Waiting => 4 | Locked => 3 | Loading => 2 | Loaded _ => 1 | Returned _ => 0
  end.
Definition total_steps_left (g : Global) : nat := sum_list_with steps_left (callers g).

Lemma sum_insert (l : list Caller) i c c' :
  l !! i = Some c ->
  (sum_list_with steps_left (<[i := c']> l) + steps_left c
   = sum_list_with steps_left l + steps_left c')%nat.
Proof.
  revert i. induction l as [|x l IH]; intros [|i] Hi; cbn in *; try done.
  - injection Hi as ->. lia.
  - specialize (IH i Hi). unfold insert in *. lia.
Qed.

Lemma step_decreases g g' : init_step g g' -> (total_steps_left g' < total_steps_left g)%nat.
Proof.
  unfold total_steps_left. intros Hs.
  destruct Hs as [i r Hi _|i Hi _|i Hi _|i r Hi _|i Hi _|i e Hi|i r Hi|i r Hi];
    unfold moves; cbn [callers];
    match goal with |- (sum_list_with _ (<[_ := ?c']> _) < _)%nat =>
      pose proof (sum_insert _ _ _ c' Hi) as Hsum; cbn [steps_left] in Hsum; lia end.
Qed.

Lemma lock_holder (l : list Caller) :
  forallb (λ c, negb (holds_lock c)) l = false -> ∃ j c, l !! j = Some c ∧ holds_lock c = true.
Proof.
  induction l as [|x l IH]; [done|]. cbn. destruct (holds_lock x) eqn:Ex; [by exists 0%nat, x|].
  intros (j & c & Hj & Hl)%IH. by exists (S j), c.
Qed.

Lemma holder_steps g j c (e : E) :
  callers g !! j = Some c -> holds_lock c = true -> ∃ g', init_step g g'.
Proof.
  intros Hj Hl. destruct c; try done.
  - destruct (cell g) eqn:Ec; eexists; [by eapply found|by eapply start_load].
  - eexists. by eapply (load_failed _ _ e).
  - eexists. by eapply publish.
Qed.

Lemma progress g i c (e : E) :
  callers g !! i = Some c -> (∀ r, c <> Returned r) -> ∃ g', init_step g g'.
Proof.
  intros Hi Hc. destruct (holds_lock c) eqn:Hl; [by eapply holder_steps|].
  destruct (forallb (λ c, negb (holds_lock c)) (callers g)) eqn:Hfree.
  - destruct c as [| | | | |r]; try done; [| |by destruct (Hc r)].
    + destruct (cell g) eqn:Ec; eexists; [by eapply fast_path|by eapply go_waiting].
    + eexists. by eapply take_lock.
  - apply lock_holder in Hfree as (j & c' & Hj & Hl'). by eapply holder_steps.
Qed.

Lemma start_steps n : total_steps_left (start n) = (5 * n)%nat.
Proof. unfold total_steps_left, start. cbn [callers]. induction n as [|n IH]; cbn in *; lia. Qed.

Lemma run_bounded k g g' : nsteps init_step k g g' -> (k + total_steps_left g' <= total_steps_left g)%nat.
Proof. induction 1 as [|k g1 g2 g3 H12%step_decreases _ IH]; lia. Qed.

(** C40: However the calls interleave: one load at a time and none once one has succeeded, all that
    return a ruleset return the same one, the cell's; every run ends, and where it cannot go
    on every call has returned. *)
Theorem init_ruleset_once n g (e : E) :
  reachable n g ->
  (∀ i r, callers g !! i = Some (Returned (Ok r)) -> cell g = Some r)
  ∧ (∀ i j c c', callers g !! i = Some c -> callers g !! j = Some c' ->
       holds_lock c = true -> holds_lock c' = true -> i = j)
  ∧ (is_Some (cell g) -> (Loading ∉ callers g) ∧ ∀ g', init_step g g' -> cell g' = cell g)
  ∧ ((∀ g', ~ init_step g g') -> ∀ i c, callers g !! i = Some c -> ∃ r, c = Returned r)
  ∧ (∀ k g', nsteps init_step k (start n) g' -> (k <= 5 * n)%nat).
Proof.
  intros Hr. apply reachable_inv in Hr as HI. destruct HI as [H1 H2 H3]. split_and!.
  - exact H1.
  - exact H2.
  - intros [r Hc]. split.
    + intros (i & Hi)%list_elem_of_lookup. rewrite (H3 i _ Hi) in Hc; [done|by left].
    + intros g' Hs. destruct Hs as [| | | | | | |i r' Hi]; try done.
      rewrite (H3 i _ Hi) in Hc; [done|right; by eexists].
  - intros Hstuck i c Hi. destruct c as [| | | | |r]; [..|by eexists]; exfalso;
      (edestruct (progress g i _ e Hi) as [g' Hs]; [done|by apply (Hstuck g')]).
  - intros k g' Hk%run_bounded. rewrite start_steps in Hk. lia.
Qed.
End Init.

(** Two calls: the first loads while the second waits; the second finds what was loaded. *)
Module DemoInit.
Definition both_returned : Global (R := Z) (E := unit) :=
  MkGlobal (Some 7) [Returned (Ok 7); Returned (Ok 7)].

Lemma interleaved : reachable 2 both_returned.
Proof.
  unfold reachable, start. cbn [replicate].
  eapply rtc_l; [by eapply (go_waiting _ 0)|cbn].
  eapply rtc_l; [by eapply (take_lock _ 0)|cbn].
  eapply rtc_l; [by eapply (start_load _ 0)|cbn].
  eapply rtc_l; [by eapply (go_waiting _ 1)|cbn].
  eapply rtc_l; [by eapply (load_done _ 0 7)|cbn].
  eapply rtc_l; [by eapply (publish _ 0 7)|cbn].
  eapply rtc_l; [by eapply (take_lock _ 1)|cbn].
  eapply rtc_l; [by eapply (found _ 1 7)|cbn]. apply rtc_refl.
Qed.

Lemma init_ruleset_once_witness :
  reachable 2 both_returned ∧ ∀ i r, callers both_returned !! i = Some (Returned (Ok r)) -> r = 7.
Proof.
  split; [exact interleaved|].
  destruct (init_ruleset_once 2 both_returned tt interleaved) as [H _].
  intros i r Hi. apply H in Hi. cbn in Hi. congruence.
Defined.
End DemoInit.
