(* ===== verification/GeoIp.v ===== *)
(** * GeoIP ([src/src/geoip/])

    The City and ASN databases: where they come from (a path, a URL, MaxMind with a licence key),
    the archive they are taken out of, the cache directory they are kept in for seven days, the
    process-wide readers, and the lookup of an address.  The network is that of Ruleset.v, the
    files those of Whois.v and Ruleset.v with calls on bytes besides; the reader of the database
    format, the archive format, the form encoding and the text of JSON are parameters. *)

From S2P Require Import Prelude Sanitize Net Security Redirects Errors Retry Dns StrIndex.
From S2P Require Import Domain Response StorageRecord Scripts WellKnown Whois Json Models Ruleset.

Definition MAXMIND_DOWNLOAD_BASE : str := lit "https://download.maxmind.com/app/geoip_download".
Definition GEOIP_CACHE_TTL_SECS : Z := 7 * 24 * 60 * 60.
Definition MAX_GEOIP_DOWNLOAD_SIZE : Z := 100 * 1024 * 1024.
Definition MAX_GEOIP_ARCHIVE_ENTRY_SIZE : Z := 100 * 1024 * 1024.
Definition MAX_GEOIP_ARCHIVE_ENTRY_COUNT : Z := 128.

(** [last_updated] in nanoseconds since the epoch. *)
Record GeoIpMetadata := MkGeoMetadata {
  gm_source : str;
  gm_version : str;
  gm_last_updated : Z;
}.

(** ** Parameters *)

(** [std::fs] on bytes. *)
Class ByteFs (D : Type) := {
  fs_read : D -> Path -> result (list Z) str;
  fs_write_bytes : D -> Path -> list Z -> D * result unit str;
}.

(** The [maxminddb] crate and the records it decodes; of the names the English ones. *)
Record CityRecord := MkCity {
  ci_country_iso : option str;
  ci_country_name : option str;
  ci_subdivisions : list (option str);
  ci_city_name : option str;
  ci_latitude : option SpecFloat.spec_float;
  ci_longitude : option SpecFloat.spec_float;
  ci_time_zone : option str;
  ci_postal_code : option str;
}.
Record AsnRecord := MkAsn { an_number : option Z; an_organization : option str }.

Class MaxMindDb := {
  Reader : Type;
  MmLookup : Type;
  from_source : list Z -> result Reader str;
  build_epoch : Reader -> Z;
  mm_lookup : Reader -> IpAddr -> result MmLookup str;
  has_data : MmLookup -> bool;
  decode_city : MmLookup -> result (option CityRecord) str;
  decode_asn : MmLookup -> result (option AsnRecord) str;
}.

(** An entry of a tar archive: its path, its declared size, the bytes that can be read and the
    error that ends the reading. *)
Record TarEntry := MkTar {
  te_path : result str str;
  te_size : Z;
  te_data : list Z;
  te_error : option str;
}.

(** [flate2] and [tar]; the entries are read one after the other. *)
Class ArchiveLib := { archive_entries : list Z -> result (list (result TarEntry str)) str }.

Class GeoEnv := {
  (** [std::env::var("MAXMIND_LICENSE_KEY").ok()] *)
  license_key_var : option str;
  (** [form_urlencoded::byte_serialize] *)
  byte_serialize : list Z -> str;
}.

(** ** extract.rs *)

Section Extract.
Context `{A : ArchiveLib}.

(** [entry.take(read_limit).read_to_end]. *)
Definition read_limited (entry : TarEntry) (read_limit : Z) : result (list Z) str :=
  if read_limit <=? Z.of_nat (length (te_data entry))
  then Ok (take (Z.to_nat read_limit) (te_data entry))
  else match te_error entry with Some e => Err e | None => Ok (te_data entry) end.

(** [None]: the entry is not the one looked for. *)
Definition extract_entry (db_name : str) (entry : TarEntry) : option (result (list Z) AnyhowError) :=
  match te_path entry with
  | Err e => Some (io_failed (lit "Failed to get entry path") e)
  | Ok path =>
      if bool_decide (file_name path = Some (db_name ++ lit ".mmdb")) then
        Some (
          if MAX_GEOIP_ARCHIVE_ENTRY_SIZE <? te_size entry then
            Err (plain_error (db_name ++ lit ".mmdb entry too large: " ++ dec (te_size entry)
                   ++ lit " bytes (max: " ++ dec MAX_GEOIP_ARCHIVE_ENTRY_SIZE ++ lit " bytes)"))
          else
            match read_limited entry (MAX_GEOIP_ARCHIVE_ENTRY_SIZE + 1) with
            | Err e => io_failed (lit "Failed to read " ++ db_name ++ lit ".mmdb file from archive") e
            | Ok mmdb_bytes =>
                if MAX_GEOIP_ARCHIVE_ENTRY_SIZE <? Z.of_nat (length mmdb_bytes) then
                  Err (plain_error (db_name ++ lit ".mmdb entry exceeded size limit while reading (max: "
                         ++ dec MAX_GEOIP_ARCHIVE_ENTRY_SIZE ++ lit " bytes)"))
                else Ok mmdb_bytes
            end)
      else None
  end.

Fixpoint extract_entries (db_name : str) (index : Z) (entries : list (result TarEntry str))
  : result (list Z) AnyhowError :=
  match entries with
  | [] => Err (plain_error (db_name ++ lit ".mmdb not found in tar.gz archive"))
  | entry_result :: entries =>
      if MAX_GEOIP_ARCHIVE_ENTRY_COUNT <=? index then
        Err (plain_error (lit "GeoIP archive exceeded entry inspection limit (max: "
               ++ dec MAX_GEOIP_ARCHIVE_ENTRY_COUNT ++ lit ")"))
      else
        match entry_result with
        | Err e => io_failed (lit "Failed to read tar entry") e
        | Ok entry =>
            match extract_entry db_name entry with
            | Some r => r
            | None => extract_entries db_name (index + 1) entries
            end
        end
  end.

Definition extract_mmdb_from_tar_gz (tar_gz_bytes : list Z) (db_name : str)
  : result (list Z) AnyhowError :=
  match archive_entries tar_gz_bytes with
  | Err e => io_failed (lit "Failed to read tar archive entries") e
  | Ok entries => extract_entries db_name 0 entries
  end.
End Extract.

(** ** metadata.rs *)

(** [Serialize] and [Deserialize] of the struct. *)
Definition ser_geo_metadata `{RulesetJson} (m : GeoIpMetadata) : option Value :=
  last_updated ← ser_time (gm_last_updated m);
  Some (Object [(lit "source", Str (gm_source m)); (lit "version", Str (gm_version m));
                (lit "last_updated", last_updated)]).

Definition geo_metadata_fields `{RulesetJson} (field : Fields) : option GeoIpMetadata :=
  source ← field _ 0%nat ["source"%string] de_string None;
  version ← field _ 1%nat ["version"%string] de_string None;
  last_updated ← field _ 2%nat ["last_updated"%string] de_time None;
  Some (MkGeoMetadata source version last_updated).

Definition de_geo_metadata `{RulesetJson} (v : Value) : option GeoIpMetadata :=
  de_struct 3 geo_metadata_fields v.

Section Disk.
Context `{F : Fs D} `{FD : !DirFs D} `{FB : !ByteFs D} `{J : RulesetJson} `{M : MaxMindDb}.

Definition extract_metadata (now : Z) (reader : Reader) (source : str) : GeoIpMetadata :=
  MkGeoMetadata source (lit "build_" ++ dec (build_epoch reader)) now.

Definition load_metadata (d : D) (metadata_file : Path) : option GeoIpMetadata :=
  match fs_read_to_string d metadata_file with
  | Ok content => read_json content ≫= de_geo_metadata
  | Err _ => None
  end.

Definition is_staging (name : str) : bool := starts_with (lit ".") name && ends_with (lit ".tmp") name.

Definition cleanup_geoip_tmp_orphans (d : D) (cache_dir : str) : D :=
  match fs_entries d cache_dir with
  | Err _ => d
  | Ok (entries, _) =>
      foldl (λ d path, if is_staging path.2 then (fs_remove_file d path).1 else d) d entries
  end.

Definition save_metadata (d : D) (metadata : GeoIpMetadata) (metadata_file : Path)
  : D * result unit AnyhowError :=
  write_json d metadata_file (ser_geo_metadata metadata).

(** [utils::cache::write_atomic] for bytes. *)
Definition write_atomic_bytes (d : D) (path : Path) (bytes : list Z) : D * result unit str :=
  let (parent, file_name) := path in
  match fs_create_dir_all d parent with
  | (d, Err e) => (d, Err e)
  | (d, Ok _) =>
      let temp_path := (parent, lit "." ++ file_name ++ lit ".tmp") in
      match fs_write_bytes d temp_path bytes with
      | (d, Err e) => (d, Err e)
      | (d, Ok _) =>
          match fs_rename d temp_path path with
          | (d, Ok _) => (d, Ok tt)
          | (d, Err error) =>
              if fs_exists d path then
                match fs_remove_file d path with
                | (d, Err e) => (d, Err e)
                | (d, Ok _) => fs_rename d temp_path path
                end
              else (d, Err error)
          end
      end
  end.

(** ** init/loader.rs: files *)

Definition load_from_file (now : Z) (d : D) (path : str) : result (Reader * GeoIpMetadata) AnyhowError :=
  match fs_read d (entry_of path) with
  | Err e => io_failed (lit "Failed to read GeoIP database from " ++ path) e
  | Ok db_bytes =>
      match from_source db_bytes with
      | Err e => io_failed (lit "Failed to parse GeoIP database from " ++ path) e
      | Ok reader => Ok (reader, extract_metadata now reader path)
      end
  end.

(** The name is ASCII. *)
Definition geoip_cache_paths (cache_dir db_name : str) : Path * Path :=
  ((cache_dir, db_name ++ lit ".mmdb"), (cache_dir, to_ascii_lowercase db_name ++ lit "_metadata.json")).

Definition path_text (p : Path) : str := path_join p.1 p.2.

Definition try_load_from_cache (now : Z) (d : D) (cache_file metadata_file : Path)
  : option (Reader * GeoIpMetadata) :=
  metadata ← load_metadata d metadata_file;
  if cache_ttl_exceeded now (gm_last_updated metadata) GEOIP_CACHE_TTL_SECS true then None
  else if negb (fs_exists d cache_file) then None
  else match load_from_file now d (path_text cache_file) with
       | Ok (reader, _) => Some (reader, metadata)
       | Err _ => None
       end.
End Disk.

Definition source_for_log (path : str) : str :=
  match split_once 63 path with Some (base, _) => base | None => path end.

Definition maxmind_download_url `{GeoEnv} (edition_id license_key : str) : str :=
  MAXMIND_DOWNLOAD_BASE ++ lit "?edition_id=" ++ edition_id ++ lit "&license_key="
  ++ byte_serialize (encode license_key) ++ lit "&suffix=tar.gz".

(** ** init/loader.rs: downloads *)

Section Download.
Context `{F : Fs D} `{FD : !DirFs D} `{FB : !ByteFs D} `{J : RulesetJson} `{M : MaxMindDb}.
Context `{A : ArchiveLib} `{G : GeoEnv} `{N : RulesetNet} `{H : HttpLib}.
Context `{U : UrlLib} `{L : Lowercase} `{T : IpText}.
Context {S : Type} (send : S -> Request -> S * result Response str).

Definition download_geoip_with_size_limit (url : str) (st : S) : S * result (list Z) AnyhowError :=
  match build_download_client with
  | Err e => (st, Err e)
  | Ok _ =>
      let url_for_log := source_for_log url in
      match send st (MkRequest SsrfSafeClient url []) with
      | (st, Err error) =>
          (st, Err (plain_error (lit "Failed to download GeoIP database from " ++ url_for_log ++ lit ": "
                      ++ replace url url_for_log error)))
      | (st, Ok response) =>
          (st,
           if negb (is_success (status response)) then
             let error_body := match response_text response with
                               | Ok text => text
                               | Err _ => lit "No error details"
                               end in
             Err (plain_error (lit "Failed to download GeoIP database: " ++ status_text (status response)
                    ++ lit " - " ++ error_body))
           else
             match reject_if_content_length_exceeds response MAX_GEOIP_DOWNLOAD_SIZE
                     (lit "GeoIP database") with
             | Err e => Err e
             | Ok _ =>
                 match stream_bytes_with_limit response (Z.to_nat MAX_GEOIP_DOWNLOAD_SIZE) Error with
                 | Err e => Err (plain_error (stream_error_text e))
                 | Ok (Complete bytes) | Ok (Truncated bytes) => Ok bytes
                 end
             end)
      end
  end.

(** The first two bytes of a gzip file. *)
Definition is_gzip (bytes : list Z) : bool :=
  match bytes with a :: b :: _ :: _ => (a =? 31) && (b =? 139) | _ => false end.

(** The bytes of the database, by the form of the URL or the first bytes. *)
Definition database_bytes (downloaded_bytes : list Z) (url db_name : str)
  : result (list Z) AnyhowError :=
  if ends_with (lit ".tar.gz") url || contains (lit "suffix=tar.gz") url then
    extract_mmdb_from_tar_gz downloaded_bytes db_name
  else if match path_extension url with
          | Some ext => eq_ignore_ascii_case ext (lit "mmdb")
          | None => false
          end then Ok downloaded_bytes
  else if is_gzip downloaded_bytes then extract_mmdb_from_tar_gz downloaded_bytes db_name
  else Ok downloaded_bytes.

Definition process_downloaded_geoip (now : Z) (d : D) (downloaded_bytes : list Z) (url db_name : str)
  (cache_file metadata_file : Path) : D * result (Reader * GeoIpMetadata) AnyhowError :=
  match database_bytes downloaded_bytes url db_name with
  | Err e => (d, Err e)
  | Ok db_bytes =>
      match from_source db_bytes with
      | Err e => (d, io_failed (lit "Failed to create owned reader from downloaded database") e)
      | Ok reader =>
          let metadata := extract_metadata now reader url in
          match write_atomic_bytes d cache_file db_bytes with
          | (d, Err e) =>
              (d, io_failed (lit "Failed to write cache file: " ++ path_text cache_file) e)
          | (d, Ok _) =>
              match save_metadata d metadata metadata_file with
              | (d, Err e) => (d, Err e)
              | (d, Ok _) => (d, Ok (reader, metadata))
              end
          end
      end
  end.

Definition load_from_url (now : Z) (d : D) (st : S) (url cache_dir db_name : str)
  : D * S * result (Reader * GeoIpMetadata) AnyhowError :=
  match fs_create_dir_all d cache_dir with
  | (d, Err e) => (d, st, io_failed (lit "Failed to create cache directory: " ++ cache_dir) e)
  | (d, Ok _) =>
      let (cache_file, metadata_file) := geoip_cache_paths cache_dir db_name in
      match try_load_from_cache now d cache_file metadata_file with
      | Some cached => (d, st, Ok cached)
      | None =>
          match validate_url_safe url with
          | Err e => (d, st, Err (with_context (lit "Unsafe GeoIP URL rejected: " ++ source_for_log url)
                                    (unsafe_url_error url e)))
          | Ok _ =>
              match with_network_download_retry (plain_error (lit "no attempt"))
                      (download_geoip_with_size_limit url) 2 st with
              | (st, Err e, _) => (d, st, Err e)
              | (st, Ok bytes, _) =>
                  let (d, r) :=
                    process_downloaded_geoip now d bytes url db_name cache_file metadata_file in
                  (d, st, r)
              end
          end
      end
  end.

(** ** init/mod.rs *)

(** An [RwLock] around the reader that is loaded. *)
Inductive ReaderCache :=
  | Poisoned
  | Holds (loaded : option (Reader * GeoIpMetadata)).

Record GeoIpService := MkService { city_reader : ReaderCache; asn_reader : ReaderCache }.

Definition empty_service : GeoIpService := MkService (Holds None) (Holds None).

Definition is_http (p : str) : bool :=
  starts_with (lit "http://") p || starts_with (lit "https://") p.

(** Whether a database has to be fetched again. *)
Definition should_download (now : Z) (d : D) (cache_file metadata_file : Path) : bool :=
  match load_metadata d metadata_file with
  | Some metadata =>
      cache_ttl_exceeded now (gm_last_updated metadata) GEOIP_CACHE_TTL_SECS true
      || negb (fs_exists d cache_file)
  | None => true
  end.

Definition license_key : option str :=
  key ← license_key_var; if nonempty key then Some key else None.

Definition resolve_from_license_key (now : Z) (d : D) (cache_path : str) : option str :=
  key ← license_key;
  let (cache_file, metadata_file) := geoip_cache_paths cache_path (lit "GeoLite2-City") in
  Some (if should_download now d cache_file metadata_file
        then maxmind_download_url (lit "GeoLite2-City") key
        else path_text cache_file).

Definition resolve_geoip_source (now : Z) (d : D) (geoip_path : option str) (cache_path : str)
  : option str :=
  match geoip_path with
  | Some p =>
      if is_http p then Some p
      else if fs_exists d (entry_of p) then Some p
      else Some (default p (resolve_from_license_key now d cache_path))
  | None => resolve_from_license_key now d cache_path
  end.

(** ** init/asn.rs *)

(** [Err]: the lock is poisoned. *)
Definition store_asn_reader (g : GeoIpService) (loaded : Reader * GeoIpMetadata)
  : result GeoIpService unit :=
  match asn_reader g with
  | Poisoned => Err tt
  | Holds _ => Ok (MkService (city_reader g) (Holds (Some loaded)))
  end.

Definition try_load_asn_from_cache (now : Z) (g : GeoIpService) (d : D) (cache_file : Path)
  : GeoIpService :=
  match load_from_file now d (path_text cache_file) with
  | Err _ => g
  | Ok loaded => match store_asn_reader g loaded with Ok g => g | Err _ => g end
  end.

(** Every error is logged and dropped by the caller: the service is what remains. *)
Definition init_asn_database (now : Z) (g : GeoIpService) (d : D) (st : S) (cache_dir : str)
  : GeoIpService * D * S :=
  match asn_reader g with
  | Poisoned | Holds (Some _) => (g, d, st)
  | Holds None =>
      let (cache_file, metadata_file) := geoip_cache_paths cache_dir (lit "GeoLite2-ASN") in
      let '(d, st, downloaded) :=
        match license_key with
        | Some key =>
            if should_download now d cache_file metadata_file then
              match load_from_url now d st (maxmind_download_url (lit "GeoLite2-ASN") key) cache_dir
                      (lit "GeoLite2-ASN") with
              | (d, st, Ok loaded) => (d, st, Some loaded)
              | (d, st, Err _) => (d, st, None)
              end
            else (d, st, None)
        | None => (d, st, None)
        end in
      match downloaded with
      | Some loaded => (match store_asn_reader g loaded with Ok g => g | Err _ => g end, d, st)
      | None =>
          if fs_exists d cache_file then (try_load_asn_from_cache now g d cache_file, d, st)
          else (g, d, st)
      end
  end.

Definition poisoned_error : AnyhowError := plain_error (lit "GeoIP City reader lock poisoned").

(** The City database: kept when it was loaded from the same source. *)
Definition load_city (now : Z) (g : GeoIpService) (d : D) (st : S) (path cache_path : str)
  : GeoIpService * D * S * result GeoIpMetadata AnyhowError :=
  match city_reader g with
  | Poisoned => (g, d, st, Err poisoned_error)
  | Holds loaded =>
      let kept := match loaded with
                  | Some (_, metadata) =>
                      if streqb (gm_source metadata) path then Some metadata else None
                  | None => None
                  end in
      match kept with
      | Some metadata => (g, d, st, Ok metadata)
      | None =>
          let '(d, st, r) :=
            if is_http path then load_from_url now d st path cache_path (lit "GeoLite2-City")
            else (d, st, load_from_file now d path) in
          match r with
          | Err e => (g, d, st, Err e)
          | Ok (reader, metadata) =>
              (MkService (Holds (Some (reader, metadata))) (asn_reader g), d, st, Ok metadata)
          end
      end
  end.

Definition init_geoip (now : Z) (g : GeoIpService) (d : D) (st : S) (geoip_path : option str)
  (cache_path : str) : GeoIpService * D * S * result (option GeoIpMetadata) AnyhowError :=
  let d := cleanup_geoip_tmp_orphans d cache_path in
  match resolve_geoip_source now d geoip_path cache_path with
  | None => (g, d, st, Ok None)
  | Some path =>
      match load_city now g d st path cache_path with
      | (g, d, st, Err e) => (g, d, st, Err e)
      | (g, d, st, Ok metadata) =>
          let '(g, d, st) := init_asn_database now g d st cache_path in
          (g, d, st, Ok (Some metadata))
      end
  end.

(** ** lookup.rs *)

Definition empty_result : GeoIpResult :=
  MkGeoResult None None None None None None None None None None.

(** The record of an address in a loaded database. *)
Definition record_in {R} (decode : MmLookup -> result (option R) str) (cache : ReaderCache)
  (ip_addr : IpAddr) : option R :=
  match cache with
  | Holds (Some (reader, _)) =>
      match mm_lookup reader ip_addr with
      | Ok lookup =>
          if has_data lookup then match decode lookup with Ok (Some r) => Some r | _ => None end
          else None
      | Err _ => None
      end
  | _ => None
  end.

Definition fill_city (cache : ReaderCache) (ip_addr : IpAddr) (out : GeoIpResult) : GeoIpResult * bool :=
  match record_in decode_city cache ip_addr with
  | None => (out, false)
  | Some city =>
      (MkGeoResult (ci_country_iso city) (ci_country_name city)
         (match ci_subdivisions city with
          | subdivision :: _ => subdivision
          | [] => gr_region out
          end)
         (ci_city_name city) (ci_latitude city) (ci_longitude city) (ci_postal_code city)
         (ci_time_zone city) (gr_asn out) (gr_asn_org out), true)
  end.

Definition fill_asn (cache : ReaderCache) (ip_addr : IpAddr) (out : GeoIpResult) : GeoIpResult * bool :=
  match record_in decode_asn cache ip_addr with
  | None => (out, false)
  | Some asn =>
      (MkGeoResult (gr_country_code out) (gr_country_name out) (gr_region out) (gr_city out)
         (gr_latitude out) (gr_longitude out) (gr_postal_code out) (gr_timezone out)
         (an_number asn) (an_organization asn), true)
  end.

Definition lookup_ip (g : GeoIpService) (ip : str) : option GeoIpResult :=
  ip_addr ← ip_parse ip;
  let (geo_result, city_hit) := fill_city (city_reader g) ip_addr empty_result in
  let (geo_result, asn_hit) := fill_asn (asn_reader g) ip_addr geo_result in
  if city_hit || asn_hit then Some geo_result else None.

Definition get_metadata (g : GeoIpService) : option GeoIpMetadata :=
  match city_reader g with Holds (Some (_, metadata)) => Some metadata | _ => None end.

Definition is_enabled (g : GeoIpService) : bool :=
  match city_reader g with Holds (Some _) => true | _ => false end.
End Download.

(** ** Lemmas: lookups and archives *)

Section Lookup.
Context `{M : MaxMindDb} `{T : IpText}.

(** An address has a result when one of the loaded databases has a record of it, and the result
    is made of these records. *)
Lemma lookup_ip_spec g ip a :
  ip_parse ip = Some a ->
  lookup_ip g ip =
    match record_in decode_city (city_reader g) a, record_in decode_asn (asn_reader g) a with
    | None, None => None
    | city, asn => Some (MkGeoResult (city ≫= ci_country_iso) (city ≫= ci_country_name)
        (city ≫= λ c, head (ci_subdivisions c) ≫= id) (city ≫= ci_city_name) (city ≫= ci_latitude)
        (city ≫= ci_longitude) (city ≫= ci_postal_code) (city ≫= ci_time_zone)
        (asn ≫= an_number) (asn ≫= an_organization))
    end.
Proof.
  intros Ha. unfold lookup_ip. rewrite Ha. cbn [mbind option_bind]. unfold fill_city, fill_asn.
  destruct (record_in decode_city _ a) as [c|], (record_in decode_asn _ a) as [n|]; cbn; try done;
    by destruct (ci_subdivisions c).
Qed.

(** Without the City database the service says it is disabled, but answers from the other one. *)
Lemma disabled_service_answers g ip a asn :
  ip_parse ip = Some a -> record_in decode_asn (asn_reader g) a = Some asn ->
  city_reader g = Holds None ->
  is_enabled g = false ∧ ∃ r, lookup_ip g ip = Some r ∧ gr_asn r = an_number asn.
Proof.
  intros Ha Hn Hc. unfold is_enabled. rewrite (lookup_ip_spec g ip a Ha), Hc, Hn. split; [done|].
  by eexists.
Qed.
End Lookup.

Section ExtractLemmas.
Context `{A : ArchiveLib}.

Definition names_database (db_name : str) (r : result TarEntry str) : bool :=
  match r with
  | Ok e => match te_path e with
            | Ok path => bool_decide (file_name path = Some (db_name ++ lit ".mmdb"))
            | Err _ => false
            end
  | Err _ => false
  end.

Lemma extract_entry_Ok db_name e b :
  extract_entry db_name e = Some (Ok b) ->
  names_database db_name (Ok e) = true ∧ b = te_data e ∧ te_error e = None
  ∧ Z.of_nat (length b) <= MAX_GEOIP_ARCHIVE_ENTRY_SIZE.
Proof.
  unfold extract_entry, names_database, read_limited, MAX_GEOIP_ARCHIVE_ENTRY_SIZE.
  destruct (te_path e) as [path|]; [|done]. case_bool_decide as Hname; [|done].
  destruct (_ <? te_size e); [done|].
  destruct (Z.leb_spec (100 * 1024 * 1024 + 1) (Z.of_nat (length (te_data e)))) as [Hl|Hl].
  - rewrite length_take, Nat.min_l by lia. rewrite Z2Nat.id by lia.
    by rewrite (proj2 (Z.ltb_lt _ _)) by lia.
  - destruct (te_error e); [done|]. rewrite (proj2 (Z.ltb_ge _ _)) by lia.
    intros [= <-]. split_and!; try done. lia.
Qed.

Lemma extract_entry_other db_name e :
  extract_entry db_name e = None -> names_database db_name (Ok e) = false.
Proof.
  unfold extract_entry, names_database. destruct (te_path e); [|done].
  by case_bool_decide.
Qed.

(** The database is the whole of the first entry of its name, one of the first 128, and of at
    most 100 MB; every entry before it could be read. *)
Theorem extracted_database tar_gz_bytes db_name b :
  extract_mmdb_from_tar_gz tar_gz_bytes db_name = Ok b ->
  ∃ entries before e after,
    archive_entries tar_gz_bytes = Ok entries ∧ entries = before ++ Ok e :: after
    ∧ Forall (λ r, is_ok r = true ∧ names_database db_name r = false) before
    ∧ names_database db_name (Ok e) = true ∧ b = te_data e ∧ te_error e = None
    ∧ Z.of_nat (length before) < MAX_GEOIP_ARCHIVE_ENTRY_COUNT
    ∧ Z.of_nat (length b) <= MAX_GEOIP_ARCHIVE_ENTRY_SIZE.
Proof.
  unfold extract_mmdb_from_tar_gz. destruct (archive_entries tar_gz_bytes) as [entries|]; [|done].
  intros H. exists entries.
  assert (Hgen : ∀ entries index, 0 <= index ->
    extract_entries db_name index entries = Ok b ->
    ∃ before e after, entries = before ++ Ok e :: after
      ∧ Forall (λ r, is_ok r = true ∧ names_database db_name r = false) before
      ∧ names_database db_name (Ok e) = true ∧ b = te_data e ∧ te_error e = None
      ∧ index + Z.of_nat (length before) < MAX_GEOIP_ARCHIVE_ENTRY_COUNT
      ∧ Z.of_nat (length b) <= MAX_GEOIP_ARCHIVE_ENTRY_SIZE).
  { clear. induction entries as [|[e|] entries IH]; intros index Hi; cbn [extract_entries]; [done| |];
      destruct (Z.leb_spec MAX_GEOIP_ARCHIVE_ENTRY_COUNT index); try done.
    destruct (extract_entry db_name e) as [r|] eqn:E.
    - intros ->. apply extract_entry_Ok in E as (? & ? & ? & ?).
      exists [], e, entries. split_and!; try done. cbn [length]. lia.
    - intros (before & e' & after & -> & Hb & ? & ? & ? & ? & ?)%IH; [|lia].
      exists (Ok e :: before), e', after. cbn [length app].
      split_and!; try done; [|lia]. constructor; [|done]. split; [done|].
      by apply extract_entry_other. }
  destruct (Hgen entries 0 ltac:(lia) H) as (before & e & after & Hrest).
  exists before, e, after. by destruct Hrest as (? & ? & ? & ? & ? & ? & ?).
Qed.
End ExtractLemmas.

(** ** The requests of a start *)

Section Requests.
Context `{F : Fs D} `{FD : !DirFs D} `{FB : !ByteFs D} `{J : RulesetJson} `{M : MaxMindDb}.
Context `{A : ArchiveLib} `{G : GeoEnv} `{N : RulesetNet} `{H : HttpLib}.
Context `{U : UrlLib} `{L : Lowercase} `{T : IpText}.

(** A checked address, asked for with the client that refuses private ones and without headers:
    the URL of the configuration, or MaxMind's address of one of the two databases. *)
Definition geo_permitted (geoip_path : option str) (rq : Request) : Prop :=
  rq_client rq = SsrfSafeClient ∧ rq_headers rq = [] ∧ validate_url_safe (rq_url rq) = Ok tt
  ∧ (geoip_path = Some (rq_url rq)
     ∨ ∃ edition key, edition ∈ [lit "GeoLite2-City"; lit "GeoLite2-ASN"] ∧ license_key = Some key
         ∧ rq_url rq = maxmind_download_url edition key).

Section Keep.
Context {S : Type} (send : S -> Request -> S * result Response str) (geoip_path : option str).
Context (Inv : S -> Prop).
Context (send_keeps : ∀ st rq, Inv st -> geo_permitted geoip_path rq -> Inv (send st rq).1).

Definition source_permitted (url : str) : Prop :=
  geoip_path = Some url
  ∨ ∃ edition key, edition ∈ [lit "GeoLite2-City"; lit "GeoLite2-ASN"] ∧ license_key = Some key
      ∧ url = maxmind_download_url edition key.

Lemma download_geoip_keeps url st :
  validate_url_safe url = Ok tt -> source_permitted url -> Inv st ->
  Inv (download_geoip_with_size_limit send url st).1.
Proof.
  intros Hv Hs Hi. unfold download_geoip_with_size_limit.
  destruct build_download_client; [|exact Hi].
  pose proof (send_keeps st (MkRequest SsrfSafeClient url []) Hi) as H1.
  destruct (send st _) as [st1 [resp|]]; apply H1; by split_and!.
Qed.

Lemma load_from_url_keeps now d st url cache_dir db_name :
  source_permitted url -> Inv st -> Inv (load_from_url send now d st url cache_dir db_name).1.2.
Proof.
  intros Hs Hi. unfold load_from_url. destruct (fs_create_dir_all d cache_dir) as [d1 [|]]; [|exact Hi].
  destruct (geoip_cache_paths _ _) as [cache_file metadata_file].
  destruct (try_load_from_cache _ _ _ _); [exact Hi|].
  destruct (validate_url_safe url) as [[]|] eqn:Ev; [|exact Hi].
  unfold with_network_download_retry.
  pose proof (download_loop_keeps Inv (plain_error (lit "no attempt"))
    (download_geoip_with_size_limit send url) 2 MAX_NETWORK_DOWNLOAD_RETRIES 1 None st []
    (λ st, download_geoip_keeps url st Ev Hs) Hi) as Hl.
  destruct (download_loop _ _ _ _ _ _ _ _) as [[st1 [bytes|]] slept]; cbn [fst] in Hl; [|exact Hl].
  by destruct (process_downloaded_geoip _ _ _ _ _ _ _).
Qed.

Lemma init_asn_keeps now g d st cache_dir :
  Inv st -> Inv (init_asn_database send now g d st cache_dir).2.
Proof.
  intros Hi. unfold init_asn_database. destruct (asn_reader g) as [|[|]]; try exact Hi.
  destruct (geoip_cache_paths _ _) as [cache_file metadata_file].
  destruct license_key as [key|] eqn:Ek; [|by destruct (fs_exists d cache_file)].
  destruct (should_download _ _ _ _); [|by destruct (fs_exists d cache_file)].
  pose proof (load_from_url_keeps now d st (maxmind_download_url (lit "GeoLite2-ASN") key) cache_dir
                (lit "GeoLite2-ASN")) as Hl.
  destruct (load_from_url _ _ _ _ _ _ _) as [[d1 st1] [loaded|]]; cbn [fst snd] in Hl.
  2: destruct (fs_exists d1 cache_file).
  all: apply Hl; [right; exists (lit "GeoLite2-ASN"), key; split; [set_solver|done]|exact Hi].
Qed.

Lemma load_city_keeps now g d st path cache_path :
  (is_http path = true -> source_permitted path) -> Inv st ->
  Inv (load_city send now g d st path cache_path).1.2.
Proof.
  intros Hs Hi. unfold load_city. destruct (city_reader g) as [|loaded]; [exact Hi|].
  destruct (match loaded with Some (_, metadata) => _ | None => None end); [exact Hi|].
  destruct (is_http path).
  - pose proof (load_from_url_keeps now d st path cache_path (lit "GeoLite2-City") (Hs eq_refl) Hi) as Hl.
    by destruct (load_from_url _ _ _ _ _ _ _) as [[d1 st1] [[reader metadata]|]].
  - by destruct (load_from_file now d path) as [[reader metadata]|].
Qed.
End Keep.

Lemma maxmind_is_http edition key : is_http (maxmind_download_url edition key) = true.
Proof. unfold maxmind_download_url, MAXMIND_DOWNLOAD_BASE, is_http. rewrite orb_true_iff. right.
  apply starts_with_iff. eexists. cbn. reflexivity. Qed.
End Requests.

Section RequestLog.
Context `{F : Fs D} `{FD : !DirFs D} `{FB : !ByteFs D} `{J : RulesetJson} `{M : MaxMindDb}.
Context `{A : ArchiveLib} `{G : GeoEnv} `{N : RulesetNet} `{H : HttpLib}.
Context `{U : UrlLib} `{L : Lowercase} `{T : IpText}.
Context {S : Type} (send : S -> Request -> S * result Response str).

Definition city_cache_path (cache_path : str) : str :=
  path_text (geoip_cache_paths cache_path (lit "GeoLite2-City")).1.

Lemma resolved_source now d geoip_path cache_path path :
  is_http (city_cache_path cache_path) = false ->
  resolve_geoip_source now d geoip_path cache_path = Some path -> is_http path = true ->
  source_permitted geoip_path path.
Proof.
  intros Hc. unfold resolve_geoip_source.
  assert (Hk : ∀ auto, resolve_from_license_key now d cache_path = Some auto -> is_http auto = true ->
            source_permitted geoip_path auto).
  { intros auto. unfold resolve_from_license_key. destruct license_key as [key|] eqn:Ek; [|done].
    cbn [mbind option_bind geoip_cache_paths]. destruct (should_download _ _ _ _); intros [= <-] Hh.
    - right. exists (lit "GeoLite2-City"), key. split; [set_solver|done].
    - change (is_http (city_cache_path cache_path) = true) in Hh. congruence. }
  destruct geoip_path as [p|]; [|apply Hk].
  destruct (is_http p) eqn:Ep; [intros [= <-] _; by left|].
  destruct (fs_exists d (entry_of p)); [intros [= <-]; congruence|].
  destruct (resolve_from_license_key now d cache_path) as [auto|] eqn:Er; cbn; intros [= <-]; [|congruence].
  by apply Hk.
Qed.

(** Every request of a start asks for a checked address with the client that refuses private
    ones: the URL that was configured, or MaxMind's; the licence key is sent nowhere else. *)
Theorem geoip_requests_permitted now g d st geoip_path cache_path :
  is_http (city_cache_path cache_path) = false ->
  Forall (geo_permitted geoip_path)
    (init_geoip (recording send) now g d (st, []) geoip_path cache_path).1.2.2.
Proof.
  intros Hc. set (Inv := λ st : S * list Request, Forall (geo_permitted geoip_path) st.2).
  assert (Hkeep : ∀ st rq, Inv st -> geo_permitted geoip_path rq -> Inv (recording send st rq).1).
  { intros [s l] rq Hi Hp. unfold recording. cbn [fst snd]. destruct (send s rq) as [s' r].
    apply Forall_app. by split; [|apply Forall_singleton]. }
  change (Inv (init_geoip (recording send) now g d (st, []) geoip_path cache_path).1.2).
  assert (H0 : Inv (st, [])) by constructor.
  unfold init_geoip. set (d0 := cleanup_geoip_tmp_orphans d cache_path).
  destruct (resolve_geoip_source _ _ _ _) as [path|] eqn:Er; [|exact H0].
  pose proof (load_city_keeps (recording send) geoip_path Inv Hkeep now g d0 (st, []) path cache_path
                (resolved_source _ _ _ _ _ Hc Er) H0) as Hl.
  destruct (load_city _ _ _ _ _ _ _) as [[[g1 d1] st1] [metadata|]]; cbn [fst snd] in Hl; [|exact Hl].
  pose proof (init_asn_keeps (recording send) geoip_path Inv Hkeep now g1 d1 st1 cache_path Hl) as Ha.
  by destruct (init_asn_database _ _ _ _ _ _) as [[g2 d2] st2].
Qed.

(** A fresh file in the cache is used for any URL: nothing compares the address it came from. *)
Theorem cached_database_of_any_url now d st url cache_dir db_name cached :
  let (cache_file, metadata_file) := geoip_cache_paths cache_dir db_name in
  (fs_create_dir_all d cache_dir).2 = Ok tt ->
  try_load_from_cache now (fs_create_dir_all d cache_dir).1 cache_file metadata_file = Some cached ->
  load_from_url send now d st url cache_dir db_name
  = ((fs_create_dir_all d cache_dir).1, st, Ok cached).
Proof.
  cbn [geoip_cache_paths]. intros Hd Hc.
  unfold load_from_url.
  destruct (fs_create_dir_all d cache_dir) as [d1 [[]|]]; [|done].
  cbn [fst snd geoip_cache_paths] in *. by rewrite Hc.
Qed.
End RequestLog.

(** ** What was downloaded is used again *)

(** What a working file system promises of the bytes [raw d] of its files. *)
Class ByteFsLaws {D} (F : Fs D) (FB : ByteFs D) := {
  raw : D -> Path -> option (list Z);
  fs_read_bytes_law : ∀ d p b, fs_read d p = Ok b -> raw d p = Some b;
  raw_create : ∀ d dir p, raw (fs_create_dir_all d dir).1 p = raw d p;
  raw_write_bytes : ∀ d p b, (fs_write_bytes d p b).2 = Ok tt ->
    raw (fs_write_bytes d p b).1 p = Some b;
  raw_write_other : ∀ d p q content, p <> q -> raw (fs_write d p content).1 q = raw d q;
  raw_rename : ∀ d p q b, (fs_rename d p q).2 = Ok tt -> raw d p = Some b ->
    raw (fs_rename d p q).1 q = Some b;
  raw_rename_failed : ∀ d p q e, (fs_rename d p q).2 = Err e -> raw (fs_rename d p q).1 p = raw d p;
  raw_rename_other : ∀ d p q r, r <> p -> r <> q -> raw (fs_rename d p q).1 r = raw d r;
  raw_remove_other : ∀ d p q, p <> q -> raw (fs_remove_file d p).1 q = raw d q;
}.

Section Reuse.
Context `{F : Fs D} `{FD : !DirFs D} `{FB : !ByteFs D}.
Context `{FL : !FsLaws F} `{!DirFsLaws F FD FL} `{BL : !ByteFsLaws F FB}.
Context `{J : RulesetJson} `{!RulesetJsonLaws J} `{M : MaxMindDb}.
Context `{A : ArchiveLib} `{G : GeoEnv} `{N : RulesetNet} `{H : HttpLib}.
Context `{U : UrlLib} `{L : Lowercase} `{T : IpText}.

Lemma read_geo_metadata m v :
  ser_geo_metadata m = Some v -> plain_doc v = true ∧ de_geo_metadata v = Some m.
Proof.
  unfold ser_geo_metadata. destruct (ser_time _) as [t|] eqn:Et; [|done]. intros [= <-].
  apply time_roundtrip in Et as [Hp Ht]. split; [by cbn; rewrite Hp|].
  transitivity (u ← de_time t; Some (MkGeoMetadata (gm_source m) (gm_version m) u)); [reflexivity|].
  rewrite Ht. by destruct m.
Qed.

Lemma write_atomic_bytes_written d path b d' :
  write_atomic_bytes d path b = (d', Ok tt) -> raw d' path = Some b.
Proof.
  destruct path as [dir name]. unfold write_atomic_bytes.
  destruct (fs_create_dir_all d dir) as [d1 [|]]; [|done]. set (temp := (dir, _ ++ _ ++ _)).
  pose proof (raw_write_bytes d1 temp b) as H1.
  destruct (fs_write_bytes d1 temp b) as [d2 [[]|]]; [|done]. cbn [fst snd] in H1.
  specialize (H1 eq_refl). pose proof (raw_rename d2 temp (dir, name) b) as H2.
  pose proof (raw_rename_failed d2 temp (dir, name)) as H3.
  destruct (fs_rename d2 temp (dir, name)) as [d3 [[]|e]]; cbn [fst snd] in H2, H3.
  - intros [= <-]. by apply H2.
  - destruct (fs_exists d3 (dir, name)); [|done]. specialize (H3 e eq_refl). rewrite H1 in H3.
    assert (Ht : (dir, name) <> temp).
    { unfold temp. intros [= Hn]. apply (f_equal length) in Hn. revert Hn.
      cbn [app lit map String.list_ascii_of_string length]. rewrite length_app. lia. }
    pose proof (raw_remove_other d3 (dir, name) temp Ht) as H4.
    destruct (fs_remove_file d3 (dir, name)) as [d4 [[]|]]; [|done]. cbn [fst] in H4.
    intros Hr. pose proof (raw_rename d4 temp (dir, name) b) as H5. rewrite Hr in H5.
    apply H5; [done|]. congruence.
Qed.

Lemma write_atomic_raw_other d path content q :
  q.1 <> path.1 ∨ q.2 <> path.2 ∧ q.2 <> lit "." ++ path.2 ++ lit ".tmp" ->
  raw (write_atomic d path content).1 q = raw d q.
Proof.
  destruct path as [dir name]. cbn [fst snd]. intros Hq. unfold write_atomic.
  pose proof (raw_create d dir q) as H1.
  destruct (fs_create_dir_all d dir) as [d1 [[]|]]; cbn [fst] in H1 |- *; [|exact H1].
  set (temp := (dir, _ ++ _ ++ _)). set (path := (dir, name)).
  assert (Ht : temp <> q) by (intros <-; cbn in Hq; intuition).
  assert (Hp : path <> q) by (intros <-; cbn in Hq; intuition).
  pose proof (raw_write_other d1 temp q content Ht) as H2.
  destruct (fs_write d1 temp content) as [d2 [[]|]]; cbn [fst] in H2 |- *; [|congruence].
  pose proof (raw_rename_other d2 temp path q ltac:(done) ltac:(done)) as H3.
  destruct (fs_rename d2 temp path) as [d3 [[]|e]]; cbn [fst] in H3 |- *; [congruence|].
  destruct (fs_exists d3 path); cbn [fst]; [|congruence].
  pose proof (raw_remove_other d3 path q Hp) as H4.
  destruct (fs_remove_file d3 path) as [d4 [[]|]]; cbn [fst] in H4 |- *; [|congruence].
  pose proof (raw_rename_other d4 temp path q ltac:(done) ltac:(done)). congruence.
Qed.

(** A database and its metadata on the disk. *)
Definition stored (d : D) (cache_file metadata_file : Path) (reader : Reader) (m : GeoIpMetadata) : Prop :=
  (∃ b, raw d cache_file = Some b ∧ from_source b = Ok reader)
  ∧ (∃ content, file d metadata_file = Some content
       ∧ (read_json content ≫= de_geo_metadata) = Some m).

Lemma processed_stored now d bytes url db_name cache_dir d' reader m :
  let (cache_file, metadata_file) := geoip_cache_paths cache_dir db_name in
  cache_file.2 <> metadata_file.2 ∧ cache_file.2 <> lit "." ++ metadata_file.2 ++ lit ".tmp" ->
  process_downloaded_geoip now d bytes url db_name cache_file metadata_file = (d', Ok (reader, m)) ->
  stored d' cache_file metadata_file reader m ∧ m = extract_metadata now reader url.
Proof.
  destruct (geoip_cache_paths cache_dir db_name) as [cache_file metadata_file]. intros Hne.
  unfold process_downloaded_geoip. destruct (database_bytes _ _ _) as [b|]; [|done].
  destruct (from_source b) as [r|] eqn:Es; [|done].
  destruct (write_atomic_bytes d cache_file b) as [d1 [[]|]] eqn:Ew; [|done].
  destruct (save_metadata d1 _ metadata_file) as [d2 [[]|]] eqn:Em; [|done].
  intros [= <- <- <-]. split; [|done]. apply write_atomic_bytes_written in Ew. split.
  - exists b. split; [|exact Es]. rewrite <- Ew. unfold save_metadata, write_json in Em.
    destruct (_ ≫= print_json) as [text|]; [|done].
    pose proof (write_atomic_raw_other d1 metadata_file text cache_file (or_intror Hne)) as Ho.
    destruct (write_atomic d1 metadata_file text) as [d3 [[]|]]; [|done]. cbn [fst] in Ho.
    injection Em as <-. exact Ho.
  - unfold save_metadata in Em. apply write_json_written in Em as (v & text & Hv & Ht & Hf & _).
    exists text. split; [exact Hf|]. apply read_geo_metadata in Hv as [Hp Hd].
    rewrite (read_print v text Hp Ht). exact Hd.
Qed.

Lemma cached_stored now d cache_file metadata_file reader m :
  entry_of (path_text cache_file) = cache_file ->
  try_load_from_cache now d cache_file metadata_file = Some (reader, m) ->
  stored d cache_file metadata_file reader m.
Proof.
  intros He. unfold try_load_from_cache, load_metadata.
  destruct (fs_read_to_string d metadata_file) as [content|] eqn:Er; [|done].
  destruct (read_json content ≫= de_geo_metadata) as [m'|] eqn:Em; [|done]. cbn [mbind option_bind].
  destruct (cache_ttl_exceeded _ _ _ _); [done|]. destruct (negb _); [done|].
  unfold load_from_file. rewrite He. destruct (fs_read d cache_file) as [b|] eqn:Eb; [|done].
  destruct (from_source b) as [r|] eqn:Es; [|done]. intros [= <- <-]. split.
  - exists b. split; [by apply fs_read_bytes_law|exact Es].
  - exists content. split; [by apply fs_read_law|exact Em].
Qed.

Lemma stored_loads now d cache_file metadata_file reader m :
  entry_of (path_text cache_file) = cache_file ->
  stored d cache_file metadata_file reader m ->
  fs_exists d cache_file && is_ok (fs_read d cache_file)
  && is_ok (fs_read_to_string d metadata_file) = true ->
  cache_ttl_exceeded now (gm_last_updated m) GEOIP_CACHE_TTL_SECS true = false ->
  try_load_from_cache now d cache_file metadata_file = Some (reader, m)
  ∧ should_download now d cache_file metadata_file = false
  ∧ load_from_file now d (path_text cache_file)
    = Ok (reader, extract_metadata now reader (path_text cache_file)).
Proof.
  intros He [(b & Hb & Hs) (content & Hf & Hm)] Hr Ht.
  apply andb_true_iff in Hr as [Hr Hrt]. apply andb_true_iff in Hr as [Hex Hrb].
  destruct (fs_read d cache_file) as [b'|] eqn:Eb; [|done]. apply fs_read_bytes_law in Eb as Hb'.
  destruct (fs_read_to_string d metadata_file) as [c'|] eqn:Ec; [|done]. apply fs_read_law in Ec as Hc'.
  assert (b' = b) as -> by congruence. assert (c' = content) as -> by congruence.
  assert (Hmeta : load_metadata d metadata_file = Some m) by (unfold load_metadata; by rewrite Ec).
  unfold try_load_from_cache, should_download, load_from_file. rewrite Hmeta, He, Eb, Hs.
  cbn [mbind option_bind]. rewrite Ht, Hex. done.
Qed.

(** What a start has loaded from a URL, any start within seven days has from the cache, whatever
    URL it asks for and without a request; with the licence key and no path of its own it reads
    the file itself and has the same database. *)
Theorem saved_database_reused {S S' : Type} (send : S -> Request -> S * result Response str)
    (send' : S' -> Request -> S' * result Response str) now now' d d1 d2 st st1 st2 url url'
    cache_dir reader m :
  let (cache_file, metadata_file) := geoip_cache_paths cache_dir (lit "GeoLite2-City") in
  entry_of (path_text cache_file) = cache_file ->
  load_from_url send now d st url cache_dir (lit "GeoLite2-City") = (d1, st1, Ok (reader, m)) ->
  (fs_create_dir_all d2 cache_dir).2 = Ok tt ->
  (∀ d, d = d2 ∨ d = (fs_create_dir_all d2 cache_dir).1 ->
    raw d cache_file = raw d1 cache_file ∧ file d metadata_file = file d1 metadata_file
    ∧ fs_exists d cache_file && is_ok (fs_read d cache_file)
      && is_ok (fs_read_to_string d metadata_file) = true) ->
  cache_ttl_exceeded now' (gm_last_updated m) GEOIP_CACHE_TTL_SECS true = false ->
  load_from_url send' now' d2 st2 url' cache_dir (lit "GeoLite2-City")
    = ((fs_create_dir_all d2 cache_dir).1, st2, Ok (reader, m))
  ∧ (is_Some license_key ->
     resolve_geoip_source now' d2 None cache_dir = Some (path_text cache_file))
  ∧ (is_http (path_text cache_file) = false ->
     ∃ m', load_city send' now' empty_service d2 st2 (path_text cache_file) cache_dir
           = (MkService (Holds (Some (reader, m'))) (Holds None), d2, st2, Ok m')
       ∧ gm_version m' = lit "build_" ++ dec (build_epoch reader)).
Proof.
  cbn [geoip_cache_paths]. set (cache_file := (cache_dir, lit "GeoLite2-City" ++ lit ".mmdb")).
  set (metadata_file := (cache_dir, _)). intros He Hload Hdir Hlater Hfresh.
  assert (Hst : stored d1 cache_file metadata_file reader m).
  { unfold load_from_url in Hload. destruct (fs_create_dir_all d cache_dir) as [d0 [|]]; [|done].
    cbn [geoip_cache_paths] in Hload. fold cache_file in Hload. fold metadata_file in Hload.
    destruct (try_load_from_cache now d0 cache_file metadata_file) as [cached|] eqn:Et.
    - injection Hload as <- _ ->. by eapply cached_stored.
    - destruct (validate_url_safe url) as [[]|]; [|done].
      destruct (with_network_download_retry _ _ _ _) as [[st' [bytes|]] slept]; [|done].
      destruct (process_downloaded_geoip _ _ _ _ _ _ _) as [d' r] eqn:Ep. injection Hload as -> _ ->.
      pose proof (processed_stored now d0 bytes url (lit "GeoLite2-City") cache_dir d1 reader m) as Hp.
      cbn [geoip_cache_paths] in Hp. apply Hp; [|exact Ep]. split; by vm_compute. }
  assert (Hload' : ∀ d, d = d2 ∨ d = (fs_create_dir_all d2 cache_dir).1 ->
    try_load_from_cache now' d cache_file metadata_file = Some (reader, m)
    ∧ should_download now' d cache_file metadata_file = false
    ∧ load_from_file now' d (path_text cache_file)
      = Ok (reader, extract_metadata now' reader (path_text cache_file))).
  { intros d' Hd'. destruct (Hlater d' Hd') as (Hraw & Hfile & Hreads).
    apply stored_loads; [exact He| |exact Hreads|exact Hfresh].
    destruct Hst as [Hb Hm]. split; [by rewrite Hraw|by rewrite Hfile]. }
  split_and!.
  - apply (cached_database_of_any_url send' now' d2 st2 url' cache_dir (lit "GeoLite2-City")); [done|].
    apply Hload'. by right.
  - intros [key Hk]. unfold resolve_geoip_source, resolve_from_license_key. rewrite Hk.
    cbn [mbind option_bind geoip_cache_paths]. fold cache_file. fold metadata_file.
    by rewrite (proj1 (proj2 (Hload' d2 (or_introl eq_refl)))).
  - intros Hh. exists (extract_metadata now' reader (path_text cache_file)). split; [|done].
    unfold load_city. cbn [city_reader empty_service]. rewrite Hh.
    by rewrite (proj2 (proj2 (Hload' d2 (or_introl eq_refl)))).
Qed.
End Reuse.

(** ** Two starts with a licence key *)

Module DemoGeoIp.
Import DemoWhois DemoRuleset.
#[local] Existing Instance DemoWhois.fs.
#[local] Existing Instance DemoWhois.fs_laws.
#[local] Existing Instance DemoRuleset.dirs.
#[local] Existing Instance DemoRuleset.dirs_laws.
#[local] Existing Instance DemoRuleset.json.
#[local] Existing Instance DemoRuleset.http.
#[local] Existing Instance DemoRuleset.net.
#[local] Existing Instance Net.Demo.urls.
#[local] Existing Instance Net.Demo.ascii_lowercase.

(** The disk keeps bytes and text alike. *)
#[local] Instance bytes : ByteFs Disk := {| fs_read := fs_read_to_string; fs_write_bytes := fs_write |}.
#[local] Instance bytes_laws : ByteFsLaws fs bytes.
Proof.
  exists file.
  - exact fs_read_law.
  - exact fs_create_law.
  - exact fs_write_law.
  - exact fs_write_other.
  - exact fs_rename_law.
  - exact fs_rename_failed.
  - exact fs_rename_other.
  - exact fs_remove_other.
Defined.

#[local] Instance maxmind : MaxMindDb := {|
  Reader := list Z; MmLookup := list Z;
  from_source b := if nonempty b then Ok b else Err (lit "empty");
  build_epoch := λ r, Z.of_nat (length r);
  mm_lookup r _ := Ok r; has_data := nonempty;
  decode_city r := Ok (Some (MkCity (Some r) None [None; Some (lit "second")] None None None None None));
  decode_asn _ := Ok None |}.

#[local] Instance archive : ArchiveLib := {|
  archive_entries _ := Ok [Ok (MkTar (Ok (lit "GeoLite2-City_20240101/LICENSE.txt")) 1 [65] None);
    Ok (MkTar (Ok (lit "GeoLite2-City_20240101/GeoLite2-City.mmdb")) 2 (lit "US") None)] |}.

#[local] Instance env : GeoEnv := {| license_key_var := Some (lit "key"); byte_serialize := id |}.
#[local] Instance addresses : IpText := {|
  ip_to_string := λ _, []; ip_parse s := if nonempty s then Some (V4 (Ipv4Addr 192 0 2 1)) else None |}.

Definition download (st : unit) (rq : Request) : unit * result Response str :=
  (tt, Ok (reply 200 (rq_url rq) [31; 139; 8])).
Definition empty_disk : Disk := ([(([], lit ".old.tmp"), ([], 0))], 1).

Definition first_start :=
  init_geoip (recording download) 0 empty_service empty_disk (tt, []) None (lit "cache/geoip").

(** The City database comes out of the archive of MaxMind, which has no ASN database: three
    attempts, and a start without it.  The metadata on the disk names the URL with the key. *)
Example first_start_downloads :
  let '(g, d, st, r) := first_start in
  (is_enabled g, (λ m, gm_version m) <$> get_metadata g) = (true, Some (lit "build_2"))
  ∧ (gr_country_code <$> lookup_ip g (lit "192.0.2.1")) = Some (Some (lit "US"))
  ∧ asn_reader g = Holds None
  ∧ map rq_url st.2
    = [maxmind_download_url (lit "GeoLite2-City") (lit "key");
       maxmind_download_url (lit "GeoLite2-ASN") (lit "key")]
  ∧ contains (lit "license_key=key")
      (default [] (file d (lit "cache/geoip", lit "geolite2-city_metadata.json"))) = true.
Proof. lazy. split_and!; reflexivity. Qed.

Definition cached_disk : Disk := first_start.1.1.2.
Definition day : Z := 24 * 60 * 60 * nanos_per_sec.

(** The next day a URL of its own gets the database of MaxMind from the cache. *)
Definition mirror : str := lit "https://mirror.example/other.mmdb".
Definition second_start :=
  init_geoip (recording unreachable) day empty_service cached_disk (tt, []) (Some mirror)
    (lit "cache/geoip").

Example other_url_gets_the_cached_database :
  let '(g, d, st, r) := second_start in
  (gr_country_code <$> lookup_ip g (lit "192.0.2.1")) = Some (Some (lit "US"))
  ∧ (gm_source <$> get_metadata g) = Some (maxmind_download_url (lit "GeoLite2-City") (lit "key"))
  ∧ map rq_url st.2 = repeat (maxmind_download_url (lit "GeoLite2-ASN") (lit "key")) 3.
Proof. lazy. split_and!; reflexivity. Qed.

Lemma geoip_requests_permitted_witness :
  Forall (geo_permitted (Some mirror)) second_start.1.2.2 ∧ length second_start.1.2.2 = 3%nat.
Proof.
  split; [|lazy; reflexivity].
  apply (geoip_requests_permitted unreachable day empty_service cached_disk tt (Some mirror)
           (lit "cache/geoip")).
  by vm_compute.
Defined.

Example too_many_entries :
  extract_entries (lit "GeoLite2-City") 0
    (repeat (Ok (MkTar (Ok (lit "a")) 0 [] None)) 128
     ++ [Ok (MkTar (Ok (lit "GeoLite2-City.mmdb")) 0 [] None)])
  = Err (plain_error (lit "GeoIP archive exceeded entry inspection limit (max: 128)")).
Proof. by vm_compute. Qed.
End DemoGeoIp.
