(* ===== verification/UserAgent.v ===== *)
(** * The User-Agent ([src/src/user_agent.rs])

    The version of Chrome in the default User-Agent is asked for at one of two addresses, kept
    in a file for thirty days and replaced by a constant when neither answers.  Network, files
    and the text of JSON are those of Ruleset.v; whether the HTTP client takes a text as the
    value of its header is a parameter. *)

From S2P Require Import Prelude Sanitize Net Security Redirects Errors Retry Dns StrIndex.
From S2P Require Import Domain Response Scripts WellKnown Whois Json Models Ruleset.

Definition FALLBACK_CHROME_VERSION : str := lit "131.0.0.0".
Definition USER_AGENT_CACHE_TTL_SECS : Z := 30 * 24 * 60 * 60.

Record UserAgentMetadata := MkUserAgent { chrome_version : str; ua_last_updated : Z }.

Definition chrome_sources : list str :=
  [lit "https://googlechromelabs.github.io/chrome-for-testing/"
   ++ lit "last-known-good-versions-with-downloads.json";
   lit "https://chromedriver.storage.googleapis.com/LATEST_RELEASE"].

(** [split('.').next()] of a text is its first piece. *)
Definition major_version (version : str) : str :=
  match split_char 46 version with major :: _ => major | [] => version end.

Definition de_option {A} (de : Value -> option A) (v : Value) : option (option A) :=
  match v with Null => Some None | _ => Some <$> de v end.

(** [ChromeVersions], [ChromeChannels] and [ChromeVersion]. *)
Definition de_chrome_version (v : Value) : option str :=
  de_struct 1 (λ field, field _ 0%nat ["version"%string] de_string None) v.
Definition de_chrome_channels (v : Value) : option (option str) :=
  de_struct 1 (λ field, field _ 0%nat ["Stable"%string] (de_option de_chrome_version) (Some None)) v.
Definition de_chrome_versions (v : Value) : option (option (option str)) :=
  de_struct 1 (λ field, field _ 0%nat ["channels"%string] (de_option de_chrome_channels) (Some None)) v.

Section UserAgent.
Context `{F : Fs D} `{J : RulesetJson} `{N : RulesetNet} `{H : HttpLib}.
Context {S : Type} (send : S -> Request -> S * result Response str).

(** The answer of a source. *)
Definition parse_chrome_version (url text : str) : result str AnyhowError :=
  if contains (lit "LATEST_RELEASE") url then
    Ok (major_version (trim text) ++ lit ".0.0.0")
  else if contains (lit "chrome-for-testing") url then
    match read_json text ≫= de_chrome_versions with
    | None => Err (plain_error (json_error text))
    | Some (Some (Some stable)) => Ok (major_version stable ++ lit ".0.0.0")
    | Some _ => Err (plain_error (lit "No stable version found in JSON"))
    end
  else Ok (trim text).

Definition try_fetch_chrome_version (st : S) (url : str) : S * result str AnyhowError :=
  match build_download_client with
  | Err e => (st, Err e)
  | Ok _ =>
      match send st (MkRequest SsrfSafeClient url []) with
      | (st, Err e) => (st, Err (plain_error e))
      | (st, Ok response) =>
          (st,
           if negb (is_success (status response)) then
             Err (plain_error (lit "HTTP " ++ status_text (status response)))
           else match response_text response with
                | Err e => Err (plain_error e)
                | Ok text => parse_chrome_version url text
                end)
      end
  end.

Fixpoint fetch_from_sources (st : S) (sources : list str) : S * str :=
  match sources with
  | [] => (st, FALLBACK_CHROME_VERSION)
  | source :: sources =>
      match try_fetch_chrome_version st source with
      | (st, Ok version) => (st, version)
      | (st, Err _) => fetch_from_sources st sources
      end
  end.
Definition fetch_latest_chrome_version (st : S) : S * str := fetch_from_sources st chrome_sources.

Definition ser_user_agent (m : UserAgentMetadata) : option Value :=
  last_updated ← ser_time (ua_last_updated m);
  Some (Object [(lit "chrome_version", Str (chrome_version m)); (lit "last_updated", last_updated)]).

Definition de_user_agent (v : Value) : option UserAgentMetadata :=
  de_struct 2 (λ field,
    version ← field _ 0%nat ["chrome_version"%string] de_string None;
    last_updated ← field _ 1%nat ["last_updated"%string] de_time None;
    Some (MkUserAgent version last_updated)) v.

Definition version_file (cache_dir : str) : Path := (cache_dir, lit "version.json").

Definition load_version (now : Z) (d : D) (cache_dir : str) : option str :=
  let metadata_path := version_file cache_dir in
  if negb (fs_exists d metadata_path) then None
  else match fs_read_to_string d metadata_path with
       | Err _ => None
       | Ok metadata_json =>
           metadata ← read_json metadata_json ≫= de_user_agent;
           if cache_ttl_exceeded now (ua_last_updated metadata) USER_AGENT_CACHE_TTL_SECS false
           then None else Some (chrome_version metadata)
       end.

Definition save_version (now : Z) (d : D) (cache_dir version : str) : D * result unit AnyhowError :=
  match fs_create_dir_all d cache_dir with
  | (d, Err e) => (d, Err (plain_error e))
  | (d, Ok _) => write_json d (version_file cache_dir) (ser_user_agent (MkUserAgent version now))
  end.

Definition get_chrome_version (now : Z) (d : D) (st : S) (cache_path : str) : D * S * str :=
  match load_version now d cache_path with
  | Some version => (d, st, version)
  | None =>
      let (st, version) := fetch_latest_chrome_version st in
      ((save_version now d cache_path version).1, st, version)
  end.
End UserAgent.

Definition generate_user_agent (chrome_version : str) : str :=
  lit "Mozilla/5.0 (Windows NT 10.0; Win64; x64) AppleWebKit/537.36 (KHTML, like Gecko) Chrome/"
  ++ chrome_version ++ lit " Safari/537.36".

(** run/init.rs: only the default is replaced. *)
Definition startup_user_agent `{F : Fs D} `{J : RulesetJson} `{N : RulesetNet} `{H : HttpLib} {S : Type}
  (send : S -> Request -> S * result Response str) (default_user_agent user_agent : str) (now : Z)
  (d : D) (st : S) (cache_path : str) : D * S * str :=
  if streqb user_agent default_user_agent then
    let '(d, st, version) := get_chrome_version send now d st cache_path in
    (d, st, generate_user_agent version)
  else (d, st, user_agent).

(** ** Theorems *)

Section Properties.
Context `{F : Fs D} `{FL : !FsLaws F} `{FD : !DirFs D} `{!DirFsLaws F FD FL}.
Context `{J : RulesetJson} `{!RulesetJsonLaws J} `{N : RulesetNet} `{H : HttpLib}.

(** Either source gives a version of the form [major.0.0.0], where [major] is what stands before
    the first dot, whatever it is. *)
Lemma fetched_version {S} (send : S -> Request -> S * result Response str) st st' version :
  fetch_latest_chrome_version send st = (st', version) ->
  ∃ major, version = major ++ lit ".0.0.0" ∧ (46 ∉ major).
Proof.
  assert (Hm : ∀ text, (46 ∉ major_version text)).
  { intros text. unfold major_version. destruct (split_char_cons 46 text) as (h & r & E).
    pose proof (split_char_pieces 46 text) as Hp. rewrite E in *. by inversion Hp. }
  assert (Hparse : ∀ url text v, url ∈ chrome_sources -> parse_chrome_version url text = Ok v ->
            ∃ major, v = major ++ lit ".0.0.0" ∧ (46 ∉ major)).
  { intros url text v Hu. unfold parse_chrome_version.
    destruct (contains (lit "LATEST_RELEASE") url) eqn:E1; [intros [= <-]; by eexists|].
    assert (contains (lit "chrome-for-testing") url = true) as ->.
    { revert E1. apply elem_of_cons in Hu as [->|Hu]; [by vm_compute|].
      apply list_elem_of_singleton in Hu as ->. by vm_compute. }
    destruct (read_json text ≫= _) as [[[stable|]|]|]; try done. intros [= <-]. by eexists. }
  unfold fetch_latest_chrome_version. assert (Hin : ∀ url, url ∈ chrome_sources -> url ∈ chrome_sources) by done.
  revert Hin st. generalize chrome_sources at 1 3. induction l as [|source l IH]; intros Hin st.
  - cbn. intros [= <- <-]. exists (lit "131"). split; [done|]. apply (bool_decide_unpack _). by vm_compute.
  - cbn [fetch_from_sources]. destruct (try_fetch_chrome_version send st source) as [st1 [v|]] eqn:E.
    + intros [= <- <-]. revert E. unfold try_fetch_chrome_version.
      destruct build_download_client; [|done]. destruct (send st _) as [st2 [resp|]]; [|done].
      destruct (negb _); [done|]. destruct (response_text resp) as [text|]; [|done]. intros [= _ Hv].
      apply (Hparse source text v); [|exact Hv]. apply Hin. by left.
    + apply IH. intros url Hu. apply Hin. by right.
Qed.

Lemma read_user_agent m v :
  ser_user_agent m = Some v -> plain_doc v = true ∧ de_user_agent v = Some m.
Proof.
  unfold ser_user_agent. destruct (ser_time _) as [t|] eqn:Et; [|done]. intros [= <-].
  apply time_roundtrip in Et as [Hp Ht]. split; [by cbn; rewrite Hp|].
  transitivity (u ← de_time t; Some (MkUserAgent (chrome_version m) u)); [reflexivity|].
  rewrite Ht. by destruct m.
Qed.

(** The version that a start saved is the one of every start within thirty days, without a
    request, whatever it is. *)
Theorem saved_version_reused {S} (send : S -> Request -> S * result Response str) now now' d d1 d2 st
    cache_path version :
  save_version now d cache_path version = (d1, Ok tt) ->
  file d2 (version_file cache_path) = file d1 (version_file cache_path) ->
  fs_exists d2 (version_file cache_path)
  && is_ok (fs_read_to_string d2 (version_file cache_path)) = true ->
  cache_ttl_exceeded now' now USER_AGENT_CACHE_TTL_SECS false = false ->
  get_chrome_version send now' d2 st cache_path = (d2, st, version).
Proof.
  intros Hsave Hsame Hr Hfresh. unfold save_version in Hsave.
  destruct (fs_create_dir_all d cache_path) as [d0 [|]]; [|done].
  apply write_json_written in Hsave as (v & text & Hv & Ht & Hf & _).
  apply read_user_agent in Hv as [Hp Hd].
  apply andb_true_iff in Hr as [Hex Hrd].
  destruct (fs_read_to_string d2 (version_file cache_path)) as [text'|] eqn:Er; [|done].
  apply fs_read_law in Er as Hc. assert (text' = text) as -> by congruence.
  unfold get_chrome_version, load_version. rewrite Hex, Er, (read_print v text Hp Ht).
  cbn [negb mbind option_bind]. rewrite Hd. cbn [mbind option_bind ua_last_updated chrome_version].
  by rewrite Hfresh.
Qed.
End Properties.

(** ** A sign-in page in place of the version *)

Module DemoUserAgent.
Import DemoWhois DemoRuleset.
#[local] Existing Instance DemoWhois.fs.
#[local] Existing Instance DemoRuleset.json.
#[local] Existing Instance DemoRuleset.http.
#[local] Existing Instance DemoRuleset.net.

(** The bytes that the [http] crate takes in a header value. *)
Definition header_byte (b : Z) : bool := (b =? 9) || ((32 <=? b) && negb (b =? 127)).
Definition header_value_ok (s : str) : bool := forallb header_byte s.

Definition versions (st : unit) (rq : Request) : unit * result Response str :=
  (tt, Ok (reply 200 (rq_url rq)
    (text_of (Object [(lit "channels", Object [(lit "Stable",
       Object [(lit "version", Str (lit "140.0.7339.80"))])])])))).
Definition portal (st : unit) (rq : Request) : unit * result Response str :=
  (tt, Ok (reply 200 (rq_url rq) (lit "<html>" ++ [10] ++ lit "Sign in.</html>"))).

Definition start (send : unit -> Request -> unit * result Response str) (d : Disk) :=
  startup_user_agent send (lit "default") (lit "default") 0 d tt (lit "cache").

Example usual_start :
  (start versions ([], 0)).2 = generate_user_agent (lit "140.0.0.0")
  ∧ header_value_ok (start versions ([], 0)).2 = true.
Proof. by vm_compute. Qed.

Example fallback_start : (start unreachable ([], 0)).2 = generate_user_agent FALLBACK_CHROME_VERSION.
Proof. by vm_compute. Qed.

(** The page is taken for a version: no client can be built with it, now or, from the cache, at
    a start on the next day with a working network. *)
Example portal_page_is_kept :
  let '(d, _, user_agent) := start portal ([], 0) in
  header_value_ok user_agent = false
  ∧ (startup_user_agent versions (lit "default") (lit "default") (24 * 60 * 60 * nanos_per_sec) d tt
       (lit "cache")).2 = user_agent.
Proof. by vm_compute. Qed.
End DemoUserAgent.
