(* ===== verification/Html.v ===== *)
(** * Page content ([src/src/fetch/response/html.rs] and [src/src/parse/])

    Everything that is read off a page: title, description, meta tags, scripts, structured
    data, social and contact links, analytics ids, hints and icons.  The HTML parser
    ([scraper]) and the [regex] crate are parameters; the code's patterns are constants, which
    compile.  A slice that would panic makes the whole parse [None]. *)

From Stdlib Require Import SpecFloat.
From S2P Require Import Prelude Sanitize Net Errors Json Dns ExportRow StorageRecord StrIndex.
From S2P Require Import Response Literals Jwt Gitleaks Secrets.

Record HtmlData := MkHtmlData {
  hd_title : str;
  hd_description : option str;
  hd_structured_data : StructuredData;
  hd_social_media_links : list PageSocialLink;
  hd_contact_links : list ContactLink;
  hd_exposed_secrets : list ExposedSecret;
  hd_analytics_ids : list AnalyticsId;
  hd_meta_tags : gmap str (list str);
  hd_script_sources : list str;
  hd_script_tag_ids : gset str;
  hd_inline_script_text : str;
  hd_external_scripts_eligible : Z;
  hd_external_scripts_scanned : Z;
  hd_favicon_url : option str;
  hd_canonical_url : option str;
  hd_meta_refresh_url : option str;
  hd_meta_robots : option str;
  hd_resource_hints : list (str * str);
}.

(** The [scraper] crate: selectors are CSS; [text] is the concatenated text of an element. *)
Class HtmlLib := {
  Document : Type;
  Element : Type;
  parse_document : str -> Document;
  select : Document -> str -> list Element;
  attr : Element -> str -> option str;
  text : Element -> str;
  inner_html : Element -> str;
}.

#[export] Instance ContactType_eq_dec : EqDecision ContactType.
Proof. solve_decision. Defined.
#[export] Instance AnalyticsProvider_eq_dec : EqDecision AnalyticsProvider.
Proof. solve_decision. Defined.

(** A raw string in which [~] stands for a double quote. *)
Definition raw (s : string) : str := map (λ c, if c =? 126 then 34 else c) (lit s).

(** ** parse/html.rs *)

Fixpoint strip_html_tags_go (in_tag : bool) (html : str) : str :=
  match html with
  | [] => []
  | ch :: html =>
      if ch =? 60 then strip_html_tags_go true html
      else if ch =? 62 then strip_html_tags_go false html
      else if negb in_tag then ch :: strip_html_tags_go in_tag html
      else strip_html_tags_go in_tag html
  end.
Definition strip_html_tags (html : str) : str := strip_html_tags_go false html.

Section Basic.
Context `{D : HtmlLib}.

Definition extract_title (document : Document) (stats : ProcessingStats) : ProcessingStats * str :=
  match head (select document (lit "title")) with
  | None => (increment_warning stats MissingTitle, [])
  | Some element =>
      let title := trim (text element) in
      if nonempty title then (stats, title)
      else
        let inner := trim (strip_html_tags (inner_html element)) in
        if nonempty inner then (stats, inner) else (increment_warning stats MissingTitle, [])
  end.

Definition extract_meta_description (document : Document) (stats : ProcessingStats)
  : ProcessingStats * option str :=
  let meta_description :=
    element ← head (select document (lit "meta[name='description']"));
    trim <$> attr element (lit "content") in
  (match meta_description with
   | None => increment_warning stats MissingMetaDescription
   | Some _ => stats
   end, meta_description).
End Basic.

(** ** parse/structured.rs *)

Definition is_json_ld_script_type (script_type : str) : bool :=
  match split_char 59 script_type with
  | mime :: _ => eq_ignore_ascii_case (trim mime) (lit "application/ld+json")
  | [] => false
  end.

Definition push_schema_type (schema_types : list str) (type_str : str) : list str :=
  let trimmed := trim type_str in
  if nonempty trimmed then schema_types ++ [trimmed] else schema_types.

Definition push_type_value (type_value : Value) (schema_types : list str) : list str :=
  match type_value with
  | Str type_str => push_schema_type schema_types type_str
  | Arr type_array =>
      foldl (λ types t, match t with Str t => push_schema_type types t | _ => types end)
        schema_types type_array
  | _ => schema_types
  end.

Fixpoint collect_schema_types (value : Value) (schema_types : list str) : list str :=
  match value with
  | Arr items => foldl (λ types item, collect_schema_types item types) schema_types items
  | Object obj =>
      let schema_types :=
        match Json.get value (lit "@type") with
        | Some type_value => push_type_value type_value schema_types
        | None => schema_types
        end in
      (fix graph_of (obj : Map) : list str :=
         match obj with
         | [] => schema_types
         | (k, graph) :: obj =>
             if streqb k (lit "@graph") then collect_schema_types graph schema_types
             else graph_of obj
         end) obj
  | _ => schema_types
  end.

Section Structured.
Context `{D : HtmlLib} `{J : Serde}.

(** [from_str::<Vec<Value>>] succeeds exactly on arrays. *)
Definition parse_json_ld_block (json_str : str) (json_ld_scripts : list Value) : list Value :=
  let json_str := trim json_str in
  if negb (nonempty json_str) then json_ld_scripts
  else
    match from_str json_str with
    | Some (Arr json_array) => json_ld_scripts ++ json_array
    | Some json_value => json_ld_scripts ++ [json_value]
    | None => json_ld_scripts
    end.

Definition extract_json_ld (document : Document) : list Value :=
  foldl (λ json_ld_scripts element,
      match attr element (lit "type") with
      | None => json_ld_scripts
      | Some script_type =>
          if negb (is_json_ld_script_type script_type) then json_ld_scripts
          else parse_json_ld_block (text element) json_ld_scripts
      end)
    [] (select document (lit "script")).

(** The contents of the elements of a selector under one attribute; the last one wins. *)
Definition tag_map (document : Document) (selector name : str) : gmap str str :=
  foldl (λ tags element,
      match attr element name, attr element (lit "content") with
      | Some key, Some content => <[key := content]> tags
      | _, _ => tags
      end)
    ∅ (select document selector).

Definition extract_open_graph (document : Document) : gmap str str :=
  tag_map document (raw "meta[property^=~og:~]") (lit "property").
Definition extract_twitter_cards (document : Document) : gmap str str :=
  tag_map document (raw "meta[name^=~twitter:~]") (lit "name").

Definition extract_structured_data (document : Document) : StructuredData :=
  let json_ld := extract_json_ld document in
  MkStructuredData json_ld (extract_open_graph document) (extract_twitter_cards document)
    (foldl (λ types v, collect_schema_types v types) [] json_ld).
End Structured.

(** ** parse/contact.rs *)

Definition hex_val (b : Z) : option Z :=
  if (48 <=? b) && (b <=? 57) then Some (b - 48)
  else if (97 <=? b) && (b <=? 102) then Some (b - 97 + 10)
  else if (65 <=? b) && (b <=? 70) then Some (b - 65 + 10)
  else None.

Fixpoint percent_decode_bytes (bytes : list Z) : list Z :=
  match bytes with
  | [] => []
  | b :: rest =>
      match rest with
      | h :: l :: after =>
          if b =? 37 then
            match hex_val h, hex_val l with
            | Some hi, Some lo => Z.lor (Z.shiftl hi 4) lo :: percent_decode_bytes after
            | _, _ => b :: percent_decode_bytes rest
            end
          else b :: percent_decode_bytes rest
      | _ => b :: percent_decode_bytes rest
      end
  end.
Definition percent_decode (s : str) : str := from_utf8_lossy (percent_decode_bytes (encode s)).

(** The links so far and the pairs seen. *)
Definition LinkState : Type := list ContactLink * list (ContactType * str).

Definition push_contact (st : LinkState) (contact_type : ContactType) (value href : str)
  : LinkState :=
  let (links, seen) := st in
  if negb (nonempty value) then st
  else if bool_decide ((contact_type, value) ∈ seen) then st
  else (links ++ [MkContactLink contact_type value href], (contact_type, value) :: seen).

Definition contact_link `{L : Lowercase} (st : LinkState) (href : str) : option LinkState :=
  let href_lower := to_lowercase href in
  if starts_with (lit "mailto:") href_lower then
    rest ← slice_from href 7;
    Some (push_contact st Email (percent_decode (trim (before_char 63 rest))) href)
  else if starts_with (lit "tel:") href_lower then
    rest ← slice_from href 4;
    Some (push_contact st Phone (percent_decode (trim rest)) href)
  else Some st.

Definition anchor_hrefs `{D : HtmlLib} (document : Document) : list str :=
  omap (λ element, attr element (lit "href")) (select document (lit "a[href]")).

Definition extract_contact_links `{D : HtmlLib} `{L : Lowercase} (document : Document)
  : option (list ContactLink) :=
  fst <$> each contact_link ([], []) (anchor_hrefs document).

(** ** parse/social.rs *)

Definition SOCIAL_PATTERNS : list (str * SocialPlatform) :=
  [(lit "https?://(?:www\.)?linkedin\.com/(?:company|in|pub)/([^/?#]+)", LinkedIn);
   (lit "https?://(?:www\.)?(?:twitter\.com|x\.com)/([^/?#]+)", Twitter);
   (lit "https?://(?:www\.)?facebook\.com/([^/?#]+)", Facebook);
   (lit "https?://(?:www\.)?instagram\.com/([^/?#]+)", Instagram);
   (lit "https?://(?:www\.)?youtube\.com/(?:channel|c|user)/([^/?#]+)", YouTube);
   (lit "https?://(?:www\.)?github\.com/([^/?#]+)", GitHub);
   (lit "https?://(?:www\.)?tiktok\.com/@([^/?#]+)", TikTok);
   (lit "https?://(?:www\.)?pinterest\.(?:com|co\.uk)/([^/?#]+)", Pinterest);
   (lit "https?://(?:www\.)?snapchat\.com/add/([^/?#]+)", Snapchat);
   (lit "https?://(?:www\.)?reddit\.com/(?:r|u)/([^/?#]+)", Reddit)].

Section Patterns.
Context `{X : SpanRegex}.

(** The matches of a constant pattern. *)
Definition pattern_matches (pattern body : str) : list Groups :=
  match rx_new pattern with Some re => captures_iter re body | None => [] end.

Definition full_social_url (href : str) : option str :=
  if starts_with (lit "http://") href || starts_with (lit "https://") href then Some href
  else if starts_with (lit "//") href then Some (lit "https:" ++ href)
  else if starts_with (lit "/") href then None
  else Some (lit "https://" ++ href).

Fixpoint social_link (patterns : list (str * SocialPlatform)) (href : str) : option PageSocialLink :=
  match patterns with
  | [] => None
  | (pattern, platform) :: patterns =>
      match head (pattern_matches pattern href) with
      | None => social_link patterns href
      | Some caps =>
          match full_social_url href with
          | None => social_link patterns href
          | Some full_url => Some (MkSocialLink platform full_url (group href caps 1))
          end
      end
  end.

Definition push_social (st : list PageSocialLink * list str) (href : str)
  : list PageSocialLink * list str :=
  let (links, seen_urls) := st in
  if bool_decide (href ∈ seen_urls) then st
  else
    match social_link SOCIAL_PATTERNS href with
    | Some link => (links ++ [link], href :: seen_urls)
    | None => st
    end.

Definition extract_social_media_links `{D : HtmlLib} (document : Document) : list PageSocialLink :=
  (foldl push_social ([], []) (anchor_hrefs document)).1.

(** ** parse/analytics.rs *)

Definition MIN_GTM_ID_LENGTH : nat := 8.
Definition id_as_is (captured : str) : str := captured.
Definition id_adsense_pub (captured : str) : str := lit "pub-" ++ captured.
Definition accept_all (_ : str) : bool := true.
Definition is_valid_gtm_id (id : str) : bool :=
  starts_with (lit "GTM-") id && (MIN_GTM_ID_LENGTH <=? blen id)%nat
  && forallb (λ c, is_ascii_upper c || is_ascii_digit c) (drop 4 id).

Record AnalyticsRule := MkAnalyticsRule {
  ar_regex : str;
  ar_provider : AnalyticsProvider;
  ar_map_id : str -> str;
  ar_accept : str -> bool;
}.

Definition ANALYTICS_RULES : list AnalyticsRule :=
  [MkAnalyticsRule (raw "(?i)ga\s*\(\s*['~]create['~]\s*,\s*['~](UA-\d+-\d+)['~]")
     GoogleAnalytics id_as_is accept_all;
   MkAnalyticsRule (raw "(?i)gtag\s*\(\s*['~]config['~]\s*,\s*['~](G-[A-Z0-9]+)['~]")
     GoogleAnalytics4 id_as_is accept_all;
   MkAnalyticsRule (raw "(?i)fbq\s*\(\s*['~]init['~]\s*,\s*['~](\d+)['~]")
     FacebookPixel id_as_is accept_all;
   MkAnalyticsRule
     (raw "(?i)(?:gtm|googletagmanager|dataLayer|tagIds|gtm\.js|ns\.html)[^'~~>]*['~~>]?\s*[:=,]\s*['~]?(GTM-[A-Z0-9]{4,})\b")
     GoogleTagManager id_as_is is_valid_gtm_id;
   MkAnalyticsRule (lit "\b(GTM-[A-Z0-9]{4,})\b") GoogleTagManager id_as_is is_valid_gtm_id;
   MkAnalyticsRule (lit "(?i)(?:ca-)?pub-(\d{10,})") GoogleAdSense id_adsense_pub accept_all].

Definition push_analytics (rule : AnalyticsRule) (html : str) (ids : list AnalyticsId) (cap : Groups)
  : list AnalyticsId :=
  match group html cap 1 with
  | None => ids
  | Some captured =>
      let id_str := ar_map_id rule captured in
      if negb (ar_accept rule id_str) then ids
      else if bool_decide ((ar_provider rule, id_str) ∈ map (λ a, (ai_provider a, ai_id a)) ids)
      then ids
      else ids ++ [MkAnalyticsId (ar_provider rule) id_str]
  end.

Definition extract_analytics_ids (html : str) : list AnalyticsId :=
  foldl (λ ids rule, foldl (push_analytics rule html) ids (pattern_matches (ar_regex rule) html))
    [] ANALYTICS_RULES.
End Patterns.

(** ** fetch/response/html.rs *)

Definition SCRIPT_SRC_RE : str := raw "(?i)<script[^>]*src\s*=\s*[~']([^~']+)[~']".

Definition RESOURCE_HINT_SELECTOR : str :=
  raw "link[rel=~preconnect~], link[rel=~dns-prefetch~], link[rel=~preload~], link[rel=~prefetch~], link[rel=~modulepreload~]".

(** What the walk over the [script] elements gathers. *)
Record ScriptWalk := MkWalk {
  sw_sources : list str;
  sw_tag_ids : gset str;
  sw_inline_parts : list str;
}.

(** [content.to_lowercase().find("url=")], and a slice of [content] four bytes after it. *)
Definition refresh_target `{L : Lowercase} (content : str) : option (option str) :=
  match find (lit "url=") (to_lowercase content) with
  | None => Some None
  | Some pos =>
      rest ← slice_from content (pos + 4);
      let url_part := trim rest in
      Some (if nonempty url_part then Some url_part else None)
  end.

Section Page.
Context `{U : UrlLib} `{D : HtmlLib} `{L : Lowercase} `{X : SpanRegex} `{A : AcOverlap}
  `{B : Base64} `{J : Serde} `{G : Log2}.

(** One of the three kinds of keys of a meta element. *)
Definition meta_entry (element : Element) (kind : str) : option (str * str) :=
  name ← attr element kind;
  content ← attr element (lit "content");
  Some (kind ++ lit ":" ++ to_lowercase name, content).

Definition meta_entries (element : Element) : list (str * str) :=
  omap (meta_entry element) (map lit ["name"; "property"; "http-equiv"]%string).

(** [entry(key).or_default().push(content)]. *)
Definition push_meta (m : gmap str (list str)) (e : str * str) : gmap str (list str) :=
  <[e.1 := default [] (m !! e.1) ++ [e.2]]> m.

Definition extract_meta_tags (document : Document) : gmap str (list str) :=
  foldl (λ m element, foldl push_meta m (meta_entries element)) ∅ (select document (lit "meta")).

Definition inline_script (element : Element) : option str :=
  let script_type := to_ascii_lowercase (default [] (attr element (lit "type"))) in
  if contains (lit "ld+json") script_type || contains (lit "json") script_type then None
  else
    let body := text element in
    let trimmed := trim body in
    if negb (nonempty trimmed) then None
    else if starts_with (lit "{") trimmed || starts_with (lit "[") trimmed then None
    else Some body.

Definition walk_script (w : ScriptWalk) (element : Element) : ScriptWalk :=
  let tag_ids :=
    match attr element (lit "id") with
    | Some id => {[id]} ∪ sw_tag_ids w
    | None => sw_tag_ids w
    end in
  match attr element (lit "src") with
  | Some (c :: src) => MkWalk (sw_sources w ++ [c :: src]) tag_ids (sw_inline_parts w)
  | _ =>
      MkWalk (sw_sources w) tag_ids
        (match inline_script element with
         | Some body => sw_inline_parts w ++ [body]
         | None => sw_inline_parts w
         end)
  end.

Definition add_script_source (sources : list str) (src : str) : list str :=
  if bool_decide (src ∈ sources) then sources else sources ++ [src].

Definition regex_extracted_scripts (body : str) : list str :=
  omap (λ cap, group body cap 1) (pattern_matches SCRIPT_SRC_RE body).

Definition first_href (document : Document) (selector : str) : option str :=
  head (List.filter nonempty
    (omap (λ element, attr element (lit "href")) (select document selector))).

Definition first_meta (meta_tags : gmap str (list str)) (key : str) : option str :=
  meta_tags !! key ≫= head.

Definition hint_hostname (href : str) : option str :=
  if starts_with (lit "//") href then
    u ← url_parse (lit "https:" ++ href); to_lowercase <$> url_host_str u
  else if starts_with (lit "http://") href || starts_with (lit "https://") href then
    u ← url_parse href; to_lowercase <$> url_host_str u
  else Some (to_lowercase (trim_end_by (Z.eqb 47) href)).

Definition resource_hint (element : Element) : option (str * str) :=
  rel ← attr element (lit "rel");
  href ← attr element (lit "href");
  if negb (nonempty href) then None
  else
    let rel_lower := to_ascii_lowercase rel in
    if streqb rel_lower (lit "preconnect") || streqb rel_lower (lit "dns-prefetch") then
      hostname ← hint_hostname href;
      if negb (nonempty hostname) || negb (contains_char 46 hostname) then None
      else Some (rel_lower, hostname)
    else Some (rel_lower, href).

(** The statistics survive a panic. *)
Definition parse_html_content (config : GitleaksCompiled) (body : str) (stats : ProcessingStats)
  : ProcessingStats * option HtmlData :=
  let document := parse_document body in
  let (stats, title) := extract_title document stats in
  let (stats, description) := extract_meta_description document stats in
  (stats,
   let structured_data := extract_structured_data document in
   let social_media_links := extract_social_media_links document in
   contact_links ← extract_contact_links document;
   exposed_secrets ← detect_exposed_secrets config body;
   let analytics_ids := extract_analytics_ids body in
   let meta_tags := extract_meta_tags document in
   let walk := foldl walk_script (MkWalk [] ∅ []) (select document (lit "script")) in
   let inline_script_text := to_lowercase (join [10] (sw_inline_parts walk)) in
   let script_sources :=
     foldl add_script_source (sw_sources walk) (regex_extracted_scripts body) in
   let canonical_url := first_href document (raw "link[rel=~canonical~]") in
   meta_refresh_url ←
     (match first_meta meta_tags (lit "http-equiv:refresh") with
      | Some content => refresh_target content
      | None => Some None
      end);
   let resource_hints := omap resource_hint (select document RESOURCE_HINT_SELECTOR) in
   let favicon_url := first_href document (raw "link[rel~=~icon~], link[rel=~shortcut icon~]") in
   let meta_robots :=
     v ← first_meta meta_tags (lit "name:robots"); if nonempty v then Some v else None in
   Some (MkHtmlData title description structured_data social_media_links contact_links
           exposed_secrets analytics_ids meta_tags script_sources (sw_tag_ids walk)
           inline_script_text 0 0 favicon_url canonical_url meta_refresh_url meta_robots
           resource_hints)).
End Page.

(** ** Lemmas: percent decoding *)

Definition upper_hex (d : Z) : Z := if d <? 10 then 48 + d else 55 + d.

(** Percent encoding of every byte but the ones to keep. *)
Definition percent_byte (keep : Z -> bool) (b : Z) : list Z :=
  if keep b then [b] else [37; upper_hex (b / 16); upper_hex (b mod 16)].
Definition percent_encode (keep : Z -> bool) (s : str) : str :=
  concat (map (percent_byte keep) (encode s)).

Lemma hex_val_upper d : 0 <= d < 16 -> hex_val (upper_hex d) = Some d.
Proof.
  intros Hd. unfold upper_hex, hex_val. destruct (Z.ltb_spec d 10).
  - replace ((48 <=? 48 + d) && (48 + d <=? 57)) with true by lia. f_equal. lia.
  - replace ((48 <=? 55 + d) && (55 + d <=? 57)) with false by lia.
    replace ((97 <=? 55 + d) && (55 + d <=? 102)) with false by lia.
    replace ((65 <=? 55 + d) && (55 + d <=? 70)) with true by lia. f_equal. lia.
Qed.

Lemma nibbles hi lo : 0 <= hi < 16 -> 0 <= lo < 16 -> Z.lor (Z.shiftl hi 4) lo = 16 * hi + lo.
Proof.
  intros Hh Hl.
  assert (H : forallb (λ h, forallb (λ l,
    Z.lor (Z.shiftl (Z.of_nat h) 4) (Z.of_nat l) =? 16 * Z.of_nat h + Z.of_nat l) (seq 0 16))
    (seq 0 16) = true) by (vm_compute; reflexivity).
  rewrite forallb_forall in H. specialize (H (Z.to_nat hi)). rewrite in_seq in H.
  specialize (H ltac:(lia)). rewrite forallb_forall in H. specialize (H (Z.to_nat lo)).
  rewrite in_seq in H. specialize (H ltac:(lia)). rewrite !Z2Nat.id in H by lia. lia.
Qed.

Lemma byte_nibbles b : 0 <= b < 256 -> 0 <= b / 16 < 16 ∧ 0 <= b mod 16 < 16.
Proof. intros. pose proof (Z.div_mod b 16). pose proof (Z.mod_pos_bound b 16). lia. Qed.

Lemma percent_decode_plain b r : b <> 37 -> percent_decode_bytes (b :: r) = b :: percent_decode_bytes r.
Proof.
  intros Hb. destruct r as [|h [|l r]]; [done|done|]. cbn [percent_decode_bytes].
  by replace (b =? 37) with false by lia.
Qed.

Lemma percent_decode_byte keep b r : keep 37 = false -> 0 <= b < 256 ->
  percent_decode_bytes (percent_byte keep b ++ r) = b :: percent_decode_bytes r.
Proof.
  intros Hk Hb. unfold percent_byte. destruct (keep b) eqn:E.
  - apply percent_decode_plain. congruence.
  - cbn [app percent_decode_bytes]. rewrite Z.eqb_refl.
    destruct (byte_nibbles b Hb). rewrite !hex_val_upper by done. f_equal.
    rewrite nibbles by done. pose proof (Z.div_mod b 16). lia.
Qed.

Lemma encode_char_bytes c : char_ok c = true -> Forall (λ b, 0 <= b < 256) (encode_char c).
Proof.
  intros Hc. unfold encode_char.
  assert (0 <= c < 1114112) by (unfold char_ok, within in Hc; lia).
  pose proof (sixty_four c). pose proof (sixty_four (c / 64)). pose proof (sixty_four (c / 64 / 64)).
  replace (c / 262144) with (c / 64 / 64 / 64) by (rewrite !Z.div_div by lia; reflexivity).
  replace (c / 4096) with (c / 64 / 64) by (rewrite !Z.div_div by lia; reflexivity).
  repeat case_match; repeat constructor; lia.
Qed.

Lemma encode_bytes s : forallb char_ok s = true -> Forall (λ b, 0 <= b < 256) (encode s).
Proof.
  induction s as [|c s IH]; [constructor|]. cbn [forallb]. rewrite andb_true_iff. intros [Hc Hs].
  rewrite encode_cons. apply Forall_app. split; [by apply encode_char_bytes|auto].
Qed.

Lemma upper_hex_ascii d : 0 <= d < 16 -> is_ascii (upper_hex d) = true.
Proof. intros Hd. unfold upper_hex, is_ascii. destruct (d <? 10); lia. Qed.

Lemma encode_ascii s : forallb is_ascii s = true -> encode s = s.
Proof.
  induction s as [|c s IH]; [done|]. cbn [forallb]. rewrite andb_true_iff. intros [Hc Hs].
  rewrite encode_cons, IH by done. unfold encode_char, is_ascii in *. by rewrite Hc.
Qed.

(** A contact address is what was percent-encoded, whichever bytes were kept as they are. *)
Theorem percent_roundtrip keep s :
  keep 37 = false -> (∀ b, keep b = true -> is_ascii b = true) -> forallb char_ok s = true ->
  percent_decode (percent_encode keep s) = s.
Proof.
  intros Hk Ha Hs. pose proof (encode_bytes s Hs) as Hb. unfold percent_decode, percent_encode.
  assert (Hp : ∀ bs, Forall (λ b, 0 <= b < 256) bs ->
    forallb is_ascii (concat (map (percent_byte keep) bs)) = true
    ∧ percent_decode_bytes (concat (map (percent_byte keep) bs)) = bs).
  { induction 1 as [|b bs Hbb _ [IH1 IH2]]; [done|]. cbn [map concat].
    rewrite forallb_app, IH1, percent_decode_byte, IH2 by done. split; [|done].
    rewrite andb_true_r. unfold percent_byte. destruct (keep b) eqn:E; cbn [forallb].
    - by rewrite Ha.
    - destruct (byte_nibbles b Hbb). by rewrite !upper_hex_ascii. }
  destruct (Hp _ Hb) as [H1 H2]. by rewrite encode_ascii, H2, from_utf8_lossy_encode.
Qed.

(** ** Lemmas: contact links *)

Section ContactLemmas.
Context `{L : Lowercase}.

(** The address that a link names. *)
Definition names_contact (href : str) (k : ContactType * str) : Prop :=
  k.2 <> [] ∧ ∃ rest,
    (k.1 = Email ∧ starts_with (lit "mailto:") (to_lowercase href) = true
     ∧ slice_from href 7 = Some rest ∧ k.2 = percent_decode (trim (before_char 63 rest)))
    ∨ (k.1 = Phone ∧ starts_with (lit "mailto:") (to_lowercase href) = false
       ∧ starts_with (lit "tel:") (to_lowercase href) = true
       ∧ slice_from href 4 = Some rest ∧ k.2 = percent_decode (trim rest)).

Definition contact_key (l : ContactLink) : ContactType * str := (ct_contact_type l, ct_value l).

(** The links have distinct keys, which are the pairs seen; each link names its address, and
    the addresses are those of the hrefs so far. *)
Definition contacts_of (hrefs : list str) (st : LinkState) : Prop :=
  NoDup (map contact_key st.1) ∧ (∀ k, k ∈ st.2 <-> k ∈ map contact_key st.1)
  ∧ Forall (λ l, ct_raw_href l ∈ hrefs ∧ names_contact (ct_raw_href l) (contact_key l)) st.1
  ∧ ∀ k href, href ∈ hrefs -> names_contact href k -> k ∈ map contact_key st.1.

Lemma push_contact_of hrefs href ty v st :
  contacts_of hrefs st -> (v <> [] -> names_contact href (ty, v)) ->
  (∀ k, names_contact href k -> k = (ty, v)) ->
  contacts_of (hrefs ++ [href]) (push_contact st ty v href).
Proof.
  destruct st as [links seen]. intros (Hn & Hs & Hf & Hc) Hv Hu. cbn [fst snd] in *.
  assert (Hf' : Forall (λ l, ct_raw_href l ∈ hrefs ++ [href]
    ∧ names_contact (ct_raw_href l) (contact_key l)) links).
  { eapply List.Forall_impl; [|exact Hf]. intros l [H1 H2]. split; [|done].
    apply elem_of_app. by left. }
  unfold push_contact. destruct (nonempty v) eqn:Ev; cbn [negb].
  - case_bool_decide as Hd.
    + split_and!; cbn [fst snd]; [done|done|done|].
      intros k h [Hh| ->%list_elem_of_singleton]%elem_of_app Hk; [eauto|].
      rewrite (Hu _ Hk). by apply Hs.
    + split_and!; cbn [fst snd].
      * rewrite map_app. apply list.NoDup_app. split_and!; [done| |apply NoDup_singleton].
        intros k Hk ->%list_elem_of_singleton. by apply Hd, Hs.
      * intros k. rewrite elem_of_cons, map_app, elem_of_app, Hs.
        change (map contact_key [MkContactLink ty v href]) with [(ty, v)].
        rewrite list_elem_of_singleton. tauto.
      * apply Forall_app. split; [done|]. constructor; [|constructor]. cbn. split.
        -- apply elem_of_app. right. by apply list_elem_of_singleton.
        -- apply Hv. by destruct v.
      * intros k h Hh Hk. rewrite map_app. apply elem_of_app.
        apply elem_of_app in Hh as [Hh| ->%list_elem_of_singleton]; [left; eauto|right].
        rewrite (Hu _ Hk). by apply list_elem_of_singleton.
  - assert (v = []) as -> by by destruct v. split_and!; cbn [fst snd]; [done|done|done|].
    intros k h [Hh| ->%list_elem_of_singleton]%elem_of_app Hk; [eauto|].
    pose proof (Hu _ Hk) as ->. by destruct Hk as [Hk _].
Qed.

Lemma contact_link_of hrefs href st st' :
  contacts_of hrefs st -> contact_link st href = Some st' -> contacts_of (hrefs ++ [href]) st'.
Proof.
  intros Hst. unfold contact_link.
  destruct (starts_with (lit "mailto:") (to_lowercase href)) eqn:Em.
  - destruct (slice_from href 7) as [rest|] eqn:Er; [|done]. cbn [mbind option_bind].
    intros [= <-]. apply push_contact_of; [done| |].
    + intros Hv. split; [done|]. exists rest. by left.
    + intros [ty v] (_ & r & H). cbn [fst snd] in H.
      destruct H as [(-> & _ & E & ->)|(_ & E & _)]; congruence.
  - destruct (starts_with (lit "tel:") (to_lowercase href)) eqn:Et.
    + destruct (slice_from href 4) as [rest|] eqn:Er; [|done]. cbn [mbind option_bind].
      intros [= <-]. apply push_contact_of; [done| |].
      * intros Hv. split; [done|]. exists rest. by right.
      * intros [ty v] (_ & r & H). cbn [fst snd] in H.
        destruct H as [(_ & E & _)|(-> & _ & _ & E & ->)]; congruence.
    + intros [= <-]. destruct Hst as (Hn & Hs & Hf & Hc). split_and!; [done|done| |].
      * eapply List.Forall_impl; [|exact Hf]. intros l [H1 H2]. split; [|done].
        apply elem_of_app. by left.
      * intros k h [Hh| ->%list_elem_of_singleton]%elem_of_app Hk; [eauto|].
        destruct Hk as (_ & r & [(_ & E & _)|(_ & _ & E & _)]); congruence.
Qed.

Lemma each_contacts hrefs : ∀ done_hrefs st st', contacts_of done_hrefs st ->
  each contact_link st hrefs = Some st' -> contacts_of (done_hrefs ++ hrefs) st'.
Proof.
  induction hrefs as [|href hrefs IH]; intros dh st st' Hst; cbn [each].
  { intros [= <-]. by rewrite app_nil_r. }
  destruct (contact_link st href) as [st1|] eqn:E; [|done]. cbn [mbind option_bind]. intros E1.
  replace (dh ++ href :: hrefs) with ((dh ++ [href]) ++ hrefs) by by rewrite <- app_assoc.
  eapply IH; [|exact E1]. by eapply contact_link_of.
Qed.

(** Every address that a mailto or tel link of the page names is reported once, under its
    kind, with a link that names it; nothing else is. *)
Theorem contact_links_exact `{D : HtmlLib} document links :
  extract_contact_links document = Some links ->
  NoDup (map contact_key links)
  ∧ Forall (λ l, ct_raw_href l ∈ anchor_hrefs document
                 ∧ names_contact (ct_raw_href l) (contact_key l)) links
  ∧ ∀ k, k ∈ map contact_key links
      <-> ∃ href, href ∈ anchor_hrefs document ∧ names_contact href k.
Proof.
  unfold extract_contact_links. destruct (each _ _ _) as [st|] eqn:E; [|done]. intros [= <-].
  assert (H0 : contacts_of [] ([], [])).
  { split_and!; cbn [fst snd]; [constructor|done|constructor|]. by intros k h ?%elem_of_nil. }
  destruct (each_contacts _ _ _ _ H0 E) as (Hn & _ & Hf & Hc).
  split_and!; [done|done|]. intros k. split; [|intros (href & ? & ?); eauto].
  intros Hk. apply list_elem_of_In, in_map_iff in Hk as (l & <- & Hl).
  rewrite List.Forall_forall in Hf. exists (ct_raw_href l). by apply Hf.
Qed.
End ContactLemmas.

(** ** Lemmas: meta tags, scripts and analytics ids *)

Lemma push_meta_fold es : ∀ m k,
  foldl push_meta m es !! k
  = match map snd (List.filter (λ e, streqb e.1 k) es) with
    | [] => m !! k
    | vs => Some (default [] (m !! k) ++ vs)
    end.
Proof.
  induction es as [|[k' v] es IH]; intros m k; [done|]. cbn [foldl List.filter fst]. rewrite IH.
  unfold push_meta. cbn [fst snd]. unfold streqb at 2. case_bool_decide as Hk.
  - subst k'. rewrite lookup_insert_eq. cbn [map snd default].
    destruct (map snd (List.filter (λ e, streqb e.1 k) es)) as [|w ws]; [done|].
    unfold id. by rewrite <- app_assoc.
  - by rewrite lookup_insert_ne.
Qed.

Lemma push_meta_each l : ∀ m (f : list (list (str * str))), f = l ->
  foldl (λ m es, foldl push_meta m es) m l = foldl push_meta m (concat f).
Proof.
  induction l as [|es l IH]; intros m f ->; [done|]. cbn [foldl concat].
  rewrite foldl_app. by apply IH.
Qed.

(** Appending what is new. *)
Definition push_new {T V} `{EqDecision V} (f : T -> option V) (out : list V) (x : T) : list V :=
  match f x with
  | None => out
  | Some y => if bool_decide (y ∈ out) then out else out ++ [y]
  end.

Lemma push_new_fold {T V} `{EqDecision V} (f : T -> option V) xs : ∀ l, ∃ extra,
  foldl (push_new f) l xs = l ++ extra ∧ NoDup extra
  ∧ ∀ y, y ∈ extra <-> (∃ x, x ∈ xs ∧ f x = Some y) ∧ (y ∉ l).
Proof.
  induction xs as [|x xs IH]; intros l; cbn [foldl].
  { exists []. rewrite app_nil_r. split_and!; [done|constructor|].
    intros y. split; [by intros ?%elem_of_nil|by intros [(x & ?%elem_of_nil & _) _]]. }
  assert (Hx : ∀ y, (∃ z, z ∈ x :: xs ∧ f z = Some y) <-> f x = Some y ∨ ∃ z, z ∈ xs ∧ f z = Some y).
  { intros y. setoid_rewrite elem_of_cons. split; [|firstorder].
    intros (z & [->|Hz] & Hy); [by left|right; eauto]. }
  unfold push_new at 2. destruct (f x) as [v|] eqn:Ev.
  - case_bool_decide as Hs.
    + destruct (IH l) as (extra & E & Hn & He). exists extra. split_and!; [done|done|].
      intros y. rewrite He, Hx. split; [tauto|]. intros [[[= ->]|H] Hl]; [done|done].
    + destruct (IH (l ++ [v])) as (extra & E & Hn & He). exists (v :: extra).
      rewrite E, <- app_assoc. split_and!; [done| |].
      * constructor; [|done]. rewrite He, elem_of_app, list_elem_of_singleton. tauto.
      * intros y. rewrite elem_of_cons, He, Hx, elem_of_app, list_elem_of_singleton.
        destruct (decide (y = v)) as [->|Hne]; [tauto|].
        assert (Some v <> Some y) by congruence. tauto.
  - destruct (IH l) as (extra & E & Hn & He). exists extra. split_and!; [done|done|].
    intros y. rewrite He, Hx. split; [tauto|]. by intros [[?|?] ?].
Qed.

#[export] Instance AnalyticsId_eq_dec : EqDecision AnalyticsId.
Proof. solve_decision. Defined.

Section AnalyticsLemmas.
Context `{X : SpanRegex}.

(** The id that a match of a rule gives. *)
Definition analytics_of (html : str) (rc : AnalyticsRule * Groups) : option AnalyticsId :=
  captured ← group html rc.2 1;
  let id_str := ar_map_id rc.1 captured in
  if ar_accept rc.1 id_str then Some (MkAnalyticsId (ar_provider rc.1) id_str) else None.

Lemma push_analytics_new rule html ids cap :
  push_analytics rule html ids cap = push_new (analytics_of html) ids (rule, cap).
Proof.
  unfold push_analytics, push_new, analytics_of. cbn [fst snd].
  destruct (group html cap 1) as [captured|]; [|done]. cbn [mbind option_bind].
  destruct (ar_accept rule _); [|done]. cbn [negb].
  assert (E : (ar_provider rule, ar_map_id rule captured) ∈ map (λ a, (ai_provider a, ai_id a)) ids
    <-> MkAnalyticsId (ar_provider rule) (ar_map_id rule captured) ∈ ids).
  { rewrite !list_elem_of_In, in_map_iff. split.
    - intros ([p i] & [= -> ->] & Hi). done.
    - intros Hi. eexists. by split; [|exact Hi]. }
  by rewrite (bool_decide_ext _ _ E).
Qed.

Definition rule_matches (html : str) : list (AnalyticsRule * Groups) :=
  concat (map (λ rule, map (pair rule) (pattern_matches (ar_regex rule) html)) ANALYTICS_RULES).

Lemma analytics_valid html rc a : rc ∈ rule_matches html -> analytics_of html rc = Some a ->
  ai_provider a = GoogleTagManager -> is_valid_gtm_id (ai_id a) = true.
Proof.
  intros Hr E Hp. destruct rc as [rule cap].
  apply list_elem_of_In, in_concat in Hr as (l & Hl & Hr).
  apply in_map_iff in Hl as (rule' & <- & Hl). apply in_map_iff in Hr as (cap' & Heq & _).
  injection Heq as -> ->. unfold analytics_of in E. cbn [fst snd] in E.
  destruct (group html cap 1) as [captured|]; [|done]. cbn [mbind option_bind] in E.
  destruct (ar_accept rule _) eqn:Eacc; [|done]. injection E as <-. cbn [ai_provider ai_id] in *.
  repeat destruct Hl as [<-|Hl]; done.
Qed.

(** The ids of a page are those of the matches of the rules that the rule accepts, each once
    per provider; a tag manager id is its prefix and at least four capitals or digits. *)
Theorem analytics_ids_exact html :
  NoDup (extract_analytics_ids html)
  ∧ (∀ a, a ∈ extract_analytics_ids html
      <-> ∃ rc, rc ∈ rule_matches html ∧ analytics_of html rc = Some a)
  ∧ ∀ a, a ∈ extract_analytics_ids html -> ai_provider a = GoogleTagManager ->
      is_valid_gtm_id (ai_id a) = true.
Proof.
  assert (E : extract_analytics_ids html = foldl (push_new (analytics_of html)) [] (rule_matches html)).
  { unfold extract_analytics_ids, rule_matches. generalize ([] : list AnalyticsId) as ids.
    induction ANALYTICS_RULES as [|rule rules IH]; intros ids; [done|].
    cbn [foldl map concat]. rewrite foldl_app, IH. f_equal.
    generalize (pattern_matches (ar_regex rule) html) as caps. intros caps. revert ids.
    induction caps as [|cap caps IHc]; intros ids; [done|].
    cbn [foldl map]. by rewrite push_analytics_new, IHc. }
  destruct (push_new_fold (analytics_of html) (rule_matches html) []) as (extra & Ex & Hn & He).
  rewrite E, Ex. cbn [app].
  assert (Hm : ∀ a, a ∈ extra <-> ∃ rc, rc ∈ rule_matches html ∧ analytics_of html rc = Some a).
  { intros a. rewrite He. split; [by intros [? _]|].
    intros H. split; [done|apply not_elem_of_nil]. }
  split_and!; [done|done|]. intros a (rc & Hr & Ha)%Hm. by apply (analytics_valid html rc).
Qed.
End AnalyticsLemmas.

Section PageLemmas.
Context `{U : UrlLib} `{D : HtmlLib} `{L : Lowercase} `{X : SpanRegex} `{A : AcOverlap}
  `{B : Base64} `{J : Serde} `{G : Log2}.

(** The meta elements of a page, in order, as the pairs they give. *)
Definition page_meta (document : Document) : list (str * str) :=
  concat (map meta_entries (select document (lit "meta"))).

Lemma push_meta_page document k :
  extract_meta_tags document !! k
  = match map snd (List.filter (λ e, streqb e.1 k) (page_meta document)) with
    | [] => None
    | vs => Some vs
    end.
Proof.
  unfold extract_meta_tags, page_meta. generalize (select document (lit "meta")) as els. intros els.
  replace (foldl (λ m element, foldl push_meta m (meta_entries element)) ∅ els)
    with (foldl push_meta ∅ (concat (map meta_entries els))).
  - rewrite push_meta_fold, lookup_empty. cbn [default]. by destruct (map snd _).
  - generalize (∅ : gmap str (list str)) as m. induction els as [|el els IH]; intros m; [done|].
    cbn [map concat foldl]. by rewrite foldl_app, IH.
Qed.

(** The table of meta tags keeps every value of a key in page order. *)
Theorem meta_tags_lookup document k :
  extract_meta_tags document !! k
  = match map snd (List.filter (λ e, streqb e.1 k) (page_meta document)) with
    | [] => None
    | vs => Some vs
    end.
Proof. apply push_meta_page. Qed.

(** The refresh target of an ASCII tag is the text after the first [url=] in any case; nothing
    panics. *)
Theorem ascii_refresh_target {LL : LowercaseLaws L} content : forallb is_ascii content = true ->
  (contains (lit "url=") (to_ascii_lowercase content) = false
   ∧ refresh_target content = Some None)
  ∨ ∃ a u b, content = a ++ u ++ b ∧ to_ascii_lowercase u = lit "url="
    ∧ find (lit "url=") (to_ascii_lowercase content) = Some (blen a)
    ∧ refresh_target content = Some (if nonempty (trim b) then Some (trim b) else None).
Proof.
  intros Ha. unfold refresh_target. rewrite to_lowercase_ascii by done.
  destruct (find (lit "url=") (to_ascii_lowercase content)) as [pos|] eqn:E.
  - right. pose proof (find_Some _ _ _ E) as (x & y & Ex & ->). unfold to_ascii_lowercase in Ex.
    apply map_eq_app in Ex as (a & r & -> & <- & Ex). apply map_eq_app in Ex as (u & b & -> & Eu & <-).
    exists a, u, b. pose proof (blen_lower a) as Hl. unfold to_ascii_lowercase in Hl. rewrite Hl.
    split_and!; [done|done|done|].
    assert (Hu : blen u = 4%nat) by (rewrite <- (blen_lower u); unfold to_ascii_lowercase; by rewrite Eu).
    replace (blen a + 4)%nat with (blen (a ++ u)) by (rewrite blen_app; lia).
    by rewrite app_assoc, slice_from_prefix.
  - left. apply find_None in E. done.
Qed.

(** A link is sliced after [mailto:] or [tel:] of its lower case, whatever its own bytes are. *)
Definition link_panics (href : str) : Prop :=
  let href_lower := to_lowercase href in
  if starts_with (lit "mailto:") href_lower then char_boundary href 7 = false
  else starts_with (lit "tel:") href_lower = true ∧ char_boundary href 4 = false.

Lemma contact_link_panics st href : contact_link st href = None <-> link_panics href.
Proof.
  unfold contact_link, link_panics. cbn zeta.
  destruct (starts_with (lit "mailto:") (to_lowercase href)).
  { rewrite <- slice_from_boundary. by destruct (slice_from href 7). }
  destruct (starts_with (lit "tel:") (to_lowercase href)); [|by split; [|intros [? _]]].
  rewrite <- slice_from_boundary. destruct (slice_from href 4); cbn; naive_solver.
Qed.

Lemma contact_links_panic document :
  extract_contact_links document = None
  <-> ∃ href, href ∈ anchor_hrefs document ∧ link_panics href.
Proof.
  unfold extract_contact_links. rewrite fmap_None. split.
  - intros (st & href & Hin & H%contact_link_panics)%each_None. by exists href.
  - intros (href & Hin & H). apply (each_None_at _ _ _ href); [done|].
    intros st. by apply contact_link_panics.
Qed.

Lemma refresh_panics content :
  refresh_target content = None
  <-> ∃ pos, find (lit "url=") (to_lowercase content) = Some pos
      ∧ char_boundary content (pos + 4) = false.
Proof.
  unfold refresh_target. destruct (find (lit "url=") (to_lowercase content)) as [pos|].
  - assert (H := slice_from_boundary content (pos + 4)).
    destruct (slice_from content (pos + 4)); cbn [mbind option_bind]; split.
    + done.
    + by intros (p & [= <-] & Hp%H).
    + intros _. exists pos. split; [done|]. by apply H.
    + done.
  - split; [done|]. by intros (p & ? & _).
Qed.

(** The contents of the [meta] elements that carry an [http-equiv] of value [refresh]. *)
Definition refresh_contents (document : Document) : list str :=
  map snd (List.filter (λ e, streqb e.1 (lit "http-equiv:refresh")) (page_meta document)).

Lemma first_refresh document :
  first_meta (extract_meta_tags document) (lit "http-equiv:refresh")
  = head (refresh_contents document).
Proof.
  unfold first_meta, refresh_contents. rewrite push_meta_page. by destruct (map snd _).
Qed.

(** C32: Parsing a page panics exactly when one of three slices misses a character boundary: byte 7
    of a link whose lower case starts with [mailto:], byte 4 of one whose lower case starts with
    [tel:], the byte after the first [url=] of the lower case of the first refresh tag, taken as an
    offset of the tag itself, or when the secret scan of the body panics. *)
Theorem page_panics_iff config body stats :
  (parse_html_content config body stats).2 = None
  <-> (∃ href, href ∈ anchor_hrefs (parse_document body)
        ∧ (if starts_with (lit "mailto:") (to_lowercase href) then char_boundary href 7 = false
           else starts_with (lit "tel:") (to_lowercase href) = true
             ∧ char_boundary href 4 = false))
      ∨ detect_exposed_secrets config body = None
      ∨ ∃ content pos, head (refresh_contents (parse_document body)) = Some content
          ∧ find (lit "url=") (to_lowercase content) = Some pos
          ∧ char_boundary content (pos + 4) = false.
Proof.
  assert (Hl := contact_links_panic (parse_document body)). unfold link_panics in Hl. cbn zeta in Hl.
  rewrite <- Hl, <- first_refresh. unfold parse_html_content.
  destruct (extract_title _ _) as [st1 title]. destruct (extract_meta_description _ _) as [st2 d].
  cbn [snd]. destruct (extract_contact_links _) as [links|]; cbn [mbind option_bind]; [|tauto].
  destruct (detect_exposed_secrets _ _) as [secrets|]; cbn [mbind option_bind]; [|tauto].
  destruct (first_meta (extract_meta_tags (parse_document body)) (lit "http-equiv:refresh"))
    as [content|]; cbn [mbind option_bind].
  - assert (Hr := refresh_panics content).
    destruct (refresh_target content) as [u|]; cbn [mbind option_bind]; split.
    + done.
    + intros [?|[?|(c & pos & [= <-] & Hp)]]; [done|done|]. destruct Hr as [_ Hr].
      by discriminate Hr; exists pos.
    + intros _. right. right. destruct Hr as [(pos & Hp) _]; [done|]. by exists content, pos.
    + done.
  - split; [done|]. by intros [?|[?|(c & pos & ? & _)]].
Qed.

Lemma add_sources_fold srcs l : ∃ extra,
  foldl add_script_source l srcs = l ++ extra ∧ NoDup extra
  ∧ ∀ s, s ∈ extra <-> s ∈ srcs ∧ (s ∉ l).
Proof.
  destruct (push_new_fold Some srcs l) as (extra & E & Hn & He). exists extra.
  split_and!; [exact E|done|]. intros s. rewrite He. split.
  - intros [(x & Hx & [= ->]) Hl]. done.
  - intros [Hs Hl]. split; [by exists s|done].
Qed.

Lemma element_sources (els : list Element) (s : str) :
  s ∈ omap (λ e, s ← attr e (lit "src"); if nonempty s then Some s else None) els
  <-> s <> [] ∧ ∃ e, e ∈ els ∧ attr e (lit "src") = Some s.
Proof.
  rewrite list_elem_of_omap. split.
  - intros (x & Hx & Hs). destruct (attr x (lit "src")) as [[|c s']|] eqn:Ea; [done| |done].
    cbn in Hs. injection Hs as <-. split; [done|]. by exists x.
  - intros (Hs & x & Hx & Ea). exists x. split; [done|]. rewrite Ea. by destruct s.
Qed.

(** Every script source of the elements and of the expression over the raw page is kept; the
    ones the parser missed come after the others, once each. *)
Theorem script_sources_complete config body stats html :
  (parse_html_content config body stats).2 = Some html ->
  ∃ extra, hd_script_sources html
    = omap (λ e, s ← attr e (lit "src"); if nonempty s then Some s else None)
        (select (parse_document body) (lit "script")) ++ extra
  ∧ NoDup extra
  ∧ ∀ s, s ∈ hd_script_sources html
      <-> s ∈ regex_extracted_scripts body
          ∨ s <> [] ∧ ∃ e, e ∈ select (parse_document body) (lit "script") ∧ attr e (lit "src") = Some s.
Proof.
  unfold parse_html_content.
  destruct (extract_title _ _) as [st1 title]. destruct (extract_meta_description _ _) as [st2 d].
  cbn [snd]. destruct (extract_contact_links _) as [links|]; cbn [mbind option_bind]; [|done].
  destruct (detect_exposed_secrets _ _) as [secrets|]; cbn [mbind option_bind]; [|done].
  destruct (match first_meta _ _ with Some _ => _ | None => _ end) as [u|]; [|done].
  cbn [mbind option_bind]. intros [= <-]. cbn [hd_script_sources].
  assert (Hw : ∀ els w, sw_sources (foldl walk_script w els) = sw_sources w
    ++ omap (λ e, s ← attr e (lit "src"); if nonempty s then Some s else None) els).
  { induction els as [|e els IH]; intros w; cbn [foldl]; [by rewrite app_nil_r|].
    rewrite IH. unfold walk_script. cbn [omap list_omap].
    destruct (attr e (lit "src")) as [[|c s]|]; cbn; [done| |done]. by rewrite <- app_assoc. }
  rewrite Hw. cbn [sw_sources app].
  destruct (add_sources_fold (regex_extracted_scripts body)
    (omap (λ e, s ← attr e (lit "src"); if nonempty s then Some s else None)
       (select (parse_document body) (lit "script")))) as (extra & E & Hn & He).
  exists extra. split_and!; [exact E|exact Hn|]. intros s. rewrite E, elem_of_app, He.
  rewrite <- element_sources.
  match goal with |- context [omap ?f ?l] => destruct (decide (s ∈ omap f l)) end; tauto.
Qed.
End PageLemmas.

(** ** A page as a list of tagged elements *)

Module DemoHtml.
#[local] Existing Instance Net.Demo.urls.
#[local] Existing Instance DemoScan.regex.
#[local] Existing Instance DemoScan.automaton.
#[local] Existing Instance DemoScan.engines.
#[local] Existing Instance DemoScan.logarithm.
#[local] Existing Instance DemoSerde.serde.

(** Lower case of ASCII, and of U+0130, which becomes two characters. *)
#[local] Instance lowercase : Lowercase := {|
  to_lowercase := λ s, concat (map (λ c, if c =? 304 then [105; 775] else [ascii_lower c]) s) |}.
#[local] Instance lowercase_laws : LowercaseLaws lowercase.
Proof.
  split. intros s. cbn [to_lowercase lowercase]. unfold to_ascii_lowercase.
  induction s as [|c s IH]; [done|]. cbn [forallb map concat]. rewrite andb_true_iff.
  intros [Hc Hs]. rewrite IH by done. unfold is_ascii in Hc.
  by replace (c =? 304) with false by lia.
Defined.

(** The elements of the page, each with the selector it answers to. *)
Definition Tag : Type := str * list (str * str) * str.
Definition tag (selector : string) (attrs : list (string * str)) (content : string) : Tag :=
  (lit selector, map (λ a, (lit a.1, a.2)) attrs, lit content).
Definition tag_attr (t : Tag) (name : str) : option str :=
  snd <$> List.find (λ a, streqb a.1 name) t.1.2.
#[local] Instance document (tags : list Tag) : HtmlLib := {|
  Document := list Tag; Element := Tag; parse_document := λ _, tags;
  select := λ d selector, List.filter (λ t, streqb t.1.1 selector) d;
  attr := tag_attr; text := λ t, t.2; inner_html := λ t, t.2 |}.

Definition contacts : list Tag :=
  [tag "a[href]" [("href", lit "MAILTO:a%40b.example?subject=x")] "";
   tag "a[href]" [("href", lit "mailto:a@b.example")] "";
   tag "a[href]" [("href", lit "tel:+1%20555")] ""; tag "a[href]" [("href", lit "mailto:")] ""]%string.
Definition contact_found : list ContactLink :=
  [MkContactLink Email (lit "a@b.example") (lit "MAILTO:a%40b.example?subject=x");
   MkContactLink Phone (lit "+1 555") (lit "tel:+1%20555")].
Lemma contact_links_exact_witness :
  extract_contact_links (D := document contacts) contacts = Some contact_found
  ∧ NoDup (map contact_key contact_found).
Proof.
  assert (E : extract_contact_links (D := document contacts) contacts = Some contact_found)
    by (vm_compute; reflexivity).
  split; [exact E|]. apply (contact_links_exact (D := document contacts) contacts contact_found E).
Defined.

Lemma percent_roundtrip_witness :
  percent_encode is_ascii_alphanumeric (lit "a b" ++ [233]) = lit "a%20b%C3%A9"
  ∧ percent_decode (lit "a%20b%C3%A9") = lit "a b" ++ [233].
Proof.
  assert (E : percent_encode is_ascii_alphanumeric (lit "a b" ++ [233]) = lit "a%20b%C3%A9")
    by (vm_compute; reflexivity).
  split; [exact E|]. rewrite <- E. apply percent_roundtrip; [reflexivity| |vm_compute; reflexivity].
  intros b. unfold is_ascii_alphanumeric, is_ascii_digit, is_ascii_upper, is_ascii_lower, is_ascii.
  intros H. lia.
Defined.

Definition refresh_content : str := lit "0; URL= https://example.com/ ".
Lemma ascii_refresh_target_witness :
  refresh_target refresh_content = Some (Some (lit "https://example.com/"))
  ∧ ∃ a u b, refresh_content = a ++ u ++ b ∧ to_ascii_lowercase u = lit "url="
      ∧ refresh_target refresh_content
        = Some (if nonempty (trim b) then Some (trim b) else None).
Proof.
  split; [vm_compute; reflexivity|].
  destruct (ascii_refresh_target refresh_content) as [[H _]|(a & u & b & E & Hu & _ & Hr)].
  - vm_compute. reflexivity.
  - vm_compute in H. discriminate H.
  - by exists a, u, b.
Defined.

Definition refresh (content : str) : list Tag :=
  [tag "meta" [("http-equiv", lit "refresh"); ("content", content)]%string ""].

(** The offset counts the bytes of the lower case: a letter that grows makes the slice lose
    text, or panic inside a character. *)
Example refresh_loses_text : refresh_target ([304] ++ lit ";url=/a") = Some (Some (lit "a")).
Proof. vm_compute. reflexivity. Qed.
Example refresh_page_panics :
  let d := refresh ([304] ++ lit ";url=" ++ [233]) in
  (parse_html_content (D := document d) DemoScan.loaded [] new_stats).2 = None.
Proof. vm_compute. reflexivity. Qed.

Definition scripts : list Tag :=
  [tag "script" [("src", lit "/b.js")] ""; tag "script" [("id", lit "x")] "var a"]%string.
Definition scripts_page : HtmlData :=
  match (parse_html_content (D := document scripts) DemoScan.loaded [] new_stats).2 with
  | Some html => html
  | None => MkHtmlData [] None (MkStructuredData [] ∅ ∅ []) [] [] [] [] ∅ [] ∅ [] 0 0 None None
              None None []
  end.
Lemma script_sources_complete_witness :
  (parse_html_content (D := document scripts) DemoScan.loaded [] new_stats).2 = Some scripts_page
  ∧ lit "/b.js" ∈ hd_script_sources scripts_page.
Proof.
  assert (E : (parse_html_content (D := document scripts) DemoScan.loaded [] new_stats).2
    = Some scripts_page) by (vm_compute; reflexivity).
  split; [exact E|].
  destruct (script_sources_complete (D := document scripts) DemoScan.loaded [] new_stats scripts_page E)
    as (extra & _ & _ & H).
  apply H. right. split; [done|]. exists (tag "script" [("src"%string, lit "/b.js")] "").
  split; [by left|vm_compute; reflexivity].
Defined.
End DemoHtml.
