(* ===== verification/Handler.v ===== *)
(** * One URL, end to end ([src/src/fetch/handler/*.rs], [utils/process.rs], [run/task.rs])

    The whole path of a URL: redirects, response, page, enrichment, record, database, the
    retries around it and the failure row when it fails.  What is not modelled elsewhere is
    the class [Services]: the HTTP clients ([timed_send] is the one under a [timeout], with a
    failure as [None]), the text of a task that panicked, the TLS handshake, GeoIP and WHOIS.
    The branches of a [join!] run one after the other: they share only counters and the
    clients.  [gitleaks] is the loaded rule set of the secret scan. *)

From Stdlib Require Import SpecFloat.
From S2P Require Import Scan.
From S2P Require Import Prelude Net Security Redirects Cookies Errors Retry Patterns Literals.
From S2P Require Import Detection ExportRow Json Dns Sql StorageRow Satellites StorageRecord.
From S2P Require Import Domain Failure Response Jwt Gitleaks Secrets Cdn Scripts.
From S2P Require Import WellKnown Favicon Html Record.

Definition MAX_HEADER_COUNT : nat := 100.
Definition MAX_REDIRECT_HOPS : nat := 10.

(** A [reqwest::Error] with the causes below it. *)
Record SendError := MkSendError { se_error : ReqwestError; se_sources : list Cause }.
Definition anyhow_of_reqwest (e : SendError) : AnyhowError :=
  MkAnyhow [] (CReqwest (se_error e)) (se_sources e).

Class Services (S : Type) := {
  redirect_send : S -> str -> S * result Response SendError;
  client_send : S -> str -> S * result Response SendError;
  error_for_status : Response -> option SendError;
  timed_send : S -> str -> S * option Response;
  join_error_text : str -> str;
  get_ssl_certificate_info : str -> result CertificateInfo str;
  lookup_ip : str -> option GeoIpResult;
  lookup_whois : str -> result (option WhoisResult) AnyhowError;
}.

(** [Response::error_for_status]: an error with that status for 400 to 599. *)
Class ServicesLaws {S} (V : Services S) := {
  error_for_status_law : ∀ r,
    match error_for_status r with
    | Some e => r_status (se_error e) = Some (status r)
    | None => is_client_error (status r) = false ∧ is_server_error (status r) = false
    end;
}.

(** The part of [ProcessingContext] that a scan does not change. *)
Record ScanContext := MkContext {
  cx_run_id : option str;
  cx_enable_whois : bool;
  cx_scan_external_scripts : bool;
  cx_allow_localhost_for_tests : bool;
  cx_ruleset : FingerprintRuleset;
}.

(** What it does change: the clients, the database, the counters, the regex cache and the
    two counters of [RuntimeMetrics::record_partial_failures]. *)
Record World {R : RegexLib} (S W : Type) := MkWorld {
  w_net : S;
  w_db : W;
  w_stats : ProcessingStats;
  w_cache : Cache;
  w_partial : Z * Z;
}.
Arguments MkWorld {R S W}.
Arguments w_net {R S W}.
Arguments w_db {R S W}.
Arguments w_stats {R S W}.
Arguments w_cache {R S W}.
Arguments w_partial {R S W}.

(** When the attempt started and when the response is handled. *)
Record Clock := MkClock { elapsed : spec_float; timestamp : Z }.

Definition serialize_headers (headers : list (str * option str)) : str :=
  concat (map (λ '(name, value),
    match value with Some v => name ++ lit ": " ++ v ++ [10] | None => [] end) headers).

Definition record_partial_failures (rows satellite_insert_errors : Z) (m : Z * Z) : Z * Z :=
  (if 0 <? rows then m.1 + rows else m.1,
   if 0 <? satellite_insert_errors then m.2 + satellite_insert_errors else m.2).

Definition set_secrets (html : HtmlData) (eligible scanned : Z) (secrets : list ExposedSecret)
  : HtmlData := {|
  hd_title := hd_title html;
  hd_description := hd_description html;
  hd_structured_data := hd_structured_data html;
  hd_social_media_links := hd_social_media_links html;
  hd_contact_links := hd_contact_links html;
  hd_exposed_secrets := secrets;
  hd_analytics_ids := hd_analytics_ids html;
  hd_meta_tags := hd_meta_tags html;
  hd_script_sources := hd_script_sources html;
  hd_script_tag_ids := hd_script_tag_ids html;
  hd_inline_script_text := hd_inline_script_text html;
  hd_external_scripts_eligible := eligible;
  hd_external_scripts_scanned := scanned;
  hd_favicon_url := hd_favicon_url html;
  hd_canonical_url := hd_canonical_url html;
  hd_meta_refresh_url := hd_meta_refresh_url html;
  hd_meta_robots := hd_meta_robots html;
  hd_resource_hints := hd_resource_hints html |}.

(** What [parallel_enrich] gathers. *)
Record EnrichmentResult := MkEnrichment {
  en_technologies_vec : list DetectedTechnology;
  en_tls_dns_data : TlsDnsData;
  en_additional_dns : AdditionalDnsData;
  en_partial_failures : list (ErrorType * str);
  en_favicon_result : option FaviconData;
  en_external_script_scan : ExternalScriptScanResult;
  en_well_known : WellKnownData;
}.

Section Handler.
Context `{U : UrlLib} `{UP : !UrlPort U} `{F : FaviconLib} `{T : IpText} `{P : Psl}
  `{L : Lowercase} `{E : EncodingRs}
  `{Hl : HttpLib} `{C : CspRegex} `{Hi : HashIter} `{R : RegexLib} `{Ac : AhoCorasick}
  `{Rs : Resolver} `{J : Serde} `{Q : Sqlx W Tx} {S : Type} `{V : Services S}
  `{D : HtmlLib} `{X : SpanRegex} `{A : AcOverlap} `{B : Base64} `{G : Log2}.
Context (gitleaks : GitleaksCompiled) (cx : ScanContext).

(** ** handler/response.rs *)

Definition extract_and_parse (response : Response) (original_url : str)
    (stats : ProcessingStats)
  : ProcessingStats * result (option (ResponseData * HtmlData)) AnyhowError :=
  match extract_response_data response original_url with
  | Err e => (stats, Err e)
  | Ok None => (stats, Ok None)
  | Ok (Some resp_data) =>
      match parse_html_content gitleaks (rd_body resp_data) stats with
      | (stats, None) =>
          let e := join_error_text (rd_body resp_data) in
          (stats, Err (MkAnyhow [] (CMessage (lit "HTML parsing task failed: " ++ e)) []))
      | (stats, Some html_data) => (stats, Ok (Some (resp_data, html_data)))
      end
  end.

Definition supplement_technologies_after_enrichment (technologies_vec : list DetectedTechnology)
    (tls_dns_data : TlsDnsData) (additional_dns : AdditionalDnsData)
    (external_script_scan : ExternalScriptScanResult) : list DetectedTechnology :=
  let dns_haystack :=
    dns_records_haystack (ad_nameservers additional_dns) (ad_cname_chain additional_dns) in
  let techs :=
    supplement_technologies_with_dns_cert (cx_ruleset cx) technologies_vec dns_haystack
      (td_issuer tls_dns_data) in
  if negb (nonempty (es_script_bodies_text external_script_scan)) then techs
  else
    supplement_technologies_with_script_text (cx_ruleset cx) techs
      (es_script_bodies_text external_script_scan).

Definition parallel_enrich (html_data : HtmlData) (resp_data : ResponseData)
    (final_url_str : str) (w : World S W) : World S W * EnrichmentResult :=
  let skip_tech :=
    is_challenge_interstitial (rd_status resp_data) (hd_title html_data) (rd_body resp_data)
      (Z.of_nat (length (Sanitize.encode (rd_body resp_data)))) in
  let (cache, technologies_vec) :=
    if skip_tech then (w_cache w, [])
    else detect_technologies_safely (cx_ruleset cx) html_data resp_data (w_cache w) in
  let '(tls_dns_data, additional_dns, partial_failures, stats) :=
    fetch_all_dns_data get_ssl_certificate_info (rd_final_url resp_data) (rd_host resp_data)
      (rd_final_domain resp_data) (w_stats w) in
  let (net, favicon_result) :=
    fetch_and_hash_favicon timed_send (w_net w) (hd_favicon_url html_data) final_url_str in
  let (net, external_script_scan) :=
    if cx_scan_external_scripts cx then
      scan_external_scripts timed_send (detect_exposed_secrets gitleaks) net (rd_final_url resp_data)
        (hd_script_sources html_data) (cx_allow_localhost_for_tests cx)
    else (net, no_script_scan) in
  let (net, well_known) := fetch_well_known timed_send net final_url_str in
  let technologies_vec :=
    if skip_tech then []
    else
      supplement_technologies_after_enrichment technologies_vec tls_dns_data additional_dns
        external_script_scan in
  (MkWorld net (w_db w) stats cache (w_partial w),
   MkEnrichment technologies_vec tls_dns_data additional_dns partial_failures favicon_result
     external_script_scan well_known).

Definition merge_secrets (html_data : HtmlData) (resp_data : ResponseData)
    (external_script_scan : ExternalScriptScanResult) : HtmlData :=
  set_secrets html_data (es_eligible external_script_scan) (es_scanned external_script_scan)
    (hd_exposed_secrets html_data ++ es_secrets external_script_scan
     ++ default [] (detect_exposed_secrets_in_headers gitleaks
                      (serialize_headers (rd_headers resp_data)))).

Definition prepared_record (resp_data : ResponseData) (html_data : HtmlData)
    (enrichment : EnrichmentResult) (redirect_chain : list (str * Z)) (clock : Clock)
  : PersistedUrlRecord :=
  prepare_record_for_insertion lookup_ip lookup_whois (cx_run_id cx) (cx_enable_whois cx)
    (MkPreparation resp_data html_data (en_tls_dns_data enrichment)
       (en_additional_dns enrichment) (en_technologies_vec enrichment)
       (en_partial_failures enrichment) redirect_chain (elapsed clock) (timestamp clock)
       (en_favicon_result enrichment) (en_well_known enrichment)).

(** [persist]: whether a row was inserted. *)
Definition persist (record : PersistedUrlRecord) (w : World S W)
  : World S W * result bool AnyhowError :=
  match insert_persisted_url_record record (w_db w) with
  | (db, Err e) =>
      (MkWorld (w_net w) db (w_stats w) (w_cache w) (w_partial w),
       Err (MkAnyhow [] (CMessage (lit "Database write failed: " ++ database_error_text e)) []))
  | (db, Ok upsert) =>
      (MkWorld (w_net w) db (w_stats w) (w_cache w)
         (record_partial_failures (up_partial_failures_inserted upsert)
            (up_satellite_insert_errors_inserted upsert) (w_partial w)),
       Ok (up_inserted upsert))
  end.

Definition handle_response (response : Response) (original_url final_url_str : str)
    (redirect_chain : option (list (str * Z))) (clock : Clock) (w : World S W)
  : World S W * result UrlProcessOutcome AnyhowError :=
  let (stats, extracted) := extract_and_parse response original_url (w_stats w) in
  let w := MkWorld (w_net w) (w_db w) stats (w_cache w) (w_partial w) in
  match extracted with
  | Err e => (w, Err e)
  | Ok None => (w, Ok Scan.Skipped)
  | Ok (Some (resp_data, html_data)) =>
      let (w, enrichment) := parallel_enrich html_data resp_data final_url_str w in
      let html_data := merge_secrets html_data resp_data (en_external_script_scan enrichment) in
      match persist (prepared_record resp_data html_data enrichment (default [] redirect_chain)
                       clock) w with
      | (w, Err e) => (w, Err e)
      | (w, Ok inserted) => (w, Ok (if inserted then Scan.Inserted else Scan.Updated))
      end
  end.

(** ** handler/request.rs *)

Definition chain_error (start_url : str) (e : ChainError SendError) : AnyhowError :=
  match e with
  | MaxHopsZero => MkAnyhow [] (CMessage (lit "max_hops must be > 0")) []
  | UnsafeInitial e =>
      with_context (lit "Unsafe initial URL rejected: " ++ start_url)
        (unsafe_url_error start_url e)
  | HttpError e => anyhow_of_reqwest e
  | BadLocation _ => MkAnyhow [] url_parse_error []
  end.

Definition scheme_of (url : str) : str :=
  match url_parse url with Some u => url_scheme u | None => [] end.

Definition count_redirects (url final_url : str) (chain_length : nat) (stats : ProcessingStats)
  : ProcessingStats :=
  if (1 <? chain_length)%nat then
    let stats := increment_info stats HttpRedirect in
    let stats :=
      if streqb (scheme_of url) (lit "http") && streqb (scheme_of final_url) (lit "https")
      then increment_info stats HttpsRedirect else stats in
    if (2 <? chain_length)%nat then increment_info stats MultipleRedirects else stats
  else stats.

(** The headers kept for a failure row. *)
Definition kept_headers (response : Response) : list (str * str) :=
  map (λ '(name, value), (name, default [] value))
    (take MAX_HEADER_COUNT (resp_headers response)).

Definition set_stats (stats : ProcessingStats) (w : World S W) : World S W :=
  MkWorld (w_net w) (w_db w) stats (w_cache w) (w_partial w).
Definition set_net (net : S) (w : World S W) : World S W :=
  MkWorld net (w_db w) (w_stats w) (w_cache w) (w_partial w).

Definition request_failed (url : str) (e : SendError) (context : FailureContext) : AnyhowError :=
  attach_failure_context
    (with_context (lit "HTTP request failed for " ++ url) (anyhow_of_reqwest e)) context.

Definition is_failure_status (status_code : Z) : bool :=
  (status_code =? 429) || ((500 <=? status_code) && (status_code <? 600)).

(** The arm of a response that was received. *)
Definition handle_received (url final_url_string : str) (redirect_chain : list (str * Z))
    (clock : Clock) (response : Response) (w : World S W)
  : World S W * result UrlProcessOutcome AnyhowError :=
  let status_code := status response in
  let failure_context :=
    MkFailureContext (Some final_url_string) redirect_chain.*1 (kept_headers response) in
  if is_failure_status status_code then
    match error_for_status response with
    | Some e =>
        (set_stats (update_error_stats (w_stats w) (se_error e)) w,
         Err (request_failed url e failure_context))
    | None =>
        (w, Err (attach_failure_context
                   (MkAnyhow [] (CMessage (lit "HTTP request for " ++ url ++ lit " returned status "
                      ++ dec status_code ++ lit " (treated as failure)")) [])
                   failure_context))
    end
  else
    let w :=
      if status_code =? 403
      then set_stats (increment_info (w_stats w) BotDetection403) w else w in
    handle_response response url final_url_string (Some redirect_chain) clock w.

Definition handle_http_request (url : str) (clock : Clock) (w : World S W)
  : World S W * result UrlProcessOutcome AnyhowError :=
  match resolve_redirect_chain redirect_send url MAX_REDIRECT_HOPS
          (cx_allow_localhost_for_tests cx) (w_net w) with
  | (net, Err e) => (set_net net w, Err (chain_error url e))
  | (net, Ok (final_url_string, redirect_chain, reused_response)) =>
      let w := set_net net w in
      let w :=
        set_stats (count_redirects url final_url_string (length redirect_chain) (w_stats w)) w in
      let (net, res) :=
        match reused_response with
        | Some response => (w_net w, Ok response)
        | None => client_send (w_net w) final_url_string
        end in
      let w := set_net net w in
      match res with
      | Ok response => handle_received url final_url_string redirect_chain clock response w
      | Err e =>
          (set_stats (update_error_stats (w_stats w) (se_error e)) w,
           Err (request_failed url e
                  (MkFailureContext (Some final_url_string) redirect_chain.*1 [])))
      end
  end.
End Handler.

(** ** The effect of one attempt *)

Section AttemptTheorems.
Context `{U : UrlLib} `{UP : !UrlPort U} `{F : FaviconLib} `{T : IpText} `{P : Psl}
  `{L : Lowercase} `{E : EncodingRs}
  `{Hl : HttpLib} `{C : CspRegex} `{Hi : HashIter} `{R : RegexLib} `{Ac : AhoCorasick}
  `{Rs : Resolver} `{J : Serde} {JP : SerdePrints J} `{Q : Sqlx W Tx} {Laws : SqlxLaws Q}
  {S : Type} `{V : Services S}
  `{D : HtmlLib} `{X : SpanRegex} `{A : AcOverlap} `{B : Base64} `{G : Log2}.
Context (gitleaks : GitleaksCompiled) (cx : ScanContext).

(** What an outcome means for the database: nothing for a skipped URL, else one stored
    record, new or refreshed, of the URL asked for. *)
Definition outcome_effect (url : str) (before : list (list Statement)) (db : W)
    (outcome : UrlProcessOutcome) : Prop :=
  match outcome with
  | Scan.Skipped => committed db = before
  | _ =>
      ∃ record out,
        stored_effect record before db out
        ∧ outcome = (if up_inserted out then Scan.Inserted else Scan.Updated)
        ∧ ur_initial_url (pr_url_record record) = Some url
        ∧ ur_run_id (pr_url_record record) = cx_run_id cx
  end.

Lemma persisted_urls params :
  let r := pr_url_record (build_persisted_url_record params) in
  ur_initial_url r = ur_initial_url (pp_record params)
  ∧ ur_final_url r = ur_final_url (pp_record params)
  ∧ ur_status r = ur_status (pp_record params)
  ∧ ur_run_id r = ur_run_id (pp_record params).
Proof.
  cbn zeta. unfold build_persisted_url_record. cbn [pr_url_record].
  destruct (header_value _ _), (nonempty _ && _); destruct (pp_record params); done.
Qed.

Lemma prepared_urls d html enrichment chain clock :
  let r := pr_url_record (prepared_record cx d html enrichment chain clock) in
  ur_initial_url r = Some (rd_initial_url d) ∧ ur_final_url r = Some (rd_final_url d)
  ∧ ur_status r = rd_status d ∧ ur_run_id r = cx_run_id cx.
Proof. apply persisted_urls. Qed.

Lemma parallel_enrich_db html_data resp_data final_url (w : World S W) :
  w_db (parallel_enrich gitleaks cx html_data resp_data final_url w).1 = w_db w.
Proof.
  unfold parallel_enrich. repeat case_match; simplify_eq/=; done.
Qed.

Lemma extracted_initial_url response url stats stats' d html :
  extract_and_parse gitleaks response url stats = (stats', Ok (Some (d, html))) -> rd_initial_url d = url.
Proof.
  unfold extract_and_parse. destruct (extract_response_data response url) as [[d'|]|] eqn:Ed; [|done|done].
  destruct (parse_html_content gitleaks _ _) as [st [h|]]; [|done]. intros [= _ <- _].
  unfold extract_response_data in Ed.
  destruct (extract_domain url); [|done]. destruct (extract_domain (resp_url response)); [|done].
  cbn [and_then] in Ed. repeat case_match; simplify_eq/=; done.
Qed.

Lemma handle_response_effect response url final_url chain clock (w : World S W) :
  let (w', r) := handle_response gitleaks cx response url final_url chain clock w in
  match r with
  | Ok outcome => outcome_effect url (committed (w_db w)) (w_db w') outcome
  | Err _ => committed (w_db w') = committed (w_db w)
  end.
Proof.
  unfold handle_response.
  destruct (extract_and_parse gitleaks response url (w_stats w)) as [stats extracted] eqn:Ex.
  destruct extracted as [[[resp_data html_data]|]|e]; [|done|done].
  apply extracted_initial_url in Ex.
  set (w1 := MkWorld _ _ _ _ _).
  pose proof (parallel_enrich_db html_data resp_data final_url w1) as Hdb.
  destruct (parallel_enrich gitleaks cx html_data resp_data final_url w1) as [w2 enrichment].
  cbn [fst] in Hdb.
  destruct (prepared_urls resp_data
    (merge_secrets gitleaks html_data resp_data (en_external_script_scan enrichment)) enrichment
    (default [] chain) clock) as (Hu & _ & _ & Hr).
  generalize dependent (prepared_record cx resp_data
    (merge_secrets gitleaks html_data resp_data (en_external_script_scan enrichment)) enrichment
    (default [] chain) clock). intros record Hu Hr.
  unfold persist. pose proof (insert_persisted_committed record (w_db w2)) as Hst.
  rewrite Hdb in Hst |- *. subst w1. cbn [w_db] in Hst |- *.
  destruct (insert_persisted_url_record _ _) as [db [out|e]]; [|exact Hst].
  cbn [w_db]. unfold outcome_effect.
  destruct (up_inserted out) eqn:Ei; exists record, out;
    (split; [exact Hst|]); rewrite Ei, Hu, Hr; by rewrite Ex.
Qed.

Lemma handle_received_effect url final_url chain clock response (w : World S W) :
  let (w', r) := handle_received gitleaks cx url final_url chain clock response w in
  match r with
  | Ok outcome => outcome_effect url (committed (w_db w)) (w_db w') outcome
  | Err _ => committed (w_db w') = committed (w_db w)
  end.
Proof.
  unfold handle_received. destruct (is_failure_status (status response)).
  - by destruct (error_for_status response).
  - set (w1 := if status response =? 403 then _ else _).
    assert (Hdb : w_db w1 = w_db w) by (subst w1; by destruct (status response =? 403)).
    rewrite <- Hdb. apply handle_response_effect.
Qed.

Lemma handle_http_request_effect url clock (w : World S W) :
  let (w', r) := handle_http_request gitleaks cx url clock w in
  match r with
  | Ok outcome => outcome_effect url (committed (w_db w)) (w_db w') outcome
  | Err _ => committed (w_db w') = committed (w_db w)
  end.
Proof.
  unfold handle_http_request.
  destruct (resolve_redirect_chain _ _ _ _ _) as [net [[[final_url chain] reused]|e]]; [|done].
  set (w1 := set_stats _ _). assert (Hdb : w_db w1 = w_db w) by done. clearbody w1.
  destruct reused as [response|].
  - pose proof (handle_received_effect url final_url chain clock response
                  (set_net (w_net w1) w1)) as Hh.
    cbn [set_net w_db] in Hh. by rewrite Hdb in Hh.
  - destruct (client_send (w_net w1) final_url) as [net' [response|e]].
    + pose proof (handle_received_effect url final_url chain clock response
                    (set_net net' w1)) as Hh.
      cbn [set_net w_db] in Hh. by rewrite Hdb in Hh.
    + cbn [set_net set_stats w_db]. by rewrite Hdb.
Qed.

(** One attempt at a URL changes the database at most once: an error or a skipped page
    commits nothing; otherwise the record of the URL asked for is stored, in its two
    transactions, and the outcome says whether its row is new. *)
Theorem attempt_atomic url clock (w : World S W) :
  let (w', r) := handle_http_request gitleaks cx url clock w in
  match r with
  | Err _ | Ok Scan.Skipped => committed (w_db w') = committed (w_db w)
  | Ok outcome =>
      ∃ record out,
        stored_effect record (committed (w_db w)) (w_db w') out
        ∧ outcome = (if up_inserted out then Scan.Inserted else Scan.Updated)
        ∧ ur_initial_url (pr_url_record record) = Some url
        ∧ ur_run_id (pr_url_record record) = cx_run_id cx
  end.
Proof.
  pose proof (handle_http_request_effect url clock w) as Hh.
  destruct (handle_http_request gitleaks cx url clock w) as [w' [[]|e]]; exact Hh.
Qed.

(** ** A URL with its retries *)

(** The attempts of a URL; the [n]-th reads the clock [clocks n]. *)
Definition attempt (url : str) (clocks : nat -> Clock) (st : World S W * nat)
  : (World S W * nat) * result UrlProcessOutcome AnyhowError :=
  let (w, r) := handle_http_request gitleaks cx url (clocks st.2) st.1 in ((w, Datatypes.S st.2), r).

Lemma attempt_effect url clocks st :
  match (attempt url clocks st).2 with
  | Ok outcome =>
      outcome_effect url (committed (w_db st.1)) (w_db (attempt url clocks st).1.1) outcome
  | Err _ => committed (w_db (attempt url clocks st).1.1) = committed (w_db st.1)
  end.
Proof.
  unfold attempt. pose proof (handle_http_request_effect url (clocks st.2) st.1) as Hh.
  destruct (handle_http_request gitleaks cx url (clocks st.2) st.1) as [w' r]. exact Hh.
Qed.

(** The URL as the task runs it: the attempts, then the failure row if they failed. *)
Definition task_outcome (url : str) (clocks : nat -> Clock) (failed_at : Clock)
    (m : RuntimeMetrics) (w : World S W)
  : option (W * ProcessUrlResult (A := UrlProcessOutcome)) :=
  '(l, r) ← process_url (attempt url clocks) 4 (w, 0%nat) m;
  let db := w_db (l_state l).1 in
  Some (match p_result r with
        | Ok _ => db
        | Err error =>
            handle_failure url error (retry_count r) (elapsed failed_at) (cx_run_id cx)
              (timestamp failed_at) db
        end, r).


(** ** Server errors *)

(** A failure status that a redirect chain ends with: the error of the attempt. *)
Lemma server_error_attempt `{!ServicesLaws V} url clock (w : World S W) net final_url chain
    response :
  resolve_redirect_chain redirect_send url MAX_REDIRECT_HOPS (cx_allow_localhost_for_tests cx)
    (w_net w) = (net, Ok (final_url, chain, Some response)) ->
  is_failure_status (status response) = true ->
  ∃ w' e,
    error_for_status response = Some e ∧ is_retriable (se_error e) = true
    ∧ handle_http_request gitleaks cx url clock w
      = (w', Err (request_failed url e
                    (MkFailureContext (Some final_url) chain.*1 (kept_headers response)))).
Proof.
  intros Hres Hst. unfold handle_http_request. rewrite Hres. unfold handle_received. rewrite Hst.
  unfold is_failure_status in Hst. pose proof (error_for_status_law response) as Hlaw.
  destruct (error_for_status response) as [e|].
  - eexists _, e. split; [done|]. split; [|done]. unfold is_retriable. rewrite Hlaw.
    unfold HTTP_STATUS_TOO_MANY_REQUESTS. destruct (Z.eqb_spec (status response) 429); [done|].
    cbn [orb] in Hst. rewrite Hst.
    destruct (Z.leb_spec 400 (status response)), (Z.ltb_spec (status response) 500); try done.
    lia.
  - exfalso. destruct Hlaw as [H4 H5]. unfold is_client_error, is_server_error in *. lia.
Qed.

(** C4: A URL that answers 429 or 5xx is tried once: although the HTTP error is retriable, the
    context attached to it hides it, so the loop stops at the first attempt; the failure row
    has no HTTP status, its type is read off the wrapper's text, and its message names the
    URLs only.  The redirect chain and the headers are kept. *)
Theorem server_error_not_retried `{!ServicesLaws V} url clocks m (w : World S W) net final_url
    chain response :
  resolve_redirect_chain redirect_send url MAX_REDIRECT_HOPS (cx_allow_localhost_for_tests cx)
    (w_net w) = (net, Ok (final_url, chain, Some response)) ->
  is_failure_status (status response) = true ->
  let context := MkFailureContext (Some final_url) chain.*1 (kept_headers response) in
  (∃ e, error_for_status response = Some e ∧ is_retriable (se_error e) = true)
  ∧ ∃ st error,
      process_url (attempt url clocks) 4 (w, 0%nat) m
      = Some (MkLoop st 1 (record_non_retriable_failure m) [], MkProcessed (Err error) 0)
      ∧ extract_failure_context error = context
      ∧ extract_http_status error = None
      ∧ extract_error_type error
        = message_error_type (to_lowercase (lit "Non-retriable error"))
      ∧ failure_message error
        = lit "Non-retriable error (error chain: "
          ++ join (lit " -> ") [lit "HTTP request failed for " ++ url; failure_context_text context]
          ++ lit ")".
Proof.
  intros Hres Hst context.
  destruct (server_error_attempt url (clocks 0%nat) w net final_url chain response Hres Hst)
    as (w' & e & He & Hret & Ea).
  split; [by exists e|]. eexists _, _. split.
  - unfold process_url, execute_with_retry, attempt. cbn [l_state fst snd]. rewrite Ea.
    cbn [request_failed attach_failure_context]. reflexivity.
  - done.
Qed.
End AttemptTheorems.

(** ** A concrete scan: a page behind a redirect, and a server that is down *)

Module DemoHandler.
Import DemoSerde DemoSql.
#[local] Existing Instance listing.
#[local] Existing Instance Net.Demo.urls.
#[local] Existing Instance Net.Demo.ascii_lowercase.
#[local] Instance port : UrlPort Net.Demo.urls := {| url_port := λ _, None |}.
#[local] Existing Instance DemoFavicon.lib.
#[local] Existing Instance DemoDns.resolver.
#[local] Existing Instance DemoRegex.lib.
#[local] Existing Instance DemoAc.lib.
#[local] Instance prints : SerdePrints serde.
Proof. split. intros v. by eexists. Defined.

Definition show_ip (ip : IpAddr) : str :=
  match ip with
  | V4 a => join (lit ".") (map dec [v4_a a; v4_b a; v4_c a; v4_d a])
  | V6 _ => lit "::"
  end.
#[local] Instance ips : IpText := {| ip_to_string := show_ip; ip_parse := λ _, None |}.
#[local] Instance psl : Psl := {| domain_str := Some; suffix_str := λ _, None |}.
#[local] Instance encodings : EncodingRs := {|
  Encoding := unit; for_label := λ _, None; for_bom := λ _, None; UTF_8 := tt;
  decode := λ _, from_utf8_lossy; meta_charset_captures := λ _, None |}.
#[local] Instance http : HttpLib := {| canonical_reason := λ _, Some (lit "OK"); sha256 := id |}.
#[local] Instance csp : CspRegex := {| csp_domain_matches := λ s, map Some (split_char 32 s) |}.

(** A page has a title and nothing else. *)
#[local] Instance html : HtmlLib := {|
  Document := str; Element := str; parse_document := id;
  select := λ document selector, if streqb selector (lit "title") then [document] else [];
  attr := λ _ _, None; text := strip_html_tags; inner_html := id |}.
#[local] Existing Instance DemoScan.regex.
#[local] Existing Instance DemoScan.automaton.
#[local] Existing Instance DemoScan.engines.
#[local] Existing Instance DemoScan.logarithm.

Definition start : str := lit "http://example.com/".
Definition page : str := lit "https://example.com/".
Definition down : str := lit "https://down.example/".

Definition answer (url : str) : Response :=
  if streqb url start then MkResponse 302 start HTTP_11 [(lit "location", Some page)] None []
  else if streqb url down then
    MkResponse 503 down HTTP_11 [(lit "retry-after", Some (lit "60"))] None []
  else
    MkResponse 200 page HTTP_2
      [(lit "content-type", Some (lit "text/html"));
       (lit "strict-transport-security", Some (lit "max-age=31536000"));
       (lit "content-security-policy", Some (lit "script-src a.example A.EXAMPLE"));
       (lit "server", Some (lit "cloudflare"))] None
      [Ok (Sanitize.encode (lit "<title>Exam")); Ok (Sanitize.encode (lit "ple</title>"))].

Definition status_error (r : Response) : option SendError :=
  if is_client_error (status r) || is_server_error (status r) then
    Some (MkSendError (MkReqwest (Some (status r)) false false true false false false false false
                         (lit "HTTP status server error")) [])
  else None.

Definition no_structured : StructuredData := MkStructuredData [] ∅ ∅ [].
Definition parsed (title : str) : HtmlData :=
  MkHtmlData title None no_structured [] [] [] [] ∅ [] ∅ [] 0 0 None None None None [].

#[local] Instance services : Services (list str) := {|
  redirect_send := λ log url, (log ++ [url], Ok (answer url));
  client_send := λ log url, (log ++ [url], Ok (answer url));
  error_for_status := status_error;
  timed_send := λ log url, (log ++ [url], None);
  join_error_text := λ _, lit "task panicked";
  get_ssl_certificate_info := λ host,
    Ok (MkCertificate (Some Tls13) (Some (lit "CN=other")) None None None None None None
          (Some [lit "*.com"]) None None None None);
  Handler.lookup_ip := λ _, None;
  lookup_whois := λ _, Ok None;
|}.
#[local] Instance services_laws : ServicesLaws services.
Proof.
  split. intros r. unfold error_for_status, services, status_error.
  destruct (is_client_error (status r)), (is_server_error (status r)); done.
Qed.

Definition cx : ScanContext := MkContext (Some (lit "run")) true true false DemoRules.rules.
Definition world : World (list str) Database := MkWorld [] (MkDb [] []) new_stats ∅ (0, 0).
Definition clock (n : nat) : Clock := MkClock (S754_zero false) (Z.of_nat n).
Definition no_metrics : RuntimeMetrics := MkMetrics 0 0.

(** The redirect is followed and counted, and the page is stored in two transactions. *)
Example page_stored :
  let (w', r) := handle_http_request DemoScan.loaded cx start (clock 0) world in
  r = Ok Scan.Inserted ∧ w_net w' = start :: page :: map (λ p, lit "https://example.com/" ++ lit p)
      ["favicon.ico"; ".well-known/security.txt"; "security.txt"; "robots.txt"]%string
  ∧ length (log (w_db w')) = 2%nat
  ∧ info (w_stats w') HttpsRedirect = 1.
Proof. vm_compute. split_and!; reflexivity. Qed.


Lemma server_error_not_retried_witness :
  ∃ st error,
    process_url (attempt DemoScan.loaded cx down clock) 4 (world, 0%nat) no_metrics
    = Some (MkLoop st 1 (MkMetrics 0 1) [], MkProcessed (Err error) 0)
    ∧ fc_response_headers (extract_failure_context error) = [(lit "retry-after", lit "60")]
    ∧ extract_http_status error = None ∧ extract_error_type error = HttpRequestOtherError.
Proof.
  destruct (server_error_not_retried DemoScan.loaded cx down clock no_metrics world [down] down [(down, 503)]
              (answer down)) as (_ & st & error & Hp & Hc & Hs & Ht & _);
    [vm_compute; reflexivity|vm_compute; reflexivity|].
  exists st, error. split; [exact Hp|]. rewrite Hc, Hs, Ht. vm_compute. repeat split.
Defined.

Definition page_data : ResponseData :=
  match extract_response_data (answer page) start with
  | Ok (Some d) => d
  | _ => MkResponseData [] [] [] [] [] 0 [] [] ∅ ∅ [] None false None None None
  end.

Lemma response_data_spec_witness :
  extract_response_data (answer page) start = Ok (Some page_data)
  ∧ rd_body page_data = lit "<title>Example</title>"
  ∧ rd_body_truncated page_data
    = (MAX_RESPONSE_BODY_SIZE <? length (readable (resp_chunks (answer page))))%nat
  ∧ rd_content_length page_data = Some 22.
Proof.
  assert (H : extract_response_data (answer page) start = Ok (Some page_data))
    by (vm_compute; reflexivity).
  split; [exact H|]. split; [vm_compute; reflexivity|].
  destruct (response_data_spec (answer page) start page_data H) as (_ & _ & _ & Hb & _).
  split; [exact Hb|]. vm_compute. reflexivity.
Defined.

Definition no_dns : AdditionalDnsData :=
  MkAdditional None None None None None None None None None None None.
Definition tls (version : option TlsVersion) (sans : list str) : TlsDnsData :=
  MkTlsDns version (Some (lit "O=Org, CN= example.org")) None None None None None None (Some sans)
    None None None None None None.
Definition record_params (version : option TlsVersion) (sans : list str)
  : PersistedUrlRecordParams :=
  MkRecordParams
    (build_url_record page_data (parsed []) (tls version sans) no_dns (S754_zero false) 0 None)
    page_data (parsed []) (tls version sans) [] [] [] None None 0 None None no_dns
    (MkWellKnown None None).

(** A wildcard covers its base domain too, and nothing two labels below. *)
Lemma certificate_mismatch_exact_witness :
  let stored sans := ur_cert_is_mismatched
    (pr_url_record (build_persisted_url_record (record_params (Some Tls13) sans))) in
  stored [lit "*.example.com"] = Some false
  ∧ stored [lit "*.com"; lit "www.example.com"] = Some false
  ∧ stored [lit "*.org"; lit "Example.com"] = Some true.
Proof.
  split; [|split];
    match goal with |- context [record_params ?v ?l] =>
      destruct (certificate_mismatch_exact (record_params v l)) as [_ H];
      destruct H as [E _]; [vm_compute; discriminate|vm_compute; discriminate|];
      etransitivity; [exact E|vm_compute; reflexivity]
    end.
Defined.

Lemma derived_columns_exact_witness :
  let persisted := build_persisted_url_record (record_params None []) in
  hsts_columns (pr_url_record persisted) = (Some 31536000, Some false, Some false)
  ∧ ur_cdn_provider (pr_url_record persisted) = Some (lit "cloudflare")
  ∧ pr_csp_domains persisted
    = [(lit "script-src", lit "a.example", Some (lit "a.example"))]
  ∧ NoDup (map fst (pr_csp_domains persisted)).
Proof.
  pose proof listing_laws.
  destruct (derived_columns_exact (record_params None []) (resp_headers (answer page)))
    as (Hh & Hc & Hd & Hn & _); [vm_compute; reflexivity|vm_compute; reflexivity|].
  split; [etransitivity; [exact Hh|vm_compute; reflexivity]|].
  split; [etransitivity; [exact Hc|vm_compute; reflexivity]|].
  split; [etransitivity; [exact Hd|vm_compute; reflexivity]|exact Hn].
Defined.
End DemoHandler.
